(* ===== verification/_CoqProject ===== *)
-Q . S2P
Prelude.v
JsNumber.v
JsValue.v
Html.v
Async.v
JsText.v
JsJson.v
JsFuel.v
ExplorerFmt.v
ExplorerCore.v
ExplorerHtml.v
ExplorerSafe.v
ExplorerRuns.v
Explorer.v
SiteExplorer.v
ExplorerScenarios.v
Home.v
HomeProps.v
HomeRuns.v
Studio.v
StudioProps.v
Bytes.v
AssetTypes.v
AssetExamples.v
AssetCodec.v
AssetRegistry.v
AssetRegistryProps.v
AssetSnapshot.v
AssetBalance.v
AssetConfidential.v
AssetOwnership.v
AssetWire.v
AssetWireCodec.v
AssetDb.v
AssetDbTables.v
AssetDbLoad.v
AssetDbLedger.v
AssetPool.v
AssetDbLive.v
AssetExtra.v
AssetExtraProps.v
NativeExtra.v
NativeExtraProps.v
AssetRpc.v
AssetRpcProps.v
Word.v
Difficulty.v
DifficultyProps.v
DifficultyChain.v
DifficultyCache.v
Emission.v
EmissionProps.v
HardFork.v
HardForkProps.v
AssetActivation.v
AssetRecipient.v
AssetBuild.v
AssetBuildProps.v
AssetBuildWire.v
AssetWallet.v
AssetWalletProps.v
AssetSelect.v
AssetWalletRuns.v
AssetSend.v
AssetSync.v
AssetReorg.v
AssetSyncProps.v
AssetSpend.v
AssetSendProps.v
AssetSpendRuns.v
JsExact.v
Php.v
PhpExplorer.v
PhpNodeInfo.v
PhpExplorerProps.v
PhpNodeInfoProps.v
PhpMiners.v
PhpMinersProps.v
