(* ===== verification/Prelude.v ===== *)
(** * Verification of Monzero: web front ends, assets and consensus rules

    Monzero is a fork of Monero that adds assets (tokens, collections and
    their members) to the chain and brings a web site with it.  This library
    models the code the fork adds, and of the inherited code the rules whose
    parameters the fork sets:

    - the four scripts of the web site, which poll a public node through
      proxies and draw its answers: the block explorer ([src/website/explorer/app.js]),
      its stand-alone first version ([src/explorer/app.js]), the home page
      ([src/website/app.js]) and the asset studio ([src/website/app/app.js]);
    - the PHP scripts between the pages and the node: the proxies of the
      explorers ([src/website/explorer/api.php], [src/explorer/api.php]) and of
      the node status ([src/website/api/node-info/index.php]), and the miner
      statistics ([src/website/api/miner-stats/index.php]);
    - the asset subsystem of the daemon: issuance and the registry
      ([src/src/cryptonote_basic/asset_types.cpp]), confidential balances and
      ownership ([asset_confidential.cpp]), the envelope of a transaction
      ([asset_wire.cpp]), the database and its transitions
      ([src/src/blockchain_db/asset_db.cpp] and the asset tables of
      [lmdb/db_lmdb.cpp]), and what blocks and the pool do with envelopes
      ([src/src/cryptonote_core/blockchain.cpp], [tx_pool.cpp]);
    - assets between wallet and node: the asset calls of the RPC server
      ([src/src/rpc/core_rpc_server.cpp]), recipients ([asset_recipient.cpp]), the
      builders of envelopes ([asset_wire.cpp]), scanning, reorganisations, the
      choice of inputs and rings and the transactions that are sent
      ([src/src/wallet/wallet2.cpp]), and the extra field that carries the
      envelope ([cryptonote_format_utils.cpp], [cryptonote_tx_utils.cpp]);
    - the consensus rules of the native coin: proof of work and difficulty
      ([src/src/cryptonote_basic/difficulty.cpp] and its users in
      [blockchain.cpp]), the block reward and miner transactions
      ([cryptonote_basic_impl.cpp], [cryptonote_tx_utils.cpp]), and hard forks
      ([hardfork.cpp], [src/src/hardforks/hardforks.cpp]).

    The parts meet in the data: the explorer shows the records of the asset
    registry, and the drafts of the studio describe issuance descriptors.
    Between the pages and the node are the PHP scripts.  The theorems on the
    pages alone hold for arbitrary answers, failures and silence; those on the
    scripts join a page, a script and the replies of a node.
    The wallet scans the blocks the daemon stores, asks its server for ring
    members and builds the envelopes it verifies: the theorems on sending begin
    with the chain of a node and end in its pool.  The hard forks decide from
    which block on envelopes count.

    ** The web front ends

    JavaScript is modelled by what the scripts use of it.  [Prelude] has
    strings of UTF-16 code units ([u "..."] writes one; a back quote stands for
    a double quote), the result monad [res] of code that may throw, and the
    tactics and hints that all files share.  [JsNumber] has binary64 numbers
    and their texts, [JsValue] values, conversions, [JSON.parse] and
    [JSON.stringify], [JsText], [JsJson] and [JsFuel] their lemmas.  [Html] is
    the tokenizer with which a browser reads markup, and the predicate [benign].
    [Async] has asynchronous programs ([prog]), the event loop ([loop]) and its
    steps: user events, timers and answers in any order.

    - Explorers: [ExplorerFmt] (formatting functions), [ExplorerCore] (page,
      rendering, handlers; the two versions share their text except for
      parameters), [Explorer] and [SiteExplorer] (the two versions).
      [ExplorerHtml] and [ExplorerSafe] show that whatever the API answers, the
      page shows only tags of its own; [ExplorerRuns] and [ExplorerScenarios]
      follow whole handlers and whole runs.
    - Home page: [Home] (handlers, charts, storage), [HomeProps] (invariants
      of the reachable pages), [HomeRuns] (single handlers).
    - Studio: [Studio] and [StudioProps].

    Each page is a record of the parts of the document that the script reads
    or writes; [handler] gives the program of each event, [boot] the page after
    the script has run.

    ** The PHP scripts

    [Php] has the values, casts and comparisons of PHP 8, [encode] and [decode]
    (what a page reads from [json_encode], and [json_decode] from
    [JSON.stringify]), and scripts ([script]), which call the node and answer.
    [JsExact] shows that the pages read integers below 2^53 exactly.

    - [PhpExplorer] (all actions of both versions) and [PhpExplorerProps] (the
      requests are on an allow list, searches reach the node).
    - [PhpNodeInfo] and [PhpNodeInfoProps] (from the node's replies to the dot on
      the home page).
    - [PhpMiners] (reports, records, list) and [PhpMinersProps] (the list against
      a log of reports).

    ** The asset subsystem

    [Bytes] has the results of C++ functions ([outcome]: a value, [false] with
    a message, an exception, or an undefined read), byte strings, [memcmp] and
    the little-endian integers.  Functions of [crypto/] and [ringct/] are the
    fields of the classes [Crypto] ([AssetTypes]) and [RingCt]
    ([AssetConfidential]); what a theorem needs of them is a law of
    [CryptoLaws], and [AssetExamples] and [AssetOwnership] have instances that
    satisfy the laws, for the witnesses.  Integers are [Z] with their width
    written out where they are cut or may overflow.

    - Issuance: [AssetTypes] (descriptors, payloads, extensions), [AssetCodec]
      (their encodings are one-to-one; class [Codec]).
    - Registry: [AssetRegistry] (issuance, blocks, rollback, snapshots),
      [AssetRegistryProps] (invariant, rollback), [AssetSnapshot] (reachable
      registries, snapshots are one-to-one).
    - Balances: [AssetBalance] (the transparent statement: accepted exactly if
      it conserves every asset over the integers), [AssetConfidential] and
      [AssetOwnership] (groups are accepted exactly if they balance and are in
      range; every input is owned by one proof).
    - Envelopes: [AssetWire] and [AssetWireCodec] (class [Format]: the pieces
      are read as they are written; decoders never throw or read outside).
    - Native transactions: [AssetExtra] (the fields of the extra field, in
      [tx_extra.h], [cryptonote_format_utils.cpp] and [serialization/], the
      envelope among them and the hash of the transaction without it) and
      [AssetExtraProps] (an envelope that is added is found again and does not
      change the hash it has to name).  [NativeExtra] has the functions on the
      other fields and the extra field of a new transaction, [NativeExtraProps]
      shows that sorting is canonical and that the keys of a new transaction are
      found in it.
    - Database: [AssetDb] (six tables, loading, verifying, applying, blocks,
      the pool), [AssetDbTables] (a reorganisation leaves the tables of the
      current chain), [AssetDbLoad] (what a loaded registry has, and stored
      assets that keep it from loading), [AssetDbLedger] (the abstract ledger
      and the refinement), [AssetPool] (pool and blocks agree, the pool never
      holds competing transactions), [AssetDbLive] (when the registry loads).
    - Server: [AssetRpc] (hexadecimal texts, [get_assets], [get_asset_outputs]) and
      [AssetRpcProps] (the answers are pages and selections of one sorted list).
    - Builders: [AssetRecipient] (one-time keys and encrypted amounts, class
      [KeyExchange]), [AssetBuild] (issuances and transfers, class [Prover], and
      [ProverLaws] with the conditions under which a ring signature is verified;
      random numbers are an argument, [draws]), [AssetBuildProps] (what is built
      is accepted, and the recipients recover their amounts) and [AssetBuildWire]
      (what is built fits into an envelope; class [BuildTypes]).
    - Wallet: [AssetWallet] (the transfers a wallet knows, class [WalletKeys];
      scanning, detaching, totals, planning), [AssetWalletProps] (rollback,
      totals, one-time keys used twice), [AssetSelect] (the selection is
      complete, plans can be built), [AssetWalletRuns] (runs of a small wallet).
    - Wallet and node: [AssetSend] (the transactions of issuances and transfers,
      with the construction of native transactions as an argument), [AssetSync]
      (blocks as a wallet and a node take them, answers of the daemon, the
      background cache), [AssetReorg] (after a reorganisation a wallet is as
      after a scan of the new chain), [AssetSyncProps] (a wallet follows a node
      on a [linkable] chain, on which every proof was made with the key of a member
      of its ring and has the key image of that key), [AssetSpend] (the
      answers of a node suffice for a plan, and the payload is accepted),
      [AssetSendProps] (from the chain of a node to its pool) and
      [AssetSpendRuns] (the witnesses: a coin is issued, found, spent and
      reorganised).

    ** Consensus rules

    - [Word] has the 64-bit words and 128-bit products of [int-util.h].
    - Difficulty: [Difficulty] ([check_hash], [next_difficulty]),
      [DifficultyProps] (both are exact; bounds of the next difficulty),
      [DifficultyChain] (the cached window of [Blockchain] and the steps of a
      node that change it, as a relation), [DifficultyCache] (the cache is never
      stale, alternative chains are treated alike).
    - Emission: [Emission] (rewards, the amounts of a miner transaction, their
      validation, the count of coins), [EmissionProps].
    - Hard forks: [HardFork] (the class, its tables, the database it writes),
      [HardForkProps] (the states after any additions, pops, reorganisations and
      restarts), [AssetActivation] (which of them have assets: none yet).

    ** What the theorems show

    For the pages: no markup of the API's answers becomes a tag, escaping
    loses nothing, a well-formed history of the charts stays bounded and
    ordered, drafts never ask for submission, the node's status is shown as
    green exactly under the conditions of the code, handlers end, and failures
    stay where they belong. For the scripts: they only read from the node, and
    the home page and the list of miners show what was reported. For assets:
    encodings of well-formed values are one-to-one, the registry only holds
    authorised records, transactions conserve every asset, and the tables
    after any additions and pops of blocks are those of a ledger in which no
    key image is spent twice, no asset is issued twice and every ring consists
    of earlier outputs of its asset. For the wallet: what it selects, plans
    and builds is accepted, recipients find what they are paid, it knows the
    outputs and spends that its node has stored, also after reorganisations,
    and what it can pay or issue becomes a transaction that its node accepts.
    These hold under conditions on the chain that the code does not enforce,
    which each statement names: no one-time key is paid twice, key images
    belong to the keys of their rings, miner transactions carry no envelopes,
    the registry loads; the last group below has chains on which some of them
    fail. For the consensus rules: the word arithmetic is exact, the
    difficulty resists as many false timestamps as it cuts off, the cached
    difficulty is the one of the chain, the count of coins is the sum of the
    coins created, and forks happen on schedule. A last group records
    behaviour that is not intended: a poll that marks a healthy node as
    offline, unescaped fields, late answers, a damaged history, two kinds of
    stored assets after which no asset transaction is accepted any more,
    outputs a wallet counts twice, amounts it is credited with by a miner,
    assets it forgets when it takes over a background cache, and block
    templates on alternative chains that are refused.

    ** Bounds and fuel

    [json_parse] runs on fuel [2 * length + 2], two calls at most for each
    character; [JsFuel] shows that more fuel changes nothing, so a text is
    never refused for want of it. The digits of an integer run on fuel from
    its binary logarithm, shown to be enough in [JsText]. The shortest digits
    of a binary64 number are searched among the first 20, of which 17 always
    read back, from an exponent at most 3 too high with fuel 6; statements
    that depend on the digits of a number have as a condition, which a witness
    evaluates, that they read back. Handlers are bounded by the number of
    answers they wait for, six in the explorers and two on the home page, and
    the scripts by two replies of the node. JSON is at most 512 levels deep,
    the default of PHP. The decoders of the asset code recurse on counts they
    have read, limited as in the code, and the fields of an extra field on its
    length, since each takes a byte. The digits of an amount run on fuel 21,
    one more than a 64-bit number has, and [merge_outs] on the number of
    outputs, of which it removes one in each round; [EmissionProps] shows that
    the amounts are all there at the end. All other recursion is structural.

    ** Not modelled

    - The transport of the PHP scripts (cURL or streams), the place of the
      statistics file and its locking.  A PHP string is its code points, and a
      JSON text the value it is read as.
    - Style sheets, images, smooth scrolling, and the parts of a document that
      no script touches.
    - The RPC server apart from the two asset calls, the JSON in which they are
      transported, the network, and the native rules of transactions, which the
      fork inherits from Monero.
    - The native transaction that carries an envelope apart from its extra field
      ([create_transactions_2]), which belongs to the inherited wallet: the rest
      of a transaction prefix is unknown, and its hash is a function of it and of
      the extra field.  The builders get the function as an argument; the
      theorems on sending suppose that it completes one transaction with the
      extra field that [construct_extra] makes.
    - The native outputs of a wallet, its file, and the threads that prepare the
      scan of blocks.
    - Of the consensus rules the weights and medians of past blocks, timestamps
      of new blocks, checkpoints and the RandomX hash, which are arguments, and
      recalculating the difficulties of a stored chain.
    - Cryptography: hashes, signatures, commitments, range proofs, ring
      signatures and key derivations are functions about which nothing but the
      laws is known.
    - LMDB itself: a table is a finite map, and a write fails only if the key
      exists.  Writes of a rejected block are undone by its batch. *)

From Stdlib Require Export ZArith.
From Stdlib Require Import Ascii.
From stdpp Require Export base list numbers option strings.

#[global] Open Scope Z_scope.

(** ** JavaScript strings

    A JavaScript string is a sequence of UTF-16 code units; a code unit is
    kept as a [Z] between 0 and 65535. *)

Abbreviation jsstr := (list Z).

(** [u "..."] is a JavaScript string written as a Rocq literal.  Rocq stores
    the literal as UTF-8 bytes, so the bytes are decoded to code units: [k]
    counts the continuation bytes still due, [acc] is the code point so far.
    A Rocq literal cannot hold a double quote here, and no literal of the
    sources holds a back quote (it delimits templates), so the back quote
    stands for the double quote. *)
Definition utf16 (cp : Z) : jsstr :=
  if cp <? 65536 then [cp]
  else [55296 + (cp - 65536) / 1024; 56320 + (cp - 65536) mod 1024].

Fixpoint utf8_units (k : nat) (acc : Z) (s : String.string) : jsstr :=
  match s with
  | String.EmptyString => []
  | String.String c s =>
      let b := Z.of_N (N_of_ascii c) in
      match k with
      | O =>
          if b =? 96 then 34 :: utf8_units 0 0 s
          else if b <? 128 then b :: utf8_units 0 0 s
          else if b <? 224 then utf8_units 1 (b - 192) s
          else if b <? 240 then utf8_units 2 (b - 224) s
          else utf8_units 3 (b - 240) s
      | S O => utf16 (acc * 64 + (b - 128)) ++ utf8_units 0 0 s
      | S k => utf8_units k (acc * 64 + (b - 128)) s
      end
  end.

Definition u (s : String.string) : jsstr := utf8_units 0 0 s.
Arguments u s%_string.

Example u_ascii : u "a`b" = [97; 34; 98].
Proof. reflexivity. Qed.
Example u_dots : u "a…b←—" = [97; 8230; 98; 8592; 8212].
Proof. reflexivity. Qed.
Example u_astral : u "😀" = [55357; 56832].
Proof. reflexivity. Qed.

(** Code-unit equality of strings ([===] on strings). *)
Definition str_eqb (a b : jsstr) : bool := bool_decide (a = b).

(** ** Exceptions and results

    [EError m] is [new Error(m)] thrown by the program.  The other
    constructors are exceptions the engine throws; their message text is
    chosen by the engine. *)
Inductive exn :=
| EError (message : jsstr)
| ETypeError
| ERangeError
| ESyntaxError.

#[global] Instance exn_eq_dec : EqDecision exn.
Proof. solve_decision. Defined.

Inductive res (A : Type) : Type :=
| Ok (a : A)
| Err (e : exn).
Arguments Ok {A} a.
Arguments Err {A} e.

#[global] Instance res_ret : MRet res := @Ok.
#[global] Instance res_bind : MBind res := fun A B f m =>
  match m with Ok a => f a | Err e => Err e end.
#[global] Instance res_fmap : FMap res := fun A B f m =>
  match m with Ok a => Ok (f a) | Err e => Err e end.

(** [try { m } catch { h }] on a computation without effects. *)
Definition rcatch {A} (m : res A) (h : exn -> res A) : res A :=
  match m with Ok a => Ok a | Err e => h e end.

(** A property of the value a computation returns, if it returns. *)
Definition rpost {A} (P : A -> Prop) (m : res A) : Prop :=
  match m with Ok a => P a | Err _ => True end.

(** Template literals and [concat]: evaluate the parts from left to right,
    stop at the first exception, and join the strings. *)
Fixpoint cat (parts : list (res jsstr)) : res jsstr :=
  match parts with
  | [] => Ok []
  | p :: ps => s ← p; t ← cat ps; Ok (s ++ t)
  end.

(** [Array.prototype.map] with a callback that may throw. *)
Fixpoint rmap {A B} (f : A -> res B) (l : list A) : res (list B) :=
  match l with
  | [] => Ok []
  | x :: l => y ← f x; ys ← rmap f l; Ok (y :: ys)
  end.

(** The same with the index passed to the callback. *)
Fixpoint rmapi {A B} (f : nat -> A -> res B) (i : nat) (l : list A) : res (list B) :=
  match l with
  | [] => Ok []
  | x :: l => y ← f i x; ys ← rmapi f (S i) l; Ok (y :: ys)
  end.

Lemma rpost_bind {A B} (P : A -> Prop) (Q : B -> Prop) (m : res A) (f : A -> res B) :
  rpost P m -> (forall a, P a -> rpost Q (f a)) -> rpost Q (m ≫= f).
Proof. destruct m; simpl; auto. Qed.

Lemma rpost_impl {A} (P Q : A -> Prop) (m : res A) :
  rpost P m -> (forall a, P a -> Q a) -> rpost Q m.
Proof. destruct m; simpl; auto. Qed.

Lemma rpost_True {A} (m : res A) : rpost (fun _ => True) m.
Proof. destruct m; exact I. Qed.

Lemma rpost_rmap {A B} (P : B -> Prop) (f : A -> res B) l :
  (forall a, rpost P (f a)) -> rpost (Forall P) (rmap f l).
Proof.
  intros Hf. induction l as [|x l IH]; simpl; [constructor|].
  eapply rpost_bind; [apply Hf|]. intros y Hy.
  eapply rpost_bind; [apply IH|]. intros ys Hys. simpl. by constructor.
Qed.

Lemma rpost_rmapi {A B} (P : B -> Prop) (f : nat -> A -> res B) l : forall i,
  (forall i a, rpost P (f i a)) -> rpost (Forall P) (rmapi f i l).
Proof.
  induction l as [|x l IH]; intros i Hf; simpl; [constructor|].
  eapply rpost_bind; [apply Hf|]. intros y Hy.
  eapply rpost_bind; [by apply IH|]. intros ys Hys. simpl. by constructor.
Qed.

Lemma length_rmap {A B} (f : A -> res B) l ys :
  rmap f l = Ok ys -> length ys = length l.
Proof.
  revert ys. induction l as [|x l IH]; intros ys; simpl.
  - by intros [= <-].
  - destruct (f x); [|done]. simpl. destruct (rmap f l) eqn:E; [|done].
    intros [= <-]. simpl. f_equal. by apply IH.
Qed.

(** ** Automation *)

Create HintDb monzero.
#[export] Hint Resolve rpost_True : monzero.

(** Case analysis on the condition of a boolean [if] of the goal. *)
Ltac case_if :=
  match goal with
  | |- context [if ?b then _ else _] => destruct b eqn:?
  end.

(** Case analysis on the condition of a boolean [if] of a hypothesis. *)
Ltac case_if_in H :=
  match type of H with
  | context [if ?b then _ else _] => destruct b eqn:?
  end.

(** Run a chain of [res] binds in a hypothesis [m ≫= f = Ok x]. *)
Ltac res_inv H :=
  repeat match type of H with
  | mbind _ ?m = Ok _ =>
      let E := fresh "E" in
      destruct m eqn:E; simpl in H; [|discriminate H]
  end.

(** ** Lists *)

Lemma filter_all {A} (P : A -> Prop) `{forall x, Decision (P x)} l : Forall P l -> filter P l = l.
Proof. induction 1 as [|x l Hx _ IH]; [done|]. rewrite filter_cons_True by done. by f_equal. Qed.

Lemma filter_fmap {A B} (f : A -> B) (P : B -> Prop) (Q : A -> Prop)
  `{!forall x, Decision (P x), !forall x, Decision (Q x)} (l : list A) :
  (forall x, x ∈ l -> P (f x) <-> Q x) -> filter P (f <$> l) = f <$> filter Q l.
Proof.
  induction l as [|x l IH]; intros Hf; [done|]. rewrite fmap_cons, !filter_cons, IH by (intros; apply Hf; by right).
  destruct (decide (Q x)) as [HQ|HQ].
  - rewrite decide_True; [done|]. apply Hf; [by left|done].
  - rewrite decide_False; [done|]. intros HP. apply HQ, Hf; [by left|done].
Qed.
