(* ===== verification/JsNumber.v ===== *)
(** JavaScript numbers: IEEE 754 binary64 values and the operations of the
    language and of [Intl.NumberFormat] that the front ends use.

    A number is a [spec_float] of the standard library, with 53 bits of
    precision; the arithmetic is the standard library's executable binary64
    arithmetic.  Conversions to and from text are written from the ECMAScript
    specification ([Number::toString], [StringToNumber], [toFixed]) and from
    ECMA-402 for the [en-GB] locale. *)

From Stdlib Require Import SpecFloat.
From S2P Require Import Prelude.

Abbreviation num := spec_float.

(** ** Arithmetic *)

Definition nadd : num -> num -> num := SFadd 53 1024.
Definition nsub : num -> num -> num := SFsub 53 1024.
Definition nmul : num -> num -> num := SFmul 53 1024.
Definition ndiv : num -> num -> num := SFdiv 53 1024.
Definition nltb : num -> num -> bool := SFltb.
Definition nleb : num -> num -> bool := SFleb.
Definition neqb : num -> num -> bool := SFeqb.

Definition num_of_Z (z : Z) : num := binary_normalize 53 1024 z 0 false.
Definition nzero : num := S754_zero false.

(** The fraction [n / d], rounded once to the nearest number. *)
Definition num_of_ratio (neg : bool) (n : Z) (d : positive) : num :=
  if n =? 0 then S754_zero neg
  else let '(q, e, l) := SFdiv_core_binary 53 1024 n 0 (Zpos d) 0 in
       binary_round_aux 53 1024 neg q e l.

Definition is_nan (x : num) : bool :=
  match x with S754_nan => true | _ => false end.
Definition is_finite (x : num) : bool :=
  match x with S754_zero _ | S754_finite _ _ _ => true | _ => false end.
Definition is_neg (x : num) : bool :=
  match x with
  | S754_zero s | S754_infinity s | S754_finite s _ _ => s
  | S754_nan => false
  end.

(** ToBoolean on numbers. *)
Definition num_truthy (x : num) : bool :=
  match x with S754_zero _ | S754_nan => false | _ => true end.

(** Absolute value of a finite number as a fraction. *)
Definition abs_ratio (x : num) : Z * positive :=
  match x with
  | S754_finite _ m (Zneg e) => (Zpos m, Pos.pow 2 e)
  | S754_finite _ m e => (Zpos m * 2 ^ e, 1%positive)
  | _ => (0, 1%positive)
  end.

(** [Math.floor] and [Math.round]; the result is exact, and a zero keeps the
    sign the specification gives it. *)
Definition math_floor (x : num) : num :=
  match x with
  | S754_finite s m e =>
      let '(n, d) := abs_ratio x in
      let q := (if s then - n else n) / Zpos d in
      if q =? 0 then S754_zero false else num_of_Z q
  | _ => x
  end.

Definition math_round (x : num) : num :=
  match x with
  | S754_finite s m e =>
      let '(n, d) := abs_ratio x in
      let q := (2 * (if s then - n else n) + Zpos d) / (2 * Zpos d) in
      if q =? 0 then S754_zero s else num_of_Z q
  | _ => x
  end.

(** [Math.max(a, b)] and [Math.min(a, b)]. *)
Definition math_max (a b : num) : num :=
  if is_nan a || is_nan b then S754_nan
  else if nltb a b then b
  else if nltb b a then a
  else if is_neg a then b else a.

Definition math_min (a b : num) : num :=
  if is_nan a || is_nan b then S754_nan
  else if nltb a b then a
  else if nltb b a then b
  else if is_neg a then a else b.

(** The integer a finite number denotes, if it denotes one. *)
Definition num_to_Z (x : num) : option Z :=
  match x with
  | S754_zero _ => Some 0
  | S754_finite s m e =>
      let '(n, d) := abs_ratio x in
      if n mod Zpos d =? 0 then Some (if s then - (n / Zpos d) else n / Zpos d) else None
  | _ => None
  end.

(** ** Decimal digits *)

(** Digits of a natural number, most significant first. *)
Fixpoint digits_aux (fuel : nat) (n : Z) (acc : list Z) : list Z :=
  match fuel with
  | O => acc
  | S fuel => if n <? 10 then n :: acc else digits_aux fuel (n / 10) (n mod 10 :: acc)
  end.

Definition digits (n : Z) : list Z := digits_aux (S (Z.to_nat (Z.log2 n))) n [].

Definition digits_value (l : list Z) : Z := foldl (fun a d => 10 * a + d) 0 l.

Definition dec_nonneg (n : Z) : jsstr := (fun d => 48 + d) <$> digits n.

(** [BigInt.prototype.toString]. *)
Definition dec (z : Z) : jsstr := if z <? 0 then 45 :: dec_nonneg (- z) else dec_nonneg z.

(** [padStart(n, '0')]. *)
Definition pad_zeros (n : nat) (s : jsstr) : jsstr := replicate (n - length s) 48 ++ s.

Fixpoint drop_while {A} (p : A -> bool) (l : list A) : list A :=
  match l with
  | [] => []
  | x :: l' => if p x then drop_while p l' else l
  end.

(** [replace(/0+$/, '')]. *)
Definition strip_zeros (s : jsstr) : jsstr := reverse (drop_while (fun c => c =? 48) (reverse s)).

(** ** Number::toString *)

(** [n] with [10^(n-1) <= num/den < 10^n], by search downwards from [n]; the
    search starts at most three above the answer, since 30103/100000 is
    log10(2) up to 10^-8. *)
Fixpoint exp10 (fuel : nat) (n : Z) (num : Z) (den : positive) : Z :=
  match fuel with
  | O => n
  | S fuel =>
      if (if 0 <? n then Zpos den * 10 ^ (n - 1) <=? num else Zpos den <=? num * 10 ^ (1 - n))
      then n else exp10 fuel (n - 1) num den
  end.

(** The number nearest to [s * 10^k]. *)
Definition num_of_scaled (s k : Z) : num :=
  if 0 <=? k then num_of_ratio false (s * 10 ^ k) 1
  else num_of_ratio false s (Z.to_pos (10 ^ (- k))).

(** The shortest digits that read back as the same number: [(s, k, n)] with
    the [k] digits of [s] and value [s * 10^(n-k)]. *)
Fixpoint shortest (fuel : nat) (k : Z) (n : Z) (x : num) (p : Z) (q : positive) : Z * Z * Z :=
  let sh := n - k in
  let s := if 0 <=? sh then (2 * p + Zpos q * 10 ^ sh) / (2 * (Zpos q * 10 ^ sh))
           else (2 * (p * 10 ^ (- sh)) + Zpos q) / (2 * Zpos q) in
  match fuel with
  | O => (s, k, n)
  | S fuel =>
      if neqb (num_of_scaled s sh) x
      then (if s =? 10 ^ k then (1, 1, n + 1) else (s, k, n))
      else shortest fuel (k + 1) n x p q
  end.

Definition zeros (n : Z) : jsstr := replicate (Z.to_nat n) 48.

Definition num_to_string (x : num) : jsstr :=
  match x with
  | S754_nan => u "NaN"
  | S754_zero _ => u "0"
  | S754_infinity s => (if s then u "-" else []) ++ u "Infinity"
  | S754_finite s m e =>
      let '(p, q) := abs_ratio x in
      let n0 := exp10 6 ((Z.log2 p - Z.log2 (Zpos q)) * 30103 / 100000 + 2) p q in
      let '(sd, k, n) := shortest 20 1 n0 (SFabs x) p q in
      let ds := dec_nonneg sd in
      (if s then u "-" else []) ++
      (if (k <=? n) && (n <=? 21) then ds ++ zeros (n - k)
       else if (0 <? n) && (n <=? 21) then take (Z.to_nat n) ds ++ u "." ++ drop (Z.to_nat n) ds
       else if (-6 <? n) && (n <=? 0) then u "0." ++ zeros (- n) ++ ds
       else take 1 ds ++ (if k =? 1 then [] else u "." ++ drop 1 ds) ++ u "e" ++
            (if 0 <? n - 1 then u "+" else u "-") ++ dec_nonneg (Z.abs (n - 1)))
  end.

(** ** Text to number *)

(** The exact value of a numeric string: not a number, an infinity, or the
    decimal [m * 10^e] with its sign. *)
Inductive exact :=
| XNaN
| XInf (neg : bool)
| XDec (neg : bool) (m : Z) (e : Z).

Definition is_digit (c : Z) : bool := (48 <=? c) && (c <=? 57).

Definition is_ws (c : Z) : bool :=
  (c =? 9) || (c =? 10) || (c =? 11) || (c =? 12) || (c =? 13) || (c =? 32) || (c =? 160)
  || (c =? 5760) || ((8192 <=? c) && (c <=? 8202)) || (c =? 8232) || (c =? 8233)
  || (c =? 8239) || (c =? 8287) || (c =? 12288) || (c =? 65279).

(** [String.prototype.trim]. *)
Definition trim (s : jsstr) : jsstr :=
  reverse (drop_while is_ws (reverse (drop_while is_ws s))).

(** Longest prefix of decimal digits (their values) and the rest. *)
Fixpoint span_digits (s : jsstr) : list Z * jsstr :=
  match s with
  | c :: s' =>
      if is_digit c then let '(d, r) := span_digits s' in (c - 48 :: d, r) else ([], s)
  | [] => ([], [])
  end.

(** An optional sign: whether it is a minus, and what follows. *)
Definition sign_prefix (s : jsstr) : bool * jsstr :=
  match s with
  | c :: t => if c =? 45 then (true, t) else if c =? 43 then (false, t) else (false, s)
  | [] => (false, [])
  end.

Definition exponent_part (s : jsstr) : option Z :=
  match s with
  | [] => Some 0
  | c :: s' =>
      if (c =? 101) || (c =? 69) then
        let '(neg, t) := sign_prefix s' in
        match span_digits t with
        | (d :: ds, []) => Some (if neg : bool then - digits_value (d :: ds) else digits_value (d :: ds))
        | _ => None
        end
      else None
  end.

(** The fraction digits after an optional point. *)
Definition fraction_part (s : jsstr) : list Z * jsstr :=
  match s with
  | c :: r => if c =? 46 then span_digits r else ([], s)
  | [] => ([], [])
  end.

(** StrUnsignedDecimalLiteral. *)
Definition unsigned_decimal (neg : bool) (s : jsstr) : exact :=
  if str_eqb s (u "Infinity") then XInf neg else
  let '(ip, r) := span_digits s in
  let '(fp, r) := fraction_part r in
  match ip ++ fp with
  | [] => XNaN
  | ds => match exponent_part r with
          | Some e => XDec neg (digits_value ds) (e - Z.of_nat (length fp))
          | None => XNaN
          end
  end.

Definition radix_digit (radix c : Z) : option Z :=
  let d := if is_digit c then c - 48
           else if (97 <=? c) && (c <=? 102) then c - 87
           else if (65 <=? c) && (c <=? 70) then c - 55 else 99 in
  if d <? radix then Some d else None.

Fixpoint radix_value (radix acc : Z) (s : jsstr) : option Z :=
  match s with
  | [] => Some acc
  | c :: s => match radix_digit radix c with
              | Some d => radix_value radix (acc * radix + d) s
              | None => None
              end
  end.

(** The radix announced by a prefix [0x], [0o] or [0b], with the digits. *)
Definition radix_prefix (s : jsstr) : option (Z * jsstr) :=
  match s with
  | z :: c :: r =>
      if negb (z =? 48) then None
      else if (c =? 120) || (c =? 88) then Some (16, r)
      else if (c =? 111) || (c =? 79) then Some (8, r)
      else if (c =? 98) || (c =? 66) then Some (2, r)
      else None
  | _ => None
  end.

(** StringNumericLiteral. *)
Definition string_numeric (s : jsstr) : exact :=
  match trim s with
  | [] => XDec false 0 0
  | t =>
      match radix_prefix t with
      | Some (radix, r) =>
          match r, radix_value radix 0 r with
          | _ :: _, Some v => XDec false v 0
          | _, _ => XNaN
          end
      | None => let '(neg, r) := sign_prefix t in unsigned_decimal neg r
      end
  end.

(** Rounding of an exact value; outside 10^-400 .. 10^400 the result does not
    depend on the digits. *)
Definition exact_num (x : exact) : num :=
  match x with
  | XNaN => S754_nan
  | XInf neg => S754_infinity neg
  | XDec neg m e =>
      if m =? 0 then S754_zero neg
      else if 400 <? Z.of_nat (length (digits m)) + e then S754_infinity neg
      else if Z.of_nat (length (digits m)) + e <? -400 then S754_zero neg
      else if 0 <=? e then num_of_ratio neg (m * 10 ^ e) 1
      else num_of_ratio neg m (Z.to_pos (10 ^ (- e)))
  end.

Definition string_to_number (s : jsstr) : num := exact_num (string_numeric s).

(** StringToBigInt. *)
Definition string_to_bigint (s : jsstr) : option Z :=
  match trim s with
  | [] => Some 0
  | t =>
      match radix_prefix t with
      | Some (radix, r) => match r with [] => None | _ => radix_value radix 0 r end
      | None =>
          let '(neg, r) := sign_prefix t in
          match span_digits r with
          | (d :: ds, []) => Some (if neg : bool then - digits_value (d :: ds) else digits_value (d :: ds))
          | _ => None
          end
      end
  end.

(** ** Intl.NumberFormat('en-GB') *)

(** A comma between groups of three digits; the argument is reversed. *)
Fixpoint group_rev (k : nat) (s : jsstr) : jsstr :=
  match s with
  | [] => []
  | c :: s' => match k with
               | O => 44 :: c :: group_rev 2 s'
               | S k => c :: group_rev k s'
               end
  end.

Definition group3 (s : jsstr) : jsstr := reverse (group_rev 3 (reverse s)).

(** [n / d] with at most [f] fraction digits, halves rounded away from zero. *)
Definition format_ratio (f : nat) (neg : bool) (n : Z) (d : positive) : jsstr :=
  let p := 10 ^ Z.of_nat f in
  let q := (2 * n * p + Zpos d) / (2 * Zpos d) in
  let frac := strip_zeros (pad_zeros f (dec_nonneg (q mod p))) in
  (if neg then u "-" else []) ++ group3 (dec_nonneg (q / p)) ++
  (match frac with [] => [] | _ => u "." ++ frac end).

Definition format_num (f : nat) (x : num) : jsstr :=
  match x with
  | S754_nan => u "NaN"
  | S754_infinity s => (if s then u "-" else []) ++ u "∞"
  | S754_zero s => format_ratio f s 0 1
  | S754_finite s _ _ => let '(n, d) := abs_ratio x in format_ratio f s n d
  end.

(** A string argument is formatted from its exact decimal value. *)
Definition format_exact (f : nat) (x : exact) : jsstr :=
  match exact_num x, x with
  | S754_finite _ _ _, XDec neg m e =>
      if 0 <=? e then format_ratio f neg (m * 10 ^ e) 1
      else format_ratio f neg m (Z.to_pos (10 ^ (- e)))
  | r, _ => format_num f r
  end.

(** [Number.prototype.toFixed(1)]. *)
Definition to_fixed1 (x : num) : jsstr :=
  match x with
  | S754_finite s m e =>
      let '(n, d) := abs_ratio x in
      if Zpos d * 10 ^ 21 <=? n then num_to_string x
      else let q := (2 * n * 10 + Zpos d) / (2 * Zpos d) in
           (if s then u "-" else []) ++ dec_nonneg (q / 10) ++ u "." ++ dec_nonneg (q mod 10)
  | S754_zero _ => u "0.0"
  | _ => num_to_string x
  end.
