(* ===== verification/JsValue.v ===== *)
(** JavaScript values as the front ends handle them: what [JSON.parse] and
    [response.json()] produce, [undefined], and the built-in functions an
    object inherits; the conversions of the language on them; and
    [JSON.stringify] and [JSON.parse]. *)

From Stdlib Require Import SpecFloat.
From S2P Require Import Prelude JsNumber.

(** The members of an object are listed in enumeration order, each key once.
    [VNative f] is the built-in function called [f]. *)
#[warnings="-register-all"]
Inductive value :=
| VUndef
| VNull
| VBool (b : bool)
| VNum (x : num)
| VStr (s : jsstr)
| VArr (l : list value)
| VObj (members : list (jsstr * value))
| VNative (name : jsstr).

Definition num_eq_dec : EqDecision num.
Proof. solve_decision. Defined.
#[global] Existing Instance num_eq_dec.

(** Induction through arrays and objects. *)
Section value_ind.
Context (P : value -> Prop)
  (HU : P VUndef) (HN : P VNull) (HB : forall b, P (VBool b)) (HX : forall x, P (VNum x))
  (HS : forall s, P (VStr s)) (HA : forall l, Forall P l -> P (VArr l))
  (HO : forall ms, Forall (fun m => P m.2) ms -> P (VObj ms)) (HF : forall f, P (VNative f)).

Fixpoint value_ind' (v : value) : P v :=
  match v with
  | VUndef => HU
  | VNull => HN
  | VBool b => HB b
  | VNum x => HX x
  | VStr s => HS s
  | VArr l => HA l ((fix go l : Forall P l :=
      match l with [] => Forall_nil_2 _ | x :: l => Forall_cons_2 _ _ _ (value_ind' x) (go l) end) l)
  | VObj ms => HO ms ((fix go ms : Forall (fun m => P m.2) ms :=
      match ms with
      | [] => Forall_nil_2 _
      | m :: ms => Forall_cons_2 (fun m => P m.2) m ms (value_ind' m.2) (go ms)
      end) ms)
  | VNative f => HF f
  end.
End value_ind.

(** ** Conversions *)

Definition truthy (v : value) : bool :=
  match v with
  | VUndef | VNull => false
  | VBool b => b
  | VNum x => num_truthy x
  | VStr s => negb (bool_decide (s = []))
  | VArr _ | VObj _ | VNative _ => true
  end.

Definition nullish (v : value) : bool :=
  match v with VUndef | VNull => true | _ => false end.

(** [a || b] and [a ?? b] on values already evaluated. *)
Definition vor (a b : value) : value := if truthy a then a else b.
Definition vcoalesce (a b : value) : value := if nullish a then b else a.

Fixpoint lookup_member (k : jsstr) (ms : list (jsstr * value)) : option value :=
  match ms with
  | [] => None
  | (k', v) :: ms => if str_eqb k' k then Some v else lookup_member k ms
  end.

(** ToString.  A method [toString] that the data carries is not callable, and
    the inherited [valueOf] returns the object itself: the conversion throws. *)
Fixpoint to_string (v : value) : res jsstr :=
  match v with
  | VUndef => Ok (u "undefined")
  | VNull => Ok (u "null")
  | VBool b => Ok (if b then u "true" else u "false")
  | VNum x => Ok (num_to_string x)
  | VStr s => Ok s
  | VArr l =>
      (fix join (l : list value) : res jsstr :=
         match l with
         | [] => Ok []
         | x :: l' =>
             s ← (if nullish x then Ok [] else to_string x);
             t ← join l';
             Ok (s ++ (match l' with [] => [] | _ => u "," end) ++ t)
         end) l
  | VObj ms =>
      if decide (u "toString" ∈ ms.*1) then Err ETypeError else Ok (u "[object Object]")
  | VNative f => Ok (u "function " ++ f ++ u "() { [native code] }")
  end.

(** ToNumber. *)
Definition to_number (v : value) : res num :=
  match v with
  | VUndef => Ok S754_nan
  | VNull => Ok nzero
  | VBool b => Ok (if b then num_of_Z 1 else nzero)
  | VNum x => Ok x
  | VStr s => Ok (string_to_number s)
  | VArr _ | VObj _ | VNative _ => s ← to_string v; Ok (string_to_number s)
  end.

(** [BigInt(v)] on a value. *)
Definition to_bigint (v : value) : res Z :=
  let of_string s := match string_to_bigint s with Some z => Ok z | None => Err ESyntaxError end in
  match v with
  | VUndef | VNull => Err ETypeError
  | VBool b => Ok (if b then 1 else 0)
  | VNum x => match num_to_Z x with Some z => Ok z | None => Err ERangeError end
  | VStr s => of_string s
  | VArr _ | VObj _ | VNative _ => s ← to_string v; of_string s
  end.

(** [a + b]: an array, object or function is a string as a primitive. *)
Definition vadd (a b : value) : res value :=
  match a, b with
  | VStr _, _ | _, VStr _ | VArr _, _ | _, VArr _ | VObj _, _ | _, VObj _
  | VNative _, _ | _, VNative _ => s ← to_string a; t ← to_string b; Ok (VStr (s ++ t))
  | _, _ => x ← to_number a; y ← to_number b; Ok (VNum (nadd x y))
  end.

(** The text an element gets from [element.textContent = v]. *)
Definition text_content (v : value) : res jsstr := if nullish v then Ok [] else to_string v.

(** [a - b]. *)
Definition vsub (a b : value) : res num := x ← to_number a; y ← to_number b; Ok (nsub x y).
(** [a / b]. *)
Definition vdiv (a b : value) : res num := x ← to_number a; y ← to_number b; Ok (ndiv x y).

(** [new Intl.NumberFormat('en-GB').format(v)]: at most three fraction digits. *)
Definition number_format (v : value) : res jsstr :=
  match v with
  | VStr s => Ok (format_exact 3 (string_numeric s))
  | VArr _ | VObj _ | VNative _ => s ← to_string v; Ok (format_exact 3 (string_numeric s))
  | _ => x ← to_number v; Ok (format_num 3 x)
  end.

(** ** Property access *)

Definition nat_num (n : nat) : num := num_of_Z (Z.of_nat n).

(** [v.k] for the keys the programs write, none of which is inherited from a
    built-in prototype. *)
Definition prop (v : value) (k : jsstr) : res value :=
  match v with
  | VUndef | VNull => Err ETypeError
  | VObj ms => Ok (default VUndef (lookup_member k ms))
  | VArr l => Ok (if str_eqb k (u "length") then VNum (nat_num (length l)) else VUndef)
  | VStr s => Ok (if str_eqb k (u "length") then VNum (nat_num (length s)) else VUndef)
  | _ => Ok VUndef
  end.

(** [v[i]] for a literal index. *)
Definition index (v : value) (i : nat) : res value :=
  match v with
  | VUndef | VNull => Err ETypeError
  | VObj ms => Ok (default VUndef (lookup_member (dec_nonneg (Z.of_nat i)) ms))
  | VArr l => Ok (default VUndef (l !! i))
  | VStr s => Ok (match s !! i with Some c => VStr [c] | None => VUndef end)
  | _ => Ok VUndef
  end.

(** [v?.[i]] and [v?.k]. *)
Definition index_opt (v : value) (i : nat) : res value :=
  if nullish v then Ok VUndef else index v i.
Definition prop_opt (v : value) (k : jsstr) : res value :=
  if nullish v then Ok VUndef else prop v k.

(** The receiver of [v.map(...)]: data never carries a callable [map]. *)
Definition as_array (v : value) : res (list value) :=
  match v with VArr l => Ok l | _ => Err ETypeError end.

(** ** JSON.stringify *)

Definition hex_digit (d : Z) : Z := if d <? 10 then 48 + d else 87 + d.
Definition hex4 (c : Z) : jsstr :=
  [hex_digit (c / 4096 mod 16); hex_digit (c / 256 mod 16); hex_digit (c / 16 mod 16);
   hex_digit (c mod 16)].

Definition is_lead (c : Z) : bool := (55296 <=? c) && (c <=? 56319).
Definition is_trail (c : Z) : bool := (56320 <=? c) && (c <=? 57343).

(** QuoteJSONString without the quotes; [paired] says that the previous unit
    was a leading surrogate that this one completes. *)
Definition escape_unit (paired : bool) (c : Z) (next : option Z) : jsstr :=
  if c =? 8 then u "\b" else if c =? 9 then u "\t" else if c =? 10 then u "\n"
  else if c =? 12 then u "\f" else if c =? 13 then u "\r"
  else if c =? 34 then [92; 34] else if c =? 92 then [92; 92]
  else if c <? 32 then u "\u" ++ hex4 c
  else if is_lead c && negb (match next with Some d => is_trail d | None => false end)
  then u "\u" ++ hex4 c
  else if is_trail c && negb paired then u "\u" ++ hex4 c
  else [c].

Fixpoint escape_string (paired : bool) (s : jsstr) : jsstr :=
  match s with
  | [] => []
  | c :: s' =>
      escape_unit paired c (head s') ++
      escape_string (is_lead c && match head s' with Some d => is_trail d | None => false end) s'
  end.

Definition quote_string (s : jsstr) : jsstr := u "`" ++ escape_string false s ++ u "`".

(** With a gap, items and the closing bracket start on lines of their own. *)
Definition json_line (gap ind : jsstr) : jsstr :=
  if bool_decide (gap = []) then [] else [10] ++ ind.
Definition json_colon (gap : jsstr) : jsstr := if bool_decide (gap = []) then u ":" else u ": ".

(** Items separated by commas, one step deeper than [ind]. *)
Definition json_block (gap : jsstr) (op cl : Z) (ind : jsstr) (items : list jsstr) : jsstr :=
  match items with
  | [] => [op; cl]
  | i :: rest =>
      [op] ++ json_line gap (ind ++ gap) ++ i ++
      concat ((fun j => [44] ++ json_line gap (ind ++ gap) ++ j) <$> rest) ++
      json_line gap ind ++ [cl]
  end.

Section serialize.
Context (gap : jsstr).

(** [None] is [undefined]: left out of objects and [null] in arrays. *)
Fixpoint serialize (ind : jsstr) (v : value) : option jsstr :=
  match v with
  | VUndef | VNative _ => None
  | VNull => Some (u "null")
  | VBool b => Some (if b then u "true" else u "false")
  | VNum x => Some (if is_finite x then num_to_string x else u "null")
  | VStr s => Some (quote_string s)
  | VArr l =>
      Some (json_block gap 91 93 ind
        ((fix go (l : list value) : list jsstr :=
            match l with
            | [] => []
            | x :: l => default (u "null") (serialize (ind ++ gap) x) :: go l
            end) l))
  | VObj ms =>
      Some (json_block gap 123 125 ind
        ((fix go (ms : list (jsstr * value)) : list jsstr :=
            match ms with
            | [] => []
            | (k, x) :: ms =>
                match serialize (ind ++ gap) x with
                | Some t => (quote_string k ++ json_colon gap ++ t) :: go ms
                | None => go ms
                end
            end) ms))
  end.
End serialize.

(** [JSON.stringify(v)] and [JSON.stringify(v, null, 2)], [undefined] read as a
    string. *)
Definition stringify (v : value) : jsstr := default (u "undefined") (serialize [] [] v).
Definition stringify2 (v : value) : jsstr := default (u "undefined") (serialize (u "  ") [] v).

(** ** JSON.parse *)

Definition json_ws (c : Z) : bool := (c =? 32) || (c =? 9) || (c =? 10) || (c =? 13).
Definition skip_ws (s : jsstr) : jsstr := drop_while json_ws s.

(** The rest of [s] after the prefix [p]. *)
Fixpoint strip_prefix (p s : jsstr) : option jsstr :=
  match p, s with
  | [], _ => Some s
  | a :: p, b :: s => if a =? b then strip_prefix p s else None
  | _, [] => None
  end.

Definition hex_value4 (s : jsstr) : option (Z * jsstr) :=
  match s with
  | a :: b :: c :: d :: r =>
      match radix_value 16 0 [a; b; c; d] with Some v => Some (v, r) | None => None end
  | _ => None
  end.

(** The characters of a string literal after its opening quote. *)
Fixpoint parse_chars (fuel : nat) (s : jsstr) : option (jsstr * jsstr) :=
  match fuel, s with
  | O, _ | _, [] => None
  | S fuel, c :: s =>
      let more (x : Z) (r : jsstr) := '(t, r) ← parse_chars fuel r; Some (x :: t, r) in
      if c =? 34 then Some ([], s)
      else if c <? 32 then None
      else if c =? 92 then
        match s with
        | e :: r =>
            if e =? 34 then more 34 r else if e =? 92 then more 92 r
            else if e =? 47 then more 47 r else if e =? 98 then more 8 r
            else if e =? 102 then more 12 r else if e =? 110 then more 10 r
            else if e =? 114 then more 13 r else if e =? 116 then more 9 r
            else if e =? 117 then '(x, r) ← hex_value4 r; more x r
            else None
        | [] => None
        end
      else more c s
  end.

(** JSONFraction and JSONExponent, both optional: their digits or value, and
    the rest. *)
Definition json_fraction (s : jsstr) : option (list Z * jsstr) :=
  match s with
  | c :: r => if c =? 46 then (match span_digits r with ([], _) => None | p => Some p end)
              else Some ([], s)
  | [] => Some ([], [])
  end.

Definition json_exponent (s : jsstr) : option (Z * jsstr) :=
  match s with
  | c :: r =>
      if (c =? 101) || (c =? 69) then
        let '(neg, t) := sign_prefix r in
        match span_digits t with
        | ([], _) => None
        | (es, r) => Some (if neg : bool then - digits_value es else digits_value es, r)
        end
      else Some (0, s)
  | [] => Some (0, [])
  end.

(** JSONNumber: the number and the rest. *)
Definition parse_unsigned (neg : bool) (s : jsstr) : option (num * jsstr) :=
  let '(ip, r) := span_digits s in
  match ip with
  | [] => None
  | d :: ds =>
      if (d =? 0) && negb (bool_decide (ds = [])) then None else
      '(fp, r) ← json_fraction r;
      '(e, r) ← json_exponent r;
      Some (exact_num (XDec neg (digits_value (ip ++ fp)) (e - Z.of_nat (length fp))), r)
  end.

Definition parse_number (s : jsstr) : option (num * jsstr) :=
  match s with
  | c :: t => if c =? 45 then parse_unsigned true t else parse_unsigned false s
  | [] => None
  end.

(** Array indices among the keys come first, in increasing order; other keys
    follow in the order of their creation. *)
Definition key_index (k : jsstr) : option Z :=
  match span_digits k with
  | (d :: ds, []) =>
      if (d =? 0) && negb (bool_decide (ds = [])) then None
      else let v := digits_value (d :: ds) in if v <? 4294967295 then Some v else None
  | _ => None
  end.

Definition key_before (a b : jsstr) : bool :=
  match key_index a, key_index b with
  | Some x, Some y => x <? y
  | Some _, None => true
  | None, _ => false
  end.

Fixpoint set_member (ms : list (jsstr * value)) (k : jsstr) (v : value) : list (jsstr * value) :=
  match ms with
  | [] => [(k, v)]
  | m :: ms' =>
      if str_eqb m.1 k then (k, v) :: ms'
      else if key_before k m.1 && negb (bool_decide (k ∈ ms'.*1)) then (k, v) :: ms
      else m :: set_member ms' k v
  end.

Fixpoint parse_value (fuel : nat) (s : jsstr) : option (value * jsstr) :=
  match fuel with
  | O => None
  | S fuel =>
      match skip_ws s with
      | [] => None
      | c :: r =>
          if c =? 34 then '(t, r) ← parse_chars (S (length r)) r; Some (VStr t, r)
          else if c =? 91 then
            (if bool_decide (head (skip_ws r) = Some 93) then Some (VArr [], tail (skip_ws r))
             else '(l, r) ← parse_elems fuel r; Some (VArr l, r))
          else if c =? 123 then
            (if bool_decide (head (skip_ws r) = Some 125) then Some (VObj [], tail (skip_ws r))
             else '(ms, r) ← parse_members fuel [] r; Some (VObj ms, r))
          else if c =? 110 then r ← strip_prefix (u "ull") r; Some (VNull, r)
          else if c =? 116 then r ← strip_prefix (u "rue") r; Some (VBool true, r)
          else if c =? 102 then r ← strip_prefix (u "alse") r; Some (VBool false, r)
          else '(x, r) ← parse_number (c :: r); Some (VNum x, r)
      end
  end
with parse_elems (fuel : nat) (s : jsstr) : option (list value * jsstr) :=
  match fuel with
  | O => None
  | S fuel =>
      '(v, r) ← parse_value fuel s;
      match skip_ws r with
      | c :: r => if c =? 44 then '(l, r) ← parse_elems fuel r; Some (v :: l, r)
                  else if c =? 93 then Some ([v], r) else None
      | [] => None
      end
  end
with parse_members (fuel : nat) (ms : list (jsstr * value)) (s : jsstr)
    : option (list (jsstr * value) * jsstr) :=
  match fuel with
  | O => None
  | S fuel =>
      match skip_ws s with
      | c :: r =>
          if negb (c =? 34) then None else
          '(k, r) ← parse_chars (S (length r)) r;
          match skip_ws r with
          | c :: r =>
              if negb (c =? 58) then None else
              '(v, r) ← parse_value fuel r;
              match skip_ws r with
              | c :: r => if c =? 44 then parse_members fuel (set_member ms k v) r
                          else if c =? 125 then Some (set_member ms k v, r) else None
              | [] => None
              end
          | [] => None
          end
      | [] => None
      end
  end.

(** Every recursive call consumes a code unit or goes one level down, at most
    two calls for a unit: twice the length is enough. *)
Definition json_parse (s : jsstr) : res value :=
  match parse_value (2 * length s + 2) s with
  | Some (v, r) => match skip_ws r with [] => Ok v | _ => Err ESyntaxError end
  | None => Err ESyntaxError
  end.

(** ** Regular expressions of the sources *)

(** [/^\d+$/]. *)
Definition re_digits (s : jsstr) : bool := negb (bool_decide (s = [])) && forallb is_digit s.

Definition is_hex (c : Z) : bool :=
  is_digit c || ((97 <=? c) && (c <=? 102)) || ((65 <=? c) && (c <=? 70)).

(** [/^[0-9a-f]{64}$/i]. *)
Definition re_hash (s : jsstr) : bool := Nat.eqb (length s) 64 && forallb is_hex s.

(** [/^0{64}$/]. *)
Definition re_zero_hash (s : jsstr) : bool := Nat.eqb (length s) 64 && forallb (fun c => c =? 48) s.
