(* ===== verification/Html.v ===== *)
(** How a browser reads the markup that the front ends assign to [innerHTML]:
    the tokenizer states of the HTML standard for tags and attributes, and
    the lemmas that say which text is inert inside them.

    The tokenizer is the reading against which the generated markup is judged;
    it is not code of the repository.  Text is skipped, character references
    are left undecoded, and [<!] and [<?] start a comment that ends at [>].
    Elements whose content is not ordinary data ([script], [style], ...) do
    not occur in markup the predicate [benign] accepts. *)

From S2P Require Import Prelude.

(** A tag being read: whether it is an end tag, its name, its attributes. *)
Record tag := Tag { tag_end : bool; tag_name : jsstr; tag_attrs : list (jsstr * jsstr) }.

Inductive token :=
| TokTag (t : tag) (self_closing : bool)
| TokComment.

Inductive hstate :=
| Data
| TagOpen
| EndTagOpen
| TagName (e : bool) (n : jsstr)
| BeforeAttrName (t : tag)
| AttrName (t : tag) (a : jsstr)
| AfterAttrName (t : tag) (a : jsstr)
| BeforeValue (t : tag) (a : jsstr)
| ValueDQ (t : tag) (a v : jsstr)
| ValueSQ (t : tag) (a v : jsstr)
| ValueUnquoted (t : tag) (a v : jsstr)
| AfterValue (t : tag)
| SelfClosing (t : tag)
| Bogus.

Definition html_ws (c : Z) : bool := (c =? 9) || (c =? 10) || (c =? 12) || (c =? 13) || (c =? 32).
Definition is_alpha (c : Z) : bool := ((65 <=? c) && (c <=? 90)) || ((97 <=? c) && (c <=? 122)).
Definition lower (c : Z) : Z := if (65 <=? c) && (c <=? 90) then c + 32 else c.

Definition with_attr (t : tag) (a v : jsstr) : tag :=
  Tag (tag_end t) (tag_name t) (tag_attrs t ++ [(a, v)]).

Definition emit (t : tag) (self : bool) : hstate * list token := (Data, [TokTag t self]).

Definition before_attr (t : tag) (c : Z) : hstate * list token :=
  if html_ws c then (BeforeAttrName t, [])
  else if c =? 47 then (SelfClosing t, [])
  else if c =? 62 then emit t false
  else (AttrName t [lower c], []).

Definition step (st : hstate) (c : Z) : hstate * list token :=
  match st with
  | Data => if c =? 60 then (TagOpen, []) else (Data, [])
  | TagOpen =>
      if (c =? 33) || (c =? 63) then (Bogus, [])
      else if c =? 47 then (EndTagOpen, [])
      else if is_alpha c then (TagName false [lower c], [])
      else if c =? 60 then (TagOpen, [])
      else (Data, [])
  | EndTagOpen =>
      if is_alpha c then (TagName true [lower c], [])
      else if c =? 62 then (Data, [])
      else (Bogus, [])
  | TagName e n =>
      let t := Tag e n [] in
      if html_ws c then (BeforeAttrName t, [])
      else if c =? 47 then (SelfClosing t, [])
      else if c =? 62 then emit t false
      else (TagName e (n ++ [lower c]), [])
  | BeforeAttrName t => before_attr t c
  | AttrName t a =>
      if html_ws c then (AfterAttrName t a, [])
      else if c =? 47 then (SelfClosing (with_attr t a []), [])
      else if c =? 62 then emit (with_attr t a []) false
      else if c =? 61 then (BeforeValue t a, [])
      else (AttrName t (a ++ [lower c]), [])
  | AfterAttrName t a =>
      if html_ws c then (AfterAttrName t a, [])
      else if c =? 47 then (SelfClosing (with_attr t a []), [])
      else if c =? 61 then (BeforeValue t a, [])
      else if c =? 62 then emit (with_attr t a []) false
      else (AttrName (with_attr t a []) [lower c], [])
  | BeforeValue t a =>
      if html_ws c then (BeforeValue t a, [])
      else if c =? 34 then (ValueDQ t a [], [])
      else if c =? 39 then (ValueSQ t a [], [])
      else if c =? 62 then emit (with_attr t a []) false
      else (ValueUnquoted t a [c], [])
  | ValueDQ t a v =>
      if c =? 34 then (AfterValue (with_attr t a v), []) else (ValueDQ t a (v ++ [c]), [])
  | ValueSQ t a v =>
      if c =? 39 then (AfterValue (with_attr t a v), []) else (ValueSQ t a (v ++ [c]), [])
  | ValueUnquoted t a v =>
      if html_ws c then (BeforeAttrName (with_attr t a v), [])
      else if c =? 62 then emit (with_attr t a v) false
      else (ValueUnquoted t a (v ++ [c]), [])
  | AfterValue t => before_attr t c
  | SelfClosing t => if c =? 62 then emit t true else before_attr t c
  | Bogus => if c =? 62 then (Data, [TokComment]) else (Bogus, [])
  end.

Fixpoint scan (st : hstate) (s : jsstr) : hstate * list token :=
  match s with
  | [] => (st, [])
  | c :: s =>
      let '(st1, out1) := step st c in
      let '(st2, out2) := scan st1 s in
      (st2, out1 ++ out2)
  end.

(** The tags and comments of a piece of markup. *)
Definition tokens (s : jsstr) : list token := (scan Data s).2.

(** [document.querySelector('#id')] restricted to a piece of markup. *)
Definition has_id (i : jsstr) (s : jsstr) : bool :=
  existsb (fun t => match t with
                    | TokTag (Tag false _ attrs) _ => bool_decide ((u "id", i) ∈ attrs)
                    | _ => false
                    end) (tokens s).

(** ** Running the tokenizer over a concatenation *)

Lemma scan_app st s1 s2 :
  scan st (s1 ++ s2) =
    ((scan (scan st s1).1 s2).1, (scan st s1).2 ++ (scan (scan st s1).1 s2).2).
Proof.
  revert st. induction s1 as [|c s1 IH]; intros st; simpl.
  - by destruct (scan st s2).
  - destruct (step st c) as [st1 o1]. rewrite IH.
    destruct (scan st1 s1) as [st2 o2]. simpl.
    destruct (scan st2 s2) as [st3 o3]. simpl. by rewrite app_assoc.
Qed.

(** [inert s]: [s] holds neither an opening angle bracket nor a double quote. *)
Definition inert_unit (c : Z) : bool := negb (c =? 60) && negb (c =? 34).
Definition inert (s : jsstr) : Prop := forallb inert_unit s = true.

Lemma inert_nil : inert [].
Proof. done. Qed.

Lemma inert_app s t : inert s -> inert t -> inert (s ++ t).
Proof. unfold inert. rewrite forallb_app. by intros -> ->. Qed.

Lemma inert_Forall s : inert s <-> Forall (fun c => inert_unit c = true) s.
Proof. unfold inert. rewrite forallb_forall, Forall_forall. by setoid_rewrite list_elem_of_In. Qed.

Lemma scan_inert_data s : inert s -> scan Data s = (Data, []).
Proof.
  unfold inert. induction s as [|c s IH]; simpl; [done|].
  rewrite andb_true_iff. unfold inert_unit at 1. rewrite andb_true_iff.
  intros [[H1 _] H2]. apply negb_true_iff in H1. rewrite H1. by rewrite (IH H2).
Qed.

Lemma scan_inert_dq t a v s : inert s -> scan (ValueDQ t a v) s = (ValueDQ t a (v ++ s), []).
Proof.
  unfold inert. revert v. induction s as [|c s IH]; intros v; simpl; [by rewrite app_nil_r|].
  rewrite andb_true_iff. unfold inert_unit at 1. rewrite andb_true_iff.
  intros [[_ H1] H2]. apply negb_true_iff in H1. rewrite H1. rewrite (IH _ H2).
  by rewrite <- app_assoc.
Qed.

(** ** Tokens accepted everywhere in a page *)

Definition allowed_tags : list jsstr :=
  [u "div"; u "span"; u "p"; u "h2"; u "h3"; u "a"; u "table"; u "thead"; u "tbody"; u "tr";
   u "th"; u "td"; u "code"; u "strong"; u "details"; u "summary"; u "pre"; u "small"; u "button"].
Definition allowed_attrs : list jsstr :=
  [u "class"; u "href"; u "title"; u "open"; u "id"; u "type"].

Definition starts_with (p s : jsstr) : bool := bool_decide (take (length p) s = p).

(** Links lead to a route of the page itself; no attribute is an event handler. *)
Definition benign_attr (av : jsstr * jsstr) : bool :=
  bool_decide (av.1 ∈ allowed_attrs) &&
  (if bool_decide (av.1 = u "href") then starts_with (u "#/") av.2 else true).

Definition benign (k : token) : bool :=
  match k with
  | TokTag t _ => bool_decide (tag_name t ∈ allowed_tags) && forallb benign_attr (tag_attrs t)
  | TokComment => false
  end.

(** [runs st s st']: reading [s] from [st] ends in [st'] and yields only
    benign tokens. *)
Definition runs (st : hstate) (s : jsstr) (st' : hstate) : Prop :=
  exists out, scan st s = (st', out) /\ forallb benign out = true.

(** A piece of markup that starts and ends outside of a tag. *)
Definition fragment (s : jsstr) : Prop := runs Data s Data.

Lemma runs_app st1 st2 st3 s1 s2 : runs st1 s1 st2 -> runs st2 s2 st3 -> runs st1 (s1 ++ s2) st3.
Proof.
  intros (o1 & E1 & B1) (o2 & E2 & B2). exists (o1 ++ o2).
  rewrite scan_app, E1; simpl. rewrite E2; simpl. by rewrite forallb_app, B1, B2.
Qed.

Lemma runs_inert_data s : inert s -> runs Data s Data.
Proof. intros H. exists []. by rewrite scan_inert_data. Qed.

Lemma runs_inert_dq t a v s : inert s -> runs (ValueDQ t a v) s (ValueDQ t a (v ++ s)).
Proof. intros H. exists []. by rewrite scan_inert_dq. Qed.

Lemma fragment_inert s : inert s -> fragment s.
Proof. apply runs_inert_data. Qed.

Lemma fragment_nil : fragment [].
Proof. by exists []. Qed.

Lemma fragment_app s t : fragment s -> fragment t -> fragment (s ++ t).
Proof. apply runs_app. Qed.

Lemma fragment_concat l : Forall fragment l -> fragment (concat l).
Proof. induction 1; simpl; [apply fragment_nil | by apply fragment_app]. Qed.

Lemma fragment_benign s : fragment s -> Forall (fun k => benign k = true) (tokens s).
Proof.
  intros (out & E & B). unfold tokens. rewrite E. simpl.
  rewrite forallb_forall in B. apply Forall_forall. intros k Hk. apply B. by apply list_elem_of_In.
Qed.

(** ** Templates *)

(** The parts of a template, read one after the other from [st], end outside
    of a tag. *)
Fixpoint cat_runs (st : hstate) (parts : list (res jsstr)) : Prop :=
  match parts with
  | [] => st = Data
  | p :: ps => rpost (fun s => exists st', runs st s st' /\ cat_runs st' ps) p
  end.

Lemma cat_runs_spec st parts : cat_runs st parts -> rpost (fun s => runs st s Data) (cat parts).
Proof.
  revert st. induction parts as [|p ps IH]; intros st; simpl.
  - intros ->. by exists [].
  - intros H. eapply rpost_bind; [exact H|]. simpl. intros s (st' & R & C).
    eapply rpost_bind; [by apply IH|]. simpl. intros t Rt. by eapply runs_app.
Qed.

Lemma cat_fragment parts : cat_runs Data parts -> rpost fragment (cat parts).
Proof. apply cat_runs_spec. Qed.

(** One part of a template: literal text, inert text inside or outside of an
    attribute value, a nested fragment. *)
Lemma cat_runs_lit st s st' ps :
  runs st s st' -> cat_runs st' ps -> cat_runs st (Ok s :: ps).
Proof. simpl. eauto. Qed.

Lemma cat_runs_text p ps :
  rpost inert p -> cat_runs Data ps -> cat_runs Data (p :: ps).
Proof.
  intros H C. simpl. eapply rpost_impl; [exact H|]. intros s Hs.
  exists Data. split; [by apply runs_inert_data | done].
Qed.

Lemma cat_runs_value t a v p ps :
  rpost inert p -> (forall s, inert s -> cat_runs (ValueDQ t a (v ++ s)) ps) ->
  cat_runs (ValueDQ t a v) (p :: ps).
Proof.
  intros H C. simpl. eapply rpost_impl; [exact H|]. intros s Hs.
  exists (ValueDQ t a (v ++ s)). split; [by apply runs_inert_dq | by apply C].
Qed.

Lemma cat_runs_fragment p ps :
  rpost fragment p -> cat_runs Data ps -> cat_runs Data (p :: ps).
Proof.
  intros H C. simpl. eapply rpost_impl; [exact H|]. intros s Hs. by exists Data.
Qed.

(** Literal text: the tokenizer is run on it. *)
Ltac runs_literal :=
  eexists; split; [vm_compute; reflexivity | vm_compute; reflexivity].

(** Hints for text and for fragments apply by the head of the computation. *)
Create HintDb inert discriminated.
Create HintDb fragment discriminated.
#[export] Hint Constants Opaque : inert fragment.
#[export] Hint Resolve inert_nil inert_app fragment_inert fragment_nil fragment_app : monzero.
