(* ===== verification/Async.v ===== *)
(** Asynchronous programs and the browser's event loop.

    A handler of a front end is a [prog]: it updates the page, reads it,
    returns, throws, or waits ([await]) for an answer of the outside world.
    Between two waits a handler runs without interruption; while it waits,
    other handlers run.  The event loop keeps the suspended handlers and, at
    each step, either delivers an event of the user or the browser, or answers
    one of the handlers, in any order. *)

From S2P Require Import Prelude JsNumber JsValue.

(** What a handler waits for: a [fetch] of a URL with a JSON body, the
    [json()] of a response, or a clipboard write. *)
Inductive query :=
| QFetch (url : jsstr) (body : option value)
| QJson
| QClipboard (text : jsstr).

(** A settled [fetch]: a response with its status, or a rejection. *)
Inductive fetched :=
| FResponse (status : Z)
| FReject (e : exn).

Definition answer (q : query) : Type :=
  match q with
  | QFetch _ _ => fetched
  | QJson => res value
  | QClipboard _ => res unit
  end.

(** The same status and value for every wait. *)
Definition reply (status : Z) (v : value) (q : query) : answer q :=
  match q with
  | QFetch _ _ => FResponse status
  | QJson => Ok v
  | QClipboard _ => Ok tt
  end.

(** Kinds of environments: any answer at all, ... *)
Definition any_answers (q : query) : answer q -> Prop := fun _ => True.

(** ... the same successful answer to every request, ... *)
Definition only_answers (v : value) (q : query) : answer q -> Prop := fun a => a = reply 200 v q.

(** [response.ok]. *)
Definition status_ok (status : Z) : bool := (200 <=? status) && (status <=? 299).

(** ... every request rejected or answered with an error status. *)
Definition failing_answers (q : query) : answer q -> Prop :=
  match q with
  | QFetch _ _ => fun a => match a with FResponse s => status_ok s = false | FReject _ => True end
  | _ => fun _ => True
  end.

Inductive prog (W A : Type) : Type :=
| Ret (a : A)
| Throw (e : exn)
| Act (f : W -> W) (k : prog W A)
| Get (k : W -> prog W A)
| Await (q : query) (k : answer q -> prog W A).
Arguments Ret {W A} a.
Arguments Throw {W A} e.
Arguments Act {W A} f k.
Arguments Get {W A} k.
Arguments Await {W A} q k.

Section prog.
Context {W : Type}.

Fixpoint pbind {A B} (f : A -> prog W B) (m : prog W A) : prog W B :=
  match m with
  | Ret a => f a
  | Throw e => Throw e
  | Act g k => Act g (pbind f k)
  | Get k => Get (fun w => pbind f (k w))
  | Await q k => Await q (fun a => pbind f (k a))
  end.

(** [try { m } catch (error) { h(error) }]. *)
Fixpoint pcatch {A} (m : prog W A) (h : exn -> prog W A) : prog W A :=
  match m with
  | Ret a => Ret a
  | Throw e => h e
  | Act g k => Act g (pcatch k h)
  | Get k => Get (fun w => pcatch (k w) h)
  | Await q k => Await q (fun a => pcatch (k a) h)
  end.

Definition act (f : W -> W) : prog W unit := Act f (Ret tt).
Definition get : prog W W := Get Ret.
Definition lift {A} (m : res A) : prog W A :=
  match m with Ok a => Ret a | Err e => Throw e end.
End prog.

#[global] Instance prog_ret W : MRet (prog W) := @Ret W.
#[global] Instance prog_bind W : MBind (prog W) := @pbind W.

(** ** Running until the next wait *)

Inductive outcome (W A : Type) : Type :=
| Done (a : A)
| Thrown (e : exn)
| Suspended (q : query) (k : answer q -> prog W A).
Arguments Done {W A} a.
Arguments Thrown {W A} e.
Arguments Suspended {W A} q k.

Fixpoint run {W A} (p : prog W A) (w : W) : W * outcome W A :=
  match p with
  | Ret a => (w, Done a)
  | Throw e => (w, Thrown e)
  | Act f k => run k (f w)
  | Get k => run (k w) w
  | Await q k => (w, Suspended q k)
  end.

(** A suspended handler. *)
Record task (W : Type) := Task { task_query : query; task_cont : answer task_query -> prog W unit }.
Arguments Task {W} task_query task_cont.
Arguments task_query {W} _.
Arguments task_cont {W} _ _.

Record loop (W : Type) := Loop { world : W; tasks : list (task W) }.
Arguments Loop {W} world tasks.
Arguments world {W} _.
Arguments tasks {W} _.

(** Run a handler in the page of [l], behind the suspended [ts]. *)
Definition launch {W} (p : prog W unit) (w : W) (ts : list (task W)) : loop W :=
  match run p w with
  | (w', Suspended q k) => Loop w' (ts ++ [Task q k])
  | (w', _) => Loop w' ts
  end.

(** Run the handlers of a script in order. *)
Fixpoint launch_all {W} (ps : list (prog W unit)) (l : loop W) : loop W :=
  match ps with
  | [] => l
  | p :: ps => launch_all ps (launch p (world l) (tasks l))
  end.

(** ** The event loop *)

Section event_loop.
Context {W event : Type} (enabled : event -> W -> bool) (handler : event -> prog W unit).
Context (answers : forall q, answer q -> Prop).

Inductive loop_step : loop W -> loop W -> Prop :=
| step_event e w ts :
    enabled e w = true ->
    loop_step (Loop w ts) (launch (handler e) w ts)
| step_answer w ts1 q k ts2 (a : answer q) :
    answers q a ->
    loop_step (Loop w (ts1 ++ Task q k :: ts2)) (launch (k a) w (ts1 ++ ts2)).

Inductive reachable (l0 : loop W) : loop W -> Prop :=
| reach_refl : reachable l0 l0
| reach_step l1 l2 : reachable l0 l1 -> loop_step l1 l2 -> reachable l0 l2.

Lemma reachable_trans l0 l1 l2 : reachable l0 l1 -> reachable l1 l2 -> reachable l0 l2.
Proof. intros H. induction 1; [done|]. econstructor; eauto. Qed.

(** *** Scenarios

    A scenario fires events and answers waiting handlers by their position;
    [play] runs it, and fails where it is not a path of the event loop. *)
Inductive move :=
| Fire (e : event)
| Answer (i : nat) (a : forall q, answer q).

Definition play1 (m : move) (l : loop W) : option (loop W) :=
  match m with
  | Fire e => if enabled e (world l) then Some (launch (handler e) (world l) (tasks l)) else None
  | Answer i a =>
      match tasks l !! i with
      | Some (Task q k) => Some (launch (k (a q)) (world l) (take i (tasks l) ++ drop (S i) (tasks l)))
      | None => None
      end
  end.

Fixpoint play (ms : list move) (l : loop W) : option (loop W) :=
  match ms with
  | [] => Some l
  | m :: ms => l' ← play1 m l; play ms l'
  end.

Definition move_ok (m : move) : Prop :=
  match m with Fire _ => True | Answer _ a => forall q, answers q (a q) end.

Lemma play1_step m l l' : move_ok m -> play1 m l = Some l' -> loop_step l l'.
Proof.
  destruct l as [w ts], m as [e|i a]; simpl; intros Hm H.
  - destruct (enabled e w) eqn:E; [|done]. simplify_eq. by constructor.
  - destruct (ts !! i) as [[q k]|] eqn:E; [|done]. simplify_eq.
    rewrite <- (take_drop_middle ts i _ E) at 1. by constructor.
Qed.

(** A scenario that plays ends in a reachable state. *)
Lemma play_reachable ms l0 l1 l :
  Forall move_ok ms -> reachable l0 l1 -> play ms l1 = Some l -> reachable l0 l.
Proof.
  intros Hms. revert l1. induction Hms as [|m ms Hm _ IH]; intros l1 H1; simpl; [by intros [= <-]|].
  destruct (play1 m l1) as [l2|] eqn:E; [|done]. simpl. apply IH.
  econstructor; [exact H1|]. by eapply play1_step.
Qed.

Definition is_Some_b {A} (o : option A) : bool := match o with Some _ => true | None => false end.

(** The end of a scenario, for scenarios that play. *)
Lemma play_reach ms l0 :
  Forall move_ok ms -> is_Some_b (play ms l0) = true ->
  reachable l0 (default l0 (play ms l0)).
Proof.
  intros Hms H. destruct (play ms l0) as [l|] eqn:E; [|done].
  eapply play_reachable; [exact Hms | apply reach_refl | exact E].
Qed.

(** *** Invariants

    [safe I p]: [p], run from a page that satisfies [I], leaves a page that
    satisfies [I] at each wait and at the end, whatever admissible answers
    it gets and whatever the other handlers do meanwhile within [I]. *)
Section invariant.
Context (I : W -> Prop).

Fixpoint safe {A} (p : prog W A) : Prop :=
  match p with
  | Ret _ | Throw _ => True
  | Act f k => (forall w, I w -> I (f w)) /\ safe k
  | Get k => forall w, I w -> safe (k w)
  | Await q k => forall a, answers q a -> safe (k a)
  end.

(** The same for a start in the page [w], and with [I] asked for only where the
    handler gives up control: at its waits and at its end. *)
Fixpoint safe_from {A} (p : prog W A) (w : W) : Prop :=
  match p with
  | Ret _ | Throw _ => I w
  | Act f k => safe_from k (f w)
  | Get k => safe_from (k w) w
  | Await q k => I w /\ forall a w', answers q a -> I w' -> safe_from (k a) w'
  end.

Lemma safe_safe_from {A} (p : prog W A) w : safe p -> I w -> safe_from p w.
Proof. revert w. induction p; simpl; firstorder. Qed.

Definition loop_inv (l : loop W) : Prop :=
  I (world l) /\
  Forall (fun t => forall a w, answers (task_query t) a -> I w -> safe_from (task_cont t a) w) (tasks l).

(** [safe] with a property of the value returned. *)
Fixpoint safe_post {A} (P : A -> Prop) (p : prog W A) : Prop :=
  match p with
  | Ret a => P a
  | Throw _ => True
  | Act f k => (forall w, I w -> I (f w)) /\ safe_post P k
  | Get k => forall w, I w -> safe_post P (k w)
  | Await q k => forall a, answers q a -> safe_post P (k a)
  end.

Lemma safe_post_safe {A} P (p : prog W A) : safe_post P p -> safe p.
Proof. induction p; simpl; firstorder. Qed.

Lemma safe_safe_post {A} (p : prog W A) : safe p -> safe_post (fun _ => True) p.
Proof. induction p; simpl; firstorder. Qed.

Lemma safe_bind_post {A B} P (m : prog W A) (f : A -> prog W B) :
  safe_post P m -> (forall a, P a -> safe (f a)) -> safe (m ≫= f).
Proof. intros Hm Hf. induction m; simpl in *; firstorder. Qed.

Lemma safe_bind {A B} (m : prog W A) (f : A -> prog W B) :
  safe m -> (forall a, safe (f a)) -> safe (m ≫= f).
Proof. intros Hm Hf. eapply safe_bind_post; [by apply safe_safe_post | auto]. Qed.

Lemma safe_catch {A} (m : prog W A) h : safe m -> (forall e, safe (h e)) -> safe (pcatch m h).
Proof. intros Hm Hh. induction m; simpl in *; firstorder. Qed.

Lemma safe_lift {A} (m : res A) : safe (lift m).
Proof. by destruct m. Qed.

Lemma safe_post_lift {A} P (m : res A) : rpost P m -> safe_post P (lift m).
Proof. by destruct m. Qed.

Lemma safe_act f : (forall w, I w -> I (f w)) -> safe (act f).
Proof. intros H. by split. Qed.

Lemma safe_act_bind {B} g (f : unit -> prog W B) :
  (forall w, I w -> I (g w)) -> safe (f tt) -> safe (act g ≫= f).
Proof. intros Hg Hf. by split. Qed.

Lemma safe_lift_bind {A B} (m : res A) (f : A -> prog W B) :
  (forall a, m = Ok a -> safe (f a)) -> safe (lift m ≫= f).
Proof. intros H. destruct m; simpl; auto. Qed.

Lemma safe_seq {B} (m : prog W unit) (f : unit -> prog W B) :
  safe m -> safe (f tt) -> safe (m ≫= f).
Proof. intros Hm Hf. apply safe_bind; [done|]. by intros []. Qed.

Lemma safe_get_bind {B} (f : W -> prog W B) : (forall w, I w -> safe (f w)) -> safe (get ≫= f).
Proof. intros H w Hw. by apply H. Qed.

Lemma run_safe {A} (p : prog W A) w :
  safe_from p w ->
  I (run p w).1 /\
  match (run p w).2 with
  | Suspended q k => forall a w', answers q a -> I w' -> safe_from (k a) w'
  | _ => True
  end.
Proof. revert w. induction p; simpl; intros w Hp; firstorder. Qed.

Lemma launch_tasks_inv p w ts :
  safe_from p w ->
  Forall (fun t => forall a w, answers (task_query t) a -> I w -> safe_from (task_cont t a) w) ts ->
  loop_inv (launch p w ts).
Proof.
  intros Hp Hts. destruct (run_safe p w Hp) as [H1 H2]. unfold launch.
  destruct (run p w) as [w' [a|e|q k]]; split; simpl in *; auto.
  apply Forall_app; auto.
Qed.

Lemma launch_inv p w ts :
  safe_from p w -> loop_inv (Loop w ts) -> loop_inv (launch p w ts).
Proof. intros Hp [_ Hts]. by apply launch_tasks_inv. Qed.

Lemma launch_all_inv ps l : Forall safe ps -> loop_inv l -> loop_inv (launch_all ps l).
Proof.
  intros H. revert l. induction H as [|p ps Hp _ IH]; intros l Hl; simpl; [done|].
  apply IH. apply launch_inv; [by apply safe_safe_from; [|apply Hl]|]. by destruct l.
Qed.

(** An invariant of the handlers is an invariant of every reachable page. *)
Lemma reachable_inv_from l0 l :
  (forall e w, enabled e w = true -> I w -> safe_from (handler e) w) ->
  loop_inv l0 -> reachable l0 l -> loop_inv l.
Proof.
  intros He H0. induction 1 as [|l1 l2 _ IH S]; [done|]. destruct S as [e w ts En | w ts1 q k ts2 a Ha].
  - apply launch_inv; [apply He; [done | apply IH] | done].
  - destruct IH as [Hw Hts]. simpl in *. apply Forall_app in Hts as [H1 H2].
    apply Forall_cons in H2 as [Hk H2]. apply launch_inv; [by apply Hk|].
    split; simpl; [done|]. by apply Forall_app.
Qed.

Lemma reachable_inv l0 l :
  (forall e, safe (handler e)) -> loop_inv l0 -> reachable l0 l -> loop_inv l.
Proof. intros He. apply reachable_inv_from. intros e w _. by apply safe_safe_from. Qed.
End invariant.
End event_loop.

Arguments Fire {event} e.
Arguments Answer {event} i a.

(** ** Runs of one handler to its end *)

Section completes.
Context (answers : forall q, answer q -> Prop).

(** [completes p w w' r]: [p] started in the page [w], with some admissible
    answers and no other handler in between, ends in the page [w'] with the
    result [r]. *)
Fixpoint completes {W A} (p : prog W A) (w w' : W) (r : res A) : Prop :=
  match p with
  | Ret a => w' = w /\ r = Ok a
  | Throw e => w' = w /\ r = Err e
  | Act f k => completes k (f w) w' r
  | Get k => completes (k w) w w' r
  | Await q k => exists a, answers q a /\ completes (k a) w w' r
  end.

Lemma completes_bind {W A B} (m : prog W A) (f : A -> prog W B) w w' r :
  completes (m ≫= f) w w' r ->
  (exists e, completes m w w' (Err e) /\ r = Err e) \/
  (exists a w1, completes m w w1 (Ok a) /\ completes (f a) w1 w' r).
Proof.
  revert w. induction m as [a|e|g k IH|k IH|q k IH]; intros w H; simpl in *; eauto 10.
  - destruct H as [-> ->]. eauto 10.
  - destruct H as (a & Ha & H).
    destruct (IH a w H) as [(e & H1 & H2)|(b & w1 & H1 & H2)]; eauto 10.
Qed.

Lemma completes_catch {W A} (m : prog W A) h w w' r :
  completes (pcatch m h) w w' r ->
  (exists a, completes m w w' (Ok a) /\ r = Ok a) \/
  (exists e w1, completes m w w1 (Err e) /\ completes (h e) w1 w' r).
Proof.
  revert w. induction m as [a|e|g k IH|k IH|q k IH]; intros w H; simpl in *; eauto 10.
  - destruct H as [-> ->]. eauto 10.
  - destruct H as (a & Ha & H).
    destruct (IH a w H) as [(b & H1 & H2)|(e & w1 & H1 & H2)]; eauto 10.
Qed.

Lemma completes_lift {W A} (m : res A) (w w' : W) r :
  completes (lift m) w w' r <-> w' = w /\ r = m.
Proof. by destruct m. Qed.

(** A computation without effects, then the rest. *)
Lemma completes_lift_bind {W A B} (m : res A) (f : A -> prog W B) w w' r :
  completes (lift m ≫= f) w w' r ->
  (exists e, w' = w /\ r = Err e) \/ (exists a, m = Ok a /\ completes (f a) w w' r).
Proof. destruct m as [a|e]; simpl; [eauto|]. intros [-> ->]. eauto. Qed.

(** A handler that does not wait completes as it runs. *)
Lemma run_completes {W A} (p : prog W A) w a :
  (run p w).2 = Done a -> completes p w (run p w).1 (Ok a).
Proof. revert w. induction p as [b|e|g k IH|k IH|q k IH]; simpl; intros w Hr; simplify_eq; auto. Qed.

(** An invariant of a handler holds at its end. *)
Lemma completes_safe {W A} (I : W -> Prop) (p : prog W A) w w' r :
  safe answers I p -> I w -> completes p w w' r -> I w'.
Proof.
  revert w. induction p as [a|e|g k IH|k IH|q k IH]; simpl; intros w Hp Hw Hc.
  - by destruct Hc as [-> _].
  - by destruct Hc as [-> _].
  - destruct Hp as [Hg Hk]. eauto.
  - eauto.
  - destruct Hc as (a & Ha & Hc). eauto.
Qed.

Lemma completes_act_bind {W B} (g : W -> W) (f : unit -> prog W B) w w' r :
  completes (act g ≫= f) w w' r -> completes (f tt) (g w) w' r.
Proof. done. Qed.

Lemma completes_get_bind {W B} (f : W -> prog W B) w w' r :
  completes (get ≫= f) w w' r -> completes (f w) w w' r.
Proof. done. Qed.

Lemma completes_act {W} (g : W -> W) w w' r : completes (act g) w w' r -> w' = g w /\ r = Ok tt.
Proof. done. Qed.
End completes.

Lemma completes_mono {W A} (X Y : forall q, answer q -> Prop) (p : prog W A) w w' r :
  (forall q a, X q a -> Y q a) -> completes X p w w' r -> completes Y p w w' r.
Proof.
  intros H. revert w. induction p as [a|e|g k IH|k IH|q k IH]; simpl; intros w; eauto.
  intros (a & Ha & Hc). eauto.
Qed.

(** Take a completed run of a handler without waits apart. *)
Ltac completes_inv H :=
  repeat lazymatch type of H with
  | completes _ (mbind _ (lift _)) _ _ (Ok _) =>
      apply completes_lift_bind in H as [(? & _ & [=])|(? & ? & H)]
  | completes _ (mbind _ (act _)) _ _ _ => apply completes_act_bind in H
  | completes _ (mbind _ get) _ _ _ => apply completes_get_bind in H
  | completes _ (act _) _ _ _ => apply completes_act in H as [? _]
  | completes _ (let '(_, _) := ?x in _) _ _ _ => destruct x
  end.

(** At most [n] waits, whatever the answers: the handler always comes to an end. *)
Fixpoint bounded {W A} (n : nat) (p : prog W A) : Prop :=
  match p with
  | Ret _ | Throw _ => True
  | Act _ k => bounded n k
  | Get k => forall w, bounded n (k w)
  | Await q k => match n with O => False | S n => forall a, bounded n (k a) end
  end.

Lemma bounded_mono {W A} n m (p : prog W A) : (n <= m)%nat -> bounded n p -> bounded m p.
Proof.
  revert n m. induction p as [a|e|g k IH|k IH|q k IH]; intros n m Hm H; simpl in *; eauto.
  destruct n, m; try done; [lia|]. intros a. eapply IH; [|apply H]. lia.
Qed.

Lemma bounded_bind {W A B} n m (p : prog W A) (f : A -> prog W B) :
  bounded n p -> (forall a, bounded m (f a)) -> bounded (n + m) (p ≫= f).
Proof.
  revert n. induction p as [a|e|g k IH|k IH|q k IH]; intros n Hp Hf; simpl in *; eauto.
  - eapply bounded_mono; [|apply Hf]. lia.
  - destruct n; [done|]. simpl. eauto.
Qed.

Lemma bounded_catch {W A} n m (p : prog W A) h :
  bounded n p -> (forall e, bounded m (h e)) -> bounded (n + m) (pcatch p h).
Proof.
  revert n. induction p as [a|e|g k IH|k IH|q k IH]; intros n Hp Hf; simpl in *; eauto.
  - eapply bounded_mono; [|apply Hf]. lia.
  - destruct n; [done|]. simpl. eauto.
Qed.

Lemma bounded_lift {W A} n (m : res A) : bounded (W := W) n (lift m).
Proof. by destruct m. Qed.

Lemma bounded_act {W} n (f : W -> W) : bounded n (act f).
Proof. done. Qed.

Lemma bounded_get {W A} n (f : W -> prog W A) : (forall w, bounded n (f w)) -> bounded n (get ≫= f).
Proof. done. Qed.

Lemma bounded_seq {W B} n m (p : prog W unit) (f : unit -> prog W B) :
  bounded n p -> bounded m (f tt) -> bounded (n + m) (p ≫= f).
Proof. intros Hp Hf. apply bounded_bind; [done|]. by intros []. Qed.

Lemma bounded_act_bind {W B} n (g : W -> W) (f : unit -> prog W B) :
  bounded n (f tt) -> bounded n (act g ≫= f).
Proof. done. Qed.

Lemma bounded_lift_bind {W A B} n (m : res A) (f : A -> prog W B) :
  (forall a, bounded n (f a)) -> bounded n (lift m ≫= f).
Proof. intros H. destruct m; simpl; auto. Qed.

(** One step through a handler that does not wait there. *)
Ltac bounded_step :=
  lazymatch goal with
  | |- bounded _ (mbind _ (act _)) => apply bounded_act_bind
  | |- bounded _ (mbind _ (lift _)) => apply bounded_lift_bind; intros ?
  | |- bounded _ (mbind _ get) => apply bounded_get; intros ?
  | |- bounded _ (act _) => exact I
  | |- bounded _ (let '(_, _) := ?x in _) => destruct x
  | |- bounded _ (match ?x with _ => _ end) => destruct x
  end.

(** A handler that never waits only has to restore an invariant at its end. *)
Lemma sync_safe_from {W A} answers (I : W -> Prop) (p : prog W A) w :
  bounded 0 p -> I (run p w).1 -> safe_from answers I p w.
Proof. revert w. induction p; simpl; intros w Hb Hi; try done; eauto. Qed.

(** A handler with bounded waits completes, given any supply of answers. *)
Lemma bounded_completes {W A} (answers : forall q, answer q -> Prop) n (p : prog W A) w :
  (forall q, exists a, answers q a) -> bounded n p -> exists w' r, completes answers p w w' r.
Proof.
  intros supply. revert n w.
  induction p as [a|e|g k IH|k IH|q k IH]; intros n w H; simpl in *; eauto.
  destruct n; [done|]. destruct (supply q) as [a Ha].
  destruct (IH a n w (H a)) as (w' & r & Hc). eauto.
Qed.

#[export] Hint Resolve safe_lift safe_act : monzero.
