(* ===== verification/JsText.v ===== *)
(** Lemmas on the text of numbers: the digits read back, the units they are
    made of, and that no number is ever printed with a markup character. *)

From Stdlib Require Import SpecFloat.
From S2P Require Import Prelude JsNumber JsValue Html.

(** ** Digits *)

Definition digit_ok (d : Z) : Prop := 0 <= d < 10.

Lemma digits_aux_ok fuel n acc :
  0 <= n -> Forall digit_ok acc -> Forall digit_ok (digits_aux fuel n acc).
Proof.
  revert n acc. induction fuel as [|fuel IH]; intros n acc Hn Ha; simpl; [done|].
  case_if.
  - constructor; [unfold digit_ok; lia | done].
  - apply IH; [apply Z.div_pos; lia|]. constructor; [|done].
    unfold digit_ok. apply Z.mod_pos_bound. lia.
Qed.

Lemma digits_ok n : 0 <= n -> Forall digit_ok (digits n).
Proof. intros Hn. by apply digits_aux_ok. Qed.

Lemma digits_value_acc l : forall a,
  foldl (fun a d => 10 * a + d) a l = a * 10 ^ Z.of_nat (length l) + digits_value l.
Proof.
  unfold digits_value. induction l as [|d l IH]; intros a; simpl length; simpl foldl.
  - simpl. lia.
  - rewrite IH, (IH (10 * 0 + d)). rewrite Nat2Z.inj_succ, Z.pow_succ_r by lia. lia.
Qed.

Lemma digits_value_app l1 l2 :
  digits_value (l1 ++ l2) = digits_value l1 * 10 ^ Z.of_nat (length l2) + digits_value l2.
Proof. unfold digits_value at 1. rewrite foldl_app. by rewrite digits_value_acc. Qed.

Lemma digits_value_cons d l :
  digits_value (d :: l) = d * 10 ^ Z.of_nat (length l) + digits_value l.
Proof. change (d :: l) with ([d] ++ l). rewrite digits_value_app. unfold digits_value at 1. simpl. lia. Qed.

Lemma digits_value_nonneg l : Forall digit_ok l -> 0 <= digits_value l.
Proof.
  induction 1 as [|d l Hd _ IH]; [done|]. rewrite digits_value_cons.
  unfold digit_ok in Hd. pose proof (Z.pow_nonneg 10 (Z.of_nat (length l))). nia.
Qed.

Lemma digits_value_bound l : Forall digit_ok l -> digits_value l < 10 ^ Z.of_nat (length l).
Proof.
  induction 1 as [|d l Hd _ IH]; [done|]. rewrite digits_value_cons. simpl length.
  rewrite Nat2Z.inj_succ, Z.pow_succ_r by lia.
  unfold digit_ok in Hd. pose proof (Z.pow_pos_nonneg 10 (Z.of_nat (length l))). nia.
Qed.

Lemma digits_value_zeros k l : digits_value (replicate k 0 ++ l) = digits_value l.
Proof.
  induction k as [|k IH]; simpl; [done|]. rewrite digits_value_cons, IH. lia.
Qed.

(** The fuel of [digits] is enough: the digits of [n] denote [n]. *)
Lemma digits_aux_value fuel n acc :
  0 <= n < 2 ^ Z.of_nat fuel ->
  digits_value (digits_aux fuel n acc) = n * 10 ^ Z.of_nat (length acc) + digits_value acc.
Proof.
  revert n acc. induction fuel as [|fuel IH]; intros n acc Hn; simpl.
  - simpl in Hn. assert (n = 0) as -> by lia. lia.
  - case_if; [by rewrite digits_value_cons|].
    rewrite Nat2Z.inj_succ, Z.pow_succ_r in Hn by lia.
    rewrite IH.
    + rewrite digits_value_cons. simpl length. rewrite Nat2Z.inj_succ, Z.pow_succ_r by lia.
      pose proof (Z.div_mod n 10). nia.
    + split; [apply Z.div_pos; lia|]. apply Z.div_lt_upper_bound; [lia|].
      set (X := 2 ^ Z.of_nat fuel) in *. lia.
Qed.

Lemma digits_value_digits n : 0 <= n -> digits_value (digits n) = n.
Proof.
  intros Hn. unfold digits. rewrite digits_aux_value; [cbn; lia|].
  split; [done|]. destruct (Z.eq_dec n 0) as [->|]; [done|].
  rewrite Nat2Z.inj_succ, Z2Nat.id by apply Z.log2_nonneg.
  apply Z.log2_spec. lia.
Qed.

Lemma digits_nonempty n : digits n <> [].
Proof.
  unfold digits. remember (Z.to_nat (Z.log2 n)) as k. clear Heqk.
  assert (forall fuel n acc, acc <> [] -> digits_aux fuel n acc <> []) as H.
  { induction fuel as [|fuel IH]; intros m acc Ha; simpl; [done|]. case_if; [done|]. by apply IH. }
  simpl. case_if; [done|]. by apply H.
Qed.

(** ** Digit strings *)

Definition digit_unit (c : Z) : Prop := is_digit c = true.

Lemma digit_unit_of d : digit_ok d -> digit_unit (48 + d).
Proof. unfold digit_unit, is_digit, digit_ok. lia. Qed.

Lemma dec_nonneg_digits n : 0 <= n -> Forall digit_unit (dec_nonneg n).
Proof.
  intros Hn. unfold dec_nonneg. apply Forall_fmap.
  eapply Forall_impl; [by apply digits_ok|]. intros d Hd. by apply digit_unit_of.
Qed.

Lemma span_digits_all ds r :
  Forall digit_ok ds -> (forall c, head r = Some c -> is_digit c = false) ->
  span_digits (((fun d => 48 + d) <$> ds) ++ r) = (ds, r).
Proof.
  intros H Hr. induction H as [|d ds Hd _ IH]; csimpl.
  - destruct r as [|c r]; simpl; [done|]. by rewrite Hr.
  - rewrite (digit_unit_of _ Hd), IH. f_equal. f_equal. lia.
Qed.

(** ** Inert text *)

Lemma digits_inert s : Forall digit_unit s -> inert s.
Proof.
  intros H. apply inert_Forall. eapply Forall_impl; [exact H|].
  unfold digit_unit, is_digit, inert_unit. intros c Hc. lia.
Qed.

Lemma inert_reverse s : inert (reverse s) <-> inert s.
Proof. rewrite !inert_Forall. by rewrite Forall_reverse. Qed.

Lemma inert_drop_while p s : inert s -> inert (drop_while p s).
Proof.
  unfold inert. induction s as [|c s IH]; simpl; [done|].
  intros H. case_if; [|done]. apply IH. by apply andb_true_iff in H as [_ ?].
Qed.

Lemma inert_strip_zeros s : inert s -> inert (strip_zeros s).
Proof.
  intros H. unfold strip_zeros. rewrite inert_reverse. apply inert_drop_while.
  by rewrite inert_reverse.
Qed.

Lemma inert_pad n s : inert s -> inert (pad_zeros n s).
Proof.
  intros H. apply inert_app; [|done]. apply inert_Forall. apply Forall_replicate. done.
Qed.

Lemma inert_group_rev k s : inert s -> inert (group_rev k s).
Proof.
  unfold inert. revert k. induction s as [|c s IH]; intros k H; simpl; [done|].
  simpl in H. apply andb_true_iff in H as [Hc Hs].
  destruct k; simpl; rewrite ?Hc; by apply IH.
Qed.

Lemma inert_group3 s : inert s -> inert (group3 s).
Proof.
  intros H. unfold group3. rewrite inert_reverse. apply inert_group_rev. by rewrite inert_reverse.
Qed.

Lemma inert_dec_nonneg n : 0 <= n -> inert (dec_nonneg n).
Proof. intros Hn. by apply digits_inert, dec_nonneg_digits. Qed.

Lemma inert_dec z : inert (dec z).
Proof.
  unfold dec. case_if; [|apply inert_dec_nonneg; lia].
  apply (inert_app [45]); [done|]. apply inert_dec_nonneg. lia.
Qed.

Lemma inert_take n s : inert s -> inert (take n s).
Proof. rewrite !inert_Forall. by apply Forall_take. Qed.

Lemma inert_drop n s : inert s -> inert (drop n s).
Proof. rewrite !inert_Forall. by apply Forall_drop. Qed.

Lemma inert_if (b : bool) s t : inert s -> inert t -> inert (if b then s else t).
Proof. by destruct b. Qed.

Lemma inert_format_ratio f neg n d : 0 <= n -> inert (format_ratio f neg n d).
Proof.
  intros Hn. unfold format_ratio.
  assert (0 < 10 ^ Z.of_nat f) as Hp by (apply Z.pow_pos_nonneg; lia).
  set (q := (2 * n * 10 ^ Z.of_nat f + Zpos d) / (2 * Zpos d)).
  assert (0 <= q) as Hq by (apply Z.div_pos; nia).
  set (fr := strip_zeros (pad_zeros f (dec_nonneg (q mod 10 ^ Z.of_nat f)))).
  assert (inert fr) as Hfr.
  { apply inert_strip_zeros, inert_pad, inert_dec_nonneg, Z.mod_pos_bound. lia. }
  apply inert_app; [by apply inert_if|]. apply inert_app.
  - apply inert_group3, inert_dec_nonneg, Z.div_pos; lia.
  - destruct fr; [done|]. by apply inert_app.
Qed.

Lemma abs_ratio_nonneg x : 0 <= (abs_ratio x).1.
Proof.
  destruct x as [s|s| |s m [|e|e]]; simpl; lia.
Qed.

Lemma inert_format_num f x : inert (format_num f x).
Proof.
  destruct x as [s|s| |s m e]; unfold format_num.
  - by apply inert_format_ratio.
  - by destruct s.
  - done.
  - pose proof (abs_ratio_nonneg (S754_finite s m e)) as H.
    destruct (abs_ratio (S754_finite s m e)). by apply inert_format_ratio.
Qed.

Lemma span_digits_ok s : Forall digit_ok (span_digits s).1.
Proof.
  induction s as [|c s IH]; simpl; [done|]. destruct (is_digit c) eqn:E; [|done].
  destruct (span_digits s) as [d r]. simpl in *. constructor; [|done].
  unfold is_digit in E. unfold digit_ok. lia.
Qed.

(** The mantissa of a numeric string is never negative. *)
Lemma radix_value_nonneg radix acc s v :
  0 <= radix -> 0 <= acc -> radix_value radix acc s = Some v -> 0 <= v.
Proof.
  intros Hr. revert acc. induction s as [|c s IH]; intros acc Ha; simpl; [congruence|].
  unfold radix_digit. case_if; [|done]. apply IH.
  unfold is_digit in *. repeat case_if; lia.
Qed.

Lemma unsigned_decimal_nonneg neg neg' s m e :
  unsigned_decimal neg s = XDec neg' m e -> 0 <= m.
Proof.
  unfold unsigned_decimal. case_if; [done|].
  pose proof (span_digits_ok s) as H1. destruct (span_digits s) as [ip r].
  assert (Forall digit_ok (fraction_part r).1) as H2.
  { unfold fraction_part. destruct r as [|c r]; [by constructor|].
    case_if; [apply span_digits_ok | by constructor]. }
  destruct (fraction_part r) as [fp r']. simpl in *.
  destruct (ip ++ fp) as [|d ds] eqn:E; [done|].
  destruct (exponent_part r'); [|done]. intros [= _ <- _].
  apply digits_value_nonneg. rewrite <- E. by apply Forall_app.
Qed.

Lemma string_numeric_nonneg s neg m e : string_numeric s = XDec neg m e -> 0 <= m.
Proof.
  unfold string_numeric. destruct (trim s) as [|c t]; [intros [= _ <- _]; lia|].
  destruct (radix_prefix (c :: t)) as [[radix r]|] eqn:E.
  - assert (0 <= radix) as Hr.
    { unfold radix_prefix in E. destruct t as [|c' t]; [done|].
      repeat (case_if_in E); simplify_eq; lia. }
    destruct r as [|x r]; [done|]. destruct (radix_value radix 0 (x :: r)) eqn:E2; [|done].
    intros [= _ <- _]. by eapply radix_value_nonneg in E2.
  - destruct (sign_prefix (c :: t)). by apply unsigned_decimal_nonneg.
Qed.

Lemma inert_format_exact f s : inert (format_exact f (string_numeric s)).
Proof.
  unfold format_exact. pose proof (string_numeric_nonneg s) as H.
  destruct (string_numeric s) as [| |neg m e]; try apply inert_format_num.
  specialize (H _ _ _ eq_refl).
  destruct (exact_num _); try apply inert_format_num.
  case_if; apply inert_format_ratio; [|done].
  apply Z.mul_nonneg_nonneg; [done|]. apply Z.pow_nonneg. lia.
Qed.

Lemma inert_number_format v : rpost inert (number_format v).
Proof.
  destruct v as [| |b|x|s|l|ms|nm]; unfold number_format;
    try apply inert_format_exact;
    (eapply rpost_bind; [apply rpost_True|]; intros t _);
    first [apply inert_format_exact | apply inert_format_num].
Qed.

Lemma shortest_nonneg fuel k n x p q : 0 <= p -> 0 <= (shortest fuel k n x p q).1.1.
Proof.
  intros Hp. revert k. induction fuel as [|fuel IH]; intros k.
  all: assert (0 <= (if 0 <=? n - k
         then (2 * p + Zpos q * 10 ^ (n - k)) / (2 * (Zpos q * 10 ^ (n - k)))
         else (2 * (p * 10 ^ (- (n - k))) + Zpos q) / (2 * Zpos q))) as Hs.
  1, 3: destruct (0 <=? n - k) eqn:E; apply Z.div_pos;
      [pose proof (Z.pow_nonneg 10 (n - k)) | pose proof (Z.pow_pos_nonneg 10 (n - k))
      | pose proof (Z.pow_nonneg 10 (- (n - k))) | ]; nia.
  - done.
  - simpl. case_if; [|apply IH]. case_if; simpl; [lia | done].
Qed.

Lemma inert_num_to_string x : inert (num_to_string x).
Proof.
  destruct x as [s|s| |s m e]; [done | by destruct s | done |].
  unfold num_to_string. pose proof (abs_ratio_nonneg (S754_finite s m e)) as H.
  destruct (abs_ratio (S754_finite s m e)) as [p q]. simpl in H.
  match goal with |- context [shortest ?a ?b ?c ?d ?e ?f] =>
    pose proof (shortest_nonneg a b c d e f H) as Hs; destruct (shortest a b c d e f) as [[sd k] n] end.
  simpl in Hs. pose proof (inert_dec_nonneg sd Hs) as Hd.
  apply inert_app; [by apply inert_if|].
  assert (forall z, inert (zeros z)) as Hz.
  { intros z. apply inert_Forall, Forall_replicate. done. }
  repeat apply inert_if; repeat apply inert_app; try done;
    auto using inert_take, inert_drop, inert_if, inert_app.
  - apply inert_if; [done|]. apply inert_app; [done | by apply inert_drop].
  - by apply inert_if.
  - apply inert_dec_nonneg. lia.
Qed.

#[export] Hint Resolve inert_dec inert_format_num inert_number_format inert_num_to_string : monzero.

(** ** Fixed-point text *)

Abbreviation digit_str := (fmap (fun d : Z => 48 + d)).

Lemma length_digits_aux p : forall fuel n acc,
  0 <= n < 10 ^ Z.of_nat (S p) -> (length (digits_aux fuel n acc) <= S p + length acc)%nat.
Proof.
  induction p as [|p IH]; intros [|fuel] n acc Hn; simpl; try lia.
  - rewrite (proj2 (Z.ltb_lt n 10)) by lia. simpl. lia.
  - case_if; simpl; [lia|]. etrans; [apply IH|simpl; lia].
    rewrite (Nat2Z.inj_succ (S p)), Z.pow_succ_r in Hn by lia.
    split; [apply Z.div_pos; lia | apply Z.div_lt_upper_bound; lia].
Qed.

Lemma length_digits p n : (0 < p)%nat -> 0 <= n < 10 ^ Z.of_nat p -> (length (digits n) <= p)%nat.
Proof.
  destruct p as [|p]; [lia|]. intros _ Hn. unfold digits.
  etrans; [by apply length_digits_aux|]. simpl. lia.
Qed.

(** [pad_zeros] brings the digits of a small number to a fixed length. *)
Lemma pad_zeros_digits p n :
  (0 < p)%nat -> 0 <= n < 10 ^ Z.of_nat p ->
  exists ds, pad_zeros p (dec_nonneg n) = digit_str ds /\ length ds = p /\
             Forall digit_ok ds /\ digits_value ds = n.
Proof.
  intros Hp Hn. pose proof (length_digits p n Hp Hn) as Hl.
  exists (replicate (p - length (digits n)) 0 ++ digits n). split_and!.
  - unfold pad_zeros, dec_nonneg. rewrite fmap_app, length_fmap, fmap_replicate. done.
  - rewrite length_app, length_replicate. lia.
  - apply Forall_app; split; [|apply digits_ok; lia].
    apply Forall_replicate. unfold digit_ok. lia.
  - rewrite digits_value_zeros. apply digits_value_digits. lia.
Qed.

Lemma drop_while_zeros (l : list Z) :
  exists k, l = replicate k 0 ++ drop_while (fun d => d =? 0) l.
Proof.
  induction l as [|d l [k IH]]; simpl; [by exists 0%nat|]. case_if.
  - exists (S k). simpl. f_equal; [lia | done].
  - by exists 0%nat.
Qed.

Lemma drop_while_shift (l : list Z) :
  drop_while (fun c => c =? 48) (digit_str l) = digit_str (drop_while (fun d => d =? 0) l).
Proof.
  induction l as [|d l IH]; csimpl; [done|].
  replace (48 + d =? 48) with (d =? 0) by (destruct (d =? 0) eqn:E; lia).
  by case_if.
Qed.

(** Stripping the trailing zeros of a fraction divides by a power of ten. *)
Lemma strip_zeros_digits ds :
  Forall digit_ok ds ->
  exists fs k, strip_zeros (digit_str ds) = digit_str fs /\ Forall digit_ok fs /\
               length ds = (length fs + k)%nat /\
               digits_value ds = digits_value fs * 10 ^ Z.of_nat k.
Proof.
  intros H. destruct (drop_while_zeros (reverse ds)) as [k Hk].
  set (fs := reverse (drop_while (fun d => d =? 0) (reverse ds))) in *.
  assert (ds = fs ++ replicate k 0) as E.
  { rewrite <- (reverse_involutive ds), Hk, reverse_app, reverse_replicate. done. }
  exists fs, k. split_and!.
  - unfold strip_zeros. by rewrite <- fmap_reverse, drop_while_shift, <- fmap_reverse.
  - rewrite E in H. by apply Forall_app in H as [? _].
  - by rewrite E, length_app, length_replicate.
  - rewrite E, digits_value_app, length_replicate. 
    rewrite <- (app_nil_r (replicate k 0)), digits_value_zeros. unfold digits_value at 2. simpl. lia.
Qed.

Lemma not_infinity ds r : ds <> [] -> Forall digit_ok ds ->
  str_eqb (digit_str ds ++ r) (u "Infinity") = false.
Proof.
  intros Hn H. destruct ds as [|d ds]; [done|]. apply Forall_cons in H as [Hd _].
  unfold str_eqb. apply bool_decide_eq_false. csimpl. intros E.
  apply (f_equal head) in E. vm_compute (head (u "Infinity")) in E. simpl in E.
  injection E as E. unfold digit_ok in Hd. lia.
Qed.

(** Reading a decimal: digits, and optionally a point and more digits. *)
Lemma unsigned_decimal_int neg ip :
  ip <> [] -> Forall digit_ok ip ->
  unsigned_decimal neg (digit_str ip) = XDec neg (digits_value ip) 0.
Proof.
  intros Hn H. unfold unsigned_decimal.
  rewrite <- (app_nil_r (digit_str ip)), (not_infinity ip []) by done.
  rewrite span_digits_all by done. simpl. rewrite app_nil_r. by destruct ip.
Qed.

Lemma unsigned_decimal_frac neg ip fp :
  ip <> [] -> Forall digit_ok ip -> Forall digit_ok fp ->
  unsigned_decimal neg (digit_str ip ++ u "." ++ digit_str fp)
    = XDec neg (digits_value (ip ++ fp)) (- Z.of_nat (length fp)).
Proof.
  intros Hn H Hf. unfold unsigned_decimal. rewrite not_infinity by done.
  rewrite span_digits_all; [|done|by intros c [= <-]].
  change (fraction_part (u "." ++ digit_str fp)) with (span_digits (digit_str fp)).
  rewrite <- (app_nil_r (digit_str fp)), span_digits_all by done.
  destruct (ip ++ fp) eqn:E; [by destruct ip|]. simpl. done.
Qed.
