(* ===== verification/JsJson.v ===== *)
(** [JSON.parse] undoes [JSON.stringify], with and without indentation, on the
    values that have a JSON text. *)

From Stdlib Require Import SpecFloat.
From S2P Require Import Prelude JsNumber JsValue Html JsText.

Abbreviation units := (Forall (fun c => 0 <= c < 65536)).

(** A number whose text reads back as the same number. *)
Definition reads_back (x : num) : Prop :=
  is_finite x = true /\ parse_number (num_to_string x) = Some (x, []).

(** Data that JSON represents: no [undefined] and no function, strings of code
    units, and objects whose keys are distinct and keep their order. *)
Fixpoint json_ok (v : value) : Prop :=
  match v with
  | VUndef | VNative _ => False
  | VNull | VBool _ => True
  | VNum x => reads_back x
  | VStr s => units s
  | VArr l => (fix go l := match l with [] => True | x :: l => json_ok x /\ go l end) l
  | VObj ms =>
      NoDup ms.*1 /\ Forall (fun k => key_index k = None) ms.*1 /\ Forall (fun k => units k) ms.*1 /\
      (fix go (ms : list (jsstr * value)) :=
         match ms with [] => True | m :: ms => json_ok m.2 /\ go ms end) ms
  end.

Lemma json_ok_arr l : json_ok (VArr l) <-> Forall json_ok l.
Proof. simpl. induction l as [|x l IH]; [done|]. rewrite Forall_cons. by rewrite IH. Qed.

Lemma json_ok_obj ms : json_ok (VObj ms) <->
  NoDup ms.*1 /\ Forall (fun k => key_index k = None) ms.*1 /\ Forall (fun k => units k) ms.*1 /\
  Forall (fun m => json_ok m.2) ms.
Proof.
  simpl. do 3 apply and_iff_compat_l. induction ms as [|m ms IH]; [done|]. rewrite Forall_cons.
  by rewrite IH.
Qed.

(** ** Strings *)

Lemma hex_digit_back d : 0 <= d < 16 -> radix_digit 16 (hex_digit d) = Some d.
Proof.
  intros H. assert (d ∈ seqZ 0 16) as Hin by (apply elem_of_seqZ; lia).
  change (seqZ 0 16) with [0; 1; 2; 3; 4; 5; 6; 7; 8; 9; 10; 11; 12; 13; 14; 15] in Hin.
  repeat (apply elem_of_cons in Hin as [->|Hin]; [reflexivity|]). by apply elem_of_nil in Hin.
Qed.

Lemma hex4_back c r : 0 <= c < 65536 -> hex_value4 (hex4 c ++ r) = Some (c, r).
Proof.
  intros H. unfold hex4, hex_value4. cbn [app radix_value].
  rewrite !hex_digit_back by (apply Z.mod_pos_bound; lia). do 2 f_equal.
  pose proof (Z.div_mod c 16). pose proof (Z.div_mod (c / 16) 16). pose proof (Z.div_mod (c / 256) 16).
  rewrite (Z.div_div c 16 16) in * by lia. rewrite (Z.div_div c 256 16) in * by lia.
  change (16 * 16) with 256 in *. change (256 * 16) with 4096 in *.
  assert (c / 4096 mod 16 = c / 4096) as ->; [|lia].
  apply Z.mod_small. split; [apply Z.div_pos; lia | apply Z.div_lt_upper_bound; lia].
Qed.

(** One unit, escaped or not, is read back. *)
Lemma parse_unit paired c next fuel r :
  0 <= c < 65536 ->
  parse_chars (S fuel) (escape_unit paired c next ++ r) =
  ('(t, r') ← parse_chars fuel r; Some (c :: t, r')).
Proof.
  intros Hc. unfold escape_unit.
  destruct (Z.eqb_spec c 8) as [->|]; [reflexivity|].
  destruct (Z.eqb_spec c 9) as [->|]; [reflexivity|].
  destruct (Z.eqb_spec c 10) as [->|]; [reflexivity|].
  destruct (Z.eqb_spec c 12) as [->|]; [reflexivity|].
  destruct (Z.eqb_spec c 13) as [->|]; [reflexivity|].
  destruct (Z.eqb_spec c 34) as [->|]; [reflexivity|].
  destruct (Z.eqb_spec c 92) as [->|]; [reflexivity|].
  assert (parse_chars (S fuel) ((u "\u" ++ hex4 c) ++ r) =
          ('(t, r') ← parse_chars fuel r; Some (c :: t, r'))) as Hu.
  { rewrite <- app_assoc. change (u "\u" ++ hex4 c ++ r) with (92 :: 117 :: (hex4 c ++ r)).
    cbn [parse_chars Z.eqb Pos.eqb Z.ltb Z.compare Pos.compare Pos.compare_cont].
    rewrite hex4_back by done. reflexivity. }
  destruct (Z.ltb_spec c 32); [exact Hu|].
  case_if; [exact Hu|]. case_if; [exact Hu|].
  cbn [app parse_chars]. rewrite (proj2 (Z.eqb_neq c 34)), (proj2 (Z.eqb_neq c 92)) by done.
  by rewrite (proj2 (Z.ltb_ge c 32)).
Qed.

Lemma parse_string s : forall paired fuel r,
  units s -> (length s < fuel)%nat ->
  parse_chars fuel (escape_string paired s ++ 34 :: r) = Some (s, r).
Proof.
  induction s as [|c s IH]; intros paired [|fuel] r Hs Hf; try (simpl in Hf; lia); [done|].
  apply Forall_cons in Hs as [Hc Hs]. cbn [escape_string]. rewrite <- app_assoc.
  rewrite parse_unit by done. rewrite IH by (done || (simpl in Hf; lia)). done.
Qed.

Lemma length_escape_string s : forall paired, (length s <= length (escape_string paired s))%nat.
Proof.
  induction s as [|c s IH]; intros paired; cbn [escape_string length]; [lia|].
  rewrite length_app. specialize (IH (is_lead c && match head s with Some d => is_trail d | None => false end)).
  assert (1 <= length (escape_unit paired c (head s)))%nat; [|lia].
  unfold escape_unit. repeat case_if; simpl; lia.
Qed.

(** ** Numbers *)

(** What may follow a number in a JSON text. *)
Definition ends (r : jsstr) : Prop :=
  match r with [] => True | c :: _ => is_digit c = false /\ c <> 46 /\ c <> 101 /\ c <> 69 end.

Lemma span_digits_app s r : ends r ->
  span_digits (s ++ r) = let '(d, t) := span_digits s in (d, t ++ r).
Proof.
  intros Hr. induction s as [|c s IH]; simpl.
  - destruct r as [|c r]; [done|]. simpl. by destruct Hr as [-> _].
  - destruct (is_digit c); [|done]. rewrite IH. by destruct (span_digits s).
Qed.

Lemma json_fraction_app s fp t r : ends r ->
  json_fraction s = Some (fp, t) -> json_fraction (s ++ r) = Some (fp, t ++ r).
Proof.
  intros Hr. destruct s as [|c s]; simpl.
  - intros [= <- <-]. destruct r as [|c r]; [done|]. simpl. destruct Hr as (_ & H & _).
    by rewrite (proj2 (Z.eqb_neq c 46) H).
  - destruct (c =? 46); [|by intros [= <- <-]]. rewrite span_digits_app by done.
    destruct (span_digits s) as [[|d ds] t']; [done|]. by intros [= <- <-].
Qed.

Lemma sign_prefix_app s r : s <> [] ->
  sign_prefix (s ++ r) = ((sign_prefix s).1, (sign_prefix s).2 ++ r).
Proof. destruct s as [|c s]; [done|]. intros _. simpl. by repeat case_if. Qed.

Lemma json_exponent_app s e t r : ends r ->
  json_exponent s = Some (e, t) -> json_exponent (s ++ r) = Some (e, t ++ r).
Proof.
  intros Hr. destruct s as [|c s]; simpl.
  - intros [= <- <-]. destruct r as [|c r]; [done|]. simpl. destruct Hr as (_ & _ & H1 & H2).
    by rewrite (proj2 (Z.eqb_neq c 101) H1), (proj2 (Z.eqb_neq c 69) H2).
  - destruct ((c =? 101) || (c =? 69)); [|by intros [= <- <-]].
    destruct s as [|c' s]; [done|]. rewrite sign_prefix_app by done.
    destruct (sign_prefix (c' :: s)) as [neg t']. cbn [fst snd]. rewrite span_digits_app by done.
    destruct (span_digits t') as [[|d ds] t'']; [done|]. by intros [= <- <-].
Qed.

Lemma parse_unsigned_app neg s x t r : ends r ->
  parse_unsigned neg s = Some (x, t) -> parse_unsigned neg (s ++ r) = Some (x, t ++ r).
Proof.
  intros Hr. unfold parse_unsigned. rewrite span_digits_app by done.
  destruct (span_digits s) as [[|d ds] s1]; [done|]. case_if; [done|].
  destruct (json_fraction s1) as [[fp s2]|] eqn:E1; [|done].
  rewrite (json_fraction_app _ _ _ _ Hr E1). cbn [mbind option_bind].
  destruct (json_exponent s2) as [[e s3]|] eqn:E2; [|done].
  rewrite (json_exponent_app _ _ _ _ Hr E2). cbn [mbind option_bind]. by intros [= <- <-].
Qed.

Lemma parse_number_app s x r : ends r ->
  parse_number s = Some (x, []) -> parse_number (s ++ r) = Some (x, r).
Proof.
  intros Hr. destruct s as [|c s]; [done|]. unfold parse_number. cbn [app].
  case_if; intros H; [by apply (parse_unsigned_app _ _ _ _ _ Hr) in H|].
  by apply (parse_unsigned_app _ _ _ _ _ Hr) in H.
Qed.

(** A number starts with a digit or a minus sign. *)
Lemma parse_number_head c s p : parse_number (c :: s) = Some p -> c = 45 \/ is_digit c = true.
Proof.
  unfold parse_number. destruct (Z.eqb_spec c 45); [auto|]. unfold parse_unsigned. simpl.
  destruct (is_digit c); [auto | done].
Qed.

(** ** Blanks *)

Abbreviation blank := (Forall (fun c => json_ws c = true)).

Lemma skip_ws_blank w s : blank w -> skip_ws (w ++ s) = skip_ws s.
Proof. induction 1 as [|c w Hc _ IH]; [done|]. unfold skip_ws in *. simpl. by rewrite Hc. Qed.

Lemma skip_ws_head c s : json_ws c = false -> skip_ws (c :: s) = c :: s.
Proof. intros H. unfold skip_ws. simpl. by rewrite H. Qed.

Lemma blank_ends w s : blank w -> ends s -> ends (w ++ s).
Proof.
  intros [|c w' Hc _] Hs; [done|]. simpl. unfold json_ws in Hc.
  repeat (apply orb_true_iff in Hc as [Hc|Hc]); apply Z.eqb_eq in Hc as ->; by split_and!.
Qed.

Lemma set_member_fresh ms k v :
  k ∉ ms.*1 -> key_index k = None -> set_member ms k v = ms ++ [(k, v)].
Proof.
  intros Hk Hi. induction ms as [|[k' v'] ms IH]; [done|]. csimpl.
  rewrite fmap_cons, not_elem_of_cons in Hk. destruct Hk as [Hk Hms]. unfold str_eqb.
  rewrite bool_decide_false by (intros ->; by apply Hk). unfold key_before. rewrite Hi. simpl.
  by rewrite IH.
Qed.

(** ** The round trip *)

Section roundtrip.
Context (gap : jsstr) (Hgap : blank gap).

Abbreviation text := (fun ind v => default [] (serialize gap ind v)).

(** Texts start with a character that no blank and no closing bracket is. *)
Definition opens (t : jsstr) : Prop :=
  match t with [] => False | c :: _ => json_ws c = false /\ c <> 93 end.

(** [v] has a text at every depth, and the text is read back, with blanks
    before and something that ends a number behind, given fuel for its length. *)
Definition read_back (v : value) : Prop :=
  forall ind, blank ind ->
    serialize gap ind v = Some (text ind v) /\ opens (text ind v) /\
    forall fuel w r, blank w -> ends r -> (length (text ind v) <= fuel)%nat ->
      parse_value fuel (w ++ text ind v ++ r) = Some (v, r).

Lemma line_blank ind : blank ind -> blank (json_line gap ind).
Proof. intros H. unfold json_line. case_if; [done|]. by apply Forall_cons. Qed.

(** The rest of a block after its first item. *)
Definition block_rest (ind : jsstr) (items : list jsstr) (cl : Z) (r : jsstr) : jsstr :=
  concat ((fun j => [44] ++ json_line gap (ind ++ gap) ++ j) <$> items) ++ json_line gap ind ++ cl :: r.

Lemma block_rest_cons ind i items cl r :
  block_rest ind (i :: items) cl r = 44 :: json_line gap (ind ++ gap) ++ i ++ block_rest ind items cl r.
Proof. unfold block_rest. rewrite fmap_cons. simpl. by rewrite <- !app_assoc. Qed.

Lemma block_text op cl ind i items r :
  json_block gap op cl ind (i :: items) ++ r =
  op :: json_line gap (ind ++ gap) ++ i ++ block_rest ind items cl r.
Proof. unfold json_block, block_rest. simpl. by rewrite <- !app_assoc. Qed.

Lemma block_rest_ends ind items cl r : blank ind -> ends [cl] -> ends (block_rest ind items cl r).
Proof.
  intros Hi Hc. destruct items as [|i items]; [|by rewrite block_rest_cons].
  unfold block_rest. simpl. apply blank_ends; [by apply line_blank | exact Hc].
Qed.

Lemma length_block_rest ind items cl r :
  length (block_rest ind items cl r) =
  (length (concat ((fun j => [44%Z] ++ json_line gap (ind ++ gap) ++ j) <$> items)) +
   length (json_line gap ind) + S (length r))%nat.
Proof. unfold block_rest. rewrite !length_app. simpl. lia. Qed.

Lemma parse_elems_text ind : blank ind -> forall l x fuel w r,
  Forall read_back (x :: l) -> blank w -> ends r ->
  (length (text (ind ++ gap) x ++ block_rest ind (text (ind ++ gap) <$> l) 93 []) <= fuel)%nat ->
  parse_elems fuel (w ++ text (ind ++ gap) x ++ block_rest ind (text (ind ++ gap) <$> l) 93 r) =
  Some (x :: l, r).
Proof.
  intros Hi. assert (blank (ind ++ gap)) as Hig by by apply Forall_app.
  induction l as [|y l IH]; intros x [|fuel] w r Hl Hw Hr Hf;
    rewrite length_app, length_block_rest in Hf; cbn [length] in Hf; try lia;
    apply Forall_cons in Hl as [Hx Hl]; destruct (Hx _ Hig) as (_ & _ & Hread);
    cbn [parse_elems]; rewrite Hread by (done || lia || by apply block_rest_ends); cbn [mbind option_bind].
  - unfold block_rest. cbn [fmap list_fmap concat app].
    rewrite skip_ws_blank by by apply line_blank. by rewrite skip_ws_head.
  - rewrite fmap_cons, block_rest_cons, skip_ws_head by done. cbn [Z.eqb Pos.eqb].
    rewrite IH; [done | done | by apply line_blank | done|].
    rewrite length_app, length_block_rest. rewrite fmap_cons in Hf.
    cbn [fmap list_fmap concat] in Hf. rewrite !length_app in Hf. cbn [length] in *. lia.
Qed.

Definition member_text (ind : jsstr) (m : jsstr * value) : jsstr :=
  quote_string m.1 ++ json_colon gap ++ text ind m.2.

(** A key, its colon and what follows. *)
Lemma parse_key k s :
  units k ->
  exists rest, quote_string k ++ json_colon gap ++ s = 34 :: rest /\
    parse_chars (S (length rest)) rest = Some (k, json_colon gap ++ s).
Proof.
  intros Hk. exists (escape_string false k ++ 34 :: json_colon gap ++ s). split.
  - unfold quote_string. rewrite <- !app_assoc. done.
  - apply parse_string; [done|]. rewrite length_app. pose proof (length_escape_string k false). lia.
Qed.

Lemma skip_colon s : exists w, json_colon gap ++ s = 58 :: w ++ s /\ blank w.
Proof.
  unfold json_colon. case_if; [exists [] | exists [32]]; split; try done; by repeat constructor.
Qed.

Lemma parse_members_text ind : blank ind -> forall ms m acc fuel w r,
  Forall (fun m => read_back m.2) (m :: ms) -> Forall (fun k => units k) (m :: ms).*1 ->
  Forall (fun k => key_index k = None) (m :: ms).*1 -> NoDup (acc ++ m :: ms).*1 ->
  blank w -> ends r ->
  (length (member_text (ind ++ gap) m ++ block_rest ind (member_text (ind ++ gap) <$> ms) 125 []) <= fuel)%nat ->
  parse_members fuel acc
    (w ++ member_text (ind ++ gap) m ++ block_rest ind (member_text (ind ++ gap) <$> ms) 125 r) =
  Some (acc ++ m :: ms, r).
Proof.
  intros Hi. assert (blank (ind ++ gap)) as Hig by by apply Forall_app.
  induction ms as [|m' ms IH]; intros [k v] acc [|fuel] w r Hms Hk Hx Hn Hw Hr Hf;
    rewrite length_app, length_block_rest in Hf; cbn [length] in Hf; try lia;
    apply Forall_cons in Hms as [Hv Hms]; apply Forall_cons in Hk as [Hku Hk];
    apply Forall_cons in Hx as [Hki Hx]; destruct (Hv _ Hig) as (_ & _ & Hread); cbn [fst snd] in *;
    (assert (set_member acc k v = acc ++ [(k, v)]) as Hset;
     [apply set_member_fresh; [|done]; rewrite fmap_app, fmap_cons in Hn;
      apply NoDup_app in Hn as (_ & Hn & _); intros Hin; apply (Hn k Hin); left|]);
    unfold member_text at 1; cbn [fst snd]; rewrite <- !app_assoc;
    unfold member_text in Hf at 1; rewrite !length_app in Hf; cbn [fst snd] in Hf.
  all: match goal with |- context [json_colon gap ++ ?s] =>
         destruct (parse_key k s Hku) as (rest & -> & Hp); destruct (skip_colon s) as (wc & Hc & Hwc) end.
  all: cbn [parse_members]; rewrite skip_ws_blank, skip_ws_head by done; cbn [Z.eqb Pos.eqb negb];
       rewrite Hp; cbn [mbind option_bind]; rewrite Hc, skip_ws_head by done; cbn [Z.eqb Pos.eqb negb];
       rewrite Hread by (done || lia || by apply block_rest_ends); cbn [mbind option_bind]; rewrite Hset.
  - unfold block_rest. cbn [fmap list_fmap concat app].
    rewrite skip_ws_blank by by apply line_blank. by rewrite skip_ws_head.
  - rewrite fmap_cons, block_rest_cons, skip_ws_head by done. cbn [Z.eqb Pos.eqb].
    rewrite IH; try done; [by rewrite <- app_assoc | by rewrite <- app_assoc | by apply line_blank|].
    rewrite length_app, length_block_rest. rewrite fmap_cons in Hf.
    cbn [fmap list_fmap concat] in Hf. rewrite !length_app in Hf. cbn [length] in *. lia.
Qed.

Lemma serialize_arr ind l : Forall read_back l -> blank (ind ++ gap) ->
  serialize gap ind (VArr l) = Some (json_block gap 91 93 ind (text (ind ++ gap) <$> l)).
Proof.
  intros Hl Hi. simpl. do 2 f_equal. induction Hl as [|x l Hx _ IH]; [done|].
  destruct (Hx _ Hi) as (Hs & _). rewrite fmap_cons, Hs, IH. done.
Qed.

Lemma serialize_obj ind ms : Forall (fun m => read_back m.2) ms -> blank (ind ++ gap) ->
  serialize gap ind (VObj ms) = Some (json_block gap 123 125 ind (member_text (ind ++ gap) <$> ms)).
Proof.
  intros Hl Hi. simpl. do 2 f_equal. induction Hl as [|[k x] ms Hx _ IH]; [done|].
  destruct (Hx _ Hi) as (Hs & _). cbn [snd] in Hs. rewrite fmap_cons, IH.
  unfold member_text at 1. cbn [fst snd]. by rewrite Hs.
Qed.

Lemma read_back_num x : reads_back x -> read_back (VNum x).
Proof.
  intros [Hx Hp] ind Hi. cbn [serialize from_option id]. rewrite Hx. split; [done|].
  destruct (num_to_string x) as [|c s] eqn:E; [done|]. pose proof (parse_number_head _ _ _ Hp) as Hc.
  assert (json_ws c = false /\ c <> 34 /\ c <> 91 /\ c <> 93 /\ c <> 123 /\ c <> 110 /\ c <> 116 /\ c <> 102) as Hh.
  { unfold is_digit in Hc. destruct Hc as [->|Hc]; [done|].
    apply andb_true_iff in Hc as [H1%Z.leb_le H2%Z.leb_le]. split; [|lia].
    unfold json_ws. repeat (rewrite (proj2 (Z.eqb_neq _ _)) by lia). done. }
  destruct Hh as (Hw & Hq & Hb & Hb' & Ho & Hn & Ht & Hf'). split; [done|].
  intros [|fuel] w r Hbw Hr Hf; [simpl in Hf; lia|]. cbn [parse_value].
  rewrite skip_ws_blank by done. change ((c :: s) ++ r) with (c :: s ++ r).
  rewrite skip_ws_head by done. repeat (rewrite (proj2 (Z.eqb_neq c _)) by done).
  change (c :: s ++ r) with ((c :: s) ++ r). rewrite (parse_number_app _ _ _ Hr Hp). done.
Qed.

Lemma read_back_str s : units s -> read_back (VStr s).
Proof.
  intros Hs ind Hi. split; [done|]. split; [done|]. intros [|fuel] w r Hw Hr Hf; [simpl in Hf; lia|].
  cbn [parse_value serialize from_option id]. rewrite skip_ws_blank by done. unfold quote_string. rewrite <- !app_assoc.
  change (u "`" ++ ?x) with (34 :: x). rewrite skip_ws_head by done. cbn [Z.eqb Pos.eqb].
  change (u "`" ++ r) with (34 :: r).
  rewrite parse_string; [done | done|]. rewrite length_app. pose proof (length_escape_string s false). lia.
Qed.

Lemma read_back_arr l : Forall read_back l -> read_back (VArr l).
Proof.
  intros Hl ind Hi. assert (blank (ind ++ gap)) as Hig by by apply Forall_app.
  rewrite serialize_arr by done. cbn [from_option id]. split; [done|]. destruct l as [|x l].
  { split; [done|]. intros [|fuel] w r Hw Hr Hf; [simpl in Hf; lia|].
    cbn [parse_value]. by rewrite skip_ws_blank. }
  split; [done|]. intros [|fuel] w r Hw Hr Hf; [simpl in Hf; lia|]. rewrite fmap_cons in *.
  rewrite <- (app_nil_r (json_block _ _ _ _ _)), block_text in Hf. rewrite block_text.
  cbn [parse_value]. rewrite skip_ws_blank, skip_ws_head by done. cbn [Z.eqb Pos.eqb].
  destruct (Forall_inv Hl _ Hig) as (_ & Ho & _).
  rewrite bool_decide_false.
  2: { rewrite skip_ws_blank by by apply line_blank. destruct (text (ind ++ gap) x) as [|c t]; [done|].
       destruct Ho as [Hc1 Hc2]. rewrite <- app_comm_cons, skip_ws_head by done. simpl. congruence. }
  rewrite (parse_elems_text ind Hi); [done | done | by apply line_blank | done|].
  cbn [length] in Hf. rewrite length_app in Hf. lia.
Qed.

Lemma read_back_obj ms : json_ok (VObj ms) -> Forall (fun m => read_back m.2) ms -> read_back (VObj ms).
Proof.
  intros (Hn & Hk & Hu & _)%json_ok_obj Hl ind Hi. assert (blank (ind ++ gap)) as Hig by by apply Forall_app.
  rewrite serialize_obj by done. cbn [from_option id]. split; [done|]. destruct ms as [|m ms].
  { split; [done|]. intros [|fuel] w r Hw Hr Hf; [simpl in Hf; lia|].
    cbn [parse_value]. by rewrite skip_ws_blank. }
  split; [done|]. intros [|fuel] w r Hw Hr Hf; [simpl in Hf; lia|]. rewrite fmap_cons in *.
  rewrite <- (app_nil_r (json_block _ _ _ _ _)), block_text in Hf. rewrite block_text.
  cbn [parse_value]. rewrite skip_ws_blank, skip_ws_head by done. cbn [Z.eqb Pos.eqb].
  rewrite bool_decide_false by (rewrite skip_ws_blank by (by apply line_blank); done).
  rewrite (parse_members_text ind Hi); [done | done | done | done | done | by apply line_blank | done|].
  cbn [length] in Hf. rewrite length_app in Hf. lia.
Qed.

Lemma json_ok_reads v : json_ok v -> read_back v.
Proof.
  induction v as [| |b|x|s|l IH|ms IH|f] using value_ind'; intros Hv; try done.
  - intros ind _. split; [done|]. split; [done|]. intros [|fuel] w r Hw _ Hf; [simpl in Hf; lia|].
    cbn [parse_value]. by rewrite skip_ws_blank.
  - intros ind _. split; [done|]. split; [by destruct b|].
    intros [|fuel] w r Hw _ Hf; [destruct b; simpl in Hf; lia|].
    cbn [parse_value]. rewrite skip_ws_blank by done. by destruct b.
  - by apply read_back_num.
  - by apply read_back_str.
  - apply read_back_arr. apply json_ok_arr in Hv. rewrite Forall_forall in *. eauto.
  - apply read_back_obj; [done|]. apply json_ok_obj in Hv as (_ & _ & _ & Hv).
    rewrite Forall_forall in *. eauto.
Qed.

Lemma parse_serialize v : json_ok v ->
  exists t, serialize gap [] v = Some t /\ json_parse t = Ok v.
Proof.
  intros Hv. destruct (json_ok_reads v Hv [] (Forall_nil_2 _)) as (Hs & _ & Hr).
  exists (text [] v). split; [exact Hs|]. unfold json_parse.
  specialize (Hr (2 * length (text [] v) + 2)%nat [] [] (Forall_nil_2 _) I). rewrite app_nil_r in Hr.
  cbn [app] in Hr. rewrite Hr by lia. done.
Qed.
End roundtrip.

(** A text of [JSON.stringify], indented or not, parses to the value it came from. *)
Lemma parse_stringify v : json_ok v -> json_parse (stringify v) = Ok v.
Proof.
  intros H. unfold stringify. by destruct (parse_serialize [] (Forall_nil_2 _) v H) as (t & -> & ?).
Qed.

Lemma parse_stringify2 v : json_ok v -> json_parse (stringify2 v) = Ok v.
Proof.
  intros H. unfold stringify2.
  destruct (parse_serialize (u "  ") ltac:(by repeat constructor) v H) as (t & -> & ?). done.
Qed.

(** The same with a final line break. *)
Lemma parse_stringify2_line v : json_ok v -> json_parse (stringify2 v ++ [10]) = Ok v.
Proof.
  intros H. destruct (json_ok_reads (u "  ") ltac:(by repeat constructor) v H [] (Forall_nil_2 _))
    as (Hs & _ & Hr).
  unfold stringify2. rewrite Hs. cbn [from_option id]. set (t := default [] _) in *.
  unfold json_parse. change (t ++ [10]) with ([] ++ t ++ [10]).
  rewrite (Hr _ [] [10]); [done | done | by split_and!|]. simpl. rewrite length_app. lia.
Qed.

(** A check for concrete values. *)
Fixpoint json_okb (v : value) : bool :=
  match v with
  | VUndef | VNative _ => false
  | VNull | VBool _ => true
  | VNum x => is_finite x && bool_decide (parse_number (num_to_string x) = Some (x, []))
  | VStr s => forallb (fun c => (0 <=? c) && (c <? 65536)) s
  | VArr l => forallb json_okb l
  | VObj ms =>
      bool_decide (NoDup ms.*1) && forallb (fun k => bool_decide (key_index k = None)) ms.*1 &&
      forallb (forallb (fun c => (0 <=? c) && (c <? 65536))) ms.*1 && forallb (fun m => json_okb m.2) ms
  end.

Lemma forallb_Forall' {A} (f : A -> bool) (P : A -> Prop) l :
  (forall x, f x = true -> P x) -> forallb f l = true -> Forall P l.
Proof.
  intros Hf. induction l as [|x l IH]; simpl; [done|]. intros [H1 H2]%andb_true_iff. constructor; auto.
Qed.

Lemma unitsb_units s : forallb (fun c => (0 <=? c) && (c <? 65536)) s = true -> units s.
Proof. apply forallb_Forall'. intros c [H1%Z.leb_le H2%Z.ltb_lt]%andb_true_iff. lia. Qed.

Lemma json_okb_ok v : json_okb v = true -> json_ok v.
Proof.
  induction v as [| |b|x|s|l IH|ms IH|f] using value_ind'; try done; cbn [json_okb].
  - intros [H1 H2%bool_decide_eq_true]%andb_true_iff. by split.
  - apply unitsb_units.
  - intros H. apply json_ok_arr. induction IH as [|x l Hx _ IHl]; [done|].
    apply andb_true_iff in H as [H1 H2]. constructor; auto.
  - intros [[[H1%bool_decide_eq_true H2]%andb_true_iff H3]%andb_true_iff H4]%andb_true_iff.
    apply json_ok_obj. split_and!; [done| | |].
    + revert H2. apply forallb_Forall'. intros k. apply bool_decide_eq_true.
    + revert H3. apply forallb_Forall'. apply unitsb_units.
    + clear H1 H2 H3. induction IH as [|x l Hx _ IHl]; [done|].
      apply andb_true_iff in H4 as [H1 H2]. constructor; auto.
Qed.
