(* ===== verification/JsFuel.v ===== *)
(** The fuel of [JSON.parse] is enough: with more of it the parser gives the
    same answer, so a text is refused for its syntax and never for want of fuel. *)

From S2P Require Import Prelude JsNumber JsValue JsText.

(** ** Every parser leaves a shorter text *)

Lemma skip_ws_length s : (length (skip_ws s) <= length s)%nat.
Proof. unfold skip_ws. induction s as [|c s IH]; cbn; [done|]. destruct (json_ws c); cbn; lia. Qed.

Lemma strip_prefix_length p : forall s r, strip_prefix p s = Some r -> (length r <= length s)%nat.
Proof.
  induction p as [|a p IH]; intros [|b s] r E; cbn in E; try done; [by injection E as <-|by injection E as <-|].
  destruct (a =? b); [|done]. apply IH in E. cbn. lia.
Qed.

Lemma hex_value4_length s x r : hex_value4 s = Some (x, r) -> (length r <= length s)%nat.
Proof.
  unfold hex_value4. destruct s as [|a [|b [|c [|d s]]]]; try done.
  destruct (radix_value 16 0 [a; b; c; d]); [|done]. intros [= _ <-]. cbn. lia.
Qed.

Lemma span_digits_length s l r : span_digits s = (l, r) -> (length r + length l = length s)%nat.
Proof.
  revert l r. induction s as [|c s IH]; intros l r; cbn; [by intros [= <- <-]|].
  destruct (is_digit c); [|intros [= <- <-]; cbn; lia].
  destruct (span_digits s) as [l' r'] eqn:E. intros [= <- <-]. specialize (IH _ _ eq_refl). cbn. lia.
Qed.

Lemma parse_chars_length fuel : forall s t r, parse_chars fuel s = Some (t, r) -> (length r < length s)%nat.
Proof.
  induction fuel as [|fuel IH]; intros s t r E; [done|]. destruct s as [|c s]; [done|].
  assert (forall (x : Z) s' t r, ('(t, r) ← parse_chars fuel s'; Some (x :: t, r)) = Some (t, r) ->
    (length r < length s')%nat) as Hmore.
  { intros x s' t' r' E'. apply bind_Some in E' as ([t1 r1] & E' & [= _ <-]). by apply IH in E'. }
  cbn [parse_chars] in E. cbv zeta in E. case_if_in E; [injection E as _ <-; cbn; lia|].
  case_if_in E; [done|]. case_if_in E; [|apply Hmore in E; cbn; lia].
  destruct s as [|e s]; [done|]. repeat (case_if_in E; [apply Hmore in E; cbn; lia|]).
  case_if_in E; [|done]. apply bind_Some in E as ([x r'] & Ex%hex_value4_length & E).
  apply Hmore in E. cbn. lia.
Qed.

Lemma json_fraction_length s l r : json_fraction s = Some (l, r) -> (length r <= length s)%nat.
Proof.
  unfold json_fraction. destruct s as [|c s]; [by intros [= _ <-]|]. case_if; [|by intros [= _ <-]].
  destruct (span_digits s) as [[|d l'] r'] eqn:E; [done|]. intros [= <- <-].
  apply span_digits_length in E. cbn in *. lia.
Qed.

Lemma sign_prefix_length s b r : sign_prefix s = (b, r) -> (length r <= length s)%nat.
Proof. unfold sign_prefix. destruct s as [|c s]; [by intros [= _ <-]|]. repeat case_if; intros [= _ <-]; cbn; lia. Qed.

Lemma json_exponent_length s e r : json_exponent s = Some (e, r) -> (length r <= length s)%nat.
Proof.
  unfold json_exponent. destruct s as [|c s]; [by intros [= _ <-]|]. case_if; [|by intros [= _ <-]].
  destruct (sign_prefix s) as [b t] eqn:Es. apply sign_prefix_length in Es.
  destruct (span_digits t) as [[|d l'] r'] eqn:E; [done|]. intros [= _ <-].
  apply span_digits_length in E. cbn in *. lia.
Qed.

Lemma parse_unsigned_length neg s x r : parse_unsigned neg s = Some (x, r) -> (length r < length s)%nat.
Proof.
  unfold parse_unsigned. destruct (span_digits s) as [[|d ds] t] eqn:E; [done|]. case_if; [done|].
  intros H. apply bind_Some in H as ([fp r1] & H1%json_fraction_length & H).
  apply bind_Some in H as ([e r2] & H2%json_exponent_length & [= _ <-]).
  apply span_digits_length in E. cbn in *. lia.
Qed.

Lemma parse_number_length s x r : parse_number s = Some (x, r) -> (length r < length s)%nat.
Proof.
  unfold parse_number. destruct s as [|c t]; [done|]. case_if; intros H%parse_unsigned_length; cbn in *; lia.
Qed.

Lemma tail_length (s : jsstr) : (length (tail s) <= length s)%nat.
Proof. destruct s; cbn; lia. Qed.

Definition shrinks {A} (parse : jsstr -> option (A * jsstr)) : Prop :=
  forall s a r, parse s = Some (a, r) -> (length r < length s)%nat.

Lemma skip_ws_cons s c r : skip_ws s = c :: r -> (length r < length s)%nat.
Proof. intros E. pose proof (skip_ws_length s) as H. rewrite E in H. cbn in H. lia. Qed.

Lemma parse_shrinks fuel : shrinks (parse_value fuel) /\ shrinks (parse_elems fuel) /\
  forall ms, shrinks (parse_members fuel ms).
Proof.
  induction fuel as [|fuel (IHv & IHe & IHm)]; [by split_and!|]. split_and!.
  - intros s v r E. cbn [parse_value] in E. destruct (skip_ws s) as [|c t] eqn:Es; [done|].
    apply skip_ws_cons in Es. pose proof (skip_ws_length t) as Ht.
    case_if_in E. { apply bind_Some in E as ([t' r'] & E1%parse_chars_length & [= _ <-]). lia. }
    case_if_in E. { case_if_in E; [injection E as _ <-; pose proof (tail_length (skip_ws t)); lia|].
      apply bind_Some in E as ([l r'] & E1%IHe & [= _ <-]). lia. }
    case_if_in E. { case_if_in E; [injection E as _ <-; pose proof (tail_length (skip_ws t)); lia|].
      apply bind_Some in E as ([l r'] & E1%IHm & [= _ <-]). lia. }
    do 3 (case_if_in E; [apply bind_Some in E as (r' & E1%strip_prefix_length & [= _ <-]); lia|]).
    apply bind_Some in E as ([x r'] & E1%parse_number_length & [= _ <-]). cbn in E1. lia.
  - intros s l r E. cbn [parse_elems] in E. apply bind_Some in E as ([v t] & E1%IHv & E).
    destruct (skip_ws t) as [|c t'] eqn:Es; [done|]. apply skip_ws_cons in Es. case_if_in E.
    + apply bind_Some in E as ([l' r'] & E2%IHe & [= _ <-]). lia.
    + case_if_in E; [|done]. injection E as _ <-. lia.
  - intros ms s l r E. cbn [parse_members] in E. destruct (skip_ws s) as [|c t] eqn:Es; [done|].
    apply skip_ws_cons in Es. case_if_in E; [done|].
    apply bind_Some in E as ([k t1] & E1%parse_chars_length & E).
    destruct (skip_ws t1) as [|c1 t2] eqn:Es1; [done|]. apply skip_ws_cons in Es1. case_if_in E; [done|].
    apply bind_Some in E as ([v t3] & E2%IHv & E).
    destruct (skip_ws t3) as [|c2 t4] eqn:Es3; [done|]. apply skip_ws_cons in Es3. case_if_in E.
    + apply IHm in E. lia.
    + case_if_in E; [|done]. injection E as _ <-. lia.
Qed.

(** ** More fuel changes nothing *)

Lemma parse_more_fuel f : forall g, (f <= g)%nat ->
  (forall s, (2 * length s + 1 <= f)%nat -> parse_value g s = parse_value f s) /\
  (forall s, (2 * length s + 2 <= f)%nat -> parse_elems g s = parse_elems f s) /\
  (forall s ms, (2 * length s + 2 <= f)%nat -> parse_members g ms s = parse_members f ms s).
Proof.
  induction f as [|f IH]; intros g Hg; [split_and!; lia|]. destruct g as [|g]; [lia|].
  destruct (IH g) as (IHv & IHe & IHm); [lia|]. split_and!.
  - intros s Hs. cbn [parse_value]. destruct (skip_ws s) as [|c t] eqn:Es; [done|].
    apply skip_ws_cons in Es. rewrite IHe, IHm by lia. done.
  - intros s Hs. cbn [parse_elems]. rewrite IHv by lia.
    destruct (parse_value f s) as [[v t]|] eqn:Ev; [|done]. apply parse_shrinks in Ev. cbn [mbind option_bind].
    destruct (skip_ws t) as [|c t'] eqn:Es; [done|]. apply skip_ws_cons in Es. by rewrite IHe by lia.
  - intros s ms Hs. cbn [parse_members]. destruct (skip_ws s) as [|c t] eqn:Es; [done|]. apply skip_ws_cons in Es.
    case_if; [done|]. destruct (parse_chars (S (length t)) t) as [[k t1]|] eqn:Ek; [|done].
    apply parse_chars_length in Ek. cbn [mbind option_bind].
    destruct (skip_ws t1) as [|c1 t2] eqn:Es1; [done|]. apply skip_ws_cons in Es1. case_if; [done|].
    rewrite IHv by lia. destruct (parse_value f t2) as [[v t3]|] eqn:Ev; [|done]. apply parse_shrinks in Ev.
    cbn [mbind option_bind]. destruct (skip_ws t3) as [|c2 t4] eqn:Es3; [done|]. apply skip_ws_cons in Es3.
    by rewrite IHm by lia.
Qed.

Lemma parse_value_fuel f s : (2 * length s + 2 <= f)%nat -> parse_value f s = parse_value (2 * length s + 2) s.
Proof. intros Hf. apply (parse_more_fuel (2 * length s + 2) f Hf). lia. Qed.
