(* ===== verification/ExplorerFmt.v ===== *)
(** The formatting functions of the block explorers: [explorer/app.js] and
    [website/explorer/app.js] declare them with the same text.

    The definitions follow the sources; the theorems say that escaped text
    carries no markup and can be read back, and that amounts of an asset are
    shown exactly. *)

From Stdlib Require Import SpecFloat.
From S2P Require Import Prelude JsNumber JsValue Html JsText.

(** [const atomic = 100_000_000_000]. *)
Definition atomic : num := num_of_Z 100000000000.

(** The replacement callback of [escapeHtml] on one code unit. *)
Definition escape_char (c : Z) : jsstr :=
  if c =? 38 then u "&amp;"
  else if c =? 60 then u "&lt;"
  else if c =? 62 then u "&gt;"
  else if c =? 39 then u "&#39;"
  else if c =? 34 then u "&quot;"
  else [c].

Definition escape_str (s : jsstr) : jsstr := concat (escape_char <$> s).

Definition escapeHtml (v : value) : res jsstr :=
  s ← to_string (vcoalesce v (VStr [])); Ok (escape_str s).

(** [hash.slice(0, size)] and [hash.slice(-8)] exist on strings and arrays. *)
Definition shortHash (hash : value) (size : nat) : res jsstr :=
  if truthy hash then
    match hash with
    | VStr s => Ok (take size s ++ u "…" ++ drop (length s - 8) s)
    | VArr l =>
        a ← to_string (VArr (take size l));
        b ← to_string (VArr (drop (length l - 8) l));
        Ok (a ++ u "…" ++ b)
    | _ => Err ETypeError
    end
  else Ok (u "—").

Definition xmz (v : value) : res jsstr :=
  x ← to_number (vor v (VNum nzero));
  Ok (format_num 11 (ndiv x atomic) ++ u " XMZ").

(** [locale_date ms] is [new Date(ms).toLocaleString()] in the reader's locale
    and time zone. *)
Definition date (locale_date : num -> jsstr) (timestamp : value) : res jsstr :=
  if truthy timestamp then x ← to_number timestamp; Ok (locale_date (nmul x (num_of_Z 1000)))
  else Ok (u "—").

(** The text for a number of seconds. *)
Definition age_text (seconds : num) : jsstr :=
  if nltb seconds (num_of_Z 60) then num_to_string seconds ++ u "s ago"
  else if nltb seconds (num_of_Z 3600) then
    num_to_string (math_floor (ndiv seconds (num_of_Z 60))) ++ u "m ago"
  else if nltb seconds (num_of_Z 86400) then
    num_to_string (math_floor (ndiv seconds (num_of_Z 3600))) ++ u "h ago"
  else num_to_string (math_floor (ndiv seconds (num_of_Z 86400))) ++ u "d ago".

(** [now] is [Date.now()], in milliseconds. *)
Definition age (now : num) (timestamp : value) : res jsstr :=
  t ← to_number timestamp;
  Ok (age_text (math_max nzero (math_floor (nsub (ndiv now (num_of_Z 1000)) t)))).

Definition datum (label : jsstr) (v : res jsstr) : res jsstr :=
  value ← v;
  cat [Ok (u "<div class=`datum`><span>"); escapeHtml (VStr label); Ok (u "</span>"); Ok value;
       Ok (u "</div>")].

(** [const assetClasses = {1: ..., 2: ..., 3: ..., 4: ...}], with what the
    object inherits from [Object.prototype]. *)
Definition object_methods : list jsstr :=
  [u "constructor"; u "hasOwnProperty"; u "isPrototypeOf"; u "propertyIsEnumerable";
   u "toLocaleString"; u "toString"; u "valueOf"; u "__defineGetter__"; u "__defineSetter__";
   u "__lookupGetter__"; u "__lookupSetter__"].

Definition assetClasses (k : value) : res value :=
  s ← to_string k;
  Ok (if str_eqb s (u "1") then VStr (u "Fungible token")
      else if str_eqb s (u "2") then VStr (u "NFT")
      else if str_eqb s (u "3") then VStr (u "Collection")
      else if str_eqb s (u "4") then VStr (u "Edition")
      else if str_eqb s (u "__proto__") then VObj []
      else if str_eqb s (u "constructor") then VNative (u "Object")
      else if bool_decide (s ∈ object_methods) then VNative s
      else VUndef).

(** [Math.max(0, Math.min(255, x || 0))]. *)
Definition asset_places (x : num) : num :=
  math_max nzero (math_min (num_of_Z 255) (if num_truthy x then x else nzero)).

(** [assetAmount]: the body of the [try] block, then the function. *)
Definition assetAmount_try (v decimals : value) : res jsstr :=
  d ← to_number decimals;
  let places := asset_places d in
  raw ← to_bigint (vor v (VNum nzero));
  if negb (num_truthy places) then Ok (dec raw)
  else
    p ← to_bigint (VNum places);
    let scale := 10 ^ p in
    let fraction := strip_zeros (pad_zeros (Z.to_nat p) (dec (Z.rem raw scale))) in
    Ok (dec (Z.quot raw scale) ++ (match fraction with [] => [] | _ => u "." ++ fraction end)).

Definition assetAmount (v decimals : value) : res jsstr :=
  let decimals := match decimals with VUndef => VNum nzero | d => d end in
  rcatch (assetAmount_try v decimals)
         (fun _ => to_string (vcoalesce v (VStr (u "—")))).

(** ** Escaped text *)

Lemma escape_char_inert c : inert (escape_char c).
Proof.
  unfold escape_char. repeat (case_if; [done|]).
  unfold inert. simpl. unfold inert_unit. by rewrite Heqb0, Heqb3.
Qed.

Lemma escape_str_inert s : inert (escape_str s).
Proof.
  unfold escape_str. induction s as [|c s IH]; csimpl; [done|].
  apply inert_app; [apply escape_char_inert | done].
Qed.

Lemma escapeHtml_inert v : rpost inert (escapeHtml v).
Proof.
  unfold escapeHtml. eapply rpost_bind; [apply rpost_True|]. intros s _. apply escape_str_inert.
Qed.

(** Character references as a browser decodes them, for the five references
    that [escapeHtml] writes. *)
Fixpoint unescape (fuel : nat) (s : jsstr) : jsstr :=
  match fuel, s with
  | O, _ | _, [] => []
  | S fuel, c :: r =>
      match strip_prefix (u "&amp;") s, strip_prefix (u "&lt;") s, strip_prefix (u "&gt;") s,
            strip_prefix (u "&#39;") s, strip_prefix (u "&quot;") s with
      | Some t, _, _, _, _ => 38 :: unescape fuel t
      | _, Some t, _, _, _ => 60 :: unescape fuel t
      | _, _, Some t, _, _ => 62 :: unescape fuel t
      | _, _, _, Some t, _ => 39 :: unescape fuel t
      | _, _, _, _, Some t => 34 :: unescape fuel t
      | _, _, _, _, _ => c :: unescape fuel r
      end
  end.

Definition decode_text (s : jsstr) : jsstr := unescape (length s) s.

Lemma strip_prefix_ne a p c s : c <> a -> strip_prefix (a :: p) (c :: s) = None.
Proof. intros H. unfold strip_prefix. by rewrite (proj2 (Z.eqb_neq a c)) by congruence. Qed.

Lemma unescape_plain fuel c r : c <> 38 -> unescape (S fuel) (c :: r) = c :: unescape fuel r.
Proof.
  intros H. change (unescape (S fuel) (c :: r)) with
    (match strip_prefix (38 :: u "amp;") (c :: r), strip_prefix (38 :: u "lt;") (c :: r),
       strip_prefix (38 :: u "gt;") (c :: r), strip_prefix (38 :: u "#39;") (c :: r),
       strip_prefix (38 :: u "quot;") (c :: r) with
     | Some t, _, _, _, _ => 38 :: unescape fuel t
     | _, Some t, _, _, _ => 60 :: unescape fuel t
     | _, _, Some t, _, _ => 62 :: unescape fuel t
     | _, _, _, Some t, _ => 39 :: unescape fuel t
     | _, _, _, _, Some t => 34 :: unescape fuel t
     | _, _, _, _, _ => c :: unescape fuel r
     end).
  by rewrite !strip_prefix_ne.
Qed.

Lemma unescape_escape s : forall fuel,
  (length (escape_str s) <= fuel)%nat -> unescape fuel (escape_str s) = s.
Proof.
  induction s as [|c s IH]; intros fuel Hf; [by destruct fuel|].
  unfold escape_str in *. csimpl in *. rewrite length_app in Hf.
  unfold escape_char in *.
  destruct (c =? 38) eqn:E1; [|destruct (c =? 60) eqn:E2; [|destruct (c =? 62) eqn:E3;
    [|destruct (c =? 39) eqn:E4; [|destruct (c =? 34) eqn:E5]]]];
  (destruct fuel as [|fuel]; [simpl in Hf; lia|]);
  try (simpl in *; rewrite IH by lia; f_equal; lia).
  simpl app. rewrite unescape_plain by lia. simpl in Hf. by rewrite IH by lia.
Qed.

(** What a reader sees of escaped text is the text itself. *)
Lemma decode_escape s : decode_text (escape_str s) = s.
Proof. by apply unescape_escape. Qed.

(** C16: text passed through [escapeHtml] holds no angle bracket and no quote,
    and a browser that decodes the character references shows exactly the
    string the value converts to; the conversion fails only where [String]
    itself throws. *)
Theorem escapeHtml_faithful v :
  match escapeHtml v with
  | Ok t => Forall (fun c => c <> 60 /\ c <> 62 /\ c <> 34 /\ c <> 39) t /\
            to_string (vcoalesce v (VStr [])) = Ok (decode_text t)
  | Err e => to_string (vcoalesce v (VStr [])) = Err e
  end.
Proof.
  unfold escapeHtml. destruct (to_string _) as [s|e]; simpl; [|done].
  rewrite decode_escape. split; [|done]. unfold escape_str.
  induction s as [|c s IH]; csimpl; [constructor|]. apply Forall_app; split; [|done].
  unfold escape_char. repeat (case_if; [repeat constructor; done|]).
  repeat constructor; lia.
Qed.

(** ** Amounts of an asset *)

(** [s] is the decimal notation of [raw / 10^d]. *)
Definition denotes (s : jsstr) (raw d : Z) : Prop :=
  exists m k, unsigned_decimal false s = XDec false m (- k) /\ 0 <= k /\ m * 10 ^ d = raw * 10 ^ k.

Lemma places_spec d : 0 <= d <= 255 ->
  num_to_Z (asset_places (num_of_Z d)) = Some d /\ num_truthy (asset_places (num_of_Z d)) = negb (d =? 0).
Proof.
  intros Hd.
  assert (forallb (fun n => bool_decide (num_to_Z (asset_places (num_of_Z (Z.of_nat n))) = Some (Z.of_nat n))
            && Bool.eqb (num_truthy (asset_places (num_of_Z (Z.of_nat n)))) (negb (Z.of_nat n =? 0))) (seq 0 256)
          = true) as H by (vm_compute; reflexivity).
  rewrite forallb_forall in H. specialize (H (Z.to_nat d)).
  rewrite Z2Nat.id in H by lia. apply andb_true_iff in H as [H1 H2].
  - split; [by apply bool_decide_eq_true in H1 | by apply Bool.eqb_prop].
  - apply in_seq. lia.
Qed.

Lemma denotes_int n d : 0 <= n -> d = 0 -> denotes (dec n) n d.
Proof.
  intros Hn ->. exists n, 0. unfold dec. rewrite (proj2 (Z.ltb_ge n 0)) by lia.
  unfold dec_nonneg. rewrite unsigned_decimal_int, digits_value_digits by
    auto using digits_nonempty, digits_ok. split_and!; lia || done.
Qed.

(** For every value that [BigInt] reads as a non-negative integer [raw] and
    every number of decimals from 0 to 255, [assetAmount] returns the decimal
    notation of [raw / 10^decimals], exactly. *)
Theorem assetAmount_exact v raw d :
  to_bigint (vor v (VNum nzero)) = Ok raw -> 0 <= raw -> 0 <= d <= 255 ->
  exists s, assetAmount v (VNum (num_of_Z d)) = Ok s /\ denotes s raw d.
Proof.
  intros Hv Hr Hd. destruct (places_spec d Hd) as [Hp Ht].
  unfold assetAmount, assetAmount_try, to_number, mbind, res_bind. rewrite Hv, Ht, negb_involutive.
  destruct (d =? 0) eqn:E0; [eexists; split; [done|]; apply denotes_int; lia|].
  unfold to_bigint. rewrite Hp. simpl rcatch. eexists; split; [done|].
  assert (0 < 10 ^ d) as Hs by (apply Z.pow_pos_nonneg; lia).
  pose proof (Z.rem_bound_pos raw (10 ^ d) Hr Hs) as Hrem.
  pose proof (Z.quot_pos raw (10 ^ d) Hr Hs) as Hquot.
  pose proof (Z.quot_rem' raw (10 ^ d)) as Hqr.
  unfold dec. rewrite !(proj2 (Z.ltb_ge _ 0)) by lia.
  destruct (pad_zeros_digits (Z.to_nat d) (Z.rem raw (10 ^ d))) as (ds & -> & Hl & Hok & Hval);
    [lia | rewrite Z2Nat.id by lia; lia |].
  destruct (strip_zeros_digits ds Hok) as (fs & k & -> & Hfs & Hlen & Hfv).
  set (q := raw ÷ 10 ^ d) in *. unfold dec_nonneg.
  assert (d = Z.of_nat (length fs) + Z.of_nat k) as -> by lia.
  rewrite Z.pow_add_r in * by lia.
  exists (digits_value (digits q ++ fs)), (Z.of_nat (length fs)). split_and!; [|lia|].
  - destruct fs as [|f fs].
    + csimpl. rewrite app_nil_r, app_nil_r.
      apply unsigned_decimal_int; auto using digits_nonempty, digits_ok.
    + apply (unsigned_decimal_frac false (digits q) (f :: fs));
        auto using digits_nonempty, digits_ok.
  - rewrite digits_value_app, digits_value_digits by done.
    rewrite <- Hval, Hfv in Hqr. clearbody q. rewrite Hqr, Z.pow_add_r by lia. ring.
Qed.

Lemma assetAmount_exact_witness :
  exists s, assetAmount (VStr (u "1234500")) (VNum (num_of_Z 4)) = Ok s /\ denotes s 1234500 4.
Proof. apply (assetAmount_exact _ 1234500 4); [vm_compute; reflexivity | lia | lia]. Defined.

Example assetAmount_sample :
  assetAmount (VStr (u "1234500")) (VNum (num_of_Z 4)) = Ok (u "123.45").
Proof. vm_compute. reflexivity. Qed.
