(* ===== verification/ExplorerCore.v ===== *)
(** The block explorer: page state, rendering and handlers.

    [explorer/app.js] and [website/explorer/app.js] are two versions of one
    program.  They share this file's text except at the interpolations the
    second version escapes, and in [updateStats]; both are parameters here
    ([interp], [refreshStats]), instantiated in [Explorer] and [SiteExplorer]. *)

From Stdlib Require Import SpecFloat.
From S2P Require Import Prelude JsNumber JsValue Html JsText ExplorerFmt Async.

(** ** The page *)

(** Content of [#view]: markup, or a copy of the error template with the text
    of its paragraph. *)
Inductive view :=
| ViewHtml (html : jsstr)
| ViewError (text : jsstr).

(** The elements the scripts write, the variable [chainInfo], the URL fragment
    with the number of [hashchange] events still to be delivered, and the
    clock.  [p_refresh] tells whether the refresh button has its listener. *)
Record page := Page {
  p_view : view;
  p_title : jsstr;
  p_refresh : bool;
  p_height : jsstr;
  p_difficulty : jsstr;
  p_hashrate : jsstr;
  p_transactions : jsstr;
  p_connections : jsstr;
  p_connections_title : jsstr;
  p_label : jsstr;
  p_dot : jsstr;
  p_chain : value;
  p_hash : jsstr;
  p_hashchanges : nat;
  p_now : num
}.

Definition set_view (x : view) (p : page) : page :=
  Page x (p_title p) (p_refresh p) (p_height p) (p_difficulty p) (p_hashrate p) (p_transactions p)
    (p_connections p) (p_connections_title p) (p_label p) (p_dot p) (p_chain p) (p_hash p)
    (p_hashchanges p) (p_now p).
(** New markup in [.section-title] replaces the button and its listener. *)
Definition set_title (x : jsstr) (p : page) : page :=
  Page (p_view p) x false (p_height p) (p_difficulty p) (p_hashrate p) (p_transactions p)
    (p_connections p) (p_connections_title p) (p_label p) (p_dot p) (p_chain p) (p_hash p)
    (p_hashchanges p) (p_now p).
Definition set_refresh (x : bool) (p : page) : page :=
  Page (p_view p) (p_title p) x (p_height p) (p_difficulty p) (p_hashrate p) (p_transactions p)
    (p_connections p) (p_connections_title p) (p_label p) (p_dot p) (p_chain p) (p_hash p)
    (p_hashchanges p) (p_now p).
Definition set_height (x : jsstr) (p : page) : page :=
  Page (p_view p) (p_title p) (p_refresh p) x (p_difficulty p) (p_hashrate p) (p_transactions p)
    (p_connections p) (p_connections_title p) (p_label p) (p_dot p) (p_chain p) (p_hash p)
    (p_hashchanges p) (p_now p).
Definition set_difficulty (x : jsstr) (p : page) : page :=
  Page (p_view p) (p_title p) (p_refresh p) (p_height p) x (p_hashrate p) (p_transactions p)
    (p_connections p) (p_connections_title p) (p_label p) (p_dot p) (p_chain p) (p_hash p)
    (p_hashchanges p) (p_now p).
Definition set_hashrate (x : jsstr) (p : page) : page :=
  Page (p_view p) (p_title p) (p_refresh p) (p_height p) (p_difficulty p) x (p_transactions p)
    (p_connections p) (p_connections_title p) (p_label p) (p_dot p) (p_chain p) (p_hash p)
    (p_hashchanges p) (p_now p).
Definition set_transactions (x : jsstr) (p : page) : page :=
  Page (p_view p) (p_title p) (p_refresh p) (p_height p) (p_difficulty p) (p_hashrate p) x
    (p_connections p) (p_connections_title p) (p_label p) (p_dot p) (p_chain p) (p_hash p)
    (p_hashchanges p) (p_now p).
Definition set_connections (x : jsstr) (p : page) : page :=
  Page (p_view p) (p_title p) (p_refresh p) (p_height p) (p_difficulty p) (p_hashrate p)
    (p_transactions p) x (p_connections_title p) (p_label p) (p_dot p) (p_chain p) (p_hash p)
    (p_hashchanges p) (p_now p).
Definition set_connections_title (x : jsstr) (p : page) : page :=
  Page (p_view p) (p_title p) (p_refresh p) (p_height p) (p_difficulty p) (p_hashrate p)
    (p_transactions p) (p_connections p) x (p_label p) (p_dot p) (p_chain p) (p_hash p)
    (p_hashchanges p) (p_now p).
Definition set_label (x : jsstr) (p : page) : page :=
  Page (p_view p) (p_title p) (p_refresh p) (p_height p) (p_difficulty p) (p_hashrate p)
    (p_transactions p) (p_connections p) (p_connections_title p) x (p_dot p) (p_chain p) (p_hash p)
    (p_hashchanges p) (p_now p).
Definition set_dot (x : jsstr) (p : page) : page :=
  Page (p_view p) (p_title p) (p_refresh p) (p_height p) (p_difficulty p) (p_hashrate p)
    (p_transactions p) (p_connections p) (p_connections_title p) (p_label p) x (p_chain p) (p_hash p)
    (p_hashchanges p) (p_now p).
Definition set_chain (x : value) (p : page) : page :=
  Page (p_view p) (p_title p) (p_refresh p) (p_height p) (p_difficulty p) (p_hashrate p)
    (p_transactions p) (p_connections p) (p_connections_title p) (p_label p) (p_dot p) x (p_hash p)
    (p_hashchanges p) (p_now p).
(** [location.hash = x]: a [hashchange] event is queued when the fragment
    changes. *)
Definition set_hash (x : jsstr) (p : page) : page :=
  Page (p_view p) (p_title p) (p_refresh p) (p_height p) (p_difficulty p) (p_hashrate p)
    (p_transactions p) (p_connections p) (p_connections_title p) (p_label p) (p_dot p) (p_chain p) x
    (if str_eqb x (p_hash p) then p_hashchanges p else S (p_hashchanges p)) (p_now p).
Definition take_hashchange (p : page) : page :=
  Page (p_view p) (p_title p) (p_refresh p) (p_height p) (p_difficulty p) (p_hashrate p)
    (p_transactions p) (p_connections p) (p_connections_title p) (p_label p) (p_dot p) (p_chain p)
    (p_hash p) (pred (p_hashchanges p)) (p_now p).
Definition set_now (x : num) (p : page) : page :=
  Page (p_view p) (p_title p) (p_refresh p) (p_height p) (p_difficulty p) (p_hashrate p)
    (p_transactions p) (p_connections p) (p_connections_title p) (p_label p) (p_dot p) (p_chain p)
    (p_hash p) (p_hashchanges p) x.

(** The paragraph of [#error-template]. *)
Definition error_text : jsstr :=
  u "The value could not be resolved on the current Monzero chain.".

(** [.section-title] as [showBlocks] writes it. *)
Definition title_blocks : jsstr :=
  u "<div><p class=`eyebrow`>Live ledger</p><h2>Recent blocks</h2></div><button id=`refresh` class=`ghost` type=`button`>Refresh</button>".
(** [.section-title] and [#view] as [index.html] delivers them. *)
Definition title_initial : jsstr :=
  u "
        <div><p class=`eyebrow`>Live ledger</p><h2>Recent blocks</h2></div>
        <button id=`refresh` class=`ghost` type=`button`>Refresh</button>
      ".
Definition view_initial : view :=
  ViewHtml (u "<div class=`loading`><span></span>Loading chain data…</div>").

Definition page_initial (hash : jsstr) (now : num) : page :=
  Page view_initial title_initial false (u "—") (u "—") (u "— H/s estimated") (u "—") (u "—") []
    (u "Connecting") [] VNull hash 0 now.

(** ** Small pieces *)

(** [v.k || 0]. *)
Definition prop_or0 (v : value) (k : jsstr) : res value :=
  x ← prop v k; Ok (vor x (VNum nzero)).

(** [number.format(v.k || 0)]. *)
Definition format_or0 (v : value) (k : jsstr) : res jsstr := prop_or0 v k ≫= number_format.

(** [number.format(Math.round((info.difficulty || 0) / (info.target || 120)))]. *)
Definition hashrate_text (info : value) : res jsstr :=
  d ← prop_or0 info (u "difficulty");
  t ← prop info (u "target");
  q ← vdiv d (vor t (VNum (num_of_Z 120)));
  n ← number_format (VNum (math_round q));
  Ok (n ++ u " H/s estimated").

(** [(info.incoming_connections_count || 0) + (info.outgoing_connections_count || 0)]. *)
Definition peer_count (info : value) : res value :=
  a ← prop_or0 info (u "incoming_connections_count");
  b ← prop_or0 info (u "outgoing_connections_count");
  vadd a b.

(** [info.status === 'OK']. *)
Definition status_is_ok (status : value) : bool :=
  match status with VStr s => str_eqb s (u "OK") | _ => false end.

(** [location.hash.replace(/^#\/?/, '').split('/').filter(Boolean)]. *)
Fixpoint split_slash (cur : jsstr) (s : jsstr) : list jsstr :=
  match s with
  | [] => [cur]
  | c :: s => if c =? 47 then cur :: split_slash [] s else split_slash (cur ++ [c]) s
  end.

Definition strip_hash (s : jsstr) : jsstr :=
  match strip_prefix (u "#/") s with
  | Some r => r
  | None => match strip_prefix (u "#") s with Some r => r | None => s end
  end.

Definition route_of (hash : jsstr) : list jsstr :=
  filter (fun s => s <> []) (split_slash [] (strip_hash hash)).

Section explorer.
(** Locale text of a date, and message text of the engine's exceptions. *)
Context (locale_date : num -> jsstr) (engine_message : exn -> jsstr).
(** How the version under study interpolates a value of the API into markup. *)
Context (interp : value -> res jsstr).
(** The call of [updateStats] in [showBlocks], and the one of the timer. *)
Context (refreshStats : value -> prog page unit) (updateStats : value -> prog page unit).

Definition message (e : exn) : jsstr :=
  match e with EError m => m | _ => engine_message e end.

Definition api (action : jsstr) (data : list (jsstr * value)) : prog page value :=
  r ← Await (QFetch (u "api.php") (Some (VObj ((u "action", VStr action) :: data)))) Ret;
  match r with
  | FReject e => Throw e
  | FResponse status =>
      j ← Await QJson Ret;
      let result := match j with Ok v => v | Err _ => VObj [] end in
      failed ← lift (if negb (status_ok status) then Ok true
                     else e ← prop result (u "error"); Ok (truthy e));
      if failed : bool then
        e ← lift (prop result (u "error"));
        m ← lift (to_string (vor e (VStr (u "HTTP " ++ dec status))));
        Throw (EError m)
      else Ret result
  end.

Definition loading (label : jsstr) : prog page unit :=
  h ← lift (cat [Ok (u "<div class=`loading`><span></span>"); escapeHtml (VStr label);
                 Ok (u "</div>")]);
  act (set_view (ViewHtml h)).

Definition showError (m : jsstr) : prog page unit :=
  act (set_view (ViewError (if bool_decide (m = []) then error_text else m))).

Definition setOffline : prog page unit :=
  act (set_dot (u "offline")) ≫= fun _ => act (set_label (u "Node unavailable")).

Definition headerTitle (kicker : value) (title : jsstr) : prog page unit :=
  h ← lift (cat [Ok (u "<div><p class=`eyebrow`>"); escapeHtml kicker; Ok (u "</p><h2>");
                 Ok title; Ok (u "</h2></div><a class=`back` href=`#/`>← Recent blocks</a>")]);
  act (set_title h).

(** *** Recent blocks *)

Definition block_row (now : num) (block : value) : res jsstr :=
  cat [Ok (u "
      <tr><td><a class=`link` href=`#/block/"); prop block (u "height") ≫= interp;
       Ok (u "`>"); prop block (u "height") ≫= number_format;
       Ok (u "</a></td><td class=`muted`>"); prop block (u "timestamp") ≫= age now;
       Ok (u "</td><td><a class=`link hash truncate` title=`"); prop block (u "hash") ≫= interp;
       Ok (u "` href=`#/block/"); prop block (u "hash") ≫= interp;
       Ok (u "`>");
       h ← prop block (u "hash"); s ← shortHash h 12; interp (VStr s);
       Ok (u "</a></td><td>"); format_or0 block (u "num_txes");
       Ok (u "</td><td class=`muted`>"); format_or0 block (u "difficulty");
       Ok (u "</td><td class=`reward`>"); prop block (u "reward") ≫= xmz;
       Ok (u "</td><td class=`muted`>");
       a ← prop block (u "block_size"); b ← prop_or0 block (u "block_weight");
         number_format (vor a b);
       Ok (u " B</td></tr>")].

Definition blocks_html (now : num) (result : value) : res jsstr :=
  cat [Ok (u "<div class=`table-wrap`><table><thead><tr><th>Height</th><th>Age</th><th>Block hash</th><th>Transactions</th><th>Difficulty</th><th>Reward</th><th>Size</th></tr></thead><tbody>");
       headers ← prop result (u "headers") ≫= as_array;
         rows ← rmap (block_row now) headers; Ok (concat rows);
       Ok (u "</tbody></table></div>")].

(** [$('#refresh')]: in [.section-title] or, failing that, in [#view]. *)
Definition refresh_exists (p : page) : bool :=
  has_id (u "refresh") (p_title p) ||
  match p_view p with ViewHtml h => has_id (u "refresh") h | ViewError _ => false end.

(** [$('#refresh').addEventListener('click', showBlocks)]. *)
Definition listen_refresh : prog page unit :=
  p ← get;
  if refresh_exists p then act (set_refresh (has_id (u "refresh") (p_title p)))
  else Throw ETypeError.

Definition showBlocks : prog page unit :=
  loading (u "Loading chain data…") ≫= fun _ =>
  act (set_title title_blocks) ≫= fun _ =>
  pcatch
    (result ← api (u "blocks") [(u "limit", VNum (num_of_Z 15))];
     refreshStats result ≫= fun _ =>
     p ← get;
     h ← lift (blocks_html (p_now p) result);
     act (set_view (ViewHtml h)) ≫= fun _ =>
     listen_refresh)
    (fun e => showError (message e) ≫= fun _ => setOffline).

(** *** Transactions *)

Definition tx_row (i : nat) (hash : value) : res jsstr :=
  cat [Ok (u "<tr><td class=`muted`>"); Ok (num_to_string (nat_num (S i)));
       Ok (u "</td><td><a class=`link hash` href=`#/tx/"); interp hash; Ok (u "`>"); interp hash;
       Ok (u "</a></td></tr>")].

(** [result.txs?.[0] || {}]. *)
Definition first_tx (result : value) : res value :=
  t ← prop result (u "txs"); x ← index_opt t 0; Ok (vor x (VObj [])).

(** The decoded transaction of a response, [{}] when it cannot be read. *)
Definition decoded_tx (result tx : value) : res value :=
  rcatch
    (a ← prop tx (u "as_json");
     j ← (if truthy a then Ok a
          else t ← prop result (u "txs_as_json"); b ← index_opt t 0;
               Ok (vor b (VStr (u "{}"))));
     s ← to_string j; json_parse s)
    (fun _ => Ok (VObj [])).

Definition tx_fee (tx decoded : value) : res value :=
  a ← prop tx (u "fee");
  if truthy a then Ok a
  else r ← prop decoded (u "rct_signatures"); b ← prop_opt r (u "txnFee");
       Ok (vor b (VNum nzero)).

(** [${decoded.version ?? '—'}]. *)
Definition tx_version (decoded : value) : res jsstr :=
  v ← prop decoded (u "version"); to_string (vcoalesce v (VStr (u "—"))).

Definition strong (v : res jsstr) : res jsstr :=
  cat [Ok (u "<strong>"); v; Ok (u "</strong>")].

Definition tx_html (hash : jsstr) (tx decoded vin vout : value) : res jsstr :=
  cat [Ok (u "<div class=`detail-grid`>
    ");
       datum (u "Transaction hash") (cat [Ok (u "<code>"); escapeHtml (VStr hash); Ok (u "</code>")]);
       Ok (u "
    ");
       datum (u "Block height")
         (b ← prop tx (u "block_height");
          if nullish b then Ok (u "<strong>Unconfirmed</strong>")
          else cat [Ok (u "<a class=`link` href=`#/block/"); interp b; Ok (u "`>"); number_format b;
                    Ok (u "</a>")]);
       Ok (u "
    ");
       datum (u "Confirmations") (strong (format_or0 tx (u "confirmations")));
       Ok (u "
    ");
       datum (u "Fee")
         (cat [Ok (u "<strong class=`orange`>"); tx_fee tx decoded ≫= xmz; Ok (u "</strong>")]);
       Ok (u "
    ");
       datum (u "Size")
         (strong (cat [a ← prop tx (u "size"); b ← prop_or0 tx (u "weight"); number_format (vor a b);
                       Ok (u " bytes")]));
       Ok (u "
    ");
       datum (u "Version") (strong (tx_version decoded));
       Ok (u "
    ");
       datum (u "Inputs") (strong (prop vin (u "length") ≫= number_format));
       Ok (u "
    ");
       datum (u "Outputs") (strong (prop vout (u "length") ≫= number_format));
       Ok (u "
    ");
       datum (u "In pool")
         (strong (b ← prop tx (u "in_pool"); Ok (if truthy b then u "Yes" else u "No")));
       Ok (u "
  </div><details class=`raw` open><summary>Decoded transaction JSON</summary><pre>");
       escapeHtml (VStr (stringify2 decoded));
       Ok (u "</pre></details>")].

Definition hash_span (v : value) : res jsstr :=
  cat [Ok (u "<span class=`truncate` title=`"); escapeHtml v; Ok (u "`>");
       s ← shortHash v 16; escapeHtml (VStr s); Ok (u "</span>")].

Definition showTransaction (hash : jsstr) : prog page unit :=
  loading (u "Loading transaction…") ≫= fun _ =>
  result ← api (u "transaction") [(u "hash", VStr hash)];
  tx ← lift (first_tx result);
  decoded ← lift (decoded_tx result tx);
  title ← lift (hash_span (VStr hash));
  headerTitle (VStr (u "Transaction")) title ≫= fun _ =>
  vin ← lift (x ← prop decoded (u "vin"); Ok (vor x (VArr [])));
  vout ← lift (x ← prop decoded (u "vout"); Ok (vor x (VArr [])));
  h ← lift (tx_html hash tx decoded vin vout);
  act (set_view (ViewHtml h)).

(** *** Assets *)

(** [assetClasses[c] || `Unknown (${c})`]. *)
Definition class_name (asset : value) : res value :=
  c ← prop asset (u "asset_class");
  n ← assetClasses c;
  if truthy n then Ok n
  else s ← to_string c; Ok (VStr (u "Unknown (" ++ s ++ u ")")).

Definition supply (asset : value) : res jsstr :=
  a ← prop asset (u "atomic_supply"); d ← prop asset (u "display_decimals");
  s ← assetAmount a d; escapeHtml (VStr s).

(** [<a class="link" href="#/block/${v.height}">#${number.format(v.height || 0)}</a>]. *)
Definition height_link (v : value) : res jsstr :=
  cat [Ok (u "<a class=`link` href=`#/block/"); prop v (u "height") ≫= interp; Ok (u "`>#");
       format_or0 v (u "height"); Ok (u "</a>")].

Definition asset_row (asset : value) : res jsstr :=
  cat [Ok (u "
        <tr><td><a class=`link hash` href=`#/asset/"); prop asset (u "asset_id") ≫= escapeHtml;
       Ok (u "`>"); (i ← prop asset (u "asset_id"); s ← shortHash i 16; interp (VStr s));
       Ok (u "</a></td><td>"); class_name asset ≫= escapeHtml;
       Ok (u "</td><td>"); supply asset;
       Ok (u "</td><td>"); height_link asset;
       Ok (u "</td><td>");
       (c ← prop asset (u "collection_id");
        Ok (if truthy c then u "<span class=`trust verified`>Controller-authorized member</span>"
            else u "<span class=`trust`>Issuer-signed descriptor</span>"));
       Ok (u "</td></tr>")].

Definition assets_notice (result : value) : res jsstr :=
  s ← prop result (u "supported");
  match s with
  | VBool false => Ok (u "<div class=`notice`><strong>Asset RPC upgrade pending</strong><p>The public explorer node does not expose the authenticated asset registry yet.</p></div>")
  | _ =>
      a ← prop result (u "active");
      Ok (if truthy a then []
          else u "<div class=`notice`><strong>Assets are inactive</strong><p>The connected network has not activated the asset hard fork. Entries shown here are authenticated development-state records, not transferable production assets.</p></div>")
  end.

Definition assets_html (result assets : value) : res jsstr :=
  cat [assets_notice result;
       Ok (u "
      ");
       (n ← prop assets (u "length");
        if truthy n then
          cat [Ok (u "<div class=`table-wrap`><table><thead><tr><th>Asset</th><th>Class</th><th>Supply</th><th>Issued at</th><th>Metadata trust</th></tr></thead><tbody>");
               (l ← as_array assets; rows ← rmap asset_row l; Ok (concat rows));
               Ok (u "</tbody></table></div>")]
        else Ok (u "<div class=`empty`><strong>No registered assets</strong><p>No authenticated issuance records are present on this network.</p></div>"));
       Ok (u "
      <p class=`registry-note`>Showing "); prop assets (u "length") ≫= number_format;
       Ok (u " of "); format_or0 result (u "total");
       Ok (u " records. External metadata is never trusted solely because its reference appears on-chain.</p>")].

Definition showAssets : prog page unit :=
  loading (u "Loading asset registry…") ≫= fun _ =>
  pcatch
    (result ← api (u "assets") [(u "offset", VNum nzero); (u "count", VNum (num_of_Z 100))];
     headerTitle (VStr (u "Authenticated registry")) (u "Assets & NFTs") ≫= fun _ =>
     assets ← lift (a ← prop result (u "assets"); Ok (vor a (VArr [])));
     h ← lift (assets_html result assets);
     act (set_view (ViewHtml h)))
    (fun e => showError (message e)).

Definition output_row (output : value) : res jsstr :=
  cat [Ok (u "<tr><td><code>");
       (i ← prop output (u "output_id"); s ← shortHash i 14; escapeHtml (VStr s));
       Ok (u "</code></td><td>"); height_link output;
       Ok (u "</td><td>"); format_or0 output (u "output_index");
       Ok (u "</td><td><code>");
       (c ← prop output (u "commitment"); s ← shortHash c 14; escapeHtml (VStr s));
       Ok (u "</code></td></tr>")].

(** [asset.metadata_content_hash && !zeroHash.test(...)], as a condition. *)
Definition has_metadata_hash (asset : value) : res bool :=
  m ← prop asset (u "metadata_content_hash");
  if truthy m then s ← to_string m; Ok (negb (re_zero_hash s)) else Ok false.

Definition code (v : value) : res jsstr :=
  cat [Ok (u "<code>"); escapeHtml v; Ok (u "</code>")].

Definition outputs_html (result : value) : res jsstr :=
  outputs ← prop result (u "outputs");
  n ← prop (vor outputs (VArr [])) (u "length");
  if truthy n then
    cat [Ok (u "<div class=`table-wrap`><table><thead><tr><th>Output ID</th><th>Height</th><th>Index</th><th>Commitment</th></tr></thead><tbody>");
         (l ← as_array outputs; rows ← rmap output_row l; Ok (concat rows));
         Ok (u "</tbody></table></div>")]
  else Ok (u "<div class=`empty`><strong>No live outputs</strong><p>No unspent confidential outputs are recorded for this asset.</p></div>").

Definition asset_html (result asset : value) (collectionAuthorized hasMetadataHash : bool)
    : res jsstr :=
  cat [(a ← prop result (u "active");
        Ok (if truthy a then [] else u "<div class=`notice`><strong>Inactive network feature</strong><p>This record is displayed for verification and development. The connected network does not currently permit active asset transactions.</p></div>"));
       Ok (u "
    <div class=`detail-grid`>
      ");
       datum (u "Asset ID") (prop asset (u "asset_id") ≫= code);
       Ok (u "
      ");
       datum (u "Class") (strong (class_name asset ≫= escapeHtml));
       Ok (u "
      ");
       datum (u "Fixed supply") (cat [Ok (u "<strong class=`big`>"); supply asset; Ok (u "</strong>")]);
       Ok (u "
      ");
       datum (u "Display decimals") (strong (format_or0 asset (u "display_decimals")));
       Ok (u "
      ");
       datum (u "Issuance height") (height_link asset);
       Ok (u "
      ");
       datum (u "Issuer key") (prop asset (u "issuer_key") ≫= code);
       Ok (u "
      ");
       datum (u "Collection authority")
         (if collectionAuthorized then
            c ← prop asset (u "collection_id");
            cat [Ok (u "<span class=`trust verified`>Controller-authorized</span><a class=`link hash` href=`#/asset/");
                 escapeHtml c; Ok (u "`>"); (s ← shortHash c 16; escapeHtml (VStr s)); Ok (u "</a>")]
          else Ok (u "<span class=`trust`>Standalone issuance</span>"));
       Ok (u "
      ");
       datum (u "Metadata content hash")
         (if hasMetadataHash then prop asset (u "metadata_content_hash") ≫= code
          else Ok (u "<strong>Not committed</strong>"));
       Ok (u "
      ");
       datum (u "External metadata reference")
         (m ← prop asset (u "metadata_reference");
          if truthy m then
            cat [code m; Ok (u "<small class=`warning`>Untrusted until downloaded content matches the signed hash.</small>")]
          else Ok (u "<strong>None</strong>"));
       Ok (u "
      ");
       datum (u "Known outputs") (strong (format_or0 result (u "output_total")));
       Ok (u "
    </div>
    <h3 class=`subheading`>Confidential outputs</h3>
    ");
       outputs_html result].

Definition showAsset (assetId : jsstr) : prog page unit :=
  loading (u "Loading asset…") ≫= fun _ =>
  result ← api (u "asset") [(u "asset_id", VStr assetId)];
  asset ← lift (a ← prop result (u "asset"); Ok (vor a (VObj [])));
  collectionAuthorized ← lift (c ← prop asset (u "collection_id"); Ok (truthy c));
  hasMetadataHash ← lift (has_metadata_hash asset);
  kicker ← lift (c ← prop asset (u "asset_class"); n ← assetClasses c;
                 Ok (vor n (VStr (u "Asset"))));
  title ← lift (prop asset (u "asset_id") ≫= hash_span);
  headerTitle kicker title ≫= fun _ =>
  h ← lift (asset_html result asset collectionAuthorized hasMetadataHash);
  act (set_view (ViewHtml h)).

(** *** One block *)

Definition tryTransaction (v : jsstr) (originalError : exn) : prog page unit :=
  if negb (re_hash v) then showError (message originalError)
  else
    pcatch (showTransaction v) (fun _ =>
    pcatch (showAsset v) (fun _ =>
    showError (u "No block, transaction, or asset matched this hash."))).

Definition txs_html (txs : value) : res jsstr :=
  n ← prop txs (u "length");
  if truthy n then
    cat [Ok (u "<div class=`table-wrap`><table><thead><tr><th>#</th><th>Transaction hash</th></tr></thead><tbody>");
         (l ← as_array txs; rows ← rmapi tx_row 0 l; Ok (concat rows));
         Ok (u "</tbody></table></div>")]
  else Ok (u "<div class=`empty`><strong>Coinbase only</strong><p>This block contains no regular transactions.</p></div>").

Definition confirmations (chain h : value) : res jsstr :=
  if truthy chain then
    a ← prop chain (u "height"); b ← prop h (u "height"); d ← vsub a b;
    number_format (VNum (math_max nzero d))
  else Ok (u "—").

(** [v${h.major_version ?? '—'}.${h.minor_version ?? '—'}]. *)
Definition block_version (h : value) : res jsstr :=
  cat [Ok (u "v");
       (v ← prop h (u "major_version"); to_string (vcoalesce v (VStr (u "—"))));
       Ok (u ".");
       (v ← prop h (u "minor_version"); to_string (vcoalesce v (VStr (u "—"))))].

Definition block_html (now : num) (chain block h txs : value) : res jsstr :=
  cat [Ok (u "<div class=`detail-grid`>
      ");
       datum (u "Block hash") (prop h (u "hash") ≫= code);
       Ok (u "
      ");
       datum (u "Timestamp")
         (strong (t ← prop h (u "timestamp"); d ← date locale_date t; escapeHtml (VStr d)));
       Ok (u "
      ");
       datum (u "Age") (strong (t ← prop h (u "timestamp"); a ← age now t; escapeHtml (VStr a)));
       Ok (u "
      ");
       datum (u "Reward")
         (cat [Ok (u "<strong class=`big`>"); prop h (u "reward") ≫= xmz; Ok (u "</strong>")]);
       Ok (u "
      ");
       datum (u "Difficulty") (strong (format_or0 h (u "difficulty")));
       Ok (u "
      ");
       datum (u "Transactions")
         (strong (n ← prop h (u "num_txes"); l ← prop txs (u "length"); number_format (vor n l)));
       Ok (u "
      ");
       datum (u "Block size")
         (strong (cat [(a ← prop h (u "block_size"); b ← prop_or0 h (u "block_weight");
                        number_format (vor a b)); Ok (u " bytes")]));
       Ok (u "
      ");
       datum (u "Nonce") (strong (format_or0 h (u "nonce")));
       Ok (u "
      ");
       datum (u "Version")
         (strong (block_version h));
       Ok (u "
      ");
       datum (u "Previous block")
         (p ← prop h (u "prev_hash");
          if truthy p then
            cat [Ok (u "<a class=`link hash truncate` href=`#/block/"); interp p; Ok (u "`>");
                 (s ← shortHash p 12; interp (VStr s)); Ok (u "</a>")]
          else Ok (u "<strong>Genesis</strong>"));
       Ok (u "
      ");
       datum (u "Proof-of-work hash")
         (w ← prop h (u "pow_hash"); code (vor w (VStr (u "Not requested"))));
       Ok (u "
      ");
       datum (u "Confirmations") (strong (confirmations chain h));
       Ok (u "
    </div>
    <h3 class=`subheading`>Transactions in this block</h3>
    ");
       txs_html txs;
       Ok (u "
    <details class=`raw`><summary>Raw block JSON</summary><pre>");
       escapeHtml (VStr (stringify2 block));
       Ok (u "</pre></details>")].

(** [block.block_header || {}]. *)
Definition header_of (block : value) : res value :=
  x ← prop block (u "block_header"); Ok (vor x (VObj [])).

(** The argument object of the request, and its [height] if it has one. *)
Definition block_input (v : jsstr) : list (jsstr * value) :=
  if re_digits v then [(u "height", VNum (string_to_number v))] else [(u "hash", VStr v)].

Definition showBlock (v : jsstr) : prog page unit :=
  loading (u "Loading block…") ≫= fun _ =>
  pcatch
    (block ← api (u "block") (block_input v);
     h ← lift (header_of block);
     title ← lift (x ← prop h (u "height");
                   n ← number_format (vcoalesce x (default VUndef (lookup_member (u "height") (block_input v))));
                   Ok (u "#" ++ n));
     headerTitle (VStr (u "Block")) title ≫= fun _ =>
     txs ← lift (x ← prop block (u "tx_hashes"); Ok (vor x (VArr [])));
     p ← get;
     html ← lift (block_html (p_now p) (p_chain p) block h txs);
     act (set_view (ViewHtml html)))
    (fun e => tryTransaction v e).

(** *** Routes, events *)

(** The [if]s of [route] on the parts of the fragment. *)
Definition route_to (parts : list jsstr) : prog page unit :=
  match parts with
  | [] => showBlocks
  | r0 :: rest =>
      if str_eqb r0 (u "assets") then showAssets
      else match rest with
      | r1 :: _ =>
          if str_eqb r0 (u "asset") then
            pcatch (showAsset r1) (fun e => showError (message e))
          else if str_eqb r0 (u "block") then showBlock r1
          else if str_eqb r0 (u "tx") then
            pcatch (showTransaction r1) (fun e => showError (message e))
          else showError []
      | [] => showError []
      end
  end.

Definition route : prog page unit := p ← get; route_to (route_of (p_hash p)).

Definition search_hint : jsstr :=
  u "Enter a numeric block height or a 64-character hexadecimal hash.".

(** The submit listener of [#search-form]. *)
Definition submit (input : jsstr) : prog page unit :=
  let v := trim input in
  if re_digits v || re_hash v then act (set_hash (u "#/block/" ++ v))
  else showError search_hint.

(** The click listener of [#latest-search]. *)
Definition latest : prog page unit :=
  p ← get;
  h ← lift (prop_opt (p_chain p) (u "height"));
  if truthy h then
    x ← lift (vsub h (VNum (num_of_Z 1)));
    act (set_hash (u "#/block/" ++ num_to_string x))
  else Ret tt.

(** [api('info').then(updateStats).catch(setOffline)]. *)
Definition poll : prog page unit :=
  pcatch (info ← api (u "info") []; updateStats info) (fun _ => setOffline).

(** What can happen to the page: the user submits a search, clicks
    [latest] or [Refresh] or follows a link, the browser delivers a
    [hashchange], the 30-second timer fires, time passes. *)
Inductive event :=
| Submit (input : jsstr)
| Latest
| Refresh
| Navigate (hash : jsstr)
| HashChange
| Tick
| Clock (now : num).

Definition enabled (e : event) (p : page) : bool :=
  match e with
  | Refresh => p_refresh p
  | HashChange => Nat.ltb 0 (p_hashchanges p)
  | _ => true
  end.

Definition handler (e : event) : prog page unit :=
  match e with
  | Submit input => submit input
  | Latest => latest
  | Refresh => showBlocks
  | Navigate h => act (set_hash h)
  | HashChange => act take_hashchange ≫= fun _ => route
  | Tick => poll
  | Clock t => act (set_now t)
  end.

(** The last lines of the script: a first [api('info')], then [route()]. *)
Definition boot (hash : jsstr) (now : num) : loop page :=
  launch_all [poll; route] (Loop (page_initial hash now) []).
End explorer.
