(* ===== verification/ExplorerHtml.v ===== *)
(** The markup the explorer renders, when every interpolated value is inert:
    each rendering function yields a fragment of benign tags. *)

From Stdlib Require Import SpecFloat.
From S2P Require Import Prelude JsNumber JsValue Html JsText ExplorerFmt Async ExplorerCore.

(** ** Inert text *)

Lemma inert_bind {A} (m : res A) (f : A -> res jsstr) :
  (forall a, rpost inert (f a)) -> rpost inert (m ≫= f).
Proof. intros H. eapply rpost_bind; [apply rpost_True|]. auto. Qed.

Lemma inert_cat parts : Forall (rpost inert) parts -> rpost inert (cat parts).
Proof.
  induction 1 as [|p ps Hp _ IH]; [done|]. simpl.
  eapply rpost_bind; [exact Hp|]. intros s Hs.
  eapply rpost_bind; [exact IH|]. intros t Ht. by apply inert_app.
Qed.

Lemma inert_xmz v : rpost inert (xmz v).
Proof. apply inert_bind. intros x. apply inert_app; [apply inert_format_num | done]. Qed.

Lemma inert_age now v : rpost inert (age now v).
Proof.
  apply inert_bind. intros t. simpl. unfold age_text.
  repeat case_if; (apply inert_app; [apply inert_num_to_string | done]).
Qed.

Lemma inert_format_or0 v k : rpost inert (format_or0 v k).
Proof. apply inert_bind. intros x. apply inert_number_format. Qed.

Lemma inert_confirmations chain h : rpost inert (confirmations chain h).
Proof.
  unfold confirmations. case_if; [|done].
  do 3 (apply inert_bind; intros ?). apply inert_number_format.
Qed.

Lemma inert_supply asset : rpost inert (supply asset).
Proof. do 3 (apply inert_bind; intros ?). apply escapeHtml_inert. Qed.

Lemma inert_Ok_num x : rpost inert (Ok (num_to_string x)).
Proof. apply inert_num_to_string. Qed.

#[export] Hint Resolve inert_xmz inert_age inert_format_or0 inert_confirmations inert_supply
  inert_Ok_num escapeHtml_inert : inert.
#[export] Hint Resolve inert_number_format : inert.

(** [inert_tac] proves that a computed text is inert; a hypothesis on the
    interpolation is taken from the context. *)
Ltac inert_tac :=
  lazymatch goal with
  | |- rpost inert (mbind _ _) => apply inert_bind; intros ?; inert_tac
  | |- rpost inert (cat _) => apply inert_cat; repeat (constructor; [inert_tac|]); constructor
  | |- rpost inert (Ok (if _ then _ else _)) => case_if; reflexivity
  | |- rpost inert (Ok (u _)) => reflexivity
  | |- rpost inert _ => solve [auto 1 with inert nocore]
  end.

(** ** Fragments *)

Lemma fragment_bind {A} (m : res A) (f : A -> res jsstr) :
  (forall a, rpost fragment (f a)) -> rpost fragment (m ≫= f).
Proof. intros H. eapply rpost_bind; [apply rpost_True|]. auto. Qed.

Lemma fragment_strong m : rpost inert m -> rpost fragment (strong m).
Proof.
  intros H. apply cat_fragment. eapply cat_runs_lit; [runs_literal|].
  apply cat_runs_text; [exact H|]. eapply cat_runs_lit; [runs_literal | reflexivity].
Qed.

Lemma fragment_code v : rpost fragment (code v).
Proof.
  apply cat_fragment. eapply cat_runs_lit; [runs_literal|].
  apply cat_runs_text; [apply escapeHtml_inert|].
  eapply cat_runs_lit; [runs_literal | reflexivity].
Qed.

Lemma fragment_datum label m : rpost fragment m -> rpost fragment (datum label m).
Proof.
  intros H. eapply rpost_bind; [exact H|]. intros s Hs.
  apply cat_fragment. eapply cat_runs_lit; [runs_literal|].
  apply cat_runs_text; [apply escapeHtml_inert|]. eapply cat_runs_lit; [runs_literal|].
  apply cat_runs_fragment; [exact Hs|]. eapply cat_runs_lit; [runs_literal | reflexivity].
Qed.

Lemma fragment_rows {A} (f : A -> res jsstr) (l : list A) :
  (forall a, rpost fragment (f a)) -> rpost fragment (rows ← rmap f l; Ok (concat rows)).
Proof.
  intros H. eapply rpost_bind; [by apply (rpost_rmap fragment)|].
  intros rows Hr. by apply fragment_concat.
Qed.

Lemma fragment_rowsi {A} (f : nat -> A -> res jsstr) i (l : list A) :
  (forall i a, rpost fragment (f i a)) -> rpost fragment (rows ← rmapi f i l; Ok (concat rows)).
Proof.
  intros H. eapply rpost_bind; [by apply (rpost_rmapi fragment)|].
  intros rows Hr. by apply fragment_concat.
Qed.

(** [fragment_tac] proves that rendered markup is a fragment, by running the
    tokenizer over the literal parts of its templates. *)
Ltac fragment_tac :=
  lazymatch goal with
  | |- rpost fragment (mbind (fun _ => Ok (concat _)) (rmap _ _)) =>
      apply fragment_rows; solve [auto 1 with fragment nocore]
  | |- rpost fragment (mbind (fun _ => Ok (concat _)) (rmapi _ _ _)) =>
      apply fragment_rowsi; solve [auto 1 with fragment nocore]
  | |- rpost fragment (mbind _ _) => apply fragment_bind; intros ?; fragment_tac
  | |- rpost fragment (strong _) => apply fragment_strong; inert_tac
  | |- rpost fragment (code _) => apply fragment_code
  | |- rpost fragment (datum _ _) => apply fragment_datum; fragment_tac
  | |- rpost fragment (Ok (if _ then _ else _)) => case_if; runs_literal
  | |- rpost fragment (if _ then _ else _) => case_if; fragment_tac
  | |- rpost fragment (Ok (u _)) => runs_literal
  | |- rpost fragment (cat _) => apply cat_fragment; repeat cat_step
  | |- rpost fragment _ => solve [auto 1 with fragment nocore]
  end
with cat_step :=
  lazymatch goal with
  | |- cat_runs _ [] => reflexivity
  | |- cat_runs _ (Ok (u _) :: _) => eapply cat_runs_lit; [runs_literal|]
  | |- cat_runs Data (datum _ _ :: _) => apply cat_runs_fragment; [fragment_tac|]
  | |- cat_runs Data (_ :: _) =>
      first [ apply cat_runs_text; [inert_tac|] | apply cat_runs_fragment; [fragment_tac|] ]
  | |- cat_runs _ (_ :: _) => apply cat_runs_value; [inert_tac|intros ? ?]
  end.

Lemma fragment_hash_span v : rpost fragment (hash_span v).
Proof. unfold hash_span. fragment_tac. Qed.

#[export] Hint Resolve fragment_hash_span : fragment.

Section render.
Context (locale_date : num -> jsstr) (interp : value -> res jsstr).
Context (Hinterp : forall v, rpost inert (interp v)).

#[local] Hint Resolve Hinterp : inert.

Lemma fragment_block_row now block : rpost fragment (block_row interp now block).
Proof. unfold block_row. fragment_tac. Qed.
#[local] Hint Resolve fragment_block_row : fragment.

Lemma fragment_blocks now result : rpost fragment (blocks_html interp now result).
Proof. unfold blocks_html. fragment_tac. Qed.

Lemma fragment_tx_row i hash : rpost fragment (tx_row interp i hash).
Proof. unfold tx_row. fragment_tac. Qed.
#[local] Hint Resolve fragment_tx_row : fragment.

Lemma fragment_txs txs : rpost fragment (txs_html interp txs).
Proof. unfold txs_html. fragment_tac. Qed.
#[local] Hint Resolve fragment_txs : fragment.

Lemma fragment_height_link v : rpost fragment (height_link interp v).
Proof. unfold height_link. fragment_tac. Qed.
#[local] Hint Resolve fragment_height_link : fragment.

Lemma fragment_asset_row asset : rpost fragment (asset_row interp asset).
Proof. unfold asset_row. fragment_tac. Qed.
#[local] Hint Resolve fragment_asset_row : fragment.

Lemma fragment_assets_notice result : rpost fragment (assets_notice result).
Proof.
  apply fragment_bind. intros s.
  destruct s as [| |[]| | | | |]; try (apply fragment_bind; intros a; case_if); runs_literal.
Qed.
#[local] Hint Resolve fragment_assets_notice : fragment.

Lemma fragment_assets result assets : rpost fragment (assets_html interp result assets).
Proof. unfold assets_html. fragment_tac. Qed.

Lemma fragment_output_row output : rpost fragment (output_row interp output).
Proof. unfold output_row. fragment_tac. Qed.
#[local] Hint Resolve fragment_output_row : fragment.

Lemma fragment_outputs result : rpost fragment (outputs_html interp result).
Proof. unfold outputs_html. fragment_tac. Qed.
#[local] Hint Resolve fragment_outputs : fragment.

Lemma fragment_asset result asset c m : rpost fragment (asset_html interp result asset c m).
Proof. unfold asset_html. fragment_tac. Qed.

(** Two interpolations are escaped in neither version; what they interpolate
    is a hypothesis here. *)
Lemma fragment_tx hash tx decoded vin vout :
  rpost inert (tx_version decoded) ->
  rpost fragment (tx_html interp hash tx decoded vin vout).
Proof. intros Hv. unfold tx_html. fragment_tac. Qed.

Lemma fragment_block now chain block h txs :
  rpost inert (block_version h) ->
  rpost fragment (block_html locale_date interp now chain block h txs).
Proof. intros Hv. unfold block_html. fragment_tac. Qed.
End render.
