(* ===== verification/ExplorerSafe.v ===== *)
(** No reachable page of the explorer shows markup other than its own, when
    interpolations are inert and the version fields of the API are too. *)

From Stdlib Require Import SpecFloat.
From S2P Require Import Prelude JsNumber JsValue Html JsText ExplorerFmt Async ExplorerCore.
From S2P Require Import ExplorerHtml.

(** The two texts that reach the markup without escaping: the version of the
    block, and the version of the transaction, of a response. *)
Definition block_version_of (v : value) : res jsstr := header_of v ≫= block_version.
Definition tx_version_of (v : value) : res jsstr :=
  tx ← first_tx v; d ← decoded_tx v tx; tx_version d.

Definition clean (v : value) : Prop :=
  rpost inert (block_version_of v) /\ rpost inert (tx_version_of v).

(** Answers of a server whose version fields hold no markup. *)
Definition clean_answers (q : query) : answer q -> Prop :=
  match q with
  | QJson => fun a => match a with Ok v => clean v | Err _ => True end
  | _ => fun _ => True
  end.

Lemma clean_reply status v q : clean v -> clean_answers q (reply status v q).
Proof. by destruct q. Qed.

Definition view_ok (v : view) : Prop :=
  match v with ViewHtml h => fragment h | ViewError _ => True end.

(** The markup of the page consists of benign tags. *)
Definition page_ok (p : page) : Prop := view_ok (p_view p) /\ fragment (p_title p).

Lemma rpost_Ok {A} (P : A -> Prop) m a : rpost P m -> m = Ok a -> P a.
Proof. by intros H ->. Qed.

(** The pages that differ in neither the view nor the section title. *)
Lemma page_ok_same p p' : p_view p' = p_view p -> p_title p' = p_title p -> page_ok p -> page_ok p'.
Proof. unfold page_ok. by intros -> ->. Qed.

Section safety.
Context (answers : forall q, answer q -> Prop).
Context (locale_date : num -> jsstr) (engine_message : exn -> jsstr) (interp : value -> res jsstr).
Context (refreshStats updateStats : value -> prog page unit).
Context (Hanswers : forall q a, answers q a -> clean_answers q a).
Context (Hinterp : forall v, rpost inert (interp v)).

Abbreviation safe_page := (safe answers page_ok).
Context (Hrefresh : forall v, safe_page (refreshStats v)).
Context (Hupdate : forall v, safe_page (updateStats v)).

Lemma clean_nil : clean (VObj []).
Proof. split; vm_compute; reflexivity. Qed.

Lemma safe_set_view h : fragment h -> safe_page (act (set_view (ViewHtml h))).
Proof. intros H. apply safe_act. intros p [_ Ht]. by split. Qed.

Lemma safe_loading label : safe_page (loading label).
Proof.
  apply safe_lift_bind. intros h Hh. apply safe_set_view. revert Hh. apply rpost_Ok.
  fragment_tac.
Qed.

Lemma safe_showError m : safe_page (showError m).
Proof. apply safe_act. intros p [_ Ht]. by split. Qed.

Lemma safe_setOffline : safe_page setOffline.
Proof. apply safe_act_bind; [by intros p|]. apply safe_act. by intros p. Qed.

Lemma safe_headerTitle kicker title : fragment title -> safe_page (headerTitle kicker title).
Proof.
  intros Hf. apply safe_lift_bind. intros h Hh. apply safe_act. intros p [Hv _]. split; [done|].
  simpl. revert Hh. apply rpost_Ok. apply cat_fragment. do 3 cat_step.
  apply cat_runs_fragment; [exact Hf|]. repeat cat_step.
Qed.

(** A handler that continues with the result of [api] may assume it clean. *)
Lemma safe_api_bind {B} action data (f : value -> prog page B) :
  (forall v, clean v -> safe_page (f v)) -> safe_page (api action data ≫= f).
Proof.
  intros Hf. apply (safe_bind_post answers page_ok clean); [|exact Hf].
  intros [status|e] _; [|done]. intros j Hj.
  set (v := match j with Ok v => v | Err _ => VObj [] end).
  assert (clean v) as Hv.
  { apply Hanswers in Hj. destruct j; [exact Hj | exact clean_nil]. }
  change (safe_post answers page_ok clean
    (failed ← lift (if negb (status_ok status) then Ok true
                    else e ← prop v (u "error"); Ok (truthy e));
     if failed : bool then
       e ← lift (prop v (u "error"));
       m ← lift (to_string (vor e (VStr (u "HTTP " ++ dec status))));
       Throw (EError m)
     else Ret v)).
  destruct (status_ok status), (prop v (u "error")) as [e|]; try done;
    [destruct (truthy e) eqn:?|]; try done; simpl; rewrite ?Heqb; try done; by destruct (to_string _).
Qed.

Lemma fragment_title_blocks : fragment title_blocks.
Proof. runs_literal. Qed.

(** The page after rendering: [h] comes out of a fragment renderer. *)
Ltac render L := let h := fresh "h" in let Hh := fresh "Hh" in
  apply safe_lift_bind; intros h Hh; pose proof (rpost_Ok _ _ _ L Hh); clear Hh.

Lemma safe_showBlocks : safe_page (showBlocks engine_message interp refreshStats).
Proof.
  apply safe_seq; [apply safe_loading|].
  apply safe_act_bind; [intros p [Hv _]; split; [done | apply fragment_title_blocks]|].
  apply safe_catch; [|intros e; apply safe_seq; [apply safe_showError | apply safe_setOffline]].
  apply safe_api_bind. intros result _. apply safe_seq; [apply Hrefresh|].
  apply safe_get_bind. intros p _.
  render (fragment_blocks interp Hinterp (p_now p) result).
  apply safe_seq; [by apply safe_set_view|].
  apply safe_get_bind. intros p' _. case_if; [|done]. by apply safe_act.
Qed.

Lemma safe_showTransaction hash : safe_page (showTransaction interp hash).
Proof.
  apply safe_seq; [apply safe_loading|]. apply safe_api_bind. intros result [_ Hc].
  apply safe_lift_bind. intros tx Htx. apply safe_lift_bind. intros d Hd.
  assert (rpost inert (tx_version d)) as Hv.
  { unfold tx_version_of in Hc. rewrite Htx in Hc. cbn [mbind res_bind] in Hc.
    by rewrite Hd in Hc. }
  render (fragment_hash_span (VStr hash)).
  apply safe_seq; [by apply safe_headerTitle|].
  apply safe_lift_bind. intros vin _. apply safe_lift_bind. intros vout _.
  render (fragment_tx interp Hinterp hash tx d vin vout Hv). by apply safe_set_view.
Qed.

Lemma safe_showAssets : safe_page (showAssets engine_message interp).
Proof.
  apply safe_seq; [apply safe_loading|].
  apply safe_catch; [|intros e; apply safe_showError].
  apply safe_api_bind. intros result _.
  apply safe_seq; [apply safe_headerTitle; runs_literal|].
  apply safe_lift_bind. intros assets _.
  render (fragment_assets interp Hinterp result assets). by apply safe_set_view.
Qed.

Lemma safe_showAsset i : safe_page (showAsset interp i).
Proof.
  apply safe_seq; [apply safe_loading|]. apply safe_api_bind. intros result _.
  apply safe_lift_bind. intros asset _. apply safe_lift_bind. intros c _.
  apply safe_lift_bind. intros m _. apply safe_lift_bind. intros kicker _.
  render (fragment_bind (prop asset (u "asset_id")) hash_span fragment_hash_span).
  apply safe_seq; [by apply safe_headerTitle|].
  render (fragment_asset interp Hinterp result asset c m). by apply safe_set_view.
Qed.

Lemma safe_tryTransaction v e : safe_page (tryTransaction engine_message interp v e).
Proof.
  unfold tryTransaction. case_if; [apply safe_showError|].
  apply safe_catch; [apply safe_showTransaction | intros _].
  apply safe_catch; [apply safe_showAsset | intros _]. apply safe_showError.
Qed.

Lemma safe_showBlock v : safe_page (showBlock locale_date engine_message interp v).
Proof.
  apply safe_seq; [apply safe_loading|].
  apply safe_catch; [|intros e; apply safe_tryTransaction].
  apply safe_api_bind. intros block [Hc _]. apply safe_lift_bind. intros h Hh.
  assert (rpost inert (block_version h)) as Hv.
  { unfold block_version_of in Hc. by rewrite Hh in Hc. }
  apply safe_lift_bind. intros title Ht.
  assert (inert title) as Hti.
  { revert Ht. apply rpost_Ok. apply inert_bind. intros x. eapply rpost_bind; [apply inert_number_format|].
    intros n Hn. by apply (inert_app (u "#")). }
  apply safe_seq; [by apply safe_headerTitle, fragment_inert|].
  apply safe_lift_bind. intros txs _. apply safe_get_bind. intros p _.
  render (fragment_block locale_date interp Hinterp (p_now p) (p_chain p) block h txs Hv).
  by apply safe_set_view.
Qed.

Lemma safe_route :
  safe_page (route locale_date engine_message interp refreshStats).
Proof.
  apply safe_get_bind. intros p _. unfold route_to. destruct (route_of (p_hash p)) as [|r0 [|r1 rest]];
    [apply safe_showBlocks| |]; (case_if; [apply safe_showAssets|]); [apply safe_showError|].
  case_if; [apply safe_catch; [apply safe_showAsset | intros; apply safe_showError]|].
  case_if; [apply safe_showBlock|].
  case_if; [apply safe_catch; [apply safe_showTransaction | intros; apply safe_showError]|].
  apply safe_showError.
Qed.

Lemma safe_poll : safe_page (poll updateStats).
Proof.
  apply safe_catch; [|intros _; apply safe_setOffline]. apply safe_api_bind. intros v _. apply Hupdate.
Qed.

Lemma safe_handler e :
  safe_page (handler locale_date engine_message interp refreshStats updateStats e).
Proof.
  destruct e as [input| | |h| | |t]; unfold handler.
  - unfold submit. case_if; [by apply safe_act | apply safe_showError].
  - apply safe_get_bind. intros p _. apply safe_lift_bind. intros h _. case_if; [|done].
    apply safe_lift_bind. intros x _. by apply safe_act.
  - apply safe_showBlocks.
  - by apply safe_act.
  - apply safe_act_bind; [done | apply safe_route].
  - apply safe_poll.
  - by apply safe_act.
Qed.

Lemma boot_ok hash now :
  loop_inv answers page_ok
    (boot locale_date engine_message interp refreshStats updateStats hash now).
Proof.
  apply launch_all_inv; [repeat constructor; [apply safe_poll | apply safe_route]|].
  split; [|constructor]. split; runs_literal.
Qed.

(** Every page that events and answers can produce consists of benign tags. *)
Lemma reachable_page_ok hash now l :
  reachable enabled (handler locale_date engine_message interp refreshStats updateStats) answers
    (boot locale_date engine_message interp refreshStats updateStats hash now) l ->
  page_ok (world l).
Proof. intros H. by destruct (reachable_inv _ _ _ _ _ _ safe_handler (boot_ok hash now) H). Qed.
End safety.

(** One step through a handler that leaves the view and the title alone. *)
Ltac stats_step :=
  lazymatch goal with
  | |- safe _ _ (mbind _ (act _)) => apply safe_act_bind; [intros ?; by apply page_ok_same|]
  | |- safe _ _ (mbind _ (lift _)) => apply safe_lift_bind; intros ? _
  | |- safe _ _ (mbind _ get) => apply safe_get_bind; intros ? _
  | |- safe _ _ (act _) => apply safe_act; intros ?; by apply page_ok_same
  | |- safe _ _ (match _ with _ => _ end) => case_match
  end.
