(* ===== verification/ExplorerRuns.v ===== *)
(** Runs of the explorer's handlers: they end after at most six waits, a search
    leads to the route it names, and failed requests end in the error view. *)

From Stdlib Require Import SpecFloat.
From S2P Require Import Prelude JsNumber JsValue Html JsText ExplorerFmt Async ExplorerCore.
From S2P Require Import ExplorerHtml ExplorerSafe.

(** ** Termination *)

Section bounds.
Context (locale_date : num -> jsstr) (engine_message : exn -> jsstr) (interp : value -> res jsstr).
Context (refreshStats updateStats : value -> prog page unit).
Context (Hrefresh : forall v, bounded 0 (refreshStats v)).
Context (Hupdate : forall v, bounded 0 (updateStats v)).

Lemma bounded_api action data : bounded 2 (api action data).
Proof.
  intros [status|e]; [|done]. intros j. apply bounded_lift_bind. intros b. case_if; [|done].
  do 2 (apply bounded_lift_bind; intros ?). done.
Qed.

Lemma bounded_api_bind {B} n action data (f : value -> prog page B) :
  (forall v, bounded n (f v)) -> bounded (2 + n) (api action data ≫= f).
Proof. intros H. apply bounded_bind; [apply bounded_api | done]. Qed.

Lemma bounded_loading label : bounded 0 (loading label).
Proof. by apply bounded_lift_bind. Qed.

Lemma bounded_headerTitle k t : bounded 0 (headerTitle k t).
Proof. by apply bounded_lift_bind. Qed.

Lemma bounded_showBlocks : bounded 2 (showBlocks engine_message interp refreshStats).
Proof.
  apply (bounded_seq 0); [apply bounded_loading|]. apply (bounded_seq 0); [done|].
  apply (bounded_catch 2 0); [|done]. apply (bounded_api_bind 0). intros result.
  apply (bounded_seq 0 0); [apply Hrefresh|]. apply bounded_get. intros p. apply bounded_lift_bind. intros h.
  apply (bounded_seq 0 0); [done|]. apply bounded_get. intros p'. by case_if.
Qed.

Lemma bounded_showTransaction hash : bounded 2 (showTransaction interp hash).
Proof.
  apply (bounded_seq 0); [apply bounded_loading|]. apply (bounded_api_bind 0). intros result.
  do 3 (apply bounded_lift_bind; intros ?). apply (bounded_seq 0 0); [apply bounded_headerTitle|].
  do 3 (apply bounded_lift_bind; intros ?). done.
Qed.

Lemma bounded_showAssets : bounded 2 (showAssets engine_message interp).
Proof.
  apply (bounded_seq 0); [apply bounded_loading|].
  apply (bounded_catch 2 0); [|done]. apply (bounded_api_bind 0). intros result.
  apply (bounded_seq 0 0); [apply bounded_headerTitle|].
  do 2 (apply bounded_lift_bind; intros ?). done.
Qed.

Lemma bounded_showAsset i : bounded 2 (showAsset interp i).
Proof.
  apply (bounded_seq 0); [apply bounded_loading|]. apply (bounded_api_bind 0). intros result.
  do 5 (apply bounded_lift_bind; intros ?). apply (bounded_seq 0 0); [apply bounded_headerTitle|].
  apply bounded_lift_bind; intros ?. done.
Qed.

Lemma bounded_tryTransaction v e : bounded 4 (tryTransaction engine_message interp v e).
Proof.
  unfold tryTransaction. case_if; [done|].
  apply (bounded_catch 2 2); [apply bounded_showTransaction|]. intros _.
  apply (bounded_catch 2 0); [apply bounded_showAsset | done].
Qed.

Lemma bounded_showBlock v : bounded 6 (showBlock locale_date engine_message interp v).
Proof.
  apply (bounded_seq 0); [apply bounded_loading|].
  apply (bounded_catch 2 4); [|intros e; apply bounded_tryTransaction].
  apply (bounded_api_bind 0). intros result. do 2 (apply bounded_lift_bind; intros ?).
  apply (bounded_seq 0 0); [apply bounded_headerTitle|]. apply bounded_lift_bind; intros ?.
  apply bounded_get. intros p. by apply bounded_lift_bind.
Qed.

Lemma bounded_route : bounded 6 (route locale_date engine_message interp refreshStats).
Proof.
  assert (forall (p : prog page unit), bounded 2 p -> bounded 6 p) as H26.
  { intros p. apply bounded_mono. lia. }
  apply bounded_get. intros p. unfold route_to. destruct (route_of (p_hash p)) as [|r0 [|r1 rest]].
  - apply H26, bounded_showBlocks.
  - case_if; [apply H26, bounded_showAssets | done].
  - case_if; [apply H26, bounded_showAssets|].
    case_if; [apply H26, (bounded_catch 2 0); [apply bounded_showAsset | done]|].
    case_if; [apply bounded_showBlock|].
    case_if; [apply H26, (bounded_catch 2 0); [apply bounded_showTransaction | done] | done].
Qed.

Lemma bounded_handler e :
  bounded 6 (handler locale_date engine_message interp refreshStats updateStats e).
Proof.
  destruct e as [input| | |h| | |t]; unfold handler; try done.
  - unfold submit. by case_if.
  - apply bounded_get. intros p. apply bounded_lift_bind. intros h. case_if; [|done]. by apply bounded_lift_bind.
  - eapply bounded_mono; [|apply bounded_showBlocks]. lia.
  - apply (bounded_seq 0 6); [done | apply bounded_route].
  - apply (bounded_mono 2); [lia|]. apply (bounded_catch 2 0); [|done].
    apply (bounded_api_bind 0). apply Hupdate.
Qed.
End bounds.

(** ** Failed requests *)

Section failures.
Context (locale_date : num -> jsstr) (engine_message : exn -> jsstr) (interp : value -> res jsstr).

Abbreviation fails := (completes failing_answers).

Lemma api_fails action data w w' r :
  fails (api action data) w w' r -> w' = w /\ exists e, r = Err e.
Proof.
  intros ([status|e] & Hf & H); [|destruct H as [-> ->]; eauto]. destruct H as (j & _ & H).
  simpl in Hf. rewrite Hf in H. simpl negb in H. cbv iota in H.
  apply completes_lift_bind in H as [(e & -> & ->)|(b & [= <-] & H)]; [eauto|].
  apply completes_lift_bind in H as [(e & -> & ->)|(x & _ & H)]; [eauto|].
  apply completes_lift_bind in H as [(e & -> & ->)|(m & _ & H)]; [eauto|].
  destruct H as [-> ->]. eauto.
Qed.

Lemma api_bind_fails {B} action data (f : value -> prog page B) w w' r :
  fails (api action data ≫= f) w w' r -> exists e, r = Err e.
Proof.
  intros [(e & _ & ->)|(a & w1 & H & _)]%completes_bind; [eauto|].
  apply api_fails in H as [_ [e [=]]].
Qed.

Lemma loading_act label : exists h, loading label = act (set_view (ViewHtml h)).
Proof. eexists. reflexivity. Qed.

Lemma loading_fails {B} label (f : unit -> prog page B) w w' r :
  fails (loading label ≫= f) w w' r -> exists w1, fails (f tt) w1 w' r.
Proof.
  destruct (loading_act label) as [h ->]. intros H. by exists (set_view (ViewHtml h) w).
Qed.

Lemma showTransaction_fails hash w w' r :
  fails (showTransaction interp hash) w w' r -> exists e, r = Err e.
Proof. intros [w1 H]%loading_fails. by apply api_bind_fails in H. Qed.

Lemma showAsset_fails i w w' r :
  fails (showAsset interp i) w w' r -> exists e, r = Err e.
Proof. intros [w1 H]%loading_fails. by apply api_bind_fails in H. Qed.

Lemma tryTransaction_fails v e w w' r :
  fails (tryTransaction engine_message interp v e) w w' r ->
  r = Ok tt /\ exists m, p_view w' = ViewError m /\
    (if re_hash v then m = u "No block, transaction, or asset matched this hash."
     else m = if bool_decide (message engine_message e = []) then error_text
              else message engine_message e).
Proof.
  unfold tryTransaction. destruct (re_hash v); simpl negb; cbv iota.
  - intros [(a & H & ->)|(e1 & w1 & _ & H)]%completes_catch;
      [apply showTransaction_fails in H as [e1 [=]]|].
    apply completes_catch in H as [(a & H & ->)|(e2 & w2 & _ & H)];
      [apply showAsset_fails in H as [e2 [=]]|].
    destruct H as [-> ->]. split; [done|]. by eexists.
  - intros [-> ->]. split; [done|]. by eexists.
Qed.

Lemma showBlock_fails v w w' r :
  fails (showBlock locale_date engine_message interp v) w w' r ->
  r = Ok tt /\ exists m, p_view w' = ViewError m /\
    (re_hash v = true -> m = u "No block, transaction, or asset matched this hash.").
Proof.
  intros [w1 H]%loading_fails.
  apply completes_catch in H as [(a & H & ->)|(e & w2 & _ & H)];
    [apply api_bind_fails in H as [e [=]]|].
  apply tryTransaction_fails in H as (-> & m & Hm & H). split; [done|]. exists m.
  split; [done|]. intros Hv. by rewrite Hv in H.
Qed.
End failures.

(** ** Searches *)

Lemma split_slash_none s cur : Forall (fun c => c <> 47) s -> split_slash cur s = [cur ++ s].
Proof.
  intros H. revert cur. induction H as [|c s Hc _ IH]; intros cur; simpl; [by rewrite app_nil_r|].
  rewrite (proj2 (Z.eqb_neq c 47) Hc), IH. by rewrite <- app_assoc.
Qed.

Lemma search_units v : re_digits v || re_hash v = true -> v <> [] /\ Forall (fun c => c <> 47) v.
Proof.
  intros H. assert (v <> [] /\ forallb is_hex v = true) as [Hn Hh].
  { apply orb_true_iff in H as [H|H]; unfold re_digits, re_hash in H;
      apply andb_true_iff in H as [H1 H2].
    - split; [by destruct v|]. rewrite forallb_forall in *. intros c Hc. unfold is_hex.
      by rewrite (H2 c Hc).
    - split; [by destruct v | done]. }
  split; [done|]. rewrite forallb_forall in Hh. apply Forall_forall. intros c Hc ->.
  apply list_elem_of_In in Hc. by apply Hh in Hc.
Qed.

Lemma route_of_block v : v <> [] -> Forall (fun c => c <> 47) v ->
  route_of (u "#/block/" ++ v) = [u "block"; v].
Proof.
  intros Hn Hv. unfold route_of.
  change (strip_hash (u "#/block/" ++ v)) with (u "block/" ++ v).
  change (split_slash [] (u "block/" ++ v)) with (u "block" :: split_slash [] v).
  rewrite split_slash_none by done. rewrite filter_cons_True by done. by rewrite filter_cons_True.
Qed.
