(* ===== verification/Explorer.v ===== *)
(** The explorer of [explorer/app.js]: [ExplorerCore] with raw interpolation of
    most API fields, and this version's [updateStats]. *)

From Stdlib Require Import SpecFloat.
From S2P Require Import Prelude JsNumber JsValue Html JsText ExplorerFmt Async ExplorerCore.
From S2P Require Import ExplorerHtml ExplorerSafe.

(** The functions that this version declares with the text of the site's. *)
Module Shared.
Definition atomic := ExplorerFmt.atomic.
Definition escapeHtml := ExplorerFmt.escapeHtml.
Definition shortHash := ExplorerFmt.shortHash.
Definition xmz := ExplorerFmt.xmz.
Definition date := ExplorerFmt.date.
Definition age := ExplorerFmt.age.
Definition assetClasses := ExplorerFmt.assetClasses.
Definition assetAmount := ExplorerFmt.assetAmount.
Definition datum := ExplorerFmt.datum.
Definition api := ExplorerCore.api.
Definition loading := ExplorerCore.loading.
Definition showError := ExplorerCore.showError.
Definition headerTitle := ExplorerCore.headerTitle.
Definition setOffline := ExplorerCore.setOffline.
End Shared.

Definition updateStats (info : value) : prog page unit :=
  act (set_chain info) ≫= fun _ =>
  t ← lift (format_or0 info (u "height")); act (set_height t) ≫= fun _ =>
  t ← lift (format_or0 info (u "difficulty")); act (set_difficulty t) ≫= fun _ =>
  t ← lift (hashrate_text info); act (set_hashrate t) ≫= fun _ =>
  t ← lift (format_or0 info (u "tx_count")); act (set_transactions t) ≫= fun _ =>
  t ← lift (peer_count info ≫= number_format); act (set_connections t) ≫= fun _ =>
  status ← lift (prop info (u "status"));
  t ← lift (if status_is_ok status then Ok (u "Node online") else text_content status);
  act (set_label t) ≫= fun _ =>
  act (set_dot (if status_is_ok status then u "online" else u "offline")).

(** [updateStats(result.info)] in [showBlocks]. *)
Definition refreshStats (result : value) : prog page unit :=
  info ← lift (prop result (u "info")); updateStats info.

Section legacy.
Context (locale_date : num -> jsstr) (engine_message : exn -> jsstr).

Definition showBlocks : prog page unit :=
  ExplorerCore.showBlocks engine_message to_string refreshStats.
Definition showBlock (v : jsstr) : prog page unit :=
  ExplorerCore.showBlock locale_date engine_message to_string v.
Definition tryTransaction (v : jsstr) (e : exn) : prog page unit :=
  ExplorerCore.tryTransaction engine_message to_string v e.
Definition showTransaction (hash : jsstr) : prog page unit :=
  ExplorerCore.showTransaction to_string hash.
Definition showAssets : prog page unit := ExplorerCore.showAssets engine_message to_string.
Definition showAsset (i : jsstr) : prog page unit := ExplorerCore.showAsset to_string i.
Definition route : prog page unit :=
  ExplorerCore.route locale_date engine_message to_string refreshStats.
Definition handler (e : event) : prog page unit :=
  ExplorerCore.handler locale_date engine_message to_string refreshStats updateStats e.
Definition boot (hash : jsstr) (now : num) : loop page :=
  ExplorerCore.boot locale_date engine_message to_string refreshStats updateStats hash now.
End legacy.
