(* ===== verification/SiteExplorer.v ===== *)
(** The explorer of [website/explorer/app.js]: [ExplorerCore] with escaped
    interpolation, and this version's [updateStats]. *)

From Stdlib Require Import SpecFloat.
From S2P Require Import Prelude JsNumber JsValue Html JsText ExplorerFmt Async ExplorerCore.
From S2P Require Import ExplorerHtml ExplorerSafe ExplorerRuns.

(** [tipAgeSeconds]: [null] without a timestamp. *)
Definition tip_age (now : num) (latestHeader : value) : res (option num) :=
  t ← prop_opt latestHeader (u "timestamp");
  if truthy t then x ← to_number t; Ok (Some (math_floor (nsub (ndiv now (num_of_Z 1000)) x)))
  else Ok None.

Definition tip_fresh (tipAgeSeconds : option num) : bool :=
  match tipAgeSeconds with
  | Some a => nleb a (num_of_Z 900) && nleb (num_of_Z (-300)) a
  | None => false
  end.

(** The label and the class of the dot, by the [if] chain at the end of
    [updateStats]. *)
Definition node_state (status synchronized peerCount : value) (tipFresh : bool)
    : res (jsstr * jsstr) :=
  if negb (status_is_ok status) then
    t ← text_content (vor status (VStr (u "Node unavailable"))); Ok (t, u "offline")
  else if negb (match synchronized with VBool true => true | _ => false end) then
    Ok (u "Node unsynchronized", u "offline")
  else if negb tipFresh then Ok (u "Network tip stale", u "offline")
  else
    n ← to_number peerCount;
    Ok (if nltb n (num_of_Z 2) then (u "Network under-peered", u "offline")
        else (u "Node synchronized", u "online")).

Definition updateStats (info latestHeader : value) : prog page unit :=
  act (set_chain info) ≫= fun _ =>
  t ← lift (format_or0 info (u "height")); act (set_height t) ≫= fun _ =>
  t ← lift (format_or0 info (u "difficulty")); act (set_difficulty t) ≫= fun _ =>
  t ← lift (hashrate_text info); act (set_hashrate t) ≫= fun _ =>
  t ← lift (format_or0 info (u "tx_count")); act (set_transactions t) ≫= fun _ =>
  restricted ← lift (prop info (u "restricted"));
  t ← lift (if truthy restricted then Ok (u "HIDDEN") else peer_count info ≫= number_format);
  act (set_connections t) ≫= fun _ =>
  act (set_connections_title
         (if truthy restricted
          then u "Connection counts are intentionally hidden by the public restricted RPC."
          else u "Current incoming and outgoing P2P connections.")) ≫= fun _ =>
  p ← get;
  age ← lift (tip_age (p_now p) latestHeader);
  peerCount ← lift (peer_count info);
  status ← lift (prop info (u "status"));
  synchronized ← lift (prop info (u "synchronized"));
  '(label, dot) ← lift (node_state status synchronized peerCount (tip_fresh age));
  act (set_label label) ≫= fun _ => act (set_dot dot).

(** [updateStats(result.info, result.headers[0] || null)] in [showBlocks]. *)
Definition refreshStats (result : value) : prog page unit :=
  info ← lift (prop result (u "info"));
  latest ← lift (h ← prop result (u "headers"); x ← index h 0; Ok (vor x VNull));
  updateStats info latest.

(** [.then(updateStats)] passes the response only: [latestHeader] is [null]. *)
Definition pollStats (info : value) : prog page unit := updateStats info VNull.

Section site.
Context (locale_date : num -> jsstr) (engine_message : exn -> jsstr).

Definition showBlocks : prog page unit :=
  ExplorerCore.showBlocks engine_message escapeHtml refreshStats.
Definition showBlock (v : jsstr) : prog page unit :=
  ExplorerCore.showBlock locale_date engine_message escapeHtml v.
Definition tryTransaction (v : jsstr) (e : exn) : prog page unit :=
  ExplorerCore.tryTransaction engine_message escapeHtml v e.
Definition showTransaction (hash : jsstr) : prog page unit :=
  ExplorerCore.showTransaction escapeHtml hash.
Definition showAssets : prog page unit := ExplorerCore.showAssets engine_message escapeHtml.
Definition showAsset (i : jsstr) : prog page unit := ExplorerCore.showAsset escapeHtml i.
Definition route : prog page unit :=
  ExplorerCore.route locale_date engine_message escapeHtml refreshStats.
Definition poll : prog page unit := ExplorerCore.poll pollStats.
Definition handler (e : event) : prog page unit :=
  ExplorerCore.handler locale_date engine_message escapeHtml refreshStats pollStats e.
Definition boot (hash : jsstr) (now : num) : loop page :=
  ExplorerCore.boot locale_date engine_message escapeHtml refreshStats pollStats hash now.
End site.

(** ** Markup *)

Lemma safe_updateStats answers info latest : safe answers page_ok (updateStats info latest).
Proof. unfold updateStats. repeat stats_step. Qed.

Lemma safe_refreshStats answers result : safe answers page_ok (refreshStats result).
Proof. do 2 (apply safe_lift_bind; intros ? _). apply safe_updateStats. Qed.

(** C1: whatever the user does and in whatever order responses arrive, as long
    as the version fields of the responses are free of markup, the site
    explorer only ever shows its own tags: every tag of [#view] and of
    [.section-title] is one of the page's elements, no attribute is an event
    handler, and every link stays on the page ([#/...]). *)
Theorem site_markup_benign locale_date engine_message hash now l :
  reachable enabled (handler locale_date engine_message) clean_answers
    (boot locale_date engine_message hash now) l ->
  match p_view (world l) with
  | ViewHtml h => Forall (fun t => benign t = true) (tokens h)
  | ViewError _ => True
  end /\ Forall (fun t => benign t = true) (tokens (p_title (world l))).
Proof.
  intros H.
  destruct (reachable_page_ok clean_answers locale_date engine_message escapeHtml refreshStats
    pollStats (fun _ _ h => h) escapeHtml_inert (safe_refreshStats _)
    (fun v => safe_updateStats _ v VNull) hash now l H) as [Hv Ht].
  split; [|by apply fragment_benign]. destruct (p_view (world l)); [by apply fragment_benign | done].
Qed.

(** A healthy answer to the first request of the page. *)
Definition sample_blocks : value :=
  VObj [(u "info", VObj [(u "height", VNum (num_of_Z 3)); (u "status", VStr (u "OK"));
                         (u "synchronized", VBool true);
                         (u "outgoing_connections_count", VNum (num_of_Z 8))]);
        (u "headers", VArr [VObj [(u "height", VNum (num_of_Z 2)); (u "hash", VStr (u "ab<b>"));
                                  (u "timestamp", VNum (num_of_Z 1700000000))]])].

Definition sample_moves : list (move (event := event)) :=
  [Answer 1 (reply 200 sample_blocks); Answer 1 (reply 200 sample_blocks)].

Lemma site_markup_benign_witness :
  let l0 := boot (fun _ => u "date") (fun _ => u "error") [] (num_of_Z 1700000060000) in
  let l := default l0 (play enabled (handler (fun _ => u "date") (fun _ => u "error")) sample_moves l0) in
  match p_view (world l) with
  | ViewHtml h => Forall (fun t => benign t = true) (tokens h)
  | ViewError _ => True
  end /\ Forall (fun t => benign t = true) (tokens (p_title (world l))).
Proof.
  intros l0 l. eapply site_markup_benign. apply play_reach; [|vm_compute; reflexivity].
  assert (forall q, clean_answers q (reply 200 sample_blocks q)).
  { intros q. apply clean_reply. split; vm_compute; reflexivity. }
  by repeat constructor.
Defined.

(** ** Node status *)

(** What a completed [updateStats] leaves in the label and the dot. *)
Lemma updateStats_result answers info latest p p' :
  completes answers (updateStats info latest) p p' (Ok tt) ->
  exists age peers status synchronized,
    tip_age (p_now p) latest = Ok age /\ peer_count info = Ok peers /\
    prop info (u "status") = Ok status /\ prop info (u "synchronized") = Ok synchronized /\
    node_state status synchronized peers (tip_fresh age) = Ok (p_label p', p_dot p').
Proof.
  unfold updateStats. intros H. completes_inv H. subst p'. do 4 eexists. split_and!; eauto.
Qed.

Lemma node_state_online status synchronized peers fresh label dot :
  node_state status synchronized peers fresh = Ok (label, dot) ->
  dot = u "online" \/ dot = u "offline".
Proof.
  unfold node_state. repeat (case_if; [try (intros [= _ <-]; by right)|]).
  - destruct (text_content _); [|done]. intros [= _ <-]. by right.
  - destruct (to_number peers); [|done]. simpl. case_if; intros [= _ <-]; auto.
Qed.

(** When [updateStats] of the site explorer runs through, the dot is green
    exactly if the node reports status [OK], reports itself synchronized, the
    latest header is at most 900 seconds old and at most 300 seconds ahead, and
    the connection counts add up to at least two; otherwise it is red. *)
Theorem updateStats_online_iff info latest p p' :
  completes any_answers (updateStats info latest) p p' (Ok tt) ->
  (p_dot p' = u "online" \/ p_dot p' = u "offline") /\
  (p_dot p' = u "online" <->
    prop info (u "status") = Ok (VStr (u "OK")) /\
    prop info (u "synchronized") = Ok (VBool true) /\
    (exists a, tip_age (p_now p) latest = Ok (Some a) /\
               nleb a (num_of_Z 900) = true /\ nleb (num_of_Z (-300)) a = true) /\
    (exists v n, peer_count info = Ok v /\ to_number v = Ok n /\ nltb n (num_of_Z 2) = false)).
Proof.
  intros (age & peers & status & sync & Ha & Hp & Hs & Hy & H)%updateStats_result.
  split; [by eapply node_state_online|]. unfold node_state in H. rewrite Ha, Hp, Hs, Hy.
  destruct (status_is_ok status) eqn:E1; simpl negb in H; cbv iota in H.
  2: { destruct (text_content _); [|done]. injection H as _ <-. split; [done|].
       by intros ([= ->] & _). }
  assert (status = VStr (u "OK")) as ->.
  { unfold status_is_ok in E1. destruct status; try done. f_equal. by apply bool_decide_eq_true in E1. }
  destruct sync as [| |[]| | | | |]; simpl negb in H; cbv iota in H;
    try (injection H as _ <-; split; [done | by intros (_ & [=] & _)]).
  destruct (tip_fresh age) eqn:E2; simpl negb in H; cbv iota in H.
  2: { injection H as _ <-. split; [done|]. intros (_ & _ & (a & [= ->] & Ha1 & Ha2) & _).
       unfold tip_fresh in E2. by rewrite Ha1, Ha2 in E2. }
  destruct age as [a|]; [|done]. apply andb_true_iff in E2 as [Ha1 Ha2].
  destruct (to_number peers) as [n|] eqn:E3; [|done]. unfold mbind, res_bind in H.
  destruct (nltb n (num_of_Z 2)) eqn:E4; injection H as _ <-.
  - split; [done|]. intros (_ & _ & _ & v & n' & [= <-] & E5 & E6). congruence.
  - split; [|done]. intros _. split_and!; [done | done | by exists a | by exists peers, n].
Qed.

Definition sample_info : value :=
  VObj [(u "height", VNum (num_of_Z 3)); (u "status", VStr (u "OK"));
        (u "synchronized", VBool true); (u "outgoing_connections_count", VNum (num_of_Z 8))].
Definition sample_header : value := VObj [(u "timestamp", VNum (num_of_Z 1700000000))].
Definition sample_page : page := page_initial [] (num_of_Z 1700000060000).

Lemma updateStats_online_iff_witness :
  p_dot (run (updateStats sample_info sample_header) sample_page).1 = u "online" /\
  prop sample_info (u "synchronized") = Ok (VBool true).
Proof.
  assert (completes any_answers (updateStats sample_info sample_header) sample_page
            (run (updateStats sample_info sample_header) sample_page).1 (Ok tt)) as H
    by (apply run_completes; vm_compute; reflexivity).
  pose proof (updateStats_online_iff _ _ _ _ H) as [_ Hi].
  assert (p_dot (run (updateStats sample_info sample_header) sample_page).1 = u "online") as Ho
    by (vm_compute; reflexivity).
  split; [exact Ho|]. apply Hi in Ho. apply Ho.
Defined.

(** The 30-second poll of the site explorer calls [updateStats] without a
    header, so the tip never counts as fresh: whatever the node answers, every
    completed poll leaves the dot red, also for a healthy node. *)
Theorem poll_never_online p p' r :
  completes any_answers poll p p' r -> p_dot p' = u "offline".
Proof.
  intros [([] & H & ->)|(e & w1 & _ & H)]%completes_catch; [|by destruct H as [-> _]].
  apply completes_bind in H as [(e & _ & [=])|(info & w1 & _ & H)].
  destruct (updateStats_result _ _ _ _ _ H) as (age & peers & status & synchronized & Ha & _ & _ & _ & Hn).
  simpl in Ha. injection Ha as <-. unfold node_state in Hn. simpl tip_fresh in Hn.
  destruct (negb (status_is_ok status)).
  - destruct (text_content _); [|done]. by injection Hn as _ <-.
  - destruct synchronized as [| |[]| | | | |]; cbn [negb] in Hn; cbv iota in Hn;
      injection Hn as _ <-; reflexivity.
Qed.

(** The page and the outcome after a whole poll answered by [v]. *)
Lemma poll_never_online_witness :
  exists p' r, completes any_answers poll sample_page p' r /\ p_dot p' = u "offline" /\
               p_label p' = u "Network tip stale".
Proof.
  exists (run (pollStats sample_info) sample_page).1, (Ok tt).
  assert (completes any_answers poll sample_page (run (pollStats sample_info) sample_page).1 (Ok tt)) as H.
  { exists (FResponse 200). split; [done|]. exists (Ok sample_info). split; [done|].
    apply run_completes. vm_compute. reflexivity. }
  split; [exact H|]. split; [exact (poll_never_online _ _ _ H)|]. vm_compute. reflexivity.
Defined.
