(* ===== verification/ExplorerScenarios.v ===== *)
(** Whole runs of the two explorers: searches, failed requests, and the runs
    that show where markup or a late answer gets the better of the page. *)

From Stdlib Require Import SpecFloat.
From S2P Require Import Prelude JsNumber JsValue Html JsText ExplorerFmt Async ExplorerCore.
From S2P Require Import ExplorerHtml ExplorerSafe ExplorerRuns Explorer SiteExplorer.

(** ** Termination *)

Lemma bounded_site_updateStats info latest : bounded 0 (SiteExplorer.updateStats info latest).
Proof. unfold SiteExplorer.updateStats. repeat bounded_step. Qed.

Lemma bounded_site_refreshStats v : bounded 0 (SiteExplorer.refreshStats v).
Proof. unfold SiteExplorer.refreshStats. do 2 bounded_step. apply bounded_site_updateStats. Qed.

Lemma bounded_legacy_updateStats info : bounded 0 (Explorer.updateStats info).
Proof. unfold Explorer.updateStats. repeat bounded_step. Qed.

Lemma bounded_legacy_refreshStats v : bounded 0 (Explorer.refreshStats v).
Proof. unfold Explorer.refreshStats. bounded_step. apply bounded_legacy_updateStats. Qed.

(** No handler of either explorer can wait forever on its own account: each
    event leads to at most six answers of the network (three requests, each with
    its body), whatever those answers are, and then the handler has ended. *)
Theorem handlers_terminate locale_date engine_message e :
  bounded 6 (SiteExplorer.handler locale_date engine_message e) /\
  bounded 6 (Explorer.handler locale_date engine_message e).
Proof.
  split.
  - exact (bounded_handler locale_date engine_message escapeHtml _ _
      bounded_site_refreshStats (fun v => bounded_site_updateStats v VNull) e).
  - exact (bounded_handler locale_date engine_message to_string _ _
      bounded_legacy_refreshStats bounded_legacy_updateStats e).
Qed.

(** ** Searches *)

Section searches.
Context (locale_date : num -> jsstr) (engine_message : exn -> jsstr).
Abbreviation site_handler := (SiteExplorer.handler locale_date engine_message).

(** The request a search for [v] leads to. *)
Definition block_request (v : jsstr) : query :=
  QFetch (u "api.php") (Some (VObj ((u "action", VStr (u "block")) :: block_input v))).

Lemma showBlock_requests v w ts :
  exists h k, launch (SiteExplorer.showBlock locale_date engine_message v) w ts =
    Loop (set_view (ViewHtml h) w) (ts ++ [Task (block_request v) k]).
Proof. do 2 eexists. reflexivity. Qed.

Lemma hashchange_block v w ts :
  v <> [] -> Forall (fun c => c <> 47) v -> p_hash w = u "#/block/" ++ v ->
  launch (site_handler HashChange) w ts =
  launch (SiteExplorer.showBlock locale_date engine_message v) (take_hashchange w) ts.
Proof.
  intros Hn Hv Hh. unfold launch at 1.
  change (run (site_handler HashChange) w) with
    (run (SiteExplorer.route locale_date engine_message) (take_hashchange w)).
  change (run (SiteExplorer.route locale_date engine_message) (take_hashchange w)) with
    (run (route_to locale_date engine_message escapeHtml SiteExplorer.refreshStats
            (route_of (p_hash w))) (take_hashchange w)).
  rewrite Hh, route_of_block by done.
  reflexivity.
Qed.

Lemma launch_submit input w ts :
  launch (site_handler (Submit input)) w ts =
  Loop (if re_digits (trim input) || re_hash (trim input)
        then set_hash (u "#/block/" ++ trim input) w
        else set_view (ViewError search_hint) w) ts.
Proof.
  unfold SiteExplorer.handler, ExplorerCore.handler, submit, showError. cbv zeta.
  generalize (trim input). intros v.
  rewrite (bool_decide_false (search_hint = [])) by (vm_compute; discriminate).
  by destruct (re_digits v || re_hash v).
Qed.

(** A search for a height or a 64-digit hash is carried through: when the
    browser delivers the [hashchange] the submit handler has caused, the page
    requests exactly the block searched for and shows that it is loading, and
    no other handler is disturbed.  Anything else entered is reported on the
    page, which stays where it is. *)
Theorem search_requests_block input w ts :
  p_hash w <> u "#/block/" ++ trim input -> p_hashchanges w = 0%nat ->
  let l := launch (site_handler (Submit input)) w ts in
  if re_digits (trim input) || re_hash (trim input) then
    enabled HashChange (world l) = true /\
    exists w' h k,
      launch (site_handler HashChange) (world l) (tasks l) =
        Loop w' (ts ++ [Task (block_request (trim input)) k]) /\
      p_view w' = ViewHtml h /\ p_hash w' = u "#/block/" ++ trim input
  else l = Loop (set_view (ViewError search_hint) w) ts.
Proof.
  intros Hh H0 l. subst l. rewrite launch_submit.
  destruct (re_digits (trim input) || re_hash (trim input)) eqn:E; [|reflexivity].
  destruct (search_units _ E) as [Hn Hv]. generalize dependent (trim input). intros v.
  cbn [world tasks]. split.
  { unfold enabled. cbn [set_hash p_hashchanges]. unfold str_eqb.
    by rewrite bool_decide_false by congruence. }
  rewrite (hashchange_block v) by done.
  destruct (showBlock_requests v (take_hashchange (set_hash (u "#/block/" ++ v) w)) ts) as (h & k & ->).
  by exists (set_view (ViewHtml h) (take_hashchange (set_hash (u "#/block/" ++ v) w))), h, k.
Qed.

(** When every request of a search fails, the search still comes to an
    end, and it ends in the error view; a 64-digit hash was then looked for as
    a block, as a transaction and as an asset, and the page says so. *)
Theorem failed_search_reported v w :
  (exists w' r, completes failing_answers (SiteExplorer.showBlock locale_date engine_message v) w w' r) /\
  forall w' r,
    completes failing_answers (SiteExplorer.showBlock locale_date engine_message v) w w' r ->
    r = Ok tt /\ exists m, p_view w' = ViewError m /\
      (re_hash v = true -> m = u "No block, transaction, or asset matched this hash.").
Proof.
  split; [|intros w' r; exact (showBlock_fails locale_date engine_message escapeHtml v w w' r)].
  apply (bounded_completes failing_answers 6);
    [|exact (bounded_showBlock locale_date engine_message escapeHtml v)].
  intros [url body| |text]; [by exists (FReject ETypeError) | by exists (Ok VNull) | by exists (Ok tt)].
Qed.
End searches.

Lemma search_requests_block_witness :
  exists w' h k,
    launch (SiteExplorer.handler (fun _ => []) (fun _ => []) HashChange)
      (set_hash (u "#/block/12") sample_page) [] = Loop w' [Task (block_request (u "12")) k] /\
    p_view w' = ViewHtml h /\ p_hash w' = u "#/block/12".
Proof.
  destruct (search_requests_block (fun _ => []) (fun _ => []) (u " 12 ") sample_page [])
    as [_ H]; [vm_compute; discriminate | reflexivity | exact H].
Defined.

(** ** Markup from the API *)

Definition evil_markup : jsstr := u "<img src=x onerror=alert(1)>".

(** A block whose version is markup, as a node (or whoever answers for it) may send it. *)
Definition evil_block : value :=
  VObj [(u "block_header", VObj [(u "height", VNum (num_of_Z 1)); (u "major_version", VStr evil_markup)])].

(** A list of blocks whose hash is markup; its version fields are harmless. *)
Definition evil_blocks : value :=
  VObj [(u "info", sample_info);
        (u "headers", VArr [VObj [(u "height", VNum (num_of_Z 2));
                                  (u "hash", VStr (u "`>" ++ evil_markup))]])].

(** Does the view have a tag that the page's own templates never produce? *)
Definition foreign_tag (v : view) : bool :=
  match v with ViewHtml h => existsb (fun t => negb (benign t)) (tokens h) | ViewError _ => false end.

Definition start_time : num := num_of_Z 1700000060000.

(** C40: the condition on version fields in [site_markup_benign] is needed.  Line
    102 of the site explorer interpolates them without [escapeHtml], so an
    answer whose [major_version] is markup puts a foreign tag with an event
    handler on the page. *)
Theorem site_version_injection locale_date engine_message :
  exists l,
    reachable enabled (SiteExplorer.handler locale_date engine_message) any_answers
      (SiteExplorer.boot locale_date engine_message (u "#/block/1") start_time) l /\
    foreign_tag (p_view (world l)) = true.
Proof.
  set (l0 := SiteExplorer.boot _ _ _ _).
  set (ms := [Answer 1 (reply 200 evil_block); Answer 1 (reply 200 evil_block)] : list (move (event := event))).
  exists (default l0 (play enabled (SiteExplorer.handler locale_date engine_message) ms l0)). split.
  - apply play_reach; [by repeat constructor | vm_compute; reflexivity].
  - vm_compute. reflexivity.
Qed.

(** The first explorer does not escape block hashes (line 56): even when the
    version fields are harmless, a hash that is markup becomes a foreign tag. *)
Theorem legacy_hash_injection locale_date engine_message :
  exists l,
    reachable enabled (Explorer.handler locale_date engine_message) clean_answers
      (Explorer.boot locale_date engine_message [] start_time) l /\
    foreign_tag (p_view (world l)) = true.
Proof.
  set (l0 := Explorer.boot _ _ _ _).
  set (ms := [Answer 1 (reply 200 evil_blocks); Answer 1 (reply 200 evil_blocks)] : list (move (event := event))).
  exists (default l0 (play enabled (Explorer.handler locale_date engine_message) ms l0)). split.
  - apply play_reach; [|vm_compute; reflexivity].
    assert (forall q, clean_answers q (reply 200 evil_blocks q)).
    { intros q. apply clean_reply. split; vm_compute; reflexivity. }
    by repeat constructor.
  - vm_compute. reflexivity.
Qed.

(** ** Late answers *)

Definition numbered_block (n : Z) : value :=
  VObj [(u "block_header", VObj [(u "height", VNum (num_of_Z n))])].

Definition block_title (n : jsstr) : jsstr :=
  u "<div><p class=`eyebrow`>Block</p><h2>#" ++ n ++
  u "</h2></div><a class=`back` href=`#/`>← Recent blocks</a>".

(** Open block 1, go on to block 2 before the answer is there, receive block 2,
    then block 1.  (Handler 0 is the first poll.) *)
Definition overtaken : list (move (event := event)) :=
  [Fire (Navigate (u "#/block/2")); Fire HashChange;
   Answer 2 (reply 200 (numbered_block 2)); Answer 2 (reply 200 (numbered_block 2));
   Answer 1 (reply 200 (numbered_block 1)); Answer 1 (reply 200 (numbered_block 1))].

(** Requests are neither cancelled nor numbered, so a page the user has left
    still draws itself when its answer arrives: the address says block 2, no
    route is pending, and the page shows block 1. *)
Theorem late_answer_overwrites locale_date engine_message :
  exists l,
    reachable enabled (SiteExplorer.handler locale_date engine_message) clean_answers
      (SiteExplorer.boot locale_date engine_message (u "#/block/1") start_time) l /\
    p_hash (world l) = u "#/block/2" /\ p_hashchanges (world l) = 0%nat /\
    p_title (world l) = block_title (u "1").
Proof.
  set (l0 := SiteExplorer.boot _ _ _ _).
  exists (default l0 (play enabled (SiteExplorer.handler locale_date engine_message) overtaken l0)). split.
  - apply play_reach; [|vm_compute; reflexivity].
    assert (forall n q, (n = 1 \/ n = 2) -> clean_answers q (reply 200 (numbered_block n) q)) as Hc.
    { intros n q [-> | ->]; apply clean_reply; split; vm_compute; reflexivity. }
    repeat constructor; intros q; apply Hc; auto.
  - split_and!; vm_compute; reflexivity.
Qed.

(** Leave the list of recent blocks for block 1 before the list is there; the
    block arrives first, the list of a healthy node after it. *)
Definition left_early : list (move (event := event)) :=
  [Fire (Navigate (u "#/block/1")); Fire HashChange;
   Answer 2 (reply 200 (numbered_block 1)); Answer 2 (reply 200 (numbered_block 1));
   Answer 1 (reply 200 sample_blocks); Answer 1 (reply 200 sample_blocks)].

(** [showBlocks] looks for the refresh button after its answer has arrived
    (line 81).  On a page that has moved on the button is gone, the [TypeError]
    is caught as a failure of the node: the view is replaced by an error and a
    healthy node is shown as unavailable. *)
Theorem late_blocks_shown_as_offline locale_date engine_message :
  exists l,
    reachable enabled (SiteExplorer.handler locale_date engine_message) clean_answers
      (SiteExplorer.boot locale_date engine_message [] start_time) l /\
    p_hash (world l) = u "#/block/1" /\
    match p_view (world l) with ViewError _ => True | ViewHtml _ => False end /\
    p_dot (world l) = u "offline" /\ p_label (world l) = u "Node unavailable".
Proof.
  set (l0 := SiteExplorer.boot _ _ _ _).
  exists (default l0 (play enabled (SiteExplorer.handler locale_date engine_message) left_early l0)). split.
  - apply play_reach; [|vm_compute; reflexivity].
    assert (forall q, clean_answers q (reply 200 (numbered_block 1) q)) as Hb.
    { intros q. apply clean_reply. split; vm_compute; reflexivity. }
    assert (forall q, clean_answers q (reply 200 sample_blocks q)) as Hs.
    { intros q. apply clean_reply. split; vm_compute; reflexivity. }
    by repeat constructor.
  - split_and!; vm_compute; done.
Qed.

(** ** Supplies beyond 2^53 *)

(** What the page shows for the supply of an asset in a response body. *)
Definition shown_supply (body : jsstr) : res jsstr :=
  v ← json_parse body; a ← prop v (u "asset"); supply a.

(** [assetAmount] computes with [BigInt], but [response.json()] has already
    read the supply as a double: the largest 64-bit supply is shown one too
    high, and 2^53 + 1 one too low. *)
Theorem supply_rounded :
  shown_supply (u "{`asset`:{`atomic_supply`:18446744073709551615,`display_decimals`:0}}")
    = Ok (u "18446744073709551616") /\
  shown_supply (u "{`asset`:{`atomic_supply`:9007199254740993,`display_decimals`:0}}")
    = Ok (u "9007199254740992").
Proof. split; vm_compute; reflexivity. Qed.
