(* ===== verification/Home.v ===== *)
(** The home page, [website/app.js]: navigation, copy buttons, the status of the
    public node, the miner table, and the two charts whose history is kept in
    the browser's storage. *)

From Stdlib Require Import SpecFloat.
From S2P Require Import Prelude JsNumber JsValue Html JsText JsJson Async.

(** ** The page *)

(** The elements whose text, class, title or points the script writes. *)
Inductive field :=
| Height | Difficulty | NetworkHashrate | Connections | ConnectionsTitle | Rpc | State | Dot
| ChartDifficultyValue | ChartHashrateValue | LineDifficulty | LineHashrate
| MinerActive | MinerHashrate | MinerBlocks | MinerUpdated | Year.

#[global] Instance field_eq_dec : EqDecision field.
Proof. solve_decision. Defined.

(** A cell of the miner table: its text and its class. *)
Record cell := Cell { cell_text : jsstr; cell_class : option jsstr }.

(** [#miner-rows]: a message written as markup, or rows built cell by cell. *)
Inductive rows :=
| RowsHtml (html : jsstr)
| RowsCells (l : list (list cell)).

(** [localStorage]: not accessible, or with the text under [historyKey]. *)
Inductive storage :=
| StorageDenied
| Storage (item : option jsstr).

Record home := Home {
  h_open : bool;              (* class [open] of the navigation *)
  h_expanded : jsstr;         (* [aria-expanded] of the menu button *)
  h_toast : bool;             (* class [show] of the toast *)
  h_timers : nat;             (* toast timers still to fire *)
  h_buttons : list jsstr;     (* texts of the copy buttons *)
  h_texts : field -> jsstr;
  h_rows : rows;
  h_chart : list (jsstr * value);  (* [chartHistory] *)
  h_storage : storage;
  h_now : num
}.

Definition set_nav (open : bool) (expanded : jsstr) (h : home) : home :=
  Home open expanded (h_toast h) (h_timers h) (h_buttons h) (h_texts h) (h_rows h) (h_chart h)
    (h_storage h) (h_now h).
Definition set_toast (show : bool) (timers : nat) (h : home) : home :=
  Home (h_open h) (h_expanded h) show timers (h_buttons h) (h_texts h) (h_rows h) (h_chart h)
    (h_storage h) (h_now h).
Definition set_button (i : nat) (t : jsstr) (h : home) : home :=
  Home (h_open h) (h_expanded h) (h_toast h) (h_timers h) (<[i := t]> (h_buttons h)) (h_texts h)
    (h_rows h) (h_chart h) (h_storage h) (h_now h).
Definition set_text (f : field) (t : jsstr) (h : home) : home :=
  Home (h_open h) (h_expanded h) (h_toast h) (h_timers h) (h_buttons h)
    (fun g => if decide (g = f) then t else h_texts h g) (h_rows h) (h_chart h) (h_storage h) (h_now h).
Definition set_rows (r : rows) (h : home) : home :=
  Home (h_open h) (h_expanded h) (h_toast h) (h_timers h) (h_buttons h) (h_texts h) r (h_chart h)
    (h_storage h) (h_now h).
Definition set_history (c : list (jsstr * value)) (h : home) : home :=
  Home (h_open h) (h_expanded h) (h_toast h) (h_timers h) (h_buttons h) (h_texts h) (h_rows h) c
    (h_storage h) (h_now h).
Definition set_storage (s : storage) (h : home) : home :=
  Home (h_open h) (h_expanded h) (h_toast h) (h_timers h) (h_buttons h) (h_texts h) (h_rows h)
    (h_chart h) s (h_now h).
Definition set_clock (t : num) (h : home) : home :=
  Home (h_open h) (h_expanded h) (h_toast h) (h_timers h) (h_buttons h) (h_texts h) (h_rows h)
    (h_chart h) (h_storage h) t.

(** ** Chart history *)

Definition chart_empty : list (jsstr * value) := [(u "hashrate", VArr []); (u "difficulty", VArr [])].

(** The own properties [...v] copies out of a value. *)
Fixpoint indexed (i : nat) (l : list value) : list (jsstr * value) :=
  match l with
  | [] => []
  | x :: l => (dec_nonneg (Z.of_nat i), x) :: indexed (S i) l
  end.

Definition own_properties (v : value) : list (jsstr * value) :=
  match v with
  | VObj ms => ms
  | VArr l => indexed 0 l
  | VStr s => indexed 0 ((fun c => VStr [c]) <$> s)
  | _ => []
  end.

(** [{...ms, ...v}]. *)
Definition spread (ms : list (jsstr * value)) (v : value) : list (jsstr * value) :=
  foldl (fun acc m => set_member acc m.1 m.2) ms (own_properties v).

(** The history the script starts with. *)
Definition load_history (s : storage) : list (jsstr * value) :=
  match s with
  | StorageDenied => chart_empty
  | Storage item =>
      match json_parse (match item with Some (c :: t) => c :: t | _ => u "{}" end) with
      | Ok v => spread chart_empty v
      | Err _ => chart_empty
      end
  end.

(** The two series, and the elements that belong to them. *)
Inductive series := SHashrate | SDifficulty.

#[global] Instance series_eq_dec : EqDecision series.
Proof. solve_decision. Defined.

Definition series_key (s : series) : jsstr :=
  match s with SHashrate => u "hashrate" | SDifficulty => u "difficulty" end.
Definition series_line (s : series) : field :=
  match s with SHashrate => LineHashrate | SDifficulty => LineDifficulty end.

(** [chartHistory[series]]. *)
Definition history (s : series) (c : list (jsstr * value)) : value :=
  default VUndef (lookup_member (series_key s) c).

(** [Array.isArray(v) ? v : []]. *)
Definition array_or_empty (v : value) : list value := match v with VArr l => l | _ => [] end.

(** [slice(-120)]. *)
Definition last120 {A} (l : list A) : list A := drop (length l - 120) l.

Definition chart_point (time value : num) : JsValue.value :=
  VObj [(u "time", VNum time); (u "value", VNum value)].

Section home.
(** What the environment decides: the text of a time of day in the user's locale
    and zone, and whether the storage still has room for a text. *)
Context (locale_time : num -> jsstr) (room : jsstr -> bool).

Definition put (f : field) (t : jsstr) : prog home unit := act (set_text f t).

(** ** Charts *)

(** [Math.min(...l)] and [Math.max(...l)]. *)
Definition minimum_of (l : list num) : num := foldl math_min (S754_infinity false) l.
Definition maximum_of (l : list num) : num := foldl math_max (S754_infinity true) l.

Definition spread_of (minimum maximum : num) : num :=
  let d := nsub maximum minimum in
  if num_truthy d then d else math_max (nmul maximum (string_to_number (u ".1"))) (num_of_Z 1).

Definition coordinate (n : nat) (minimum spread : num) (index : nat) (point : value) : res jsstr :=
  let x := if Nat.eqb n 1 then num_of_Z 600
           else nmul (ndiv (nat_num index) (nsub (nat_num n) (num_of_Z 1))) (num_of_Z 600) in
  v ← prop point (u "value");
  d ← vsub v (VNum minimum);
  let y := nsub (num_of_Z 165) (nmul (ndiv d spread) (num_of_Z 150)) in
  Ok (to_fixed1 x ++ u "," ++ to_fixed1 y).

(** [l.join(' ')]. *)
Fixpoint join_spaces (l : list jsstr) : jsstr :=
  match l with
  | [] => []
  | [x] => x
  | x :: l => x ++ u " " ++ join_spaces l
  end.

Definition coordinates (points : list value) : res jsstr :=
  values ← rmap (fun p => prop p (u "value")) points;
  nums ← rmap to_number values;
  let minimum := minimum_of nums in
  let maximum := maximum_of nums in
  cs ← rmapi (coordinate (length points) minimum (spread_of minimum maximum)) 0 points;
  Ok (join_spaces cs).

(** The page has both charts with their lines. *)
Definition renderChart (s : series) : prog home unit :=
  h ← get;
  let points := vor (history s (h_chart h)) (VArr []) in
  n ← lift (prop points (u "length"));
  if negb (truthy n) then Ret tt else
  l ← lift (as_array points);
  c ← lift (coordinates l);
  put (series_line s) c.

(** [localStorage.setItem] in its [try]. *)
Definition save_history (h : home) : home :=
  match h_storage h with
  | StorageDenied => h
  | Storage _ =>
      let t := stringify (VObj (h_chart h)) in
      if room t then set_storage (Storage (Some t)) h else h
  end.

(** Is the last point less than 25 seconds old? *)
Definition too_soon (now : num) (points : list value) : res bool :=
  match last points with
  | None => Ok false
  | Some p => t ← prop p (u "time"); d ← vsub (VNum now) t; Ok (nltb d (num_of_Z 25000))
  end.

Definition addChartPoint (s : series) (v : value) : prog home unit :=
  numeric ← lift (to_number v);
  if negb (is_finite numeric) || nltb numeric nzero then Ret tt else
  h ← get;
  let points := array_or_empty (history s (h_chart h)) in
  soon ← lift (too_soon (h_now h) points);
  if soon : bool then Ret tt else
  let chart := set_member (h_chart h) (series_key s)
                 (VArr (last120 (points ++ [chart_point (h_now h) numeric]))) in
  act (fun h => save_history (set_history chart h)) ≫= fun _ =>
  renderChart s.

(** ** Status of the node *)

(** The loop of [formatHashrate]: [unit] is current, [larger] are the units after
    it. *)
Fixpoint scale_rate (rate : num) (unit : jsstr) (larger : list jsstr) : num * jsstr :=
  match larger with
  | [] => (rate, unit)
  | next :: larger =>
      if nleb (num_of_Z 1000) rate then scale_rate (ndiv rate (num_of_Z 1000)) next larger
      else (rate, unit)
  end.

Definition formatHashrate (v : value) : res jsstr :=
  x ← to_number v;
  let '(rate, unit) := scale_rate (if num_truthy x then x else nzero)
                         (u "H/s") [u "kH/s"; u "MH/s"; u "GH/s"] in
  Ok (format_num (if nltb rate (num_of_Z 10) then 2 else 1) rate ++ u " " ++ unit).

(** [info.k ?? 0]. *)
Definition prop0 (v : value) (k : jsstr) : res value :=
  x ← prop v k; Ok (vcoalesce x (VNum nzero)).

Definition network_hashrate (info : value) : res num :=
  t ← prop info (u "target");
  target ← to_number t;
  if nltb nzero target then d ← prop0 info (u "difficulty"); x ← to_number d; Ok (ndiv x target)
  else Ok nzero.

Definition peers (info : value) : res value :=
  p ← prop info (u "peer_connections");
  if nullish p then
    a ← prop0 info (u "incoming_connections_count"); b ← prop0 info (u "outgoing_connections_count");
    vadd a b
  else Ok p.

Definition is_true (v : value) : bool := match v with VBool b => b | _ => false end.

(** The state and the class of the dot, by the [if] chain of [updateNodeStatus]. *)
Definition node_report (info : value) : res (jsstr * jsstr) :=
  status ← prop info (u "status");
  if negb (match status with VStr s => str_eqb s (u "OK") | _ => false end) then
    t ← text_content (vor status (VStr (u "Node unavailable"))); Ok (t, u "status-dot offline")
  else
    synchronized ← prop info (u "synchronized");
    if negb (is_true synchronized) then Ok (u "Node unsynchronized", u "status-dot offline") else
    tip_fresh ← prop info (u "tip_fresh");
    if negb (is_true tip_fresh) then Ok (u "Network tip stale", u "status-dot offline") else
    peer_ready ← prop info (u "peer_ready");
    if negb (is_true peer_ready) then Ok (u "Network under-peered", u "status-dot offline")
    else Ok (u "Node synchronized", u "status-dot online").

(** What [updateNodeStatus] does with an answer. *)
Definition showNode (info : value) : prog home unit :=
  t ← lift (prop0 info (u "height") ≫= number_format); put Height t ≫= fun _ =>
  t ← lift (prop0 info (u "difficulty") ≫= number_format); put Difficulty t ≫= fun _ =>
  r ← lift (network_hashrate info);
  t ← lift (formatHashrate (VNum r)); put NetworkHashrate t ≫= fun _ =>
  t ← lift (prop0 info (u "difficulty") ≫= number_format); put ChartDifficultyValue t ≫= fun _ =>
  d ← lift (prop info (u "difficulty")); addChartPoint SDifficulty d ≫= fun _ =>
  peerCount ← lift (peers info);
  hidden ← lift (prop info (u "connections_hidden"));
  t ← lift (if truthy hidden then Ok (u "HIDDEN") else number_format peerCount);
  put Connections t ≫= fun _ =>
  put ConnectionsTitle
    (if truthy hidden
     then u "Connection counts are intentionally hidden by the public restricted RPC."
     else u "Current incoming and outgoing P2P peer nodes, not unique people.") ≫= fun _ =>
  restricted ← lift (prop info (u "restricted"));
  put Rpc (if truthy restricted then u "RESTRICTED" else u "ONLINE") ≫= fun _ =>
  '(state, dot) ← lift (node_report info);
  put State state ≫= fun _ => put Dot dot.

(** [await fetch(...)], the test of [response.ok], [await response.json()]. *)
Definition fetch_json (url : jsstr) (body : option value) : prog home value :=
  r ← Await (QFetch url body) Ret;
  match r with
  | FReject e => Throw e
  | FResponse status =>
      if negb (status_ok status) then Throw (EError (u "HTTP " ++ dec status))
      else j ← Await QJson Ret; lift j
  end.

Definition nodeUnavailable : prog home unit :=
  put State (u "Status unavailable") ≫= fun _ => put Rpc (u "—") ≫= fun _ =>
  put Dot (u "status-dot offline").

Definition updateNodeStatus : prog home unit :=
  pcatch (info ← fetch_json (u "/api/node-info/index.php") (Some (VObj [])); showNode info)
    (fun _ => nodeUnavailable).

(** ** Miners *)

Definition miner_row (i : nat) (miner : value) : res (list cell) :=
  name ← prop miner (u "name");
  rate ← prop miner (u "hashrate") ≫= formatHashrate;
  blocks ← prop0 miner (u "blocks_found") ≫= number_format;
  active ← prop miner (u "active");
  name ← text_content name;
  Ok [Cell (u "#" ++ num_to_string (nat_num (S i))) None; Cell name None; Cell rate None;
      Cell blocks None;
      Cell (if truthy active then u "ACTIVE" else u "OFFLINE")
        (Some (if truthy active then u "miner-online" else []))].

Definition no_miners : jsstr :=
  u "<tr><td colspan=`5` class=`table-message`>No miners have reported in the last three minutes.</td></tr>".
Definition miners_unavailable : jsstr :=
  u "<tr><td colspan=`5` class=`table-message`>Miner statistics are temporarily unavailable.</td></tr>".

Definition miner_time (data : value) : res jsstr :=
  t ← prop data (u "generated_at");
  if truthy t then x ← to_number t; Ok (locale_time (nmul x (num_of_Z 1000))) else Ok (u "—").

Definition renderMiners (data : value) : prog home unit :=
  m ← lift (prop data (u "miners"));
  let miners := array_or_empty m in
  t ← lift (a ← prop data (u "active_miners"); number_format (vcoalesce a (VNum (nat_num (length miners)))));
  put MinerActive t ≫= fun _ =>
  t ← lift (prop0 data (u "total_hashrate") ≫= formatHashrate); put MinerHashrate t ≫= fun _ =>
  t ← lift (prop0 data (u "total_hashrate") ≫= formatHashrate); put ChartHashrateValue t ≫= fun _ =>
  r ← lift (prop data (u "total_hashrate")); addChartPoint SHashrate r ≫= fun _ =>
  t ← lift (prop0 data (u "total_blocks") ≫= number_format); put MinerBlocks t ≫= fun _ =>
  t ← lift (miner_time data); put MinerUpdated t ≫= fun _ =>
  match miners with
  | [] => act (set_rows (RowsHtml no_miners))
  | _ => l ← lift (rmapi miner_row 0 miners); act (set_rows (RowsCells l))
  end.

Definition minersUnavailable : prog home unit :=
  put MinerActive (u "—") ≫= fun _ => put MinerHashrate (u "—") ≫= fun _ =>
  put MinerBlocks (u "—") ≫= fun _ => put MinerUpdated (u "—") ≫= fun _ =>
  act (set_rows (RowsHtml miners_unavailable)).

Definition updateMinerStats : prog home unit :=
  pcatch (data ← fetch_json (u "/api/miner-stats/") None; renderMiners data)
    (fun _ => minersUnavailable).

(** ** Navigation and copy buttons *)

Definition bool_text (b : bool) : jsstr := if b then u "true" else u "false".

Definition menuClick : prog home unit :=
  act (fun h => set_nav (negb (h_open h)) (bool_text (negb (h_open h))) h).

Definition linkClick : prog home unit := act (set_nav false (u "false")).

(** The addresses of the copy buttons. *)
Definition copy_texts : list jsstr :=
  [u "node.monzero.org:6174"; u "node2.monzero.org:6174"; u "node.monzero.org:6175"].

Definition copyClick (i : nat) : prog home unit :=
  r ← Await (QClipboard (default [] (copy_texts !! i))) Ret;
  match r with
  | Ok _ => act (fun h => set_toast true (S (h_timers h)) h)
  | Err _ => act (set_button i (u "Select manually"))
  end.

Definition toastTimeout : prog home unit := act (fun h => set_toast false (pred (h_timers h)) h).

(** ** Events *)

Inductive event :=
| MenuClick | LinkClick | CopyClick (i : nat) | ToastTimeout | NodeTick | MinerTick | Clock (now : num).

Definition enabled (e : event) (h : home) : bool :=
  match e with
  | CopyClick i => Nat.ltb i (length copy_texts)
  | ToastTimeout => Nat.ltb 0 (h_timers h)
  | _ => true
  end.

Definition handler (e : event) : prog home unit :=
  match e with
  | MenuClick => menuClick
  | LinkClick => linkClick
  | CopyClick i => copyClick i
  | ToastTimeout => toastTimeout
  | NodeTick => updateNodeStatus
  | MinerTick => updateMinerStats
  | Clock t => act (set_clock t)
  end.

(** The page as delivered. *)
Definition texts_initial (f : field) : jsstr :=
  match f with
  | ConnectionsTitle | LineDifficulty | LineHashrate | Year => []
  | State => u "Checking node"
  | Dot => u "status-dot"
  | _ => u "—"
  end.

Definition rows_initial : rows :=
  RowsHtml (u "<tr><td colspan=`5` class=`table-message`>Loading miner statistics…</td></tr>").

Definition home_initial (s : storage) (now : num) : home :=
  Home false (u "false") false 0 [u "Copy"; u "Copy"; u "Copy"] texts_initial rows_initial chart_empty s now.

(** The script, from line 27 on: the year, the history, the two requests, the
    two charts. *)
Definition boot (year : num) (s : storage) (now : num) : loop home :=
  launch_all
    [put Year (num_to_string year);
     act (fun h => set_history (load_history (h_storage h)) h);
     updateNodeStatus;
     updateMinerStats;
     renderChart SHashrate ≫= fun _ => renderChart SDifficulty]
    (Loop (home_initial s now) []).
End home.
