(* ===== verification/HomeProps.v ===== *)
(** Correctness of the home page: what the history of the charts always looks
    like and that it survives a reload, what the page says about the node, and
    how it treats the answers it gets. *)

From Stdlib Require Import SpecFloat.
From S2P Require Import Prelude JsNumber JsValue Html JsText JsJson Async Home.

(** ** Objects *)

Lemma lookup_set_member ms k v : lookup_member k (set_member ms k v) = Some v.
Proof.
  induction ms as [|[k' v'] ms IH]; simpl; unfold str_eqb; [by rewrite bool_decide_true|].
  case_bool_decide; simpl; unfold str_eqb; [by rewrite bool_decide_true|].
  case_if; simpl; unfold str_eqb; [by rewrite bool_decide_true|]. by rewrite bool_decide_false.
Qed.

Lemma lookup_set_other ms k k' v : k <> k' -> lookup_member k' (set_member ms k v) = lookup_member k' ms.
Proof.
  intros Hk. induction ms as [|[k1 v1] ms IH]; simpl; unfold str_eqb; [by rewrite bool_decide_false|].
  destruct (bool_decide_reflect (k1 = k)) as [->|]; simpl; unfold str_eqb; [by rewrite bool_decide_false|].
  case_if; simpl; unfold str_eqb; [by rewrite (bool_decide_false (k = k'))|]. by rewrite IH.
Qed.

Lemma set_member_keys ms k v : k ∈ ms.*1 -> (forall k', k' ∈ ms.*1 -> key_before k k' = false) ->
  (set_member ms k v).*1 = ms.*1.
Proof.
  intros Hk Hb. induction ms as [|[k1 v1] ms IH]; [by apply elem_of_nil in Hk|]. simpl. unfold str_eqb.
  destruct (bool_decide_reflect (k1 = k)) as [->|Hne]; [done|].
  rewrite (Hb k1) by (rewrite fmap_cons; left). simpl. f_equal. apply IH.
  - rewrite fmap_cons in Hk. by apply elem_of_cons in Hk as [->|].
  - intros k' H. apply Hb. rewrite fmap_cons. by right.
Qed.

(** ** The history *)

Definition point_of (p : num * num) : value := chart_point p.1 p.2.

(** Finite, not negative. *)
Definition plottable (x : num) : Prop := is_finite x = true /\ nltb x nzero = false.

(** Each point is at least 25 seconds after the one before. *)
Fixpoint spaced (pts : list (num * num)) : Prop :=
  match pts with
  | p :: (q :: _) as rest => nltb (nsub q.1 p.1) (num_of_Z 25000) = false /\ spaced rest
  | _ => True
  end.

Definition history_ok (v : value) : Prop :=
  exists pts, v = VArr (point_of <$> pts) /\ (length pts <= 120)%nat /\
    Forall (fun p => plottable p.2) pts /\ spaced pts.

Definition chart_ok (c : list (jsstr * value)) : Prop := forall s, history_ok (history s c).

Lemma spaced_drop n pts : spaced pts -> spaced (drop n pts).
Proof.
  revert pts. induction n as [|n IH]; intros [|p [|q pts]]; simpl; try done; [by rewrite drop_nil|].
  intros [_ H]. by apply IH.
Qed.

Lemma spaced_snoc pts p :
  spaced pts ->
  match last pts with Some q => nltb (nsub p.1 q.1) (num_of_Z 25000) = false | None => True end ->
  spaced (pts ++ [p]).
Proof.
  induction pts as [|q [|q' pts] IH]; [done | by intros _ ? |]. intros [H1 H2] Hl.
  split; [done|]. by apply IH.
Qed.

Lemma too_soon_points now pts :
  too_soon now (point_of <$> pts) =
  Ok (match last pts with Some q => nltb (nsub now q.1) (num_of_Z 25000) | None => false end).
Proof. unfold too_soon. rewrite fmap_last. by destruct (last pts). Qed.

(** The point that [addChartPoint] appends keeps the history in order. *)
Lemma history_ok_add now x v :
  history_ok v -> plottable x -> too_soon now (array_or_empty v) = Ok false ->
  history_ok (VArr (last120 (array_or_empty v ++ [chart_point now x]))).
Proof.
  intros (pts & -> & Hl & Hp & Hs) Hx. cbn [array_or_empty]. rewrite too_soon_points.
  intros [= Ht]. set (pts' := pts ++ [(now, x)]).
  exists (drop (length pts' - 120) pts'). split_and!.
  - rewrite fmap_drop. unfold pts'. rewrite fmap_app. unfold last120.
    rewrite !length_app, length_fmap. done.
  - rewrite length_drop. lia.
  - apply Forall_drop, Forall_app. split; [done|]. by apply Forall_singleton.
  - apply spaced_drop, spaced_snoc; [done|]. by destruct (last pts).
Qed.

Lemma history_set s s' c v :
  history s' (set_member c (series_key s) v) = if decide (s = s') then v else history s' c.
Proof.
  unfold history. destruct s, s'; simpl; try (rewrite lookup_set_member; reflexivity);
    rewrite lookup_set_other by done; reflexivity.
Qed.

(** ** Invariants of the page

    What the handlers do to the page, as the laws an invariant has to satisfy;
    an instance is then an invariant of every reachable page. *)

(** The history after a new point of the series [s]. *)
Definition chart_with (s : series) (x : num) (h : home) : list (jsstr * value) :=
  set_member (h_chart h) (series_key s)
    (VArr (last120 (array_or_empty (history s (h_chart h)) ++ [chart_point (h_now h) x]))).

Class HomeInvariant (room : jsstr -> bool) (I : home -> Prop) : Prop := {
  inv_text f t h : I h -> I (set_text f t h);
  inv_button i t h : I h -> I (set_button i t h);
  inv_clock t h : I h -> I (set_clock t h);
  inv_menu h : I h -> I (set_nav (negb (h_open h)) (bool_text (negb (h_open h))) h);
  inv_link h : I h -> I (set_nav false (u "false") h);
  inv_copied h : I h -> I (set_toast true (S (h_timers h)) h);
  inv_timeout h : I h -> I (set_toast false (pred (h_timers h)) h);
  inv_cells l h : I h -> I (set_rows (RowsCells l) h);
  inv_message m h : m ∈ [no_miners; miners_unavailable] -> I h -> I (set_rows (RowsHtml m) h);
  inv_point s x h w :
    plottable x -> too_soon (h_now h) (array_or_empty (history s (h_chart h))) = Ok false ->
    I h -> I w -> I (save_history room (set_history (chart_with s x h) w))
}.

Section invariants.
Context (locale_time : num -> jsstr) (room : jsstr -> bool) (I : home -> Prop) `{!HomeInvariant room I}.

Abbreviation safe_home := (safe any_answers I).

Lemma safe_put f t : safe_home (put f t).
Proof. apply safe_act. intros h. apply inv_text. Qed.

(** Steps that every handler is made of. *)
Ltac home_step :=
  lazymatch goal with
  | |- safe _ _ (mbind _ (lift _)) => apply safe_lift_bind; intros ? ?
  | |- safe _ _ (mbind _ (put _ _)) => apply safe_seq; [apply safe_put|]
  | |- safe _ _ (put _ _) => apply safe_put
  | |- safe _ _ (lift _) => apply safe_lift
  | |- safe _ _ (let '(_, _) := ?x in _) => destruct x
  end.

Lemma safe_renderChart s : safe_home (renderChart s).
Proof. apply safe_get_bind. intros h _. cbv zeta. home_step. case_if; [done|]. repeat home_step. Qed.

Lemma safe_addChartPoint s v : safe_home (addChartPoint room s v).
Proof.
  unfold addChartPoint. home_step. case_if; [done|]. apply safe_get_bind. intros h Hh. cbv zeta. home_step.
  destruct a0; [done|]. apply safe_seq; [|apply safe_renderChart].
  apply safe_act. intros w Hw. apply orb_false_iff in Heqb as [H1%negb_false_iff H2].
  by apply (inv_point s).
Qed.

Lemma safe_showNode info : safe_home (showNode room info).
Proof.
  unfold showNode. do 10 home_step. apply safe_seq; [apply safe_addChartPoint|].
  repeat home_step.
Qed.

Lemma safe_fetch_json {B} url body (f : value -> prog home B) :
  (forall v, safe_home (f v)) -> safe_home (fetch_json url body ≫= f).
Proof.
  intros Hf [status|e] _; [|done]. simpl. case_if; [done|]. intros [v|e] _; [apply Hf | done].
Qed.

Lemma safe_updateNodeStatus : safe_home (updateNodeStatus room).
Proof.
  apply safe_catch; [|intros _; unfold nodeUnavailable; repeat home_step].
  apply safe_fetch_json. intros v. apply safe_showNode.
Qed.

Lemma safe_renderMiners data : safe_home (renderMiners locale_time room data).
Proof.
  unfold renderMiners. cbv zeta. do 8 home_step. apply safe_seq; [apply safe_addChartPoint|].
  do 4 home_step. destruct (array_or_empty _).
  - apply safe_act. intros h. apply inv_message. left.
  - home_step. apply safe_act. intros h. apply inv_cells.
Qed.

Lemma safe_updateMinerStats : safe_home (updateMinerStats locale_time room).
Proof.
  apply safe_catch; [apply safe_fetch_json; intros v; apply safe_renderMiners|].
  intros _. unfold minersUnavailable. do 4 home_step. apply safe_act. intros h. apply inv_message.
  right. left.
Qed.

Lemma safe_home_handler e : safe_home (handler locale_time room e).
Proof.
  destruct e as [| |i| | | |t]; unfold handler.
  - apply safe_act. apply inv_menu.
  - apply safe_act. apply inv_link.
  - intros [[]|e] _; apply safe_act; [apply inv_copied | intros h; apply inv_button].
  - apply safe_act. apply inv_timeout.
  - apply safe_updateNodeStatus.
  - apply safe_updateMinerStats.
  - apply safe_act. intros h. apply inv_clock.
Qed.

(** The page when the history has been read from the storage. *)
Definition home_loaded (year : num) (s : storage) (now : num) : home :=
  set_history (load_history s) (set_text Year (num_to_string year) (home_initial s now)).

Lemma reachable_home year s now l :
  I (home_loaded year s now) ->
  reachable enabled (handler locale_time room) any_answers (boot locale_time room year s now) l ->
  I (world l).
Proof.
  intros H0 Hl. enough (loop_inv any_answers I (boot locale_time room year s now)) as Hb.
  { by destruct (reachable_inv _ _ _ _ _ _ safe_home_handler Hb Hl). }
  change (loop_inv any_answers I (launch_all
    [updateNodeStatus room; updateMinerStats locale_time room;
     renderChart SHashrate ≫= fun _ => renderChart SDifficulty] (Loop (home_loaded year s now) []))).
  apply launch_all_inv; [|by split; [|constructor]].
  repeat constructor; [apply safe_updateNodeStatus | apply safe_updateMinerStats|].
  apply safe_seq; apply safe_renderChart.
Qed.
End invariants.

(** What saving leaves alone. *)
Lemma save_history_frame room h :
  h_open (save_history room h) = h_open h /\ h_expanded (save_history room h) = h_expanded h /\
  h_toast (save_history room h) = h_toast h /\ h_timers (save_history room h) = h_timers h /\
  h_rows (save_history room h) = h_rows h /\ h_chart (save_history room h) = h_chart h.
Proof. unfold save_history. destruct (h_storage h); [done|]. by destruct (room _). Qed.

Definition nav_ok (h : home) : Prop := h_expanded h = bool_text (h_open h).
Definition toast_ok (h : home) : Prop := h_toast h = true -> (0 < h_timers h)%nat.
Definition rows_ok (h : home) : Prop :=
  match h_rows h with
  | RowsCells _ => True
  | RowsHtml m => RowsHtml m = rows_initial \/ m ∈ [no_miners; miners_unavailable]
  end.

#[global] Instance nav_invariant room : HomeInvariant room nav_ok.
Proof.
  constructor; try done. intros s x h w _ _ _ Hw. unfold nav_ok.
  by destruct (save_history_frame room (set_history (chart_with s x h) w)) as (-> & -> & _).
Qed.

#[global] Instance toast_invariant room : HomeInvariant room toast_ok.
Proof.
  constructor; try done; [intros h _ _; simpl; lia|]. intros s x h w _ _ _ Hw. unfold toast_ok.
  by destruct (save_history_frame room (set_history (chart_with s x h) w)) as (_ & _ & -> & -> & _).
Qed.

#[global] Instance rows_invariant room : HomeInvariant room rows_ok.
Proof.
  constructor; try done; [intros m h Hm _; by right|]. intros s x h w _ _ _ Hw. unfold rows_ok.
  by destruct (save_history_frame room (set_history (chart_with s x h) w)) as (_ & _ & _ & _ & -> & _).
Qed.

#[global] Instance chart_invariant room : HomeInvariant room (fun h => chart_ok (h_chart h)).
Proof.
  constructor; try done. intros s x h w Hx Ht Hh _ s'.
  destruct (save_history_frame room (set_history (chart_with s x h) w)) as (_ & _ & _ & _ & _ & ->).
  simpl. unfold chart_with. rewrite history_set. case_decide as Hs; [|apply Hh].
  by apply history_ok_add.
Qed.

(** Whatever the user clicks and the servers answer, the menu button tells
    assistive technology the truth about the menu, a toast on the screen has a
    timer that will take it away, and no text of an answer is ever written as
    markup: the miner table holds one of the page's three messages or cells whose
    text is set as text. *)
Theorem home_widgets_consistent locale_time room year s now l :
  reachable enabled (handler locale_time room) any_answers (boot locale_time room year s now) l ->
  h_expanded (world l) = bool_text (h_open (world l)) /\
  (h_toast (world l) = true -> (0 < h_timers (world l))%nat) /\
  match h_rows (world l) with
  | RowsCells _ => True
  | RowsHtml m => RowsHtml m = rows_initial \/ m ∈ [no_miners; miners_unavailable]
  end.
Proof.
  intros H. split_and!.
  - by apply (reachable_home locale_time room nav_ok year s now l).
  - by apply (reachable_home locale_time room toast_ok year s now l).
  - apply (reachable_home locale_time room rows_ok year s now l); [by left | done].
Qed.

(** A healthy node, and a visit: the menu is opened, the node answers. *)
Definition node_info : value :=
  VObj [(u "height", VNum (num_of_Z 5)); (u "difficulty", VNum (num_of_Z 240000));
        (u "target", VNum (num_of_Z 120)); (u "status", VStr (u "OK"));
        (u "synchronized", VBool true); (u "tip_fresh", VBool true); (u "peer_ready", VBool true)].

Definition visit : list (move (event := event)) :=
  [Fire MenuClick; Answer 0 (reply 200 node_info); Answer 1 (reply 200 node_info)].

Definition visit_start : loop home :=
  boot (fun _ => []) (fun _ => true) (num_of_Z 2026) (Storage None) (num_of_Z 1700000000000).
Definition visit_end : loop home :=
  default visit_start (play enabled (handler (fun _ => []) (fun _ => true)) visit visit_start).

Lemma visit_reachable :
  reachable enabled (handler (fun _ => []) (fun _ => true)) any_answers visit_start visit_end.
Proof. apply play_reach; [by repeat constructor | vm_compute; reflexivity]. Qed.

Lemma home_widgets_consistent_witness :
  h_open (world visit_end) = true /\ h_expanded (world visit_end) = u "true".
Proof.
  destruct (home_widgets_consistent (fun _ => []) (fun _ => true) (num_of_Z 2026) (Storage None)
    (num_of_Z 1700000000000) visit_end visit_reachable) as [H _].
  assert (h_open (world visit_end) = true) as Ho by (vm_compute; reflexivity).
  split; [exact Ho|]. rewrite H, Ho. reflexivity.
Defined.

(** C21: the charts of the page, in its memory.  If the history that the page loads
    from its storage when it starts is well formed (that of an empty or unreadable
    storage is), then the history of both charts is well formed in every reachable
    state of the page: at most 120 points, each a time and a finite value that is
    not negative, each at least 25 seconds after the one before.  A history that
    is damaged in the storage is taken as it is. *)
Theorem chart_history_invariant locale_time room year s now l :
  chart_ok (load_history s) ->
  reachable enabled (handler locale_time room) any_answers (boot locale_time room year s now) l ->
  chart_ok (h_chart (world l)).
Proof. intros Hs. by apply (reachable_home locale_time room (fun h => chart_ok (h_chart h))). Qed.

Lemma chart_empty_ok : chart_ok chart_empty.
Proof. intros []; exists []; split_and!; try done; simpl; lia. Qed.

Lemma chart_history_invariant_witness :
  chart_ok (h_chart (world visit_end)) /\
  history SDifficulty (h_chart (world visit_end)) =
    VArr [chart_point (num_of_Z 1700000000000) (num_of_Z 240000)].
Proof.
  split; [|vm_compute; reflexivity].
  apply (chart_history_invariant (fun _ => []) (fun _ => true) (num_of_Z 2026) (Storage None)
    (num_of_Z 1700000000000) visit_end); [exact chart_empty_ok | exact visit_reachable].
Defined.

(** *** Reloading the page *)

Definition persist_ok (h : home) : Prop :=
  (h_chart h).*1 = [u "hashrate"; u "difficulty"] /\
  (h_storage h = Storage (Some (stringify (VObj (h_chart h)))) \/
   h_storage h = Storage None /\ h_chart h = chart_empty).

#[global] Instance persist_invariant : HomeInvariant (fun _ => true) persist_ok.
Proof.
  constructor; try done. intros s x h w _ _ [Hk _] [_ Hw].
  assert (h_storage w <> StorageDenied) as Hd by (by destruct Hw as [-> | [-> _]]).
  unfold save_history. cbn [set_history h_storage]. destruct (h_storage w) as [|item]; [done|].
  split; [|by left]. cbn [set_storage set_history h_chart]. unfold chart_with.
  rewrite set_member_keys; [done| |]; rewrite Hk.
  - destruct s; [left | right; left].
  - intros k _. by destruct s.
Qed.

Lemma load_saved c : c.*1 = [u "hashrate"; u "difficulty"] -> json_ok (VObj c) ->
  load_history (Storage (Some (stringify (VObj c)))) = c.
Proof.
  intros Hc Hj. unfold load_history.
  assert (exists t, stringify (VObj c) = 123 :: t) as [t Ht].
  { unfold stringify. cbn [serialize from_option id]. unfold json_block. case_match; by eexists. }
  rewrite Ht, <- Ht, parse_stringify by done. cbn [own_properties spread].
  destruct c as [|[k1 a] [|[k2 b] [|]]]; simplify_eq/=. reflexivity.
Qed.

(** The charts survive a reload.  With a storage that has room, the page
    reads back, in any reachable state, exactly the history it holds, provided
    the numbers in it print to texts that read back. *)
Theorem history_survives_reload locale_time year now l :
  reachable enabled (handler locale_time (fun _ => true)) any_answers
    (boot locale_time (fun _ => true) year (Storage None) now) l ->
  json_ok (VObj (h_chart (world l))) ->
  load_history (h_storage (world l)) = h_chart (world l).
Proof.
  intros H Hj. assert (persist_ok (world l)) as [Hk [Hs | [Hs Hc]]].
  { apply (reachable_home locale_time (fun _ => true) persist_ok year (Storage None) now); [|done].
    split; [done | by right]. }
  - rewrite Hs. by apply load_saved.
  - by rewrite Hs, Hc.
Qed.

Lemma history_survives_reload_witness :
  load_history (h_storage (world visit_end)) = h_chart (world visit_end).
Proof.
  apply (history_survives_reload (fun _ => []) (num_of_Z 2026) (num_of_Z 1700000000000)).
  - exact visit_reachable.
  - apply json_okb_ok. vm_compute. reflexivity.
Defined.
