(* ===== verification/HomeRuns.v ===== *)
(** Runs of the home page's handlers: when the node counts as online, what
    failures lead to, and how answers are shown. *)

From Stdlib Require Import SpecFloat.
From S2P Require Import Prelude JsNumber JsValue Html JsText JsJson Async Home HomeProps.

(** ** The node *)

Definition healthy (info : value) : Prop :=
  prop info (u "status") = Ok (VStr (u "OK")) /\
  prop info (u "synchronized") = Ok (VBool true) /\
  prop info (u "tip_fresh") = Ok (VBool true) /\
  prop info (u "peer_ready") = Ok (VBool true).

Lemma is_true_spec v : is_true v = true <-> v = VBool true.
Proof. destruct v as [| |[]| | | | |]; split; (done || by intros [=]). Qed.

Lemma node_report_spec info state dot :
  node_report info = Ok (state, dot) ->
  (dot = u "status-dot online" /\ state = u "Node synchronized" /\ healthy info) \/
  (dot = u "status-dot offline" /\ ~ healthy info).
Proof.
  unfold node_report, healthy.
  destruct (prop info (u "status")) as [status|]; [|done]. cbn [mbind res_bind].
  destruct (match status with VStr s => str_eqb s (u "OK") | _ => false end) eqn:E1; cbn [negb].
  2: { destruct (text_content _); [|done]. cbn [mbind res_bind]. intros H. injection H as _ <-.
       right. split; [reflexivity|].
       intros ([= ->] & _). done. }
  assert (status = VStr (u "OK")) as ->.
  { destruct status; try done. f_equal. by apply bool_decide_eq_true in E1. }
  destruct (prop info (u "synchronized")) as [a|]; [|done]. cbn [mbind res_bind].
  destruct (is_true a) eqn:Ea; cbn [negb]; [apply is_true_spec in Ea as ->|].
  2: { intros [= _ <-]. right. split; [done|]. by intros (_ & [= ->] & _). }
  destruct (prop info (u "tip_fresh")) as [b|]; [|done]. cbn [mbind res_bind].
  destruct (is_true b) eqn:Eb; cbn [negb]; [apply is_true_spec in Eb as ->|].
  2: { intros [= _ <-]. right. split; [done|]. by intros (_ & _ & [= ->] & _). }
  destruct (prop info (u "peer_ready")) as [c|]; [|done]. cbn [mbind res_bind].
  destruct (is_true c) eqn:Ec; cbn [negb]; [apply is_true_spec in Ec as ->|].
  - intros [= <- <-]. by left.
  - intros [= _ <-]. right. split; [done|]. by intros (_ & _ & _ & [= ->]).
Qed.

Lemma showNode_result answers room info h h' :
  completes answers (showNode room info) h h' (Ok tt) ->
  node_report info = Ok (h_texts h' State, h_texts h' Dot).
Proof.
  unfold showNode, put. intros H. completes_inv H.
  apply completes_bind in H as [(e & _ & [=])|(? & ? & _ & H)]. completes_inv H. by subst h'.
Qed.

Lemma fetch_json_only info url body h h' r :
  completes (only_answers info) (fetch_json url body) h h' r -> h' = h /\ r = Ok info.
Proof. intros (a & -> & b & -> & H). exact H. Qed.

(** What an answered status request leaves on the page. *)
Lemma updateNodeStatus_result room info h h' r :
  completes (only_answers info) (updateNodeStatus room) h h' r ->
  node_report info = Ok (h_texts h' State, h_texts h' Dot) \/
  h_texts h' State = u "Status unavailable" /\ h_texts h' Dot = u "status-dot offline".
Proof.
  intros [([] & H & ->)|(e & w1 & _ & H)]%completes_catch.
  - apply completes_bind in H as [(e & _ & [=])|(v & w1 & H1 & H)].
    apply fetch_json_only in H1 as [-> [= ->]]. left. by apply showNode_result in H.
  - unfold nodeUnavailable, put in H. completes_inv H. subst h'. by right.
Qed.

Lemma updateNodeStatus_answered room info h h' r :
  completes (only_answers info) (pcatch (showNode room info) (fun _ => nodeUnavailable)) h h' r ->
  completes (only_answers info) (updateNodeStatus room) h h' r.
Proof.
  intros H. exists (FResponse 200). split; [reflexivity|]. exists (Ok info). split; [reflexivity|].
  exact H.
Qed.

(** The home page shows the node as online only if the answer says so in all
    four respects, and if the answer does, the page shows it as online unless
    another field of the answer could not be shown at all; in every other case
    the dot is red. *)
Theorem home_online_iff room info h h' r :
  completes (only_answers info) (updateNodeStatus room) h h' r ->
  (h_texts h' Dot = u "status-dot online" /\ h_texts h' State = u "Node synchronized" /\ healthy info) \/
  (h_texts h' Dot = u "status-dot offline" /\
   (healthy info -> h_texts h' State = u "Status unavailable")).
Proof.
  intros [H|[H1 H2]]%updateNodeStatus_result; [|right; by split; [exact H2 | intros _; exact H1]].
  destruct (node_report_spec _ _ _ H) as [(H1 & H2 & H3)|[H1 Hn]].
  - left. split; [exact H1|]. split; [exact H2 | exact H3].
  - right. split; [exact H1|]. intros Hh. by destruct (Hn Hh).
Qed.

Lemma home_online_iff_witness :
  let p := updateNodeStatus (fun _ => true) in
  exists h', completes (only_answers node_info) p (home_initial (Storage None) nzero) h' (Ok tt) /\
             h_texts h' Dot = u "status-dot online".
Proof.
  set (q := pcatch (showNode (fun _ => true) node_info) (fun _ => nodeUnavailable)).
  set (h' := (run q (home_initial (Storage None) nzero)).1). exists h'.
  assert (completes (only_answers node_info) (updateNodeStatus (fun _ => true))
            (home_initial (Storage None) nzero) h' (Ok tt)) as H.
  { apply updateNodeStatus_answered.
    assert ((run q (home_initial (Storage None) nzero)).2 = Done tt) as Hd by (vm_compute; reflexivity).
    exact (run_completes _ q _ tt Hd). }
  split; [exact H|].
  destruct (home_online_iff _ _ _ _ _ H) as [[H1 _]|[_ H1]]; [exact H1|].
  assert (h_texts h' State = u "Node synchronized") as Hs by (vm_compute; reflexivity).
  rewrite H1 in Hs by (split_and!; vm_compute; reflexivity). discriminate (f_equal head Hs).
Defined.

(** ** Failures *)

Lemma fetch_json_fails url body h h' r :
  completes failing_answers (fetch_json url body) h h' r -> h' = h /\ exists e, r = Err e.
Proof.
  intros ([status|e] & Hf & H); [|destruct H as [-> ->]; eauto]. simpl in Hf.
  cbn [pbind mbind prog_bind] in H. rewrite Hf in H. destruct H as [-> ->]. eauto.
Qed.

Lemma catch_fetch_fails {B} url body (f : value -> prog home B) g h h' r :
  completes failing_answers (pcatch (fetch_json url body ≫= f) g) h h' r ->
  exists e, completes failing_answers (g e) h h' r.
Proof.
  intros [(b & H & _)|(e & w1 & H & Hg)]%completes_catch.
  - apply completes_bind in H as [(e & _ & [=])|(v & w2 & H & _)].
    apply fetch_json_fails in H as [_ [e [=]]].
  - apply completes_bind in H as [(e' & H & _)|(v & w2 & H & _)].
    + apply fetch_json_fails in H as [-> _]. eauto.
    + apply fetch_json_fails in H as [_ [e' [=]]].
Qed.

(** A failed request is reported and does no other damage: without an answer
    the status line says so, shows no RPC state and turns the dot red, the miner
    figures are replaced by dashes and the table by a message, and everything
    else on the page, the history of the charts included, stays as it was. *)
Theorem home_failures_contained locale_time room h h' r :
  (completes failing_answers (updateNodeStatus room) h h' r ->
   r = Ok tt /\
   h' = set_text Dot (u "status-dot offline") (set_text Rpc (u "—")
          (set_text State (u "Status unavailable") h))) /\
  (completes failing_answers (updateMinerStats locale_time room) h h' r ->
   r = Ok tt /\
   h' = set_rows (RowsHtml miners_unavailable) (set_text MinerUpdated (u "—")
          (set_text MinerBlocks (u "—") (set_text MinerHashrate (u "—") (set_text MinerActive (u "—") h))))).
Proof.
  split; intros [e H]%catch_fetch_fails.
  - unfold nodeUnavailable, put in H. do 2 apply completes_act_bind in H. by apply completes_act in H as [-> ->].
  - unfold minersUnavailable, put in H. do 4 apply completes_act_bind in H. by apply completes_act in H as [-> ->].
Qed.

(** ** Termination *)

Lemma bounded_renderChart s : bounded 0 (renderChart s).
Proof. unfold renderChart, put. bounded_step. cbv zeta. bounded_step. case_if; [done|]. repeat bounded_step. Qed.

Lemma bounded_addChartPoint room s v : bounded 0 (addChartPoint room s v).
Proof.
  unfold addChartPoint. bounded_step. case_if; [done|]. bounded_step. cbv zeta. bounded_step.
  case_if; [done|]. apply (bounded_bind 0 0); [done|]. intros _. apply bounded_renderChart.
Qed.

Lemma bounded_showNode room info : bounded 0 (showNode room info).
Proof.
  unfold showNode, put. do 10 bounded_step. apply (bounded_bind 0 0); [apply bounded_addChartPoint|]. intros _.
  repeat bounded_step.
Qed.

Lemma bounded_renderMiners locale_time room data : bounded 0 (renderMiners locale_time room data).
Proof.
  unfold renderMiners, put. cbv zeta. do 8 bounded_step.
  apply (bounded_bind 0 0); [apply bounded_addChartPoint|]. intros _. do 4 bounded_step.
  destruct (array_or_empty _); [done|]. by bounded_step.
Qed.

Lemma bounded_fetch {B} url body (f : value -> prog home B) :
  (forall v, bounded 0 (f v)) -> bounded 2 (fetch_json url body ≫= f).
Proof.
  intros Hf. apply (bounded_bind 2 0); [|done]. intros [status|e]; [|done].
  cbn [pbind mbind prog_bind]. case_if; [done|]. intros j. by destruct j.
Qed.

(** Every handler of the home page ends after at most two answers (a
    response and its body), whatever they are. *)
Theorem home_handlers_terminate locale_time room e : bounded 2 (handler locale_time room e).
Proof.
  destruct e as [| |i| | | |t]; unfold handler; try done.
  - by intros [[]|e].
  - apply (bounded_catch 2 0); [|done]. apply bounded_fetch, bounded_showNode.
  - apply (bounded_catch 2 0); [|done]. apply bounded_fetch, bounded_renderMiners.
Qed.

(** ** A damaged history *)

(** A text under [historyKey] that is JSON, but not a history. *)
Definition damaged_text : jsstr := u "{`difficulty`:[null]}".

Definition damaged (h : home) : Prop := history SDifficulty (h_chart h) = VArr [VNull].

#[global] Instance damaged_invariant room : HomeInvariant room damaged.
Proof.
  constructor; try done. intros s x h w _ Ht Hh _. unfold damaged in *.
  destruct (save_history_frame room (set_history (chart_with s x h) w)) as (_ & _ & _ & _ & _ & ->).
  cbn [set_history h_chart]. unfold chart_with. rewrite history_set. case_decide as Hs; [|done].
  subst s. rewrite Hh in Ht. done.
Qed.

(** With a damaged history the chart, and with it the report, always fails. *)
Lemma damaged_addChartPoint answers room x h h' r :
  damaged h -> plottable x ->
  ~ completes answers (addChartPoint room SDifficulty (VNum x)) h h' (Ok r).
Proof.
  intros Hd [Hf Hn] H. unfold addChartPoint in H. cbn [to_number lift mbind prog_bind pbind] in H.
  rewrite Hf, Hn in H. cbn [negb orb] in H. apply completes_get_bind in H. cbv zeta in H.
  rewrite Hd in H. by destruct H as [_ [=]].
Qed.

Lemma damaged_showNode answers room info x h h' :
  damaged h -> prop info (u "difficulty") = Ok (VNum x) -> plottable x ->
  ~ completes answers (showNode room info) h h' (Ok tt).
Proof.
  intros Hd Hx Hp H. unfold showNode, put in H.
  do 9 (completes_inv H).
  apply completes_bind in H as [(e & _ & [=])|([] & w1 & H & _)]. simplify_eq.
  rewrite Hx in *. simplify_eq. eapply damaged_addChartPoint in H; [done| |done]. done.
Qed.

(** A damaged history in the browser's storage is never repaired, and while
    it lasts the page cannot report the node: in every reachable page the history
    is still damaged, and each status request answered with a difficulty ends in
    "Status unavailable", however healthy the node. *)
Theorem damaged_history_blocks_status locale_time room year now l info x h' r :
  reachable enabled (handler locale_time room) any_answers
    (boot locale_time room year (Storage (Some damaged_text)) now) l ->
  prop info (u "difficulty") = Ok (VNum x) -> plottable x ->
  completes (only_answers info) (updateNodeStatus room) (world l) h' r ->
  damaged (world l) /\ h_texts h' State = u "Status unavailable".
Proof.
  intros Hl Hx Hp H.
  assert (damaged (world l)) as Hd.
  { apply (reachable_home locale_time room damaged year (Storage (Some damaged_text)) now); [|done].
    vm_compute. reflexivity. }
  split; [done|]. apply completes_catch in H as [([] & H & _)|(e & w1 & _ & H)].
  - apply completes_bind in H as [(e & _ & [=])|(v & w1 & H1 & H)].
    apply fetch_json_only in H1 as [-> [= ->]]. by destruct (damaged_showNode _ _ _ _ _ _ Hd Hx Hp H).
  - unfold nodeUnavailable, put in H. completes_inv H. by subst h'.
Qed.

Lemma damaged_history_blocks_status_witness :
  let l := boot (fun _ => []) (fun _ => true) (num_of_Z 2026) (Storage (Some damaged_text)) nzero in
  exists h' r, completes (only_answers node_info) (updateNodeStatus (fun _ => true)) (world l) h' r /\
               h_texts h' State = u "Status unavailable".
Proof.
  intros l. set (q := pcatch (showNode (fun _ => true) node_info) (fun _ => nodeUnavailable)).
  set (h' := (run q (world l)).1). exists h', (Ok tt).
  assert (completes (only_answers node_info) (updateNodeStatus (fun _ => true)) (world l) h' (Ok tt)) as H.
  { apply updateNodeStatus_answered.
    assert ((run q (world l)).2 = Done tt) as Hd by (vm_compute; reflexivity).
    exact (run_completes _ q _ tt Hd). }
  split; [exact H|].
  apply (damaged_history_blocks_status (fun _ => []) (fun _ => true) (num_of_Z 2026) nzero l node_info
    (num_of_Z 240000) h' (Ok tt)); [apply reach_refl | reflexivity | by split; vm_compute | exact H].
Defined.

(** ** Figures and rows *)

Definition hash_units : list jsstr := [u "H/s"; u "kH/s"; u "MH/s"; u "GH/s"].

(** [rate] divided by 1000, [k] times. *)
Definition scaled (k : nat) (rate : num) : num := Nat.iter k (fun r => ndiv r (num_of_Z 1000)) rate.

Lemma scaled_S k rate : scaled (S k) rate = scaled k (ndiv rate (num_of_Z 1000)).
Proof. unfold scaled. induction k as [|k IH]; [done|]. cbn [Nat.iter nat_rect] in *. by rewrite IH. Qed.

Lemma scale_rate_spec larger : forall rate unit,
  exists k, (k <= length larger)%nat /\
    scale_rate rate unit larger = (scaled k rate, default [] ((unit :: larger) !! k)) /\
    (forall j, (j < k)%nat -> nleb (num_of_Z 1000) (scaled j rate) = true) /\
    ((k < length larger)%nat -> nleb (num_of_Z 1000) (scaled k rate) = false).
Proof.
  induction larger as [|next larger IH]; intros rate unit.
  - exists 0%nat. split_and!; try done; cbn [length]; intros; lia.
  - cbn [scale_rate]. destruct (nleb (num_of_Z 1000) rate) eqn:E.
    + destruct (IH (ndiv rate (num_of_Z 1000)) next) as (k & Hk & -> & Hlt & Hge).
      exists (S k). rewrite scaled_S. cbn [length lookup list_lookup]. split_and!; [lia | done | |].
      * intros [|j] Hj; [done|]. rewrite scaled_S. apply Hlt. lia.
      * intros Hl. apply Hge. lia.
    + exists 0%nat. split_and!; try done; cbn [length]; intros; lia.
Qed.

(** The loop of [formatHashrate] ends in the right unit: all smaller units
    would have shown 1000 or more (in binary64 arithmetic), and the chosen one
    shows less than 1000 unless it is the last; below 10 the text has up to two
    decimals, otherwise up to one. *)
Theorem formatHashrate_unit v x :
  to_number v = Ok x ->
  let rate := if num_truthy x then x else nzero in
  exists k, (k <= 3)%nat /\
    formatHashrate v = Ok (format_num (if nltb (scaled k rate) (num_of_Z 10) then 2 else 1) (scaled k rate)
                             ++ u " " ++ default [] (hash_units !! k)) /\
    (forall j, (j < k)%nat -> nleb (num_of_Z 1000) (scaled j rate) = true) /\
    ((k < 3)%nat -> nleb (num_of_Z 1000) (scaled k rate) = false).
Proof.
  intros Hx rate. unfold formatHashrate. rewrite Hx. cbn [mbind res_bind]. fold rate.
  destruct (scale_rate_spec [u "kH/s"; u "MH/s"; u "GH/s"] rate (u "H/s")) as (k & Hk & -> & H1 & H2).
  exists k. by split_and!.
Qed.

Lemma formatHashrate_unit_witness :
  formatHashrate (VNum (num_of_Z 2500000)) = Ok (u "2.5 MH/s") /\
  exists k, (k <= 3)%nat /\ (forall j, (j < k)%nat -> nleb (num_of_Z 1000) (scaled j (num_of_Z 2500000)) = true).
Proof.
  split; [vm_compute; reflexivity|].
  destruct (formatHashrate_unit (VNum (num_of_Z 2500000)) (num_of_Z 2500000) eq_refl) as (k & Hk & _ & H & _).
  exists k. split; [exact Hk | exact H].
Defined.

Lemma rmapi_lookup {A B} (f : nat -> A -> res B) l : forall i ys,
  rmapi f i l = Ok ys ->
  length ys = length l /\
  forall j x, l !! j = Some x -> exists y, ys !! j = Some y /\ f (i + j)%nat x = Ok y.
Proof.
  induction l as [|x l IH]; intros i ys; simpl; [by intros [= <-]|].
  destruct (f i x) as [y|] eqn:E; [|done]. simpl. destruct (rmapi f (S i) l) as [ys'|] eqn:E'; [|done].
  intros [= <-]. destruct (IH _ _ E') as [Hl Hj]. split; [simpl; lia|]. intros [|j] x' H; simplify_eq/=.
  - exists y. by rewrite Nat.add_0_r.
  - destruct (Hj j x' H) as (y' & Hy & Hf). exists y'. by rewrite Nat.add_succ_r.
Qed.

(** When a miner answer has been shown, the table has exactly one row for
    each miner of the answer, in its order: the row number counts from 1, the
    name is the miner's text, and the last cell says ACTIVE, and is styled as
    online, exactly if the miner is active.  Without miners the table says so. *)
Theorem miner_rows_exact locale_time room data m h h' :
  prop data (u "miners") = Ok m ->
  completes any_answers (renderMiners locale_time room data) h h' (Ok tt) ->
  match array_or_empty m with
  | [] => h_rows h' = RowsHtml no_miners
  | miners =>
      exists l, h_rows h' = RowsCells l /\ length l = length miners /\
      forall i miner, miners !! i = Some miner ->
        exists name rate blocks active,
          l !! i = Some [Cell (u "#" ++ num_to_string (nat_num (S i))) None; Cell name None;
                         Cell rate None; Cell blocks None;
                         Cell (if truthy active then u "ACTIVE" else u "OFFLINE")
                           (Some (if truthy active then u "miner-online" else []))] /\
          (v ← prop miner (u "name"); text_content v) = Ok name /\
          (v ← prop miner (u "hashrate"); formatHashrate v) = Ok rate /\
          prop miner (u "active") = Ok active
  end.
Proof.
  intros Hm H. unfold renderMiners, put in H. rewrite Hm in H. cbn [lift mbind prog_bind pbind] in H.
  cbv zeta in H. completes_inv H.
  apply completes_bind in H as [(e & _ & [=])|(? & ? & _ & H)]. completes_inv H.
  destruct (array_or_empty m) as [|m0 ms]; [apply completes_act in H as [-> _]; reflexivity|].
  apply completes_lift_bind in H as [(e & _ & [=])|(l & Hl & H)]. apply completes_act in H as [-> _].
  destruct (rmapi_lookup _ _ _ _ Hl) as [Hlen Hrow]. exists l. split; [reflexivity|]. split; [exact Hlen|].
  intros i miner Hi. destruct (Hrow i miner Hi) as (row & Hr & Hf). unfold miner_row in Hf.
  destruct (prop miner (u "name")) as [n|]; [|discriminate Hf]. cbn [mbind res_bind] in *.
  destruct (prop miner (u "hashrate")) as [hr|]; [|discriminate Hf]. cbn [mbind res_bind] in *.
  destruct (formatHashrate hr) as [rate|]; [|discriminate Hf]. cbn [mbind res_bind] in *.
  destruct (prop0 miner (u "blocks_found") ≫= number_format) as [blocks|]; [|discriminate Hf].
  cbn [mbind res_bind] in *. destruct (prop miner (u "active")) as [active|]; [|discriminate Hf].
  cbn [mbind res_bind] in *. destruct (text_content n) as [name|]; [|discriminate Hf].
  cbn [mbind res_bind] in *. injection Hf as <-.
  exists name, rate, blocks, active. split; [exact Hr|]. split; [reflexivity|]. by split.
Qed.

Definition miner_stats : value :=
  VObj [(u "total_hashrate", VNum (num_of_Z 1200));
        (u "miners", VArr [VObj [(u "name", VStr (u "Miner A")); (u "hashrate", VNum (num_of_Z 1200));
                                 (u "active", VBool true)]])].

Lemma miner_rows_exact_witness :
  let h0 := home_initial (Storage None) nzero in
  let h' := (run (renderMiners (fun _ => []) (fun _ => true) miner_stats) h0).1 in
  exists l, h_rows h' = RowsCells l /\ length l = 1%nat.
Proof.
  intros h0 h'.
  assert ((run (renderMiners (fun _ => []) (fun _ => true) miner_stats) h0).2 = Done tt) as Hd
    by (vm_compute; reflexivity).
  destruct (miner_rows_exact (fun _ => []) (fun _ => true) miner_stats
    (VArr [VObj [(u "name", VStr (u "Miner A")); (u "hashrate", VNum (num_of_Z 1200));
                 (u "active", VBool true)]]) h0 h' eq_refl (run_completes _ _ _ _ Hd))
    as (l & H1 & H2 & _).
  exists l. split; [exact H1 | exact H2].
Defined.
