(* ===== verification/Studio.v ===== *)
(** Monzero Studio, [website/app/app.js]: a tab list over four forms, a preview
    of the draft a form describes, its download, and the status of the node. *)

From Stdlib Require Import SpecFloat.
From S2P Require Import Prelude JsNumber JsValue Html JsText JsJson Async.

(** ** Dates *)

(** [new Date(ms).toISOString()]: the calendar date of a day number (days since
    1970-01-01), counted in eras of 400 years that start on 1 March. *)
Definition civil_of_days (z : Z) : Z * Z * Z :=
  let z := z + 719468 in
  let era := z / 146097 in
  let doe := z mod 146097 in
  let yoe := (doe - doe / 1460 + doe / 36524 - doe / 146096) / 365 in
  let doy := doe - (365 * yoe + yoe / 4 - yoe / 100) in
  let mp := (5 * doy + 2) / 153 in
  let d := doy - (153 * mp + 2) / 5 + 1 in
  let m := if mp <? 10 then mp + 3 else mp - 9 in
  (yoe + era * 400 + (if m <=? 2 then 1 else 0), m, d).

Definition pad (n : nat) (z : Z) : jsstr := pad_zeros n (dec_nonneg z).

Definition iso_year (y : Z) : jsstr :=
  if (0 <=? y) && (y <=? 9999) then pad 4 y
  else (if y <? 0 then u "-" else u "+") ++ pad 6 (Z.abs y).

Definition iso_date (ms : Z) : jsstr :=
  let '(y, m, d) := civil_of_days (ms / 86400000) in
  let t := ms mod 86400000 in
  iso_year y ++ u "-" ++ pad 2 m ++ u "-" ++ pad 2 d ++ u "T" ++ pad 2 (t / 3600000) ++ u ":" ++
  pad 2 (t / 60000 mod 60) ++ u ":" ++ pad 2 (t / 1000 mod 60) ++ u "." ++ pad 3 (t mod 1000) ++ u "Z".

(** ** The page *)

(** A form: its [data-type] and what [FormData] lists for it. *)
Record form := Form { form_type : jsstr; form_entries : list (jsstr * jsstr) }.

(** A tab: [aria-selected] and [tabIndex]; a panel: [hidden] and the class [active]. *)
Record tab := Tab { tab_selected : jsstr; tab_index : Z }.
Record panel := Panel { panel_hidden : bool; panel_active : bool }.

Inductive field :=
| DraftState | DraftType | DraftTitle | DraftDetail | DraftJson | NodeState | NodeHeight | NodePeers | NodeTip.

#[global] Instance studio_field_eq_dec : EqDecision field.
Proof. solve_decision. Defined.

Record studio := Studio {
  s_tabs : list tab;
  s_panels : list panel;
  s_focus : option nat;               (* the tab that was given the focus *)
  s_forms : list form;
  s_texts : field -> jsstr;
  s_ready : bool;                     (* class [ready] of the node state *)
  s_dot : bool * bool;                (* classes [ready], [offline] of the dot *)
  s_downloads : list (jsstr * jsstr); (* file names and contents, latest first *)
  s_now : Z                           (* [Date.now()] *)
}.

Definition set_tabs (t : list tab) (p : list panel) (f : option nat) (s : studio) : studio :=
  Studio t p f (s_forms s) (s_texts s) (s_ready s) (s_dot s) (s_downloads s) (s_now s).
Definition set_forms (x : list form) (s : studio) : studio :=
  Studio (s_tabs s) (s_panels s) (s_focus s) x (s_texts s) (s_ready s) (s_dot s) (s_downloads s) (s_now s).
Definition set_text (f : field) (t : jsstr) (s : studio) : studio :=
  Studio (s_tabs s) (s_panels s) (s_focus s) (s_forms s)
    (fun g => if decide (g = f) then t else s_texts s g) (s_ready s) (s_dot s) (s_downloads s) (s_now s).
Definition set_ready (r : bool) (s : studio) : studio :=
  Studio (s_tabs s) (s_panels s) (s_focus s) (s_forms s) (s_texts s) r (s_dot s) (s_downloads s) (s_now s).
Definition set_dot (d : bool * bool) (s : studio) : studio :=
  Studio (s_tabs s) (s_panels s) (s_focus s) (s_forms s) (s_texts s) (s_ready s) d (s_downloads s) (s_now s).
Definition add_download (d : jsstr * jsstr) (s : studio) : studio :=
  Studio (s_tabs s) (s_panels s) (s_focus s) (s_forms s) (s_texts s) (s_ready s) (s_dot s)
    (d :: s_downloads s) (s_now s).
Definition set_clock (t : Z) (s : studio) : studio :=
  Studio (s_tabs s) (s_panels s) (s_focus s) (s_forms s) (s_texts s) (s_ready s) (s_dot s) (s_downloads s) t.

(** The tabs' [data-panel] and the panels' ids; a panel holds one form. *)
Definition tab_panels : list jsstr := [u "token"; u "nft"; u "collections"; u "swap"].
Definition panel_ids : list jsstr := [u "token"; u "nft"; u "collections"; u "swap"].

Definition forms_initial : list form :=
  [Form (u "token") [(u "name", u "Nightshade Credit"); (u "symbol", u "NSC");
                     (u "atomic_supply", u "1000000"); (u "decimals", u "8"); (u "metadata_hash", [])];
   Form (u "nft") [(u "title", u "Nightshade Artifact 001"); (u "collection_id", []);
                   (u "metadata_uri", []); (u "metadata_hash", [])];
   Form (u "collection") [(u "collection_name", u "Monzero Originals"); (u "metadata_uri", []);
                          (u "metadata_hash", [])];
   Form (u "swap") [(u "offer", []); (u "request", []); (u "counterparty", []); (u "expiry_height", [])]].

(** ** Drafts *)

Definition form_fields (f : form) : list (jsstr * value) :=
  foldl (fun ms e => set_member ms e.1 (VStr e.2)) [] (form_entries f).

Definition formDraft (f : form) (now : Z) : value :=
  VObj [(u "schema", VStr (u "monzero-studio-draft-v1")); (u "type", VStr (form_type f));
        (u "network", VStr (u "mainnet-preview")); (u "submission_enabled", VBool false);
        (u "created_at", VStr (iso_date now)); (u "fields", VObj (form_fields f))].

(** [toUpperCase] of the ASCII types of the forms. *)
Definition upper (s : jsstr) : jsstr :=
  (fun c => if (97 <=? c) && (c <=? 122) then c - 32 else c) <$> s.

(** [fields.a || fields.b || ... || t]. *)
Fixpoint first_of (fields : value) (keys : list jsstr) (t : jsstr) : res value :=
  match keys with
  | [] => Ok (VStr t)
  | k :: keys => v ← prop fields k; if truthy v then Ok v else first_of fields keys t
  end.

Definition put (f : field) (t : jsstr) : prog studio unit := act (set_text f t).

Definition updateDraft (form : option form) : prog studio unit :=
  match form with
  | None => Ret tt
  | Some f =>
      s ← get;
      let draft := formDraft f (s_now s) in
      fields ← lift (prop draft (u "fields"));
      t ← lift (prop draft (u "type") ≫= to_string); put DraftType (upper t) ≫= fun _ =>
      t ← lift (first_of fields [u "name"; u "title"; u "collection_name"; u "offer"] (u "Untitled draft")
                ≫= text_content);
      put DraftTitle t ≫= fun _ =>
      t ← lift (first_of fields [u "symbol"; u "collection_id"; u "metadata_uri"; u "request"]
                  (u "Local preview only") ≫= text_content);
      put DraftDetail t ≫= fun _ =>
      put DraftJson (stringify2 draft) ≫= fun _ =>
      put DraftState (u "Not submitted")
  end.

(** ** Tabs *)

Definition tab_state (t i : nat) : tab :=
  if Nat.eqb i t then Tab (u "true") 0 else Tab (u "false") (-1).

Definition panel_state (target id : jsstr) : panel :=
  let active := str_eqb id target in Panel (negb active) active.

(** [document.querySelector('#id form')]. *)
Fixpoint form_in (id : jsstr) (ids : list jsstr) (forms : list form) : option form :=
  match ids, forms with
  | i :: ids, f :: forms => if str_eqb i id then Some f else form_in id ids forms
  | _, _ => None
  end.

Definition activateTab (t : nat) (focus : bool) : prog studio unit :=
  let target := default [] (tab_panels !! t) in
  act (fun s => set_tabs (tab_state t <$> seq 0 (length tab_panels)) (panel_state target <$> panel_ids)
                  (if focus then Some t else s_focus s) s) ≫= fun _ =>
  s ← get; updateDraft (form_in target panel_ids (s_forms s)).

Definition key_target (index n : nat) (key : jsstr) : option nat :=
  if str_eqb key (u "ArrowLeft") then Some ((index + n - 1) mod n)%nat
  else if str_eqb key (u "ArrowRight") then Some ((index + 1) mod n)%nat
  else if str_eqb key (u "Home") then Some 0%nat
  else if str_eqb key (u "End") then Some (n - 1)%nat
  else None.

Definition tabKey (index : nat) (key : jsstr) : prog studio unit :=
  match key_target index (length tab_panels) key with
  | Some next => activateTab next true
  | None => Ret tt
  end.

(** ** Forms *)

(** The user changes the control [j] of the form [i]; the form's listener runs. *)
Definition input (i j : nat) (v : jsstr) : prog studio unit :=
  act (fun s => set_forms (alter (fun f => Form (form_type f) (alter (fun e => (e.1, v)) j (form_entries f)))
                             i (s_forms s)) s) ≫= fun _ =>
  s ← get; updateDraft (s_forms s !! i).

Definition submit (i : nat) : prog studio unit :=
  s ← get;
  match s_forms s !! i with
  | None => Ret tt
  | Some f =>
      let draft := formDraft f (s_now s) in
      t ← lift (prop draft (u "type") ≫= to_string);
      act (add_download (u "monzero-" ++ t ++ u "-draft.json", stringify2 draft ++ [10])) ≫= fun _ =>
      put DraftState (u "Draft downloaded")
  end.

(** ** The node *)

Section studio.
(** [toLocaleString()] of a number in the user's locale. *)
Context (locale_number : num -> jsstr).

(** [Number(v.k || 0)]. *)
Definition number_or0 (v : value) (k : jsstr) : res num :=
  x ← prop v k; to_number (vor x (VNum nzero)).

Definition showNode (info : value) : prog studio unit :=
  r ← lift (prop info (u "network_ready"));
  let ready := truthy r in
  t ← lift (if ready then Ok (u "Network ready")
            else s ← prop info (u "synchronized");
                 Ok (if truthy s then u "Node synchronized" else u "Node unavailable"));
  put NodeState t ≫= fun _ =>
  act (set_ready ready) ≫= fun _ =>
  act (fun s => set_dot (ready, (s_dot s).2) s) ≫= fun _ =>
  h ← lift (prop info (u "height") ≫= to_number); put NodeHeight (locale_number h) ≫= fun _ =>
  a ← lift (number_or0 info (u "incoming_connections_count"));
  b ← lift (number_or0 info (u "outgoing_connections_count"));
  put NodePeers (num_to_string (nadd a b)) ≫= fun _ =>
  f ← lift (prop info (u "tip_fresh"));
  put NodeTip (if truthy f then u "Fresh" else u "Stale").

Definition fetchNode : prog studio unit :=
  pcatch
    (r ← Await (QFetch (u "/api/node-info/") (Some (VObj []))) Ret;
     match r with
     | FReject e => Throw e
     | FResponse status =>
         if negb (status_ok status) then Throw (EError (u "node unavailable"))
         else j ← Await QJson Ret; info ← lift j; showNode info
     end)
    (fun _ =>
       put NodeState (u "Unavailable") ≫= fun _ => act (fun s => set_dot ((s_dot s).1, true) s)).

(** ** Events *)

Inductive event :=
| TabClick (i : nat)
| TabKey (i : nat) (key : jsstr)
| Input (i j : nat) (v : jsstr)
| Submit (i : nat)
| Clock (now : Z).

Definition visible (i : nat) (s : studio) : bool :=
  match s_panels s !! i with Some p => negb (panel_hidden p) | None => false end.

(** Any tab can be clicked or get a key; only the form of a visible panel can be
    edited or submitted.  Controls hold code units. *)
Definition enabled (e : event) (s : studio) : bool :=
  match e with
  | TabClick i | TabKey i _ => Nat.ltb i (length tab_panels)
  | Input i _ v => visible i s && forallb (fun c => (0 <=? c) && (c <? 65536)) v
  | Submit i => visible i s
  | Clock _ => true
  end.

Definition handler (e : event) : prog studio unit :=
  match e with
  | TabClick i => activateTab i false
  | TabKey i key => tabKey i key
  | Input i j v => input i j v
  | Submit i => submit i
  | Clock t => act (set_clock t)
  end.

Definition texts_initial (f : field) : jsstr :=
  match f with
  | DraftState => u "Not submitted"
  | DraftType => u "TOKEN"
  | DraftTitle => u "Untitled draft"
  | DraftDetail => u "Local preview only"
  | DraftJson => []
  | NodeState => u "Checking…"
  | _ => u "—"
  end.

(** The page as delivered: the first tab is selected, without [tabindex]. *)
Definition studio_initial (now : Z) : studio :=
  Studio [Tab (u "true") 0; Tab (u "false") 0; Tab (u "false") 0; Tab (u "false") 0]
    [Panel false true; Panel true false; Panel true false; Panel true false]
    None forms_initial texts_initial false (false, false) [] now.

Definition boot (now : Z) : loop studio :=
  launch_all [fetchNode; activateTab 0 false] (Loop (studio_initial now) []).
End studio.
