(* ===== verification/StudioProps.v ===== *)
(** Correctness of Monzero Studio: one tab and its panel at a time, a preview
    that shows the form on the screen, and downloads that are well-formed drafts
    which never ask for submission. *)

From Stdlib Require Import SpecFloat.
From S2P Require Import Prelude JsNumber JsValue Html JsText JsJson Async Studio.

(** ** Dates are texts of code units *)

(** The day of the year, counted from 1 March. *)
Lemma day_of_year_nonneg doe : 0 <= doe < 146097 ->
  let yoe := (doe - doe / 1460 + doe / 36524 - doe / 146096) / 365 in
  0 <= doe - (365 * yoe + yoe / 4 - yoe / 100).
Proof. intros H yoe. subst yoe. Z.to_euclidean_division_equations; lia. Qed.

Lemma civil_nonneg z y m d : civil_of_days z = (y, m, d) -> 0 <= m /\ 0 <= d.
Proof.
  unfold civil_of_days. set (doe := (z + 719468) mod 146097).
  assert (0 <= doe < 146097) as Hd by (apply Z.mod_pos_bound; lia).
  pose proof (day_of_year_nonneg doe Hd) as Hy. cbv zeta in *.
  set (doy := doe - _) in *. clearbody doy. intros [= _ <- <-].
  assert (0 <= (5 * doy + 2) / 153) by (apply Z.div_pos; lia).
  split; [case_if; lia|]. Z.to_euclidean_division_equations; lia.
Qed.

Lemma units_digits s : Forall digit_unit s -> units s.
Proof. intros H. eapply Forall_impl; [exact H|]. intros c. unfold digit_unit, is_digit. lia. Qed.

Lemma units_pad n z : 0 <= z -> units (pad n z).
Proof.
  intros Hz. unfold pad, pad_zeros. apply Forall_app. split.
  - apply Forall_replicate. lia.
  - by apply units_digits, dec_nonneg_digits.
Qed.

Lemma units_iso ms : units (iso_date ms).
Proof.
  unfold iso_date. destruct (civil_of_days (ms / 86400000)) as [[y m] d] eqn:E.
  apply civil_nonneg in E as [Hm Hd].
  assert (0 <= ms mod 86400000) as Ht by (apply Z.mod_pos_bound; lia).
  set (t := ms mod 86400000) in *.
  assert (units (iso_year y)) as Hy.
  { unfold iso_year. destruct ((0 <=? y) && (y <=? 9999)) eqn:Ey.
    - apply units_pad. apply andb_true_iff in Ey. lia.
    - apply Forall_app. split; [apply unitsb_units; by case_if | apply units_pad; lia]. }
  rewrite !Forall_app. split_and!;
    first [exact Hy | apply units_pad; first [lia | apply Z.div_pos; lia | apply Z.mod_pos_bound; lia]
          | apply unitsb_units; reflexivity].
Qed.

(** ** Drafts *)

(** A form as the page has it: distinct control names that are no array indices,
    and texts of code units. *)
Definition form_ok (f : form) : Prop :=
  units (form_type f) /\ NoDup (form_entries f).*1 /\
  Forall (fun k => key_index k = None /\ units k) (form_entries f).*1 /\
  Forall (fun e => units e.2) (form_entries f).

Lemma form_fields_spec f : form_ok f ->
  form_fields f = (fun e => (e.1, VStr e.2)) <$> form_entries f.
Proof.
  intros (_ & Hn & Hk & _). unfold form_fields.
  enough (forall es acc, NoDup (acc.*1 ++ es.*1) -> Forall (fun k => key_index k = None /\ units k) es.*1 ->
    foldl (fun ms (e : jsstr * jsstr) => set_member ms e.1 (VStr e.2)) acc es =
    acc ++ ((fun e => (e.1, VStr e.2)) <$> es)) as H by (by apply H).
  clear Hn Hk. induction es as [|[k v] es IH]; intros acc Hn Hk; csimpl; [by rewrite app_nil_r|].
  apply Forall_cons in Hk as [[Hk _] Hks].
  rewrite set_member_fresh; [|by apply NoDup_app in Hn as (_ & Hn & _); intros Hin; apply (Hn k Hin); left|done].
  rewrite IH; [by rewrite <- app_assoc | | done]. by rewrite fmap_app, <- app_assoc.
Qed.

Lemma form_fields_str f k v : form_ok f -> lookup_member k (form_fields f) = Some v -> exists s, v = VStr s.
Proof.
  intros Hf. rewrite form_fields_spec by done. induction (form_entries f) as [|[k' v'] es IH]; [done|].
  csimpl. case_if; [intros [= <-]; by eexists | done].
Qed.

Lemma json_ok_str s : units s -> json_ok (VStr s).
Proof. done. Qed.

Lemma draft_ok f now : form_ok f -> json_ok (formDraft f now).
Proof.
  intros Hf. pose proof Hf as (Ht & Hn & Hk & Hv). apply json_ok_obj. split_and!.
  - apply (bool_decide_eq_true_1 (NoDup _)). vm_compute. reflexivity.
  - repeat (apply Forall_cons; split; [reflexivity|]). constructor.
  - repeat (apply Forall_cons; split; [apply unitsb_units; reflexivity|]). constructor.
  - apply Forall_cons. split; [by apply json_ok_str, unitsb_units|].
    apply Forall_cons. split; [by apply json_ok_str|].
    apply Forall_cons. split; [by apply json_ok_str, unitsb_units|].
    apply Forall_cons. split; [exact Logic.I|].
    apply Forall_cons. split; [apply json_ok_str, units_iso|].
    apply Forall_singleton. apply json_ok_obj. rewrite form_fields_spec by done.
    rewrite <- list_fmap_compose. split_and!; [done| | |].
    + eapply Forall_impl; [exact Hk|]. by intros k [].
    + eapply Forall_impl; [exact Hk|]. by intros k [].
    + apply Forall_fmap. exact Hv.
Qed.

(** The first text of a form among some controls, or the default. *)
Lemma first_of_text f keys t : form_ok f ->
  exists s, first_of (VObj (form_fields f)) keys t ≫= text_content = Ok s.
Proof.
  intros Hf. induction keys as [|k keys IH]; [by exists t|]. cbn [first_of prop mbind res_bind].
  destruct (lookup_member k (form_fields f)) as [v|] eqn:E; cbn [from_option id].
  - destruct (form_fields_str f k v Hf E) as [s ->]. case_if; [by exists s | exact IH].
  - exact IH.
Qed.

(** What [updateDraft] leaves on the page. *)
Lemma updateDraft_run f s : form_ok f ->
  exists title detail,
    run (updateDraft (Some f)) s =
    (set_text DraftState (u "Not submitted") (set_text DraftJson (stringify2 (formDraft f (s_now s)))
      (set_text DraftDetail detail (set_text DraftTitle title
        (set_text DraftType (upper (form_type f)) s)))), Done tt).
Proof.
  intros Hf.
  destruct (first_of_text f [u "name"; u "title"; u "collection_name"; u "offer"] (u "Untitled draft") Hf)
    as [title Ht].
  destruct (first_of_text f [u "symbol"; u "collection_id"; u "metadata_uri"; u "request"]
    (u "Local preview only") Hf) as [detail Hd].
  exists title, detail. unfold updateDraft, put.
  change (prop (formDraft f (s_now s)) (u "fields")) with (Ok (A := value) (VObj (form_fields f))).
  cbn [get mbind prog_bind pbind run]. cbv zeta.
  change (prop (formDraft f (s_now s)) (u "fields")) with (Ok (A := value) (VObj (form_fields f))).
  change (prop (formDraft f (s_now s)) (u "type") ≫= to_string) with (Ok (form_type f)).
  cbn [lift mbind prog_bind pbind]. rewrite Ht. cbn [lift mbind prog_bind pbind act run]. rewrite Hd.
  reflexivity.
Qed.

(** ** The invariant *)

Definition form_types : list jsstr := [u "token"; u "nft"; u "collection"; u "swap"].

(** A file as [submit] produces it. *)
Definition download_ok (d : jsstr * jsstr) : Prop :=
  exists f t, form_ok f /\ form_type f ∈ form_types /\
    d = (u "monzero-" ++ form_type f ++ u "-draft.json", stringify2 (formDraft f t) ++ [10]).

(** The page with the tab [k] active. *)
Record studio_at (k : nat) (s : studio) : Prop := {
  at_lt : (k < 4)%nat;
  at_tabs : s_tabs s = tab_state k <$> seq 0 4;
  at_panels : s_panels s = panel_state (default [] (tab_panels !! k)) <$> panel_ids;
  at_types : form_type <$> s_forms s = form_types;
  at_forms : Forall form_ok (s_forms s);
  at_preview : exists f t, s_forms s !! k = Some f /\
    s_texts s DraftJson = stringify2 (formDraft f t) /\ s_texts s DraftType = upper (form_type f);
  at_downloads : Forall download_ok (s_downloads s)
}.

Definition studio_inv (s : studio) : Prop := exists k, studio_at k s.

Lemma at_length k s : studio_at k s -> length (s_forms s) = 4%nat.
Proof. intros H. rewrite <- (length_fmap form_type), (at_types k s H). reflexivity. Qed.

Lemma at_form k s i : studio_at k s -> (i < 4)%nat ->
  exists f, s_forms s !! i = Some f /\ form_ok f /\ form_type f ∈ form_types.
Proof.
  intros H Hi. destruct (lookup_lt_is_Some_2 (s_forms s) i) as [f Hf]; [by rewrite (at_length k s H)|].
  exists f. split; [done|]. split; [exact (Forall_lookup_1 _ _ _ _ (at_forms k s H) Hf)|].
  rewrite <- (at_types k s H). by apply list_elem_of_fmap_2, (list_elem_of_lookup_2 _ i).
Qed.

Lemma form_in_panel i (forms : list form) : (i < 4)%nat -> length forms = 4%nat ->
  form_in (default [] (tab_panels !! i)) panel_ids forms = forms !! i.
Proof.
  intros Hi Hl. destruct forms as [|f0 [|f1 [|f2 [|f3 [|]]]]]; try done.
  by destruct i as [|[|[|[|i]]]]; [..|lia].
Qed.

(** Showing the draft of the form [k] completes a page that lacks only the preview. *)
Lemma updateDraft_at k f s :
  (k < 4)%nat -> s_tabs s = tab_state k <$> seq 0 4 ->
  s_panels s = panel_state (default [] (tab_panels !! k)) <$> panel_ids ->
  form_type <$> s_forms s = form_types -> Forall form_ok (s_forms s) ->
  s_forms s !! k = Some f -> Forall download_ok (s_downloads s) ->
  studio_at k (run (updateDraft (Some f)) s).1.
Proof.
  intros Hk Ht Hp Hy Hf Hl Hd. assert (form_ok f) as Hok by by apply (Forall_lookup_1 _ _ _ _ Hf Hl).
  destruct (updateDraft_run f s Hok) as (title & detail & ->).
  constructor; [done | done | done | done | done | by exists f, (s_now s) | done].
Qed.

Lemma bounded_updateDraft f : bounded 0 (updateDraft f).
Proof.
  destruct f as [f|]; [|done]. unfold updateDraft, put. bounded_step. cbv zeta. repeat bounded_step.
Qed.

(** What holds of the page before and after a tab has been activated. *)
Definition studio_base (s : studio) : Prop :=
  form_type <$> s_forms s = form_types /\ Forall form_ok (s_forms s) /\ Forall download_ok (s_downloads s).

Lemma inv_base s : studio_inv s -> studio_base s.
Proof. intros [k []]. by split_and!. Qed.

Lemma activateTab_at i focus s : studio_base s -> (i < 4)%nat -> studio_at i (run (activateTab i focus) s).1.
Proof.
  intros (Ht & Hf & Hd) Hi.
  assert (length (s_forms s) = 4%nat) as Hl by (rewrite <- (length_fmap form_type), Ht; reflexivity).
  destruct (lookup_lt_is_Some_2 (s_forms s) i) as [f Hfi]; [by rewrite Hl|].
  set (s1 := set_tabs (tab_state i <$> seq 0 (length tab_panels))
    (panel_state (default [] (tab_panels !! i)) <$> panel_ids) (if focus then Some i else s_focus s) s).
  change (run (activateTab i focus) s) with
    (run (updateDraft (form_in (default [] (tab_panels !! i)) panel_ids (s_forms s1))) s1).
  change (s_forms s1) with (s_forms s). rewrite form_in_panel, Hfi by done.
  by apply updateDraft_at.
Qed.

Lemma bounded_activateTab i focus : bounded 0 (activateTab i focus).
Proof. unfold activateTab. cbv zeta. do 2 bounded_step. apply bounded_updateDraft. Qed.

(** Only the active panel is visible. *)
Lemma visible_at k s i : studio_at k s -> visible i s = true -> i = k.
Proof.
  intros H. unfold visible. rewrite (at_panels k s H). pose proof (at_lt k s H) as Hk.
  destruct k as [|[|[|[|k]]]]; [..|lia]; by destruct i as [|[|[|[|i]]]].
Qed.

(** The form after a control has been changed. *)
Definition edit (j : nat) (v : jsstr) (f : form) : form :=
  Form (form_type f) (alter (fun e => (e.1, v)) j (form_entries f)).

Lemma edit_ok j v f : units v -> form_ok f -> form_ok (edit j v f).
Proof.
  intros Hv (Ht & Hn & Hk & Hu). unfold form_ok, edit. cbn [form_type form_entries].
  assert ((alter (fun e : jsstr * jsstr => (e.1, v)) j (form_entries f)).*1 = (form_entries f).*1) as ->.
  { generalize (form_entries f). clear. induction j as [|j IH]; intros [|e l]; try done. csimpl. by rewrite IH. }
  split_and!; try done. apply Forall_alter; [done|]. done.
Qed.

Lemma input_at k s j v : studio_at k s -> units v -> studio_at k (run (input k j v) s).1.
Proof.
  intros Hk Hv. destruct (at_form k s k Hk (at_lt k s Hk)) as (f & Hf & _).
  set (s1 := set_forms (alter (edit j v) k (s_forms s)) s).
  change (run (input k j v) s) with (run (updateDraft (s_forms s1 !! k)) s1).
  assert (s_forms s1 !! k = Some (edit j v f)) as Hl.
  { cbn [s1 set_forms s_forms]. rewrite list_lookup_alter_eq, Hf. done. }
  rewrite Hl. apply updateDraft_at; try (by destruct Hk); try done.
  - cbn [s1 set_forms s_forms]. rewrite <- (at_types k s Hk). generalize (s_forms s). clear.
    induction k as [|k IH]; intros [|g l]; try done. csimpl. by rewrite IH.
  - cbn [s1 set_forms s_forms]. apply Forall_alter; [by apply (at_forms k)|].
    intros g _ Hg. by apply edit_ok.
Qed.

Lemma submit_at k s i : studio_at k s -> (i < 4)%nat -> studio_at k (run (submit i) s).1.
Proof.
  intros Hk Hi. destruct (at_form k s i Hk Hi) as (f & Hf & Hok & Ht).
  unfold submit, put. cbn [get mbind prog_bind pbind run]. rewrite Hf. cbv zeta.
  change (prop (formDraft f (s_now s)) (u "type") ≫= to_string) with (Ok (form_type f)).
  cbn [lift mbind prog_bind pbind act run fst].
  destruct Hk. constructor; try done. apply Forall_cons. split; [|done]. by exists f, (s_now s).
Qed.

Lemma bounded_submit i : bounded 0 (submit i).
Proof. unfold submit, put. bounded_step. bounded_step; [|done]. cbv zeta. repeat bounded_step. Qed.

Lemma tabKey_inv i key s : studio_inv s -> (i < 4)%nat -> studio_inv (run (tabKey i key) s).1.
Proof.
  intros Hs Hi. unfold tabKey. destruct (key_target i (length tab_panels) key) as [n|] eqn:E; [|done].
  exists n. apply activateTab_at; [by apply inv_base|]. unfold key_target in E. cbn [length tab_panels] in E.
  repeat case_if_in E; simplify_eq; try (apply Nat.mod_upper_bound); lia.
Qed.

Lemma bounded_tabKey i key : bounded 0 (tabKey i key).
Proof. unfold tabKey. case_match; [apply bounded_activateTab | done]. Qed.

Lemma handler_safe e s :
  enabled e s = true -> studio_inv s -> safe_from any_answers studio_inv (handler e) s.
Proof.
  intros En Hs. destruct e as [i|i key|i j v|i|t]; unfold enabled in En; unfold handler.
  - apply sync_safe_from; [apply bounded_activateTab|]. exists i. apply activateTab_at; [by apply inv_base|].
    by apply Nat.ltb_lt in En.
  - apply sync_safe_from; [apply bounded_tabKey|]. apply tabKey_inv; [done|]. by apply Nat.ltb_lt in En.
  - apply sync_safe_from; [unfold input; do 2 bounded_step; apply bounded_updateDraft|].
    destruct Hs as [k Hk]. apply andb_true_iff in En as [Hv%(visible_at k) Hu]; [|done]. subst i.
    exists k. apply input_at; [done | by apply unitsb_units].
  - apply sync_safe_from; [apply bounded_submit|]. destruct Hs as [k Hk].
    apply (visible_at k) in En; [|done]. subst i. exists k. apply submit_at; [done | by apply (at_lt k s)].
  - destruct Hs as [k Hk]. exists k. by destruct Hk.
Qed.

(** Steps that touch neither the tabs nor the drafts. *)
Lemma inv_frame s s' :
  s_tabs s' = s_tabs s -> s_panels s' = s_panels s -> s_forms s' = s_forms s ->
  s_downloads s' = s_downloads s -> s_texts s' DraftJson = s_texts s DraftJson ->
  s_texts s' DraftType = s_texts s DraftType -> studio_inv s -> studio_inv s'.
Proof.
  intros H1 H2 H3 H4 H5 H6 [k []]. exists k. constructor; rewrite ?H1, ?H2, ?H3, ?H4, ?H5, ?H6; done.
Qed.

Ltac studio_step :=
  lazymatch goal with
  | |- safe _ _ (mbind _ (lift _)) => apply safe_lift_bind; intros ? _
  | |- safe _ _ (mbind _ (act _)) => apply safe_act_bind; [intros ?; by apply inv_frame|]
  | |- safe _ _ (act _) => apply safe_act; intros ?; by apply inv_frame
  end.

Lemma safe_studio_fetch locale_number : safe any_answers studio_inv (fetchNode locale_number).
Proof.
  apply safe_catch; [|intros e; unfold put; repeat studio_step].
  intros [status|e] _; [|done]. cbn [pbind mbind prog_bind]. case_if; [done|]. intros j _.
  apply safe_lift_bind. intros info _. unfold showNode, put. cbv zeta. repeat studio_step.
Qed.

Definition form_okb (f : form) : bool :=
  forallb (fun c => (0 <=? c) && (c <? 65536)) (form_type f) && bool_decide (NoDup (form_entries f).*1) &&
  forallb (fun k => bool_decide (key_index k = None) && forallb (fun c => (0 <=? c) && (c <? 65536)) k)
    (form_entries f).*1 &&
  forallb (fun e => forallb (fun c => (0 <=? c) && (c <? 65536)) e.2) (form_entries f).

Lemma form_okb_ok f : form_okb f = true -> form_ok f.
Proof.
  unfold form_okb. intros [[[H1 H2%bool_decide_eq_true]%andb_true_iff H3]%andb_true_iff H4]%andb_true_iff.
  split_and!; [by apply unitsb_units | done| |].
  - revert H3. apply forallb_Forall'. intros k [H%bool_decide_eq_true Hk]%andb_true_iff.
    split; [done | by apply unitsb_units].
  - revert H4. apply forallb_Forall'. intros e. apply unitsb_units.
Qed.

Lemma initial_base now : studio_base (studio_initial now).
Proof.
  split_and!; [reflexivity | | constructor]. apply (forallb_Forall' form_okb); [apply form_okb_ok|].
  vm_compute. reflexivity.
Qed.

Lemma boot_inv locale_number now : loop_inv any_answers studio_inv (boot locale_number now).
Proof.
  unfold boot. cbn [launch_all].
  assert (exists q k, launch (fetchNode locale_number) (studio_initial now) [] =
    Loop (studio_initial now) [Task q k] /\ forall a, safe any_answers studio_inv (k a)) as (q & k & H & Hk).
  { do 2 eexists. split; [reflexivity|]. intros a. exact (safe_studio_fetch locale_number a Logic.I). }
  cbn [world tasks]. rewrite H. cbn [world tasks]. apply launch_tasks_inv.
  - apply sync_safe_from; [apply bounded_activateTab|]. exists 0%nat.
    apply activateTab_at; [apply initial_base | lia].
  - apply Forall_singleton. intros a w _ Hw. by apply safe_safe_from.
Qed.

Lemma reachable_studio locale_number now l :
  reachable enabled handler any_answers (boot locale_number now) l -> studio_inv (world l).
Proof. intros H. by destruct (reachable_inv_from _ _ _ _ _ _ handler_safe (boot_inv locale_number now) H). Qed.

(** ** Properties *)

(** In every reachable page exactly one tab is selected and in the tab order,
    and exactly the panel of that tab is visible and styled as active. *)
Theorem studio_one_tab locale_number now l :
  reachable enabled handler any_answers (boot locale_number now) l ->
  exists k, (k < 4)%nat /\ length (s_tabs (world l)) = 4%nat /\ length (s_panels (world l)) = 4%nat /\
    forall i t p, s_tabs (world l) !! i = Some t -> s_panels (world l) !! i = Some p ->
      t = Tab (if Nat.eqb i k then u "true" else u "false") (if Nat.eqb i k then 0 else -1) /\
      p = Panel (negb (Nat.eqb i k)) (Nat.eqb i k).
Proof.
  intros [k H]%reachable_studio. pose proof (at_lt _ _ H) as Hk. exists k. split; [done|].
  rewrite (at_tabs _ _ H), (at_panels _ _ H). split; [reflexivity|]. split; [reflexivity|].
  intros i t p Ht Hp. destruct k as [|[|[|[|k]]]]; [..|lia];
    (destruct i as [|[|[|[|i]]]]; [..|discriminate Ht]); injection Ht as <-; injection Hp as <-;
    split; vm_compute; reflexivity.
Qed.

(** The preview always shows the form on the screen: its JSON text parses to
    the draft of the form in the visible panel, with the current texts of its
    controls, and its caption is the type of that form. *)
Theorem studio_preview_current locale_number now l :
  reachable enabled handler any_answers (boot locale_number now) l ->
  exists k f t, visible k (world l) = true /\ s_forms (world l) !! k = Some f /\
    json_parse (s_texts (world l) DraftJson) = Ok (formDraft f t) /\
    form_fields f = (fun e => (e.1, VStr e.2)) <$> form_entries f /\
    s_texts (world l) DraftType = upper (form_type f).
Proof.
  intros [k H]%reachable_studio. destruct (at_preview _ _ H) as (f & t & Hf & Hj & Ht).
  assert (form_ok f) as Hok by exact (Forall_lookup_1 _ _ _ _ (at_forms _ _ H) Hf).
  exists k, f, t. split_and!; [| done | | by apply form_fields_spec | done].
  - unfold visible. rewrite (at_panels _ _ H). pose proof (at_lt _ _ H) as Hk.
    by destruct k as [|[|[|[|k]]]]; [..|lia].
  - rewrite Hj. by apply parse_stringify2, draft_ok.
Qed.

(** C22: every file the page hands out is named after one of the four forms, is
    valid JSON, is a draft of such a form for the preview network, and says that
    it must not be submitted. *)
Theorem studio_downloads_are_drafts locale_number now l name content :
  reachable enabled handler any_answers (boot locale_number now) l ->
  (name, content) ∈ s_downloads (world l) ->
  exists f t, form_type f ∈ form_types /\ name = u "monzero-" ++ form_type f ++ u "-draft.json" /\
    json_parse content = Ok (formDraft f t) /\
    prop (formDraft f t) (u "submission_enabled") = Ok (VBool false) /\
    prop (formDraft f t) (u "network") = Ok (VStr (u "mainnet-preview")).
Proof.
  intros [k H]%reachable_studio Hin. pose proof (at_downloads _ _ H) as Hd. rewrite Forall_forall in Hd.
  destruct (Hd _ Hin) as (f & t & Hok & Ht & He). exists f, t.
  pose proof (f_equal fst He) as Hn. pose proof (f_equal snd He) as Hc. cbn [fst snd] in Hn, Hc.
  split_and!; [exact Ht | exact Hn | | reflexivity | reflexivity].
  rewrite Hc. by apply parse_stringify2_line, draft_ok.
Qed.

(** A visit: the second tab by the keyboard, a title, a download. *)
Definition studio_visit : list (move (event := event)) :=
  [Fire (TabKey 0 (u "ArrowRight")); Fire (Input 1 0 (u "Tea`pot")); Fire (Submit 1)].

Definition studio_end : loop studio :=
  default (boot (fun _ => []) 1700000000123)
    (play enabled handler studio_visit (boot (fun _ => []) 1700000000123)).

Lemma studio_end_reachable :
  reachable enabled handler any_answers (boot (fun _ => []) 1700000000123) studio_end.
Proof. apply play_reach; [by repeat constructor | vm_compute; reflexivity]. Qed.

Lemma studio_one_tab_witness :
  exists k, (k < 4)%nat /\ length (s_tabs (world studio_end)) = 4%nat.
Proof.
  destruct (studio_one_tab (fun _ => []) 1700000000123 studio_end studio_end_reachable)
    as (k & Hk & Hl & _).
  exists k. split; [exact Hk | exact Hl].
Defined.

Lemma studio_preview_current_witness :
  exists f t, json_parse (s_texts (world studio_end) DraftJson) = Ok (formDraft f t) /\
              s_texts (world studio_end) DraftTitle = u "Tea`pot".
Proof.
  destruct (studio_preview_current (fun _ => []) 1700000000123 studio_end studio_end_reachable)
    as (k & f & t & _ & _ & H & _).
  exists f, t. split; [exact H | vm_compute; reflexivity].
Defined.

Lemma studio_downloads_are_drafts_witness :
  exists name content f t, s_downloads (world studio_end) = [(name, content)] /\
    name = u "monzero-" ++ form_type f ++ u "-draft.json" /\ json_parse content = Ok (formDraft f t).
Proof.
  destruct (s_downloads (world studio_end)) as [|[name content] [|d ds]] eqn:E;
    [vm_compute in E; discriminate E| |vm_compute in E; discriminate E].
  exists name, content.
  destruct (studio_downloads_are_drafts (fun _ => []) 1700000000123 studio_end name content
    studio_end_reachable) as (f & t & _ & Hn & Hj & _); [rewrite E; left|].
  exists f, t. split; [reflexivity|]. split; [exact Hn | exact Hj].
Defined.

Lemma activateTab_focus i s : studio_base s -> (i < 4)%nat -> s_focus (run (activateTab i true) s).1 = Some i.
Proof.
  intros (Ht & Hf & Hd) Hi.
  assert (length (s_forms s) = 4%nat) as Hl by (rewrite <- (length_fmap form_type), Ht; reflexivity).
  destruct (lookup_lt_is_Some_2 (s_forms s) i) as [f Hfi]; [by rewrite Hl|].
  set (s1 := set_tabs (tab_state i <$> seq 0 (length tab_panels))
    (panel_state (default [] (tab_panels !! i)) <$> panel_ids) (Some i) s).
  change (run (activateTab i true) s) with
    (run (updateDraft (form_in (default [] (tab_panels !! i)) panel_ids (s_forms s1))) s1).
  change (s_forms s1) with (s_forms s). rewrite form_in_panel, Hfi by done.
  assert (form_ok f) as Hok by by apply (Forall_lookup_1 _ _ _ _ Hf Hfi).
  by destruct (updateDraft_run f s1 Hok) as (title & detail & ->).
Qed.

(** The arrow keys are inverse to each other and stay within the tabs. *)
Lemma arrows i n : (i < n)%nat ->
  exists next, (next < n)%nat /\ key_target i n (u "ArrowRight") = Some next /\
               key_target next n (u "ArrowLeft") = Some i.
Proof.
  intros Hi. exists ((i + 1) mod n)%nat. split; [apply Nat.mod_upper_bound; lia|]. split; [reflexivity|].
  change (Some (((i + 1) mod n + n - 1) mod n)%nat = Some i). f_equal.
  destruct (decide (i + 1 = n)%nat) as [<-|].
  - rewrite Nat.Div0.mod_same, Nat.mod_small; lia.
  - rewrite (Nat.mod_small (i + 1) n) by lia.
    replace (i + 1 + n - 1)%nat with (i + 1 * n)%nat by lia. rewrite Nat.Div0.mod_add. by apply Nat.mod_small.
Qed.

(** The keyboard moves through the tabs in a circle: from any tab the right
    arrow selects and focuses a neighbour, and the left arrow pressed there leads
    back, to the same tabs, the same panel and the focus where it was. *)
Theorem studio_arrows_round_trip locale_number now l i :
  reachable enabled handler any_answers (boot locale_number now) l -> (i < 4)%nat ->
  exists n, (n < 4)%nat /\
    let s1 := (run (handler (TabKey i (u "ArrowRight"))) (world l)).1 in
    let s2 := (run (handler (TabKey n (u "ArrowLeft"))) s1).1 in
    s_focus s1 = Some n /\ s_tabs s1 = tab_state n <$> seq 0 4 /\ visible n s1 = true /\
    s_focus s2 = Some i /\ s_tabs s2 = tab_state i <$> seq 0 4 /\ visible i s2 = true.
Proof.
  intros H%reachable_studio Hi. destruct (arrows i 4 Hi) as (n & Hn & Hr & Hl). exists n. split; [done|].
  unfold handler, tabKey. change (length tab_panels) with 4%nat. rewrite Hr, Hl.
  pose proof (activateTab_at n true _ (inv_base _ H) Hn) as H1.
  pose proof (inv_base _ (ex_intro _ n H1)) as Hb.
  pose proof (activateTab_at i true _ Hb Hi) as H2.
  split_and!; [by apply activateTab_focus; [apply inv_base|] | apply H1 | | by apply activateTab_focus | apply H2 |].
  - unfold visible. rewrite (at_panels _ _ H1). by destruct n as [|[|[|[|n]]]]; [..|lia].
  - unfold visible. rewrite (at_panels _ _ H2). by destruct i as [|[|[|[|i]]]]; [..|lia].
Qed.

Lemma studio_arrows_round_trip_witness :
  exists n, (n < 4)%nat /\ s_focus (run (handler (TabKey 3 (u "ArrowRight"))) (world studio_end)).1 = Some n.
Proof.
  destruct (studio_arrows_round_trip (fun _ => []) 1700000000123 studio_end 3 studio_end_reachable)
    as (n & Hn & Hf & _); [lia|].
  exists n. split; [exact Hn | exact Hf].
Defined.

(** The status of the node in Studio.  A failed request is shown as such and
    changes nothing else.  An answer that could be shown in full decides the
    state by its fields: ready exactly if it reports the network as ready. *)
Theorem studio_node_status locale_number info s s' r v :
  prop info (u "network_ready") = Ok v ->
  (completes failing_answers (fetchNode locale_number) s s' r ->
   r = Ok tt /\ s' = set_dot ((s_dot s).1, true) (set_text NodeState (u "Unavailable") s)) /\
  (completes (only_answers info) (showNode locale_number info) s s' (Ok tt) ->
   s_ready s' = truthy v /\ s_dot s' = (truthy v, (s_dot s).2) /\
   (s_texts s' NodeState = u "Network ready" <-> truthy v = true)).
Proof.
  intros Hv. split.
  - intros [(a & H & _)|(e & w1 & H & Hg)]%completes_catch.
    + destruct H as ([status|e] & Hf & H); [|by destruct H]. simpl in Hf.
      cbn [pbind mbind prog_bind] in H. rewrite Hf in H. by destruct H.
    + assert (w1 = s) as ->.
      { destruct H as ([status|e'] & Hf & H); [|by destruct H]. simpl in Hf.
        cbn [pbind mbind prog_bind] in H. rewrite Hf in H. by destruct H. }
      unfold put in Hg. apply completes_act_bind in Hg. by apply completes_act in Hg as [-> ->].
  - unfold showNode, put. rewrite Hv. intros H.
    apply completes_lift_bind in H as [(e & _ & [=])|(w & [= <-] & H)]. cbv zeta in H.
    apply completes_lift_bind in H as [(e & _ & [=])|(t & Ht & H)].
    completes_inv H. subst s'. split; [reflexivity|]. split; [reflexivity|].
    change (t = u "Network ready" <-> truthy v = true). destruct (truthy v); [by injection Ht as <-|].
    split; [|done]. intros ->. destruct (prop info (u "synchronized")) as [y|]; [|done].
    cbn [mbind res_bind] in Ht. injection Ht as Ht. destruct (truthy y); discriminate (f_equal length Ht).
Qed.

Definition ready_info : value :=
  VObj [(u "network_ready", VBool true); (u "height", VNum (num_of_Z 7))].

Lemma studio_node_status_witness :
  let s' := (run (showNode (fun _ => []) ready_info) (studio_initial 0)).1 in
  s_texts s' NodeState = u "Network ready" /\ s_ready s' = true.
Proof.
  intros s'.
  assert ((run (showNode (fun _ => []) ready_info) (studio_initial 0)).2 = Done tt) as Hd
    by (vm_compute; reflexivity).
  destruct (studio_node_status (fun _ => []) ready_info (studio_initial 0) s' (Ok tt) (VBool true) eq_refl)
    as [_ H].
  destruct (H (run_completes _ _ _ _ Hd)) as (H1 & _ & H2).
  split; [apply H2; reflexivity | exact H1].
Defined.
