(* ===== verification/Bytes.v ===== *)
(** Byte strings and the results of the C++ code: what a function returns, the
    little-endian integers, and the reads and writes of [asset_types.cpp]. *)

From Stdlib Require Export ZifyBool.
From S2P Require Import Prelude.

(** ** Results

    A function that returns [false] with a message yields [Bad], one that
    throws yields [Thrown], and one that reads outside a container, which C++
    leaves undefined, yields [Wild]. *)
Inductive outcome (A : Type) : Type :=
| Good (a : A)
| Bad (message : string)
| Thrown (message : string)
| Wild.
Arguments Good {A} a.
Arguments Bad {A} message%_string.
Arguments Thrown {A} message%_string.
Arguments Wild {A}.

#[global] Instance outcome_ret : MRet outcome := @Good.
#[global] Instance outcome_bind : MBind outcome := fun A B f m =>
  match m with
  | Good a => f a
  | Bad e => Bad e
  | Thrown e => Thrown e
  | Wild => Wild
  end.

#[global] Instance Good_inj {A} : Inj (=) (=) (@Good A).
Proof. intros a b E. by injection E. Qed.

(** [if (!ok) return fail(error, message);] *)
Definition require (ok : bool) (message : string) : outcome unit :=
  if ok then Good tt else Bad message.
Arguments require ok message%_string.

(** [if (!found) return fail(error, message);] for a value that was looked for. *)
Definition expect {A} (found : option A) (message : string) : outcome A :=
  match found with Some a => Good a | None => Bad message end.
Arguments expect {A} found message%_string.

(** [if (!m) return fail(error, message);]: the failure of [m] gets a message
    of its own. *)
Definition relabel {A} (m : outcome A) (message : string) : outcome A :=
  match m with Bad _ => Bad message | _ => m end.
Arguments relabel {A} m message%_string.

(** The outcomes of code without exceptions and undefined reads. *)
Definition tame {A} (m : outcome A) : Prop :=
  match m with Good _ | Bad _ => True | Thrown _ | Wild => False end.

Lemma tame_bind {A B} (m : outcome A) (f : A -> outcome B) :
  tame m -> (forall a, m = Good a -> tame (f a)) -> tame (m ≫= f).
Proof. destruct m; simpl; auto. Qed.

Lemma tame_require b e : tame (require b e).
Proof. by destruct b. Qed.
Lemma tame_expect {A} (o : option A) e : tame (expect o e).
Proof. by destruct o. Qed.
Lemma tame_relabel {A} (m : outcome A) e : tame m -> tame (relabel m e).
Proof. by destruct m. Qed.

#[export] Hint Resolve tame_require tame_expect tame_relabel : monzero.

Lemma bind_Good {A B} (m : outcome A) (f : A -> outcome B) b :
  m ≫= f = Good b <-> exists a, m = Good a /\ f a = Good b.
Proof.
  split.
  - destruct m; simpl; intros H; try discriminate. eauto.
  - by intros (a & -> & H).
Qed.

Lemma bind_of_Good {A B} (a : A) (f : A -> outcome B) : Good a ≫= f = f a.
Proof. done. Qed.

Lemma require_Good b e x : require b e = Good x <-> b = true.
Proof. destruct b; simpl; split; try done. by destruct x. Qed.

Lemma expect_Good {A} (o : option A) e x : expect o e = Good x <-> o = Some x.
Proof. destruct o; simpl; split; congruence. Qed.

Lemma relabel_Good {A} (m : outcome A) e x : relabel m e = Good x <-> m = Good x.
Proof. destruct m; simpl; split; congruence. Qed.

(** Take apart [m ≫= f = Good b] into the successful steps of the chain. *)
Ltac good_inv H :=
  repeat match type of H with
  | mbind _ ?m = Good _ =>
      let E := fresh "E" in
      let a := fresh "a" in
      apply bind_Good in H as (a & E & H);
      first [apply require_Good in E; clear a
            |apply expect_Good in E
            |apply relabel_Good in E
            |idtac]
  end.

(** ** Bytes *)

Abbreviation bytes := (list Z).

Definition byteb (b : Z) : bool := (0 <=? b) && (b <? 256).
Definition is_bytes (s : bytes) : Prop := Forall (fun b => 0 <= b < 256) s.

(** An array of [n] bytes: a hash, a key, a signature. *)
Definition array (n : nat) (s : bytes) : Prop := length s = n /\ is_bytes s.

Definition arrayb (n : nat) (s : bytes) : bool := (length s =? n)%nat && forallb byteb s.

Lemma arrayb_array n s : arrayb n s = true -> array n s.
Proof.
  intros [Hn Hs]%andb_true_iff. apply Nat.eqb_eq in Hn. split; [done|].
  unfold is_bytes. rewrite Forall_forall. intros b Hb.
  rewrite forallb_forall in Hs. specialize (Hs b).
  rewrite list_elem_of_In in Hb. specialize (Hs Hb). unfold byteb in Hs. lia.
Qed.

Lemma array_length n s : array n s -> length s = n.
Proof. by intros []. Qed.
Lemma array_bytes n s : array n s -> is_bytes s.
Proof. by intros []. Qed.

(** [memcmp(a, b, n) < 0] on arrays of one size: bytes compare as unsigned
    numbers.  On lists of different lengths this is the lexicographic order. *)
Fixpoint memcmp_lt (a b : bytes) : bool :=
  match a, b with
  | x :: a, y :: b => if x =? y then memcmp_lt a b else x <? y
  | [], _ :: _ => true
  | _, [] => false
  end.

Lemma memcmp_irrefl a : memcmp_lt a a = false.
Proof. induction a as [|x a IH]; simpl; [done|]. by rewrite Z.eqb_refl. Qed.

Lemma memcmp_trans a b c : memcmp_lt a b = true -> memcmp_lt b c = true -> memcmp_lt a c = true.
Proof.
  revert b c. induction a as [|x a IH]; intros [|y b] [|z c]; simpl; try done.
  destruct (x =? y) eqn:E1, (y =? z) eqn:E2, (x =? z) eqn:E3; intros H1 H2; try lia; eauto.
Qed.

Lemma memcmp_total a b : a <> b -> memcmp_lt a b = true \/ memcmp_lt b a = true.
Proof.
  revert b. induction a as [|x a IH]; intros [|y b]; simpl; auto; try done.
  intros Hne. rewrite (Z.eqb_sym y x). destruct (x =? y) eqn:E; [|lia].
  apply Z.eqb_eq in E as ->. apply IH; congruence.
Qed.

(** ** Little-endian integers *)

(** [append_u16_le], [append_u32_le] and [append_u64_le]: the byte at each
    [shift], lowest first. *)
Fixpoint append_le (n : nat) (shift v : Z) : bytes :=
  match n with
  | O => []
  | S n => Z.land (Z.shiftr v shift) 255 :: append_le n (shift + 8) v
  end.

(** [value |= static_cast<T>(source[offset++]) << shift] over the bytes read. *)
Fixpoint read_le (shift acc : Z) (s : bytes) : Z :=
  match s with
  | [] => acc
  | b :: s => read_le (shift + 8) (Z.lor acc (Z.shiftl b shift)) s
  end.

Definition u16_le (v : Z) : bytes := append_le 2 0 v.
Definition u32_le (v : Z) : bytes := append_le 4 0 v.
Definition u64_le (v : Z) : bytes := append_le 8 0 v.

(** The same in arithmetic. *)
Fixpoint of_le (s : bytes) : Z :=
  match s with [] => 0 | b :: s => b + 256 * of_le s end.

Lemma of_le_range s : is_bytes s -> 0 <= of_le s < 256 ^ Z.of_nat (length s).
Proof.
  induction 1 as [|b s Hb Hs IH]; [done|]. cbn [of_le length].
  rewrite Nat2Z.inj_succ, Z.pow_succ_r by lia. lia.
Qed.

Lemma lor_shiftl a b sh : 0 <= sh -> 0 <= a < 2 ^ sh -> Z.lor a (Z.shiftl b sh) = a + 2 ^ sh * b.
Proof.
  intros Hsh Ha.
  assert (Z.land a (Z.shiftl b sh) = 0) as Hd.
  { apply Z.bits_inj'. intros n Hn. rewrite Z.land_spec, Z.bits_0, Z.shiftl_spec by lia.
    destruct (Z.ltb_spec n sh).
    - rewrite (Z.testbit_neg_r b) by lia. by rewrite andb_false_r.
    - rewrite <- (Z.mod_small a (2 ^ sh)) by lia. by rewrite Z.mod_pow2_bits_high by lia. }
  rewrite <- (Z.lxor_lor _ _ Hd), <- (Z.add_nocarry_lxor _ _ Hd), Z.shiftl_mul_pow2 by lia. lia.
Qed.

Lemma read_le_eq s : forall sh acc, 0 <= sh -> 0 <= acc < 2 ^ sh -> is_bytes s ->
  read_le sh acc s = acc + 2 ^ sh * of_le s.
Proof.
  induction s as [|b s IH]; intros sh acc Hsh Hacc Hs; cbn [read_le of_le]; [lia|].
  inversion Hs as [|?? Hb Hs']; subst.
  assert (2 ^ (sh + 8) = 2 ^ sh * 256) as Hp by (by rewrite Z.pow_add_r by lia).
  rewrite lor_shiftl by lia. rewrite IH; [rewrite Hp; lia|lia| |done].
  rewrite Hp. split; nia.
Qed.

Lemma append_le_eq n : forall sh v, 0 <= sh ->
  append_le n sh v = match n with
    | O => []
    | S n => (v / 2 ^ sh) mod 256 :: append_le n 0 (v / 2 ^ sh / 256)
    end.
Proof.
  induction n as [|n IH]; intros sh v Hsh; cbn [append_le]; [done|].
  rewrite (Z.land_ones _ 8) by lia. rewrite Z.shiftr_div_pow2 by lia. f_equal.
  rewrite (IH (sh + 8)) by lia. rewrite (IH 0 (v / 2 ^ sh / 256)) by lia.
  destruct n; [done|]. rewrite Z.pow_add_r, <- Z.div_div, Z.pow_0_r, Z.div_1_r by lia. done.
Qed.

Lemma length_append_le n sh v : length (append_le n sh v) = n.
Proof. revert sh. induction n; intros sh; simpl; auto. Qed.

Lemma append_le_bytes n sh v : is_bytes (append_le n sh v).
Proof.
  revert sh. induction n as [|n IH]; intros sh; cbn [append_le]; constructor; [|apply IH].
  rewrite (Z.land_ones _ 8) by lia. by apply Z.mod_pos_bound.
Qed.

Lemma append_le_array n sh v : array n (append_le n sh v).
Proof. split; [apply length_append_le|apply append_le_bytes]. Qed.

Lemma array_app m n a b : array m a -> array n b -> array (m + n) (a ++ b).
Proof. intros [Ha Ha'] [Hb Hb']. split; [rewrite length_app; lia|by apply Forall_app]. Qed.

Lemma of_append_le n : forall v, 0 <= v < 256 ^ Z.of_nat n -> of_le (append_le n 0 v) = v.
Proof.
  induction n as [|n IH]; intros v Hv; [simpl in *; lia|].
  rewrite append_le_eq, Z.pow_0_r, Z.div_1_r by lia. cbn [of_le].
  rewrite Nat2Z.inj_succ, Z.pow_succ_r in Hv by lia.
  rewrite IH; [pose proof (Z.div_mod v 256); lia|].
  split; [apply Z.div_pos; lia|apply Z.div_lt_upper_bound; lia].
Qed.

Lemma append_of_le s : is_bytes s -> append_le (length s) 0 (of_le s) = s.
Proof.
  induction 1 as [|b s Hb Hs IH]; [done|]. cbn [length of_le].
  rewrite append_le_eq, Z.pow_0_r, Z.div_1_r by lia.
  rewrite (Z.mul_comm 256), Z.mod_add, Z.mod_small, Z.div_add, Z.div_small, Z.add_0_l by lia.
  by rewrite IH.
Qed.

(** Reading undoes writing, and the other way round. *)
Lemma read_append_le n v : 0 <= v < 256 ^ Z.of_nat n -> read_le 0 0 (append_le n 0 v) = v.
Proof.
  intros Hv. rewrite read_le_eq by (try apply append_le_bytes; lia).
  rewrite of_append_le by done. lia.
Qed.

Lemma append_read_le n s : array n s -> append_le n 0 (read_le 0 0 s) = s.
Proof.
  intros [<- Hs]. rewrite read_le_eq by (done || lia).
  rewrite Z.add_0_l, Z.pow_0_r, Z.mul_1_l. by apply append_of_le.
Qed.

Lemma read_le_range n s : array n s -> 0 <= read_le 0 0 s < 256 ^ Z.of_nat n.
Proof.
  intros [<- Hs]. rewrite read_le_eq by (done || lia). pose proof (of_le_range s Hs). lia.
Qed.

(** ** Reads

    A read position of the sources, an offset into a vector, is the rest of
    the vector from there. *)

(** [read_pod]: the next [n] bytes, or [false]. *)
Definition read_pod (n : nat) (s : bytes) : option (bytes * bytes) :=
  if (n <=? length s)%nat then Some (take n s, drop n s) else None.

Definition read_u16_le (s : bytes) : option (Z * bytes) :=
  prod_map (read_le 0 0) id <$> read_pod 2 s.
Definition read_u32_le (s : bytes) : option (Z * bytes) :=
  prod_map (read_le 0 0) id <$> read_pod 4 s.
Definition read_u64_le (s : bytes) : option (Z * bytes) :=
  prod_map (read_le 0 0) id <$> read_pod 8 s.

(** [encoded[offset++]], which does not look at the size. *)
Definition next_byte (s : bytes) : outcome (Z * bytes) :=
  match s with [] => Wild | b :: s => Good (b, s) end.

(** [std::vector<uint8_t>(encoded.begin() + offset, encoded.begin() + offset + n)],
    which does not look at the size either. *)
Definition range (n : nat) (s : bytes) : outcome (bytes * bytes) :=
  if (n <=? length s)%nat then Good (take n s, drop n s) else Wild.

(** [std::equal(domain, domain + size, encoded.begin())]: the rest of [s] when
    [s] starts with [domain]. *)
Fixpoint equal_prefix (domain s : bytes) : outcome (option bytes) :=
  match domain, s with
  | [], _ => Good (Some s)
  | _ :: _, [] => Wild
  | b :: domain, c :: s => if b =? c then equal_prefix domain s else Good None
  end.

Lemma read_pod_app n a s : length a = n -> read_pod n (a ++ s) = Some (a, s).
Proof.
  intros <-. unfold read_pod. rewrite length_app, (proj2 (Nat.leb_le _ _)) by lia.
  by rewrite take_app_length, drop_app_length.
Qed.

Lemma read_pod_Some n s a t : read_pod n s = Some (a, t) <-> s = a ++ t /\ length a = n.
Proof.
  split.
  - unfold read_pod. destruct (n <=? length s)%nat eqn:E; [|done]. intros [= <- <-].
    rewrite take_drop, length_take. apply Nat.leb_le in E. split; [done|lia].
  - intros [-> Hn]. by apply read_pod_app.
Qed.

Lemma read_u16_app v s : 0 <= v < 65536 -> read_u16_le (u16_le v ++ s) = Some (v, s).
Proof.
  intros Hv. unfold read_u16_le. rewrite read_pod_app by apply length_append_le.
  cbn [fmap option_fmap option_map prod_map fst snd id]. unfold u16_le. by rewrite read_append_le.
Qed.

Lemma read_u32_app v s : 0 <= v < 2 ^ 32 -> read_u32_le (u32_le v ++ s) = Some (v, s).
Proof.
  intros Hv. unfold read_u32_le. rewrite read_pod_app by apply length_append_le.
  cbn [fmap option_fmap option_map prod_map fst snd id]. unfold u32_le. by rewrite read_append_le.
Qed.

Lemma read_u64_app v s : 0 <= v < 2 ^ 64 -> read_u64_le (u64_le v ++ s) = Some (v, s).
Proof.
  intros Hv. unfold read_u64_le. rewrite read_pod_app by apply length_append_le.
  cbn [fmap option_fmap option_map prod_map fst snd id]. unfold u64_le. by rewrite read_append_le.
Qed.

(** The bytes an integer was read from. *)
Lemma read_le_Some n s v t : is_bytes s ->
  prod_map (read_le 0 0) id <$> read_pod n s = Some (v, t) ->
  s = append_le n 0 v ++ t /\ 0 <= v < 256 ^ Z.of_nat n.
Proof.
  intros Hs H. destruct (read_pod n s) as [[a t']|] eqn:E; [|done].
  cbn in H. apply read_pod_Some in E as [-> Hn].
  apply Forall_app in Hs as [Ha Ht]. injection H as <- <-. unfold id.
  rewrite append_read_le by done. split; [done|by apply read_le_range].
Qed.

Lemma range_app n a s : length a = n -> range n (a ++ s) = Good (a, s).
Proof.
  intros <-. unfold range. rewrite length_app, (proj2 (Nat.leb_le _ _)) by lia.
  by rewrite take_app_length, drop_app_length.
Qed.

Lemma range_Good n s a t : range n s = Good (a, t) -> s = a ++ t /\ length a = n.
Proof.
  unfold range. destruct (n <=? length s)%nat eqn:E; [|done]. intros [= <- <-].
  rewrite take_drop, length_take. apply Nat.leb_le in E. split; [done|lia].
Qed.

Lemma range_tame n s : (n <= length s)%nat -> tame (range n s).
Proof. intros H. unfold range. by rewrite (proj2 (Nat.leb_le _ _)) by lia. Qed.

Lemma next_byte_tame s : (0 < length s)%nat -> tame (next_byte s).
Proof. destruct s; simpl; [lia|done]. Qed.

Lemma next_byte_Good s b t : next_byte s = Good (b, t) -> s = b :: t.
Proof. destruct s; simpl; congruence. Qed.

Lemma equal_prefix_app d s : equal_prefix d (d ++ s) = Good (Some s).
Proof. induction d as [|b d IH]; simpl; [by destruct s|]. by rewrite Z.eqb_refl. Qed.

Lemma equal_prefix_Some d s t : equal_prefix d s = Good (Some t) -> s = d ++ t.
Proof.
  revert s. induction d as [|b d IH]; intros [|c s]; simpl; try congruence.
  destruct (b =? c) eqn:E; [|congruence]. intros H. apply Z.eqb_eq in E as ->. f_equal. by apply IH.
Qed.

Lemma equal_prefix_tame d s : (length d <= length s)%nat -> tame (equal_prefix d s).
Proof.
  revert s. induction d as [|b d IH]; intros [|c s]; simpl; try done; [lia|].
  intros H. destruct (b =? c); [apply IH; lia|done].
Qed.
