(* ===== verification/AssetTypes.v ===== *)
(** The issuance of assets, [cryptonote_basic/asset_types.cpp]: descriptors,
    signed payloads and transaction extensions, what makes them valid, and
    their binary encodings. *)

From S2P Require Import Prelude Bytes.

(** ** Cryptography

    The functions of [crypto/] the asset code calls.  Everything below holds
    for all functions of these types; what a theorem needs of them is a law of
    [CryptoLaws]. *)
Class Crypto := {
  check_key : bytes -> bool;
  cn_fast_hash : bytes -> bytes;
  check_signature : bytes -> bytes -> bytes -> bool;
  secret_key_to_public_key : bytes -> option bytes;
  (** The last argument is the random scalar the signature draws. *)
  generate_signature : bytes -> bytes -> bytes -> bytes -> bytes;
}.

Class CryptoLaws `{Crypto} : Prop := {
  cn_fast_hash_array : forall s, array 32 (cn_fast_hash s);
  public_key_array : forall sec pub, secret_key_to_public_key sec = Some pub -> array 32 pub;
  public_key_valid : forall sec pub, secret_key_to_public_key sec = Some pub -> check_key pub = true;
  signature_array : forall m pub sec k, array 64 (generate_signature m pub sec k);
  signature_valid : forall m pub sec k, secret_key_to_public_key sec = Some pub ->
    check_signature m pub (generate_signature m pub sec k) = true;
}.

(** ** Enumerations and constants

    The enumerations have a byte as underlying type, and the decoders convert
    any byte to them. *)
Definition MAINNET : Z := 0.
Definition TESTNET : Z := 1.
Definition STAGENET : Z := 2.
Definition FAKECHAIN : Z := 3.
Definition UNDEFINED : Z := 255.

Definition fungible : Z := 1.
Definition non_fungible : Z := 2.
Definition collection : Z := 3.
Definition edition : Z := 4.

Definition null_hash : bytes := replicate 32 0.

Definition ISSUANCE_DESCRIPTOR_VERSION : Z := 2.
Definition MAX_DISPLAY_DECIMALS : Z := 11.
Definition MAX_METADATA_REFERENCE_BYTES : nat := 256.
Definition ISSUANCE_PAYLOAD_VERSION : Z := 1.
Definition TRANSACTION_EXTENSION_VERSION : Z := 1.
Definition operation_issuance : Z := 1.
Definition UINT16_MAX : Z := 65535.

Definition DOMAIN : bytes := Eval vm_compute in u "MonzeroAssetIssuanceV2".
Definition ISSUANCE_AUTHORIZATION_DOMAIN : bytes :=
  Eval vm_compute in u "MonzeroAssetIssuanceAuthorizationV1".
Definition COLLECTION_MEMBERSHIP_DOMAIN : bytes :=
  Eval vm_compute in u "MonzeroCollectionMembershipV1".
Definition ISSUANCE_PAYLOAD_DOMAIN : bytes :=
  Eval vm_compute in u "MonzeroAssetIssuancePayloadV1".
Definition REGISTRY_SNAPSHOT_DOMAIN : bytes :=
  Eval vm_compute in u "MonzeroAssetRegistrySnapshotV1".
Definition TRANSACTION_EXTENSION_DOMAIN : bytes :=
  Eval vm_compute in u "MonzeroAssetTransactionExtensionV1".

Definition mainnet_id : bytes :=
  [0x94; 0x83; 0x42; 0x64; 0xd0; 0xb2; 0x41; 0xdd; 0xb0; 0xf2; 0x0a; 0xda; 0x67; 0x5c; 0x77; 0x10].
Definition testnet_id : bytes :=
  [0xad; 0xc2; 0xa2; 0x71; 0x55; 0x39; 0x43; 0xd9; 0xb3; 0xc2; 0x7a; 0xad; 0xaf; 0x6b; 0x93; 0x8c].
Definition stagenet_id : bytes :=
  [0xb1; 0xdc; 0xac; 0x5a; 0x9d; 0x11; 0x46; 0x53; 0x81; 0x22; 0xe6; 0x7e; 0xec; 0x8b; 0x59; 0xac].

(** [get_config(network).NETWORK_ID] *)
Definition network_id (network : Z) : outcome bytes :=
  if network =? MAINNET then Good mainnet_id
  else if network =? TESTNET then Good testnet_id
  else if network =? STAGENET then Good stagenet_id
  else if network =? FAKECHAIN then Good mainnet_id
  else Thrown "Invalid network type".

(** The test [n != MAINNET && n != TESTNET && n != STAGENET], negated. *)
Definition public_network (n : Z) : bool := (n =? MAINNET) || (n =? TESTNET) || (n =? STAGENET).

(** The loop over the three public networks in the decoders. *)
Fixpoint network_of_id (id : bytes) (candidates : list Z) : outcome Z :=
  match candidates with
  | [] => Good UNDEFINED
  | n :: candidates =>
      i ← network_id n;
      if bool_decide (id = i) then Good n else network_of_id id candidates
  end.

(** ** Descriptors *)

Record issuance_descriptor := Descriptor {
  d_version : Z;
  d_network : Z;
  d_type : Z;
  d_issuer_key : bytes;
  d_issuance_nonce : bytes;
  d_atomic_supply : Z;
  d_display_decimals : Z;
  d_metadata_hash : bytes;
  d_collection_id : bytes;
  d_metadata_reference : bytes;
}.

#[global] Instance issuance_descriptor_eq_dec : EqDecision issuance_descriptor.
Proof. solve_decision. Defined.

Definition set_issuer_key (key : bytes) (d : issuance_descriptor) : issuance_descriptor :=
  Descriptor (d_version d) (d_network d) (d_type d) key (d_issuance_nonce d) (d_atomic_supply d)
    (d_display_decimals d) (d_metadata_hash d) (d_collection_id d) (d_metadata_reference d).
Definition set_issuance_nonce (nonce : bytes) (d : issuance_descriptor) : issuance_descriptor :=
  Descriptor (d_version d) (d_network d) (d_type d) (d_issuer_key d) nonce (d_atomic_supply d)
    (d_display_decimals d) (d_metadata_hash d) (d_collection_id d) (d_metadata_reference d).

Record issuance_payload := Payload {
  p_version : Z;
  p_descriptor : issuance_descriptor;
  p_issuer_signature : bytes;
  p_collection_signature : option bytes;
}.

Record transaction_extension := Extension {
  x_version : Z;
  x_network : Z;
  x_operation : Z;
  x_carrier_prefix_hash : bytes;
  x_issuance : issuance_payload;
}.

#[global] Instance issuance_payload_eq_dec : EqDecision issuance_payload.
Proof. solve_decision. Defined.

(** What the C++ types of the fields guarantee. *)
Record descriptor_wf (d : issuance_descriptor) : Prop := {
  wf_issuer_key : array 32 (d_issuer_key d);
  wf_nonce : array 32 (d_issuance_nonce d);
  wf_supply : 0 <= d_atomic_supply d < 2 ^ 64;
  wf_decimals : 0 <= d_display_decimals d < 256;
  wf_metadata_hash : array 32 (d_metadata_hash d);
  wf_collection_id : array 32 (d_collection_id d);
  wf_reference : is_bytes (d_metadata_reference d);
}.

Record payload_wf (p : issuance_payload) : Prop := {
  wf_descriptor : descriptor_wf (p_descriptor p);
  wf_issuer_signature : array 64 (p_issuer_signature p);
  wf_collection_signature : from_option (array 64) True (p_collection_signature p);
}.

Record extension_wf (x : transaction_extension) : Prop := {
  wf_carrier : array 32 (x_carrier_prefix_hash x);
  wf_issuance : payload_wf (x_issuance x);
}.

Definition control_byte (c : Z) : bool := (c <? 0x20) || (c =? 0x7f).

Definition claims_collection (d : issuance_descriptor) : bool :=
  negb (bool_decide (d_collection_id d = null_hash)).

Section Assets.
Context `{Crypto}.

Definition validate_issuance_descriptor (d : issuance_descriptor) : outcome unit :=
  require (d_version d =? ISSUANCE_DESCRIPTOR_VERSION) "unsupported issuance descriptor version";;
  require (public_network (d_network d)) "issuance descriptor requires an explicit public network";;
  require ((d_type d =? fungible) || (d_type d =? non_fungible) || (d_type d =? collection)
    || (d_type d =? edition)) "unsupported asset class";;
  require (check_key (d_issuer_key d)) "invalid issuer public key";;
  require (negb (d_atomic_supply d =? 0)) "asset supply must be greater than zero";;
  require (d_display_decimals d <=? MAX_DISPLAY_DECIMALS)
    "asset display precision exceeds XMZ precision";;
  require (negb (((d_type d =? non_fungible) || (d_type d =? collection))
    && (negb (d_atomic_supply d =? 1) || negb (d_display_decimals d =? 0))))
    "NFT and collection supply must be exactly one indivisible unit";;
  require (negb ((d_type d =? edition) && negb (d_display_decimals d =? 0)))
    "edition supply must be indivisible";;
  require (negb (((d_type d =? fungible) || (d_type d =? collection)) && claims_collection d))
    "this asset class cannot reference a collection";;
  require (negb (((d_type d =? non_fungible) || (d_type d =? edition))
    && bool_decide (d_metadata_hash d = null_hash)))
    "NFT and edition metadata must have a content hash";;
  require (length (d_metadata_reference d) <=? MAX_METADATA_REFERENCE_BYTES)%nat
    "metadata reference is too long";;
  require (negb (existsb control_byte (d_metadata_reference d)))
    "metadata reference contains an ASCII control byte".

(** The fields of a descriptor in the order they are written. *)
Definition descriptor_bytes (id : bytes) (d : issuance_descriptor) : bytes :=
  DOMAIN ++ [d_version d] ++ id ++ [d_type d] ++ d_issuer_key d ++ d_issuance_nonce d
  ++ u64_le (d_atomic_supply d) ++ [d_display_decimals d] ++ d_metadata_hash d
  ++ d_collection_id d ++ u16_le (Z.of_nat (length (d_metadata_reference d)))
  ++ d_metadata_reference d.

Definition encode_issuance_descriptor (d : issuance_descriptor) : outcome bytes :=
  validate_issuance_descriptor d;;
  id ← network_id (d_network d);
  Good (descriptor_bytes id d).

Definition descriptor_fixed_size : nat :=
  length DOMAIN + 1 + 16 + 1 + 32 + 32 + 8 + 1 + 32 + 32 + 2.

Definition parse_issuance_descriptor (encoded : bytes) : outcome issuance_descriptor :=
  require (descriptor_fixed_size <=? length encoded)%nat "truncated issuance descriptor";;
  r ← equal_prefix DOMAIN encoded;
  s ← expect r "invalid issuance descriptor domain";
  '(version, s) ← next_byte s;
  '(id, s) ← expect (read_pod 16 s) "truncated issuance descriptor network";
  network ← network_of_id id [MAINNET; TESTNET; STAGENET];
  '(type, s) ← next_byte s;
  '(issuer_key, s) ← expect (read_pod 32 s) "truncated issuance descriptor identity";
  '(nonce, s) ← expect (read_pod 32 s) "truncated issuance descriptor identity";
  '(supply, s) ← expect (read_u64_le s) "truncated issuance descriptor identity";
  '(decimals, s) ← next_byte s;
  '(metadata_hash, s) ← expect (read_pod 32 s) "truncated issuance descriptor metadata";
  '(collection_id, s) ← expect (read_pod 32 s) "truncated issuance descriptor metadata";
  '(size, s) ← expect (read_u16_le s) "truncated issuance descriptor metadata length";
  require (size <=? Z.of_nat MAX_METADATA_REFERENCE_BYTES) "metadata reference is too long";;
  require (size =? Z.of_nat (length s)) "issuance descriptor length is not canonical";;
  '(reference, _) ← range (Z.to_nat size) s;
  Good (Descriptor version network type issuer_key nonce supply decimals metadata_hash
    collection_id reference).

Definition decode_issuance_descriptor (encoded : bytes) : outcome issuance_descriptor :=
  parsed ← parse_issuance_descriptor encoded;
  validate_issuance_descriptor parsed;;
  canonical ← relabel (encode_issuance_descriptor parsed)
    "issuance descriptor encoding is not canonical";
  require (bool_decide (canonical = encoded)) "issuance descriptor encoding is not canonical";;
  Good parsed.

Definition derive_asset_id (d : issuance_descriptor) : outcome bytes :=
  encoded ← encode_issuance_descriptor d;
  Good (cn_fast_hash encoded).

Definition derive_issuance_authorization_hash (d : issuance_descriptor) : outcome bytes :=
  encoded ← encode_issuance_descriptor d;
  Good (cn_fast_hash (ISSUANCE_AUTHORIZATION_DOMAIN ++ encoded)).

Definition verify_issuance_authorization (d : issuance_descriptor) (signature : bytes) : outcome unit :=
  message ← derive_issuance_authorization_hash d;
  require (check_signature message (d_issuer_key d) signature)
    "invalid asset issuer authorization signature".

Definition derive_collection_membership_hash (collection_id member_asset_id : bytes) : outcome bytes :=
  require (negb (bool_decide (collection_id = null_hash) || bool_decide (member_asset_id = null_hash)))
    "collection and member asset IDs must be non-zero";;
  Good (cn_fast_hash (COLLECTION_MEMBERSHIP_DOMAIN ++ collection_id ++ member_asset_id)).

Definition verify_collection_membership (collection_id member_asset_id controller signature : bytes) :
  outcome unit :=
  require (check_key controller) "invalid collection controller public key";;
  message ← derive_collection_membership_hash collection_id member_asset_id;
  require (check_signature message controller signature) "invalid collection membership signature".

(** ** Signed payloads *)

(** The fields of a payload in the order they are written. *)
Definition payload_bytes (descriptor : bytes) (p : issuance_payload) : bytes :=
  ISSUANCE_PAYLOAD_DOMAIN ++ [p_version p] ++ u16_le (Z.of_nat (length descriptor)) ++ descriptor
  ++ p_issuer_signature p
  ++ match p_collection_signature p with None => [0] | Some signature => 1 :: signature end.

Definition encode_issuance_payload (p : issuance_payload) : outcome bytes :=
  require (p_version p =? ISSUANCE_PAYLOAD_VERSION) "unsupported issuance payload version";;
  descriptor ← encode_issuance_descriptor (p_descriptor p);
  require (Z.of_nat (length descriptor) <=? UINT16_MAX)
    "issuance descriptor does not fit its bounded payload";;
  verify_issuance_authorization (p_descriptor p) (p_issuer_signature p);;
  require (Bool.eqb (claims_collection (p_descriptor p)) (bool_decide (is_Some (p_collection_signature p))))
    (if claims_collection (p_descriptor p) then "collection membership signature is missing"
     else "unexpected collection signature for an uncollected asset");;
  Good (payload_bytes descriptor p).

Definition payload_minimum_size : nat := length ISSUANCE_PAYLOAD_DOMAIN + 1 + 2 + 64 + 1.

Definition parse_issuance_payload (encoded : bytes) : outcome issuance_payload :=
  require (payload_minimum_size <=? length encoded)%nat "truncated issuance payload";;
  r ← equal_prefix ISSUANCE_PAYLOAD_DOMAIN encoded;
  s ← expect r "invalid issuance payload domain";
  '(version, s) ← next_byte s;
  require (version =? ISSUANCE_PAYLOAD_VERSION) "unsupported issuance payload version";;
  '(size, s) ← expect (read_u16_le s) "invalid issuance payload descriptor length";
  require (size <=? Z.of_nat (length s)) "invalid issuance payload descriptor length";;
  '(descriptor_bytes, s) ← range (Z.to_nat size) s;
  descriptor ← decode_issuance_descriptor descriptor_bytes;
  '(issuer_signature, s) ← expect (read_pod 64 s) "truncated issuer authorization signature";
  require (negb (length s =? 0)%nat) "truncated collection signature flag";;
  '(flag, s) ← next_byte s;
  require (flag <=? 1) "invalid collection signature flag";;
  '(collection_signature, s) ←
    (if negb (flag =? 0) then
       '(signature, s) ← expect (read_pod 64 s) "truncated collection authorization signature";
       Good (Some signature, s)
     else Good (None, s));
  require (length s =? 0)%nat "issuance payload has trailing bytes";;
  Good (Payload version descriptor issuer_signature collection_signature).

Definition decode_issuance_payload (encoded : bytes) : outcome issuance_payload :=
  parsed ← parse_issuance_payload encoded;
  canonical ← relabel (encode_issuance_payload parsed) "issuance payload encoding is not canonical";
  require (bool_decide (canonical = encoded)) "issuance payload encoding is not canonical";;
  Good parsed.

(** [fresh] is what [crypto::rand<crypto::hash>()] returns, [k1] and [k2] the
    random scalars of the two signatures. *)
Definition create_issuance_payload (fresh k1 k2 : bytes) (d : issuance_descriptor)
  (issuer_secret : bytes) (collection_controller_secret : option bytes) :
  outcome (issuance_payload * bytes) :=
  issuer_public ← expect (secret_key_to_public_key issuer_secret) "invalid asset issuer secret key";
  let d := set_issuer_key issuer_public d in
  let d := if bool_decide (d_issuance_nonce d = null_hash) then set_issuance_nonce fresh d else d in
  validate_issuance_descriptor d;;
  asset_id ← derive_asset_id d;
  require (Bool.eqb (claims_collection d) (bool_decide (is_Some collection_controller_secret)))
    (if claims_collection d then "collection controller secret key is required"
     else "collection controller secret key is only valid for a collection member");;
  issuance_message ← derive_issuance_authorization_hash d;
  let issuer_signature := generate_signature issuance_message issuer_public issuer_secret k1 in
  collection_signature ←
    match collection_controller_secret with
    | None => Good None
    | Some secret =>
        controller ← expect (secret_key_to_public_key secret) "invalid collection controller secret key";
        message ← derive_collection_membership_hash (d_collection_id d) asset_id;
        Good (Some (generate_signature message controller secret k2))
    end;
  let created := Payload ISSUANCE_PAYLOAD_VERSION d issuer_signature collection_signature in
  encode_issuance_payload created;;
  Good (created, asset_id).

(** ** Transaction extensions *)

Definition extension_bytes (id operation : bytes) (x : transaction_extension) : bytes :=
  TRANSACTION_EXTENSION_DOMAIN ++ [x_version x] ++ id ++ [x_operation x] ++ x_carrier_prefix_hash x
  ++ u16_le (Z.of_nat (length operation)) ++ operation.

Definition encode_transaction_extension (x : transaction_extension) : outcome bytes :=
  require (x_version x =? TRANSACTION_EXTENSION_VERSION) "unsupported asset transaction extension version";;
  require (public_network (x_network x)) "asset transaction extension requires an explicit public network";;
  require (x_operation x =? operation_issuance) "unsupported asset transaction operation";;
  require (negb (bool_decide (x_carrier_prefix_hash x = null_hash)))
    "asset transaction extension requires a carrier prefix commitment";;
  require (d_network (p_descriptor (x_issuance x)) =? x_network x)
    "asset transaction extension network does not match its issuance";;
  operation ← encode_issuance_payload (x_issuance x);
  require (Z.of_nat (length operation) <=? UINT16_MAX) "asset transaction operation is too large";;
  id ← network_id (x_network x);
  Good (extension_bytes id operation x).

Definition extension_header_size : nat := length TRANSACTION_EXTENSION_DOMAIN + 1 + 16 + 1 + 32 + 2.

Definition parse_transaction_extension (encoded : bytes) : outcome transaction_extension :=
  require (extension_header_size <=? length encoded)%nat "truncated asset transaction extension";;
  r ← equal_prefix TRANSACTION_EXTENSION_DOMAIN encoded;
  s ← expect r "invalid asset transaction extension domain";
  '(version, s) ← next_byte s;
  require (version =? TRANSACTION_EXTENSION_VERSION) "unsupported asset transaction extension version";;
  '(id, s) ← expect (read_pod 16 s) "truncated asset transaction extension network";
  network ← network_of_id id [MAINNET; TESTNET; STAGENET];
  '(operation, s) ← next_byte s;
  '(carrier_prefix_hash, s) ← expect (read_pod 32 s) "truncated asset transaction carrier commitment";
  '(size, s) ← expect (read_u16_le s) "asset transaction operation length is not canonical";
  require (size =? Z.of_nat (length s)) "asset transaction operation length is not canonical";;
  '(operation_bytes, _) ← range (Z.to_nat size) s;
  require (operation =? operation_issuance) "unsupported asset transaction operation";;
  issuance ← decode_issuance_payload operation_bytes;
  Good (Extension version network operation carrier_prefix_hash issuance).

Definition decode_transaction_extension (encoded : bytes) : outcome transaction_extension :=
  parsed ← parse_transaction_extension encoded;
  canonical ← relabel (encode_transaction_extension parsed)
    "asset transaction extension encoding is not canonical";
  require (bool_decide (canonical = encoded)) "asset transaction extension encoding is not canonical";;
  Good parsed.

Definition derive_transaction_extension_id (x : transaction_extension) : outcome bytes :=
  encoded ← encode_transaction_extension x;
  Good (cn_fast_hash encoded).

Definition validate_transaction_extension_carrier (x : transaction_extension) (expected_network : Z)
  (expected_prefix_hash : bytes) : outcome unit :=
  require (public_network expected_network)
    "asset transaction carrier validation requires an explicit network";;
  require (negb (bool_decide (expected_prefix_hash = null_hash)))
    "expected native transaction prefix commitment is zero";;
  require (x_network x =? expected_network) "asset transaction extension is for another network";;
  require (bool_decide (x_carrier_prefix_hash x = expected_prefix_hash))
    "asset transaction extension carrier commitment mismatch";;
  encode_transaction_extension x;;
  Good tt.

End Assets.
