(* ===== verification/AssetExamples.v ===== *)
(** Functions that satisfy the laws of [CryptoLaws], and assets issued with
    them, to run the asset code on. *)

From S2P Require Import Prelude Bytes AssetTypes.

(** A key is its own public key, a signature is the message and the key. *)
Definition toy_hash (s : bytes) : bytes :=
  append_le 32 0 (1 + foldl (fun acc b => (acc * 31 + b) mod 65521) 7 s).
Definition toy_sign (m pub : bytes) : bytes := append_le 32 0 (of_le m) ++ append_le 32 0 (of_le pub).

#[global] Instance toy_crypto : Crypto := {
  check_key k := arrayb 32 k;
  cn_fast_hash := toy_hash;
  check_signature m pub g := bool_decide (g = toy_sign m pub);
  secret_key_to_public_key sec := if arrayb 32 sec && (of_le sec <? 2 ^ 252) then Some sec else None;
  generate_signature m pub _ _ := toy_sign m pub;
}.

#[global] Instance toy_laws : CryptoLaws.
Proof.
  split.
  - intros s. apply append_le_array.
  - intros sec pub. unfold secret_key_to_public_key, toy_crypto.
    destruct (arrayb 32 sec) eqn:E; [|done]. cbn [andb]. case_if; [|done]. intros [= <-]. by apply arrayb_array.
  - intros sec pub. unfold secret_key_to_public_key, check_key, toy_crypto.
    destruct (arrayb 32 sec) eqn:E; [|done]. cbn [andb]. case_if; congruence.
  - intros m pub sec k. apply (array_app 32 32); apply append_le_array.
  - intros m pub sec k _. by apply bool_decide_eq_true_2.
Qed.

(** The value of a computation that succeeds. *)
Definition is_good {A} (m : outcome A) : bool := match m with Good _ => true | _ => false end.
Definition value {A} (otherwise : A) (m : outcome A) : A := match m with Good a => a | _ => otherwise end.

Lemma value_Good {A} (a : A) (m : outcome A) : is_good m = true -> m = Good (value a m).
Proof. by destruct m. Qed.

Lemma value_pair {A B} (a : A * B) (m : outcome (A * B)) :
  is_good m = true -> m = Good ((value a m).1, (value a m).2).
Proof. intros E. rewrite (value_Good a m E) at 1. by destruct (value a m). Qed.

(** A 32-byte array of one byte. *)
Definition fill (b : Z) : bytes := replicate 32 b.

Definition sample_descriptor (network type nonce supply : Z) (collection_id : bytes) : issuance_descriptor :=
  Descriptor ISSUANCE_DESCRIPTOR_VERSION network type (fill 9) (fill nonce) supply 0 (fill 4)
    collection_id [97; 98].

(** A sample asset, signed by secret 9 and, as a member, by the controller of
    its collection, secret 9 too. *)
Definition sample (network type nonce supply : Z) (collection_id : bytes) : issuance_payload :=
  let d := sample_descriptor network type nonce supply collection_id in
  (value (Payload 0 d [] None, [])
    (create_issuance_payload [] [] [] d (fill 9)
      (if bool_decide (collection_id = null_hash) then None else Some (fill 9)))).1.

Definition id_of (p : issuance_payload) : bytes := value [] (derive_asset_id (p_descriptor p)).

Definition coin : issuance_payload := sample MAINNET fungible 1 1000 null_hash.
Definition gallery : issuance_payload := sample MAINNET collection 2 1 null_hash.
Definition picture : issuance_payload := sample MAINNET non_fungible 3 1 (id_of gallery).

(** The type guarantees, decided. *)
Definition descriptor_wfb (d : issuance_descriptor) : bool :=
  arrayb 32 (d_issuer_key d) && arrayb 32 (d_issuance_nonce d)
  && ((0 <=? d_atomic_supply d) && (d_atomic_supply d <? 2 ^ 64))
  && byteb (d_display_decimals d) && arrayb 32 (d_metadata_hash d) && arrayb 32 (d_collection_id d)
  && forallb byteb (d_metadata_reference d).

Definition payload_wfb (p : issuance_payload) : bool :=
  descriptor_wfb (p_descriptor p) && arrayb 64 (p_issuer_signature p)
  && match p_collection_signature p with Some g => arrayb 64 g | None => true end.

Lemma descriptor_wfb_wf d : descriptor_wfb d = true -> descriptor_wf d.
Proof.
  unfold descriptor_wfb, byteb. rewrite !andb_true_iff.
  intros ((((((H1 & H2) & H3) & H4) & H5) & H6) & H7).
  split; auto using arrayb_array; try lia.
  apply (array_bytes (length (d_metadata_reference d))), arrayb_array.
  unfold arrayb. by rewrite Nat.eqb_refl.
Qed.

Lemma payload_wfb_wf p : payload_wfb p = true -> payload_wf p.
Proof.
  unfold payload_wfb. rewrite !andb_true_iff. intros ((Hd & Hs) & Hc).
  split; [by apply descriptor_wfb_wf|by apply arrayb_array|].
  destruct (p_collection_signature p); cbn [from_option]; [by apply arrayb_array|done].
Qed.

Lemma samples_wf : Forall payload_wf [coin; gallery; picture].
Proof.
  repeat (apply Forall_cons_2; [apply payload_wfb_wf; vm_compute; reflexivity|]). apply Forall_nil_2.
Qed.
