(* ===== verification/AssetCodec.v ===== *)
(** The binary encodings of the asset code are one-to-one: an accepted encoding
    is the one its content is written as, and what is written is read back. *)

From S2P Require Import Prelude Bytes AssetTypes AssetExamples.

(** What a pair of an encoder and a decoder promises. *)
Class Codec {A : Type} (wf : A -> Prop) (encode : A -> outcome bytes) (decode : bytes -> outcome A) :
  Prop := {
  decode_encode : forall a e, wf a -> encode a = Good e -> decode e = Good a;
  encode_decode : forall e a, is_bytes e -> decode e = Good a -> encode a = Good e;
  decode_wf : forall e a, is_bytes e -> decode e = Good a -> wf a;
  decode_tame : forall e, tame (decode e);
}.

Lemma encode_inj {A} (wf : A -> Prop) enc dec `{!Codec wf enc dec} a b e :
  wf a -> wf b -> enc a = Good e -> enc b = Good e -> a = b.
Proof.
  intros Ha Hb Ea Eb. apply (decode_encode (Codec:=_)) in Ea, Eb; try done. congruence.
Qed.

(** Turn the arrays of the hypotheses into equations on their lengths. *)
Ltac array_lengths :=
  repeat match goal with E : array _ _ |- _ => apply array_length in E end.

(** ** Lengths through the reads *)

Lemma read_pod_length n s a t : read_pod n s = Some (a, t) -> length s = (n + length t)%nat.
Proof. intros [-> <-]%read_pod_Some. by rewrite length_app. Qed.

Lemma read_int_length n s (v : Z) t :
  prod_map (read_le 0 0) id <$> read_pod n s = Some (v, t) -> length s = (n + length t)%nat.
Proof.
  destruct (read_pod n s) as [[a t']|] eqn:E; [|done]. intros [= <- <-].
  by apply read_pod_length in E.
Qed.

Lemma equal_prefix_length d s t :
  equal_prefix d s = Good (Some t) -> length s = (length d + length t)%nat.
Proof. intros ->%equal_prefix_Some. by rewrite length_app. Qed.

Lemma next_byte_length s b t : next_byte s = Good (b, t) -> length s = S (length t).
Proof. by intros ->%next_byte_Good. Qed.

Lemma range_length n s a t : range n s = Good (a, t) -> length s = (n + length t)%nat.
Proof. intros [-> <-]%range_Good. by rewrite length_app. Qed.

Lemma network_of_id_tame id : tame (network_of_id id [MAINNET; TESTNET; STAGENET]).
Proof. cbn. by repeat case_bool_decide. Qed.

Lemma network_id_public n : public_network n = true -> exists i, network_id n = Good i /\ array 16 i.
Proof.
  unfold public_network, network_id. intros Hn.
  destruct (n =? MAINNET); [eexists; split; [done|by apply arrayb_array]|].
  destruct (n =? TESTNET); [eexists; split; [done|by apply arrayb_array]|].
  destruct (n =? STAGENET); [eexists; split; [done|by apply arrayb_array]|done].
Qed.

Lemma network_of_network_id n i : public_network n = true -> network_id n = Good i ->
  network_of_id i [MAINNET; TESTNET; STAGENET] = Good n.
Proof.
  unfold public_network, network_id. intros Hn.
  destruct (n =? MAINNET) eqn:E1; [apply Z.eqb_eq in E1 as ->; by intros [= <-]|].
  destruct (n =? TESTNET) eqn:E2; [apply Z.eqb_eq in E2 as ->; by intros [= <-]|].
  destruct (n =? STAGENET) eqn:E3; [apply Z.eqb_eq in E3 as ->; by intros [= <-]|done].
Qed.

(** One step of a decoder in a goal [tame (m ≫= f)]: [m] is tame, and what it
    read goes to the hypotheses as an equation of lengths. *)
Ltac tame_step :=
  cbv beta iota;
  match goal with
  | |- tame (require _ _ ≫= _) =>
      apply tame_bind; [apply tame_require|];
      let E := fresh "E" in intros ? E; apply require_Good in E
  | |- tame (equal_prefix _ _ ≫= _) =>
      apply tame_bind; [apply equal_prefix_tame; lia|];
      let E := fresh "E" in intros [?|] E; [apply equal_prefix_length in E|]; cbn [expect]
  | |- tame (Bad _ ≫= _) => exact I
  | |- tame (Good _ ≫= _) => rewrite bind_of_Good
  | |- tame (next_byte _ ≫= _) =>
      apply tame_bind; [apply next_byte_tame; lia|];
      let E := fresh "E" in intros [? ?] E; apply next_byte_length in E
  | |- tame (range _ _ ≫= _) =>
      apply tame_bind; [apply range_tame; lia|];
      let E := fresh "E" in intros [? ?] E; apply range_length in E
  | |- tame (network_of_id _ _ ≫= _) => apply tame_bind; [apply network_of_id_tame|]; intros ? _
  | |- tame (expect _ _ ≫= _) =>
      apply tame_bind; [apply tame_expect|];
      let E := fresh "E" in intros [? ?] E; apply expect_Good in E;
      first [apply read_pod_length in E|apply read_int_length in E]
  end.

(** ** What was read, and from where *)

Lemma read_pod_bytes n s a t : is_bytes s -> read_pod n s = Some (a, t) ->
  array n a /\ is_bytes t /\ s = a ++ t.
Proof. intros Hs [-> Hn]%read_pod_Some. apply Forall_app in Hs as [Ha Ht]. done. Qed.

Lemma read_int_bytes n s (v : Z) t : is_bytes s ->
  prod_map (read_le 0 0) id <$> read_pod n s = Some (v, t) ->
  0 <= v < 256 ^ Z.of_nat n /\ is_bytes t /\ s = append_le n 0 v ++ t.
Proof.
  intros Hs E. apply read_le_Some in E as [-> Hv]; [|done].
  apply Forall_app in Hs as [_ Ht]. done.
Qed.

Lemma next_byte_bytes s b t : is_bytes s -> next_byte s = Good (b, t) ->
  0 <= b < 256 /\ is_bytes t /\ s = b :: t.
Proof. intros Hs ->%next_byte_Good. by inversion Hs. Qed.

Lemma range_bytes n s a t : is_bytes s -> range n s = Good (a, t) ->
  array n a /\ is_bytes t /\ s = a ++ t.
Proof. intros Hs [-> Hn]%range_Good. apply Forall_app in Hs as [Ha Ht]. done. Qed.

Lemma equal_prefix_bytes d s t : is_bytes s -> equal_prefix d s = Good (Some t) ->
  is_bytes d /\ is_bytes t /\ s = d ++ t.
Proof. intros Hs ->%equal_prefix_Some. by apply Forall_app in Hs as [? ?]. Qed.

(** One step of a decoder in a hypothesis [H : m ≫= f = Good a], where the
    bytes still to read are known to be bytes. *)
Ltac read_inv H :=
  cbv beta iota in H;
  match type of H with
  | require _ _ ≫= _ = Good _ =>
      let E := fresh "E" in apply bind_Good in H as ([] & E & H); apply require_Good in E
  | equal_prefix _ ?s ≫= _ = Good _ =>
      let E := fresh "E" in
      apply bind_Good in H as ([?|] & E & H); cbn [expect] in H; [|discriminate H];
      apply equal_prefix_bytes in E as (_ & ? & ?); [|assumption]
  | Good _ ≫= _ = Good _ => rewrite bind_of_Good in H
  | next_byte ?s ≫= _ = Good _ =>
      let E := fresh "E" in
      apply bind_Good in H as ([? ?] & E & H);
      apply next_byte_bytes in E as (? & ? & ?); [|assumption]
  | range _ ?s ≫= _ = Good _ =>
      let E := fresh "E" in
      apply bind_Good in H as ([? ?] & E & H);
      apply range_bytes in E as (? & ? & ?); [|assumption]
  | network_of_id _ _ ≫= _ = Good _ =>
      let E := fresh "E" in apply bind_Good in H as (? & E & H)
  | expect _ _ ≫= _ = Good _ =>
      let E := fresh "E" in
      apply bind_Good in H as ([? ?] & E & H); apply expect_Good in E;
      first [apply read_pod_bytes in E as (? & ? & ?); [|assumption]
            |apply read_int_bytes in E as (? & ? & ?); [|assumption]]
  end.

(** One step of a decoder in a goal [m ≫= f = Good a], where [m] reads what was
    written; lengths are left to the caller's hypotheses. *)
Lemma next_byte_cons b s : next_byte ([b] ++ s) = Good (b, s).
Proof. done. Qed.

Lemma range_all n s : length s = n -> range n s = Good (s, []).
Proof. intros Hn. rewrite <- (app_nil_r s) at 1. by apply range_app. Qed.

Lemma require_true b e : b = true -> require b e = Good ().
Proof. by intros ->. Qed.

Ltac read_back :=
  cbv beta iota;
  lazymatch goal with
  | |- equal_prefix ?d (?d ++ ?s) ≫= _ = _ => rewrite (equal_prefix_app d s)
  | |- expect (Some _) _ ≫= _ = _ => cbn [expect]
  | |- next_byte ([?b] ++ ?s) ≫= _ = _ => rewrite (next_byte_cons b s)
  | |- expect (read_pod ?n (?a ++ ?s)) _ ≫= _ = _ =>
      rewrite (read_pod_app n a s) by auto using array_length; cbn [expect]
  | |- expect (read_u16_le (u16_le ?v ++ ?s)) _ ≫= _ = _ =>
      rewrite (read_u16_app v s) by lia; cbn [expect]
  | |- expect (read_u32_le (u32_le ?v ++ ?s)) _ ≫= _ = _ =>
      rewrite (read_u32_app v s) by lia; cbn [expect]
  | |- expect (read_u64_le (u64_le ?v ++ ?s)) _ ≫= _ = _ =>
      rewrite (read_u64_app v s) by lia; cbn [expect]
  | |- require ?b ?e ≫= _ = _ => rewrite (require_true b e) by (rewrite ?length_app; lia)
  | |- range (Z.to_nat (Z.of_nat ?n)) (?a ++ ?s) ≫= _ = _ =>
      rewrite Nat2Z.id, (range_app n a s) by auto using array_length
  | |- range (Z.to_nat (Z.of_nat ?n)) ?s ≫= _ = _ =>
      rewrite Nat2Z.id, (range_all n s) by auto using array_length
  | |- range ?n (?a ++ ?s) ≫= _ = _ => rewrite (range_app n a s) by auto using array_length
  | |- range ?n ?s ≫= _ = _ => rewrite (range_all n s) by auto using array_length
  | |- Good _ ≫= _ = _ => idtac
  end; rewrite bind_of_Good.

(** The last step of the decoders: what was parsed is written again and compared. *)
Lemma canonical_Good {A} (m : outcome bytes) e1 e2 (e : bytes) (p q : A) :
  (c ← relabel m e1; require (bool_decide (c = e)) e2;; Good p) = Good q <-> m = Good e /\ q = p.
Proof.
  split.
  - intros E. apply bind_Good in E as (c & E1%relabel_Good & E).
    apply bind_Good in E as ([] & E2%require_Good & E). apply bool_decide_eq_true in E2 as ->.
    split; congruence.
  - intros [-> ->]. cbn [relabel]. rewrite bind_of_Good. by rewrite bool_decide_eq_true_2.
Qed.

Lemma canonical_tame {A} (m : outcome bytes) e1 e2 (e : bytes) (p : A) :
  tame m -> tame (c ← relabel m e1; require (bool_decide (c = e)) e2;; Good p).
Proof.
  intros Hm. apply tame_bind; [by apply tame_relabel|]. intros c _. tame_step. done.
Qed.

(** ** Descriptors *)

Section Codecs.
Context `{Crypto}.

Lemma validate_tame d : tame (validate_issuance_descriptor d).
Proof.
  unfold validate_issuance_descriptor. repeat tame_step. apply tame_require.
Qed.

Lemma validate_public d : validate_issuance_descriptor d = Good () -> public_network (d_network d) = true.
Proof. intros E. unfold validate_issuance_descriptor in E. by good_inv E. Qed.

Lemma encode_descriptor_tame d : tame (encode_issuance_descriptor d).
Proof.
  unfold encode_issuance_descriptor. apply tame_bind; [apply validate_tame|]. intros [] Hv.
  apply validate_public, network_id_public in Hv as (i & -> & _). done.
Qed.

Lemma encode_descriptor_Good d e : encode_issuance_descriptor d = Good e ->
  validate_issuance_descriptor d = Good () /\
  exists i, network_id (d_network d) = Good i /\ array 16 i /\ e = descriptor_bytes i d.
Proof.
  intros E. unfold encode_issuance_descriptor in E. apply bind_Good in E as ([] & Hv & E).
  split; [done|]. apply bind_Good in E as (i & Hi & [= <-]). exists i. split; [done|].
  destruct (network_id_public _ (validate_public _ Hv)) as (j & Hj & Ha). split; [congruence|done].
Qed.

Lemma parse_descriptor_tame e : tame (parse_issuance_descriptor e).
Proof.
  unfold parse_issuance_descriptor, descriptor_fixed_size, read_u64_le, read_u16_le.
  repeat tame_step. done.
Qed.

Lemma validate_reference d : validate_issuance_descriptor d = Good () ->
  (length (d_metadata_reference d) <= 256)%nat.
Proof.
  intros E. unfold validate_issuance_descriptor, MAX_METADATA_REFERENCE_BYTES in E.
  good_inv E. by apply Nat.leb_le.
Qed.

Lemma length_descriptor_bytes i d : descriptor_wf d -> array 16 i ->
  length (descriptor_bytes i d) = (descriptor_fixed_size + length (d_metadata_reference d))%nat.
Proof.
  intros [] Hi. unfold descriptor_bytes, u64_le, u16_le, descriptor_fixed_size.
  repeat rewrite length_app.
  rewrite !length_append_le. array_lengths. cbn [length]. lia.
Qed.

Lemma parse_descriptor_bytes d i : descriptor_wf d -> public_network (d_network d) = true ->
  network_id (d_network d) = Good i -> array 16 i -> (length (d_metadata_reference d) <= 256)%nat ->
  parse_issuance_descriptor (descriptor_bytes i d) = Good d.
Proof.
  intros Hwf Hn Hi Hai Hr. pose proof Hwf as []. unfold parse_issuance_descriptor.
  rewrite require_true by (rewrite length_descriptor_bytes by done; lia).
  rewrite bind_of_Good. unfold descriptor_bytes.
  do 4 read_back. rewrite (network_of_network_id _ _ Hn Hi). rewrite bind_of_Good.
  unfold MAX_METADATA_REFERENCE_BYTES. repeat read_back. by destruct d.
Qed.

#[global] Instance descriptor_codec :
  Codec descriptor_wf encode_issuance_descriptor decode_issuance_descriptor.
Proof.
  split; unfold decode_issuance_descriptor.
  - intros d e Hwf E. pose proof E as E'.
    apply encode_descriptor_Good in E' as (Hv & i & Hi & Ha & He). rewrite He at 1.
    rewrite parse_descriptor_bytes by (auto using validate_public, validate_reference).
    rewrite bind_of_Good, Hv, bind_of_Good. by apply canonical_Good.
  - intros e d _ E. apply bind_Good in E as (d' & _ & E).
    by apply bind_Good in E as (_ & _ & [E ->]%canonical_Good).
  - intros e d He E. apply bind_Good in E as (d' & E & E').
    apply bind_Good in E' as (_ & _ & [_ ->]%canonical_Good). revert E.
    unfold parse_issuance_descriptor, read_u64_le, read_u16_le. intros E.
    repeat read_inv E. injection E as <-. split; try done. by eapply array_bytes.
  - intros e. apply tame_bind; [apply parse_descriptor_tame|]. intros d _.
    apply tame_bind; [apply validate_tame|]. intros _ _.
    apply canonical_tame, encode_descriptor_tame.
Qed.
(** ** Payloads *)

Lemma authorization_tame d signature : tame (verify_issuance_authorization d signature).
Proof.
  unfold verify_issuance_authorization, derive_issuance_authorization_hash.
  apply tame_bind; [apply tame_bind; [apply encode_descriptor_tame|done]|].
  intros m _. apply tame_require.
Qed.

Lemma encode_payload_Good p e : encode_issuance_payload p = Good e <->
  p_version p = ISSUANCE_PAYLOAD_VERSION /\
  verify_issuance_authorization (p_descriptor p) (p_issuer_signature p) = Good () /\
  claims_collection (p_descriptor p) = bool_decide (is_Some (p_collection_signature p)) /\
  exists descriptor, encode_issuance_descriptor (p_descriptor p) = Good descriptor /\
    Z.of_nat (length descriptor) <= UINT16_MAX /\ e = payload_bytes descriptor p.
Proof.
  unfold encode_issuance_payload. split.
  - intros E. apply bind_Good in E as ([] & E1%require_Good & E).
    apply bind_Good in E as (db & E2 & E). apply bind_Good in E as ([] & E3%require_Good & E).
    apply bind_Good in E as ([] & E4 & E). apply bind_Good in E as ([] & E5%require_Good & [= <-]).
    apply Bool.eqb_prop in E5. split_and!; [lia|done|done|]. exists db. split_and!; [done|lia|done].
  - intros (E1 & E2 & E3 & db & E4 & E5 & ->). read_back.
    rewrite E4, bind_of_Good. read_back. rewrite E2, bind_of_Good, E3, Bool.eqb_reflx. done.
Qed.

Lemma encode_payload_tame p : tame (encode_issuance_payload p).
Proof.
  unfold encode_issuance_payload. tame_step.
  apply tame_bind; [apply encode_descriptor_tame|]. intros db _. tame_step.
  apply tame_bind; [apply authorization_tame|]. intros _ _. tame_step. done.
Qed.

Lemma parse_payload_tame e : tame (parse_issuance_payload e).
Proof.
  unfold parse_issuance_payload, payload_minimum_size, read_u16_le. repeat tame_step.
  apply tame_bind; [apply (decode_tame (Codec:=descriptor_codec))|]. intros d _.
  repeat tame_step. apply tame_bind; [by case_if; repeat tame_step|]. intros [c s] _.
  repeat tame_step. done.
Qed.

Lemma parse_payload_bytes p db : payload_wf p -> p_version p = ISSUANCE_PAYLOAD_VERSION ->
  encode_issuance_descriptor (p_descriptor p) = Good db -> Z.of_nat (length db) <= UINT16_MAX ->
  parse_issuance_payload (payload_bytes db p) = Good p.
Proof.
  intros [Hd Hs Hc] Hv E Hl. unfold UINT16_MAX in Hl. unfold parse_issuance_payload.
  rewrite require_true.
  2:{ unfold payload_bytes, payload_minimum_size, u16_le. rewrite !length_app, length_append_le.
      apply array_length in Hs. destruct (p_collection_signature p); cbn [length]; lia. }
  rewrite bind_of_Good. unfold payload_bytes.
  do 3 read_back. rewrite Hv. do 4 read_back.
  rewrite (decode_encode (Codec:=descriptor_codec) _ _ Hd E), bind_of_Good. read_back.
  destruct p as [v d s [c|]]; cbn in *; rewrite Hv.
  - rewrite <- (app_nil_r c) at 1. by rewrite (read_pod_app 64 c []) by apply Hc.
  - done.
Qed.

#[global] Instance payload_codec : Codec payload_wf encode_issuance_payload decode_issuance_payload.
Proof.
  split; unfold decode_issuance_payload.
  - intros p e Hwf E. pose proof E as (Hv & _ & _ & db & E' & Hl & He)%encode_payload_Good.
    rewrite He at 1. rewrite parse_payload_bytes by done. rewrite bind_of_Good. by apply canonical_Good.
  - intros e p _ E. by apply bind_Good in E as (p' & _ & [E ->]%canonical_Good).
  - intros e p He E. apply bind_Good in E as (p' & E & [_ ->]%canonical_Good). revert E.
    unfold parse_issuance_payload, read_u16_le. intros E. do 8 read_inv E.
    apply bind_Good in E as (d & Hd & E). do 4 read_inv E.
    apply bind_Good in E as ([c s] & Hc & E). read_inv E. injection E as <-.
    split; [|done|]; cbn [p_descriptor p_collection_signature].
    + apply (decode_wf (Codec:=descriptor_codec)) in Hd; [done|by eapply array_bytes].
    + case_if_in Hc; [|by injection Hc as <- _]. read_inv Hc. by injection Hc as <- _.
  - intros e. apply tame_bind; [apply parse_payload_tame|]. intros p _.
    apply canonical_tame, encode_payload_tame.
Qed.

(** ** Extensions *)

Lemma encode_extension_Good x e : encode_transaction_extension x = Good e ->
  x_version x = TRANSACTION_EXTENSION_VERSION /\ public_network (x_network x) = true /\
  x_operation x = operation_issuance /\ x_carrier_prefix_hash x <> null_hash /\
  d_network (p_descriptor (x_issuance x)) = x_network x /\
  exists i operation, network_id (x_network x) = Good i /\ array 16 i /\
    encode_issuance_payload (x_issuance x) = Good operation /\
    Z.of_nat (length operation) <= UINT16_MAX /\ e = extension_bytes i operation x.
Proof.
  unfold encode_transaction_extension. intros E.
  apply bind_Good in E as ([] & E1%require_Good & E). apply bind_Good in E as ([] & E2%require_Good & E).
  apply bind_Good in E as ([] & E3%require_Good & E). apply bind_Good in E as ([] & E4%require_Good & E).
  apply bind_Good in E as ([] & E5%require_Good & E). apply bind_Good in E as (o & E6 & E).
  apply bind_Good in E as ([] & E7%require_Good & E). apply bind_Good in E as (i & E8 & [= <-]).
  apply negb_true_iff, bool_decide_eq_false in E4.
  split_and!; [lia|done|lia|done|lia|]. exists i, o. split_and!; [done| |done|lia|done].
  destruct (network_id_public _ E2) as (j & Hj & Ha). congruence.
Qed.

Lemma encode_extension_tame x : tame (encode_transaction_extension x).
Proof.
  unfold encode_transaction_extension. repeat tame_step.
  apply tame_bind; [apply encode_payload_tame|]. intros o _. repeat tame_step.
  destruct (network_id_public (x_network x)) as (i & -> & _); done.
Qed.

Lemma parse_extension_tame e : tame (parse_transaction_extension e).
Proof.
  unfold parse_transaction_extension, extension_header_size, read_u16_le. repeat tame_step.
  apply tame_bind; [apply (decode_tame (Codec:=payload_codec))|done].
Qed.

Lemma parse_extension_bytes x i o : extension_wf x -> x_version x = TRANSACTION_EXTENSION_VERSION ->
  public_network (x_network x) = true -> x_operation x = operation_issuance ->
  network_id (x_network x) = Good i -> array 16 i ->
  encode_issuance_payload (x_issuance x) = Good o -> Z.of_nat (length o) <= UINT16_MAX ->
  parse_transaction_extension (extension_bytes i o x) = Good x.
Proof.
  intros [Hc Hp] Hv Hn Ho Hi Ha E Hl. unfold UINT16_MAX in Hl. unfold parse_transaction_extension.
  rewrite require_true.
  2:{ unfold extension_bytes, extension_header_size, u16_le. rewrite !length_app, length_append_le.
      array_lengths. cbn [length]. lia. }
  rewrite bind_of_Good. unfold extension_bytes. do 5 read_back.
  rewrite (network_of_network_id _ _ Hn Hi), bind_of_Good. repeat read_back.
  rewrite (decode_encode (Codec:=payload_codec) _ _ Hp E), bind_of_Good. by destruct x.
Qed.

#[global] Instance extension_codec :
  Codec extension_wf encode_transaction_extension decode_transaction_extension.
Proof.
  split; unfold decode_transaction_extension.
  - intros x e Hwf E.
    pose proof E as (Hv & Hn & Ho & _ & _ & i & o & Hi & Ha & E' & Hl & He)%encode_extension_Good.
    rewrite He at 1. rewrite parse_extension_bytes by done. rewrite bind_of_Good. by apply canonical_Good.
  - intros e x _ E. by apply bind_Good in E as (x' & _ & [E ->]%canonical_Good).
  - intros e x He E. apply bind_Good in E as (x' & E & [_ ->]%canonical_Good). revert E.
    unfold parse_transaction_extension, read_u16_le. intros E. repeat read_inv E.
    apply bind_Good in E as (p & Hp & [= <-]). split; [done|].
    apply (decode_wf (Codec:=payload_codec)) in Hp; [done|by eapply array_bytes].
  - intros e. apply tame_bind; [apply parse_extension_tame|]. intros x _.
    apply canonical_tame, encode_extension_tame.
Qed.

End Codecs.

(** Descriptors, payloads and extensions have exactly one encoding: a byte
    string decodes to a value if and only if it is what the value is encoded as. *)
Theorem issuance_encodings_exact `{Crypto} d p x e :
  descriptor_wf d -> payload_wf p -> extension_wf x -> is_bytes e ->
  (encode_issuance_descriptor d = Good e <-> decode_issuance_descriptor e = Good d) /\
  (encode_issuance_payload p = Good e <-> decode_issuance_payload e = Good p) /\
  (encode_transaction_extension x = Good e <-> decode_transaction_extension e = Good x).
Proof.
  intros Hd Hp Hx He. split_and!; split.
  - apply (decode_encode (Codec:=descriptor_codec)); done.
  - apply (encode_decode (Codec:=descriptor_codec)); done.
  - apply (decode_encode (Codec:=payload_codec)); done.
  - apply (encode_decode (Codec:=payload_codec)); done.
  - apply (decode_encode (Codec:=extension_codec)); done.
  - apply (encode_decode (Codec:=extension_codec)); done.
Qed.

Definition sample_extension : transaction_extension :=
  Extension TRANSACTION_EXTENSION_VERSION MAINNET operation_issuance (fill 5) picture.

Lemma issuance_encodings_exact_witness : exists e,
  encode_transaction_extension sample_extension = Good e /\
  decode_transaction_extension e = Good sample_extension.
Proof.
  pose (e := value [] (encode_transaction_extension sample_extension)). exists e.
  assert (encode_transaction_extension sample_extension = Good e) as E
    by (apply value_Good; vm_compute; reflexivity).
  split; [exact E|].
  assert (payload_wf picture) as Hp by (apply payload_wfb_wf; vm_compute; reflexivity).
  apply (issuance_encodings_exact (p_descriptor picture) picture sample_extension e).
  - apply Hp.
  - exact Hp.
  - split; [apply arrayb_array; reflexivity|exact Hp].
  - apply (array_bytes (length e)), arrayb_array. vm_compute. reflexivity.
  - exact E.
Defined.
