(* ===== verification/AssetRegistry.v ===== *)
(** The asset registry, class [asset_registry] of [cryptonote_basic/asset_types.cpp]:
    issuance one by one and by the block, rollback, and snapshots. *)

From stdpp Require Import gmap sorting.
From S2P Require Import Prelude Bytes AssetTypes AssetCodec.

Record asset_record := Record_ {
  r_descriptor : issuance_descriptor;
  r_issuance_height : Z;
  r_issuer_signature : bytes;
  r_collection_signature : option bytes;
}.

(** [std::map<crypto::hash, asset_record>] *)
Abbreviation registry := (gmap bytes asset_record).

Definition MAX_REGISTRY_SNAPSHOT_RECORDS : Z := 100000.
Definition REGISTRY_SNAPSHOT_VERSION : Z := 1.

(** The payload a record was issued with. *)
Definition payload_of (r : asset_record) : issuance_payload :=
  Payload ISSUANCE_PAYLOAD_VERSION (r_descriptor r) (r_issuer_signature r) (r_collection_signature r).

Definition record_of (p : issuance_payload) (height : Z) : asset_record :=
  Record_ (p_descriptor p) height (p_issuer_signature p) (p_collection_signature p).

Section Registry.
Context `{Crypto}.

(** ** Issuance *)

(** The checks of [apply_issuance] once the id is known to be new. *)
Definition check_membership (reg : registry) (d : issuance_descriptor) (height : Z) (asset_id : bytes)
  (collection_signature : option bytes) : outcome unit :=
  if claims_collection d then
    let message := "referenced collection is unknown or not a collection" in
    c ← expect (reg !! d_collection_id d) message;
    require (d_type (r_descriptor c) =? collection) message;;
    require (d_network (r_descriptor c) =? d_network d) "collection and member must use the same network";;
    require (r_issuance_height c <=? height) "collection membership cannot precede collection issuance";;
    signature ← expect collection_signature "collection membership requires controller authorization";
    verify_collection_membership (d_collection_id d) asset_id (d_issuer_key (r_descriptor c)) signature
  else
    require (negb (bool_decide (is_Some collection_signature)))
      "unexpected collection signature for an uncollected asset".

Definition apply_issuance (reg : registry) (p : issuance_payload) (height : Z) :
  outcome (registry * bytes) :=
  asset_id ← derive_asset_id (p_descriptor p);
  require (negb (bool_decide (is_Some (reg !! asset_id)))) "asset ID is already registered";;
  verify_issuance_authorization (p_descriptor p) (p_issuer_signature p);;
  check_membership reg (p_descriptor p) height asset_id (p_collection_signature p);;
  Good (<[asset_id := record_of p height]> reg, asset_id).

(** The loop of [apply_block_issuances] on its copy of the registry. *)
Fixpoint apply_issuances (candidate : registry) (payloads : list issuance_payload) (height : Z) :
  outcome (registry * list bytes) :=
  match payloads with
  | [] => Good (candidate, [])
  | p :: payloads =>
      '(candidate, asset_id) ← apply_issuance candidate p height;
      '(candidate, asset_ids) ← apply_issuances candidate payloads height;
      Good (candidate, asset_id :: asset_ids)
  end.

Definition apply_block_issuances (reg : registry) (payloads : list issuance_payload) (height : Z) :
  outcome (registry * list bytes) :=
  apply_issuances reg payloads height.

(** The loop of [apply_block_extensions] over extensions and carrier hashes. *)
Fixpoint check_extensions (extensions : list transaction_extension) (carriers : list bytes)
  (expected_network : Z) : outcome (list issuance_payload) :=
  match extensions, carriers with
  | [], _ => Good []
  | _ :: _, [] => Wild
  | x :: extensions, carrier :: carriers =>
      validate_transaction_extension_carrier x expected_network carrier;;
      require (x_operation x =? operation_issuance) "unsupported asset block operation";;
      issuances ← check_extensions extensions carriers expected_network;
      Good (x_issuance x :: issuances)
  end.

Definition apply_block_extensions (reg : registry) (extensions : list transaction_extension)
  (carriers : list bytes) (expected_network height : Z) : outcome (registry * list bytes) :=
  require (length extensions =? length carriers)%nat
    "asset extension and carrier commitment counts differ";;
  issuances ← check_extensions extensions carriers expected_network;
  apply_block_issuances reg issuances height.

(** ** Rollback and queries *)

Definition detach (height : Z) (reg : registry) : registry :=
  filter (fun e => r_issuance_height e.2 < height) reg.

Definition known_assets (reg : registry) : gset bytes := dom reg.

(** ** Snapshots *)

Definition snapshot_class_priority (type : Z) : Z := if type =? collection then 0 else 1.

(** The order of [encode_snapshot]: by height, collections first, then by id. *)
Definition snapshot_less (l r : bytes * asset_record) : bool :=
  if negb (r_issuance_height l.2 =? r_issuance_height r.2)
  then r_issuance_height l.2 <? r_issuance_height r.2
  else
    let lp := snapshot_class_priority (d_type (r_descriptor l.2)) in
    let rp := snapshot_class_priority (d_type (r_descriptor r.2)) in
    if negb (lp =? rp) then lp <? rp else memcmp_lt l.1 r.1.

(** [std::sort]: a permutation in which no element is less than one before it. *)
Definition snapshot_le (l r : bytes * asset_record) : Prop := snapshot_less r l = false.

#[global] Instance snapshot_le_dec l r : Decision (snapshot_le l r).
Proof. unfold snapshot_le. apply _. Defined.

Definition ordered_records (reg : registry) : list (bytes * asset_record) :=
  merge_sort snapshot_le (map_to_list reg).

Fixpoint encode_records (ordered : list (bytes * asset_record)) : outcome bytes :=
  match ordered with
  | [] => Good []
  | (_, r) :: ordered =>
      payload_bytes ← encode_issuance_payload (payload_of r);
      require (Z.of_nat (length payload_bytes) <=? UINT16_MAX)
        "issuance payload is too large for a registry snapshot";;
      rest ← encode_records ordered;
      Good (u64_le (r_issuance_height r) ++ u16_le (Z.of_nat (length payload_bytes))
        ++ payload_bytes ++ rest)
  end.

Definition encode_snapshot (reg : registry) (network : Z) : outcome bytes :=
  require (public_network network) "asset registry snapshot requires an explicit public network";;
  require (Z.of_nat (size reg) <=? MAX_REGISTRY_SNAPSHOT_RECORDS)
    "asset registry snapshot has too many records";;
  require (bool_decide (map_Forall (fun _ r => d_network (r_descriptor r) = network) reg))
    "asset registry contains a record from another network";;
  let ordered := ordered_records reg in
  id ← network_id network;
  records ← encode_records ordered;
  Good (REGISTRY_SNAPSHOT_DOMAIN ++ [REGISTRY_SNAPSHOT_VERSION] ++ id
    ++ u32_le (Z.of_nat (length ordered)) ++ records).

(** The test for canonical order against the record read before, if any. *)
Definition in_order (previous : option (Z * Z * bytes)) (height priority : Z) (asset_id : bytes) : bool :=
  match previous with
  | None => true
  | Some (previous_height, previous_priority, previous_id) =>
      negb ((height <? previous_height)
        || ((height =? previous_height) && ((priority <? previous_priority)
          || ((priority =? previous_priority) && negb (memcmp_lt previous_id asset_id)))))
  end.

(** The loop of [decode_snapshot]: [count] records are still to be read. *)
Fixpoint decode_records (count : nat) (s : bytes) (expected_network : Z) (restored : registry)
  (previous : option (Z * Z * bytes)) : outcome (registry * bytes) :=
  match count with
  | O => Good (restored, s)
  | S count =>
      let truncated := "truncated asset registry snapshot record" in
      '(height, s) ← expect (read_u64_le s) truncated;
      '(payload_size, s) ← expect (read_u16_le s) truncated;
      require (payload_size <=? Z.of_nat (length s)) truncated;;
      '(payload_bytes, s) ← range (Z.to_nat payload_size) s;
      payload ← decode_issuance_payload payload_bytes;
      require (d_network (p_descriptor payload) =? expected_network)
        "asset registry record network mismatch";;
      asset_id ← derive_asset_id (p_descriptor payload);
      let priority := snapshot_class_priority (d_type (p_descriptor payload)) in
      require (in_order previous height priority asset_id)
        "asset registry snapshot records are not in canonical order";;
      '(restored, asset_id) ← apply_issuance restored payload height;
      decode_records count s expected_network restored (Some (height, priority, asset_id))
  end.

Definition snapshot_header_size : nat := length REGISTRY_SNAPSHOT_DOMAIN + 1 + 16 + 4.

Definition decode_snapshot (encoded : bytes) (expected_network : Z) : outcome registry :=
  require (public_network expected_network)
    "asset registry snapshot requires an explicit expected network";;
  require (snapshot_header_size <=? length encoded)%nat "truncated asset registry snapshot";;
  r ← equal_prefix REGISTRY_SNAPSHOT_DOMAIN encoded;
  s ← expect r "invalid asset registry snapshot domain";
  '(version, s) ← next_byte s;
  require (version =? REGISTRY_SNAPSHOT_VERSION) "unsupported asset registry snapshot version";;
  '(id, s) ← expect (read_pod 16 s) "asset registry snapshot network mismatch";
  expected_id ← network_id expected_network;
  require (bool_decide (id = expected_id)) "asset registry snapshot network mismatch";;
  '(count, s) ← expect (read_u32_le s) "invalid asset registry snapshot record count";
  require (count <=? MAX_REGISTRY_SNAPSHOT_RECORDS) "invalid asset registry snapshot record count";;
  '(restored, s) ← decode_records (Z.to_nat count) s expected_network ∅ None;
  require (length s =? 0)%nat "asset registry snapshot has trailing bytes";;
  Good restored.

Definition derive_snapshot_hash (reg : registry) (network : Z) : outcome bytes :=
  snapshot ← encode_snapshot reg network;
  Good (cn_fast_hash snapshot).

End Registry.
