(* ===== verification/AssetSnapshot.v ===== *)
(** Snapshots of the asset registry: the order of the records is total, the
    records are read back in it, and a snapshot has one encoding. *)

From stdpp Require Import gmap sorting.
From S2P Require Import Prelude Bytes AssetTypes AssetCodec AssetExamples AssetRegistry AssetRegistryProps.

(** ** The order of the records *)

Abbreviation entry := (bytes * asset_record)%type.

(** What [snapshot_less] looks at. *)
Definition entry_key (x : entry) : Z * Z * bytes :=
  (r_issuance_height x.2, snapshot_class_priority (d_type (r_descriptor x.2)), x.1).

Definition key_less (a b : Z * Z * bytes) : bool :=
  if negb (a.1.1 =? b.1.1) then a.1.1 <? b.1.1
  else if negb (a.1.2 =? b.1.2) then a.1.2 <? b.1.2 else memcmp_lt a.2 b.2.

Lemma snapshot_less_key l r : snapshot_less l r = key_less (entry_key l) (entry_key r).
Proof. done. Qed.

Lemma key_less_irrefl a : key_less a a = false.
Proof. unfold key_less. rewrite !Z.eqb_refl. apply memcmp_irrefl. Qed.

Lemma key_less_trans a b c : key_less a b = true -> key_less b c = true -> key_less a c = true.
Proof.
  unfold key_less.
  destruct (a.1.1 =? b.1.1) eqn:E1, (b.1.1 =? c.1.1) eqn:E2, (a.1.1 =? c.1.1) eqn:E3;
    cbn [negb]; try lia.
  destruct (a.1.2 =? b.1.2) eqn:F1, (b.1.2 =? c.1.2) eqn:F2, (a.1.2 =? c.1.2) eqn:F3;
    cbn [negb]; try lia.
  apply memcmp_trans.
Qed.

Lemma key_less_total a b : a <> b -> key_less a b = true \/ key_less b a = true.
Proof.
  destruct a as [[a1 a2] a3], b as [[b1 b2] b3]. unfold key_less. cbn. intros Hne.
  rewrite (Z.eqb_sym b1), (Z.eqb_sym b2).
  destruct (a1 =? b1) eqn:E1; cbn [negb]; [|lia]. destruct (a2 =? b2) eqn:E2; cbn [negb]; [|lia].
  apply memcmp_total. intros ->. apply Hne. repeat f_equal; lia.
Qed.

Lemma key_less_asym a b : key_less a b = true -> key_less b a = false.
Proof.
  intros Hab. destruct (key_less b a) eqn:Hba; [|done].
  pose proof (key_less_trans _ _ _ Hab Hba). by rewrite key_less_irrefl in H.
Qed.

Lemma key_le_total a b : key_less b a = false \/ key_less a b = false.
Proof. destruct (key_less b a) eqn:E; [right|by left]. by apply key_less_asym. Qed.

Lemma key_le_trans a b c : key_less b a = false -> key_less c b = false -> key_less c a = false.
Proof.
  intros H1 H2. destruct (key_less c a) eqn:E; [|done].
  destruct (decide (a = b)) as [->|[Hab|Hab]%key_less_total]; [congruence| |congruence].
  by rewrite (key_less_trans _ _ _ E Hab) in H2.
Qed.

#[global] Instance snapshot_le_total : Total snapshot_le.
Proof. intros l r. apply (key_le_total (entry_key l) (entry_key r)). Qed.

#[global] Instance snapshot_le_trans : Transitive snapshot_le.
Proof. intros a b c. apply (key_le_trans (entry_key a) (entry_key b) (entry_key c)). Qed.

Lemma ordered_records_elem reg id r : (id, r) ∈ ordered_records reg <-> reg !! id = Some r.
Proof. unfold ordered_records. rewrite merge_sort_Permutation. apply elem_of_map_to_list. Qed.

Lemma length_ordered_records reg : length (ordered_records reg) = size reg.
Proof. unfold ordered_records. rewrite merge_sort_Permutation. apply length_map_to_list. Qed.

(** Records of one registry are strictly ordered, since their ids differ. *)
Definition strictly : list entry -> Prop := StronglySorted (fun l r => snapshot_less l r = true).

Lemma strictly_le l : strictly l -> StronglySorted snapshot_le l.
Proof.
  induction 1 as [|x l Hl IH Hx]; constructor; [done|]. eapply Forall_impl; [done|].
  intros y. unfold snapshot_le. rewrite !snapshot_less_key. apply key_less_asym.
Qed.

Lemma le_strictly l : NoDup l.*1 -> StronglySorted snapshot_le l -> strictly l.
Proof.
  intros Hnd. induction 1 as [|x l Hl IH Hx]; [constructor|]. inversion Hnd as [|?? Hni Hnd']; subst.
  constructor; [by apply IH|]. apply Forall_forall. intros y Hy. rewrite Forall_forall in Hx.
  specialize (Hx y Hy). unfold snapshot_le in Hx. rewrite snapshot_less_key in *.
  destruct (key_less_total (entry_key x) (entry_key y)) as [?|?]; [|done|congruence].
  intros Heq. apply Hni. apply list_elem_of_fmap. exists y. split; [|done]. by apply (f_equal snd) in Heq.
Qed.

Lemma ordered_records_sorted reg : StronglySorted snapshot_le (ordered_records reg).
Proof. apply (StronglySorted_merge_sort _). Qed.

Lemma ordered_records_strictly reg : strictly (ordered_records reg).
Proof.
  apply le_strictly; [|apply ordered_records_sorted].
  unfold ordered_records. rewrite merge_sort_Permutation. apply NoDup_fst_map_to_list.
Qed.

(** The sorted list of the records of a registry is unique. *)
Lemma ordered_records_unique reg l : strictly l ->
  (forall id r, (id, r) ∈ l <-> reg !! id = Some r) -> ordered_records reg = l.
Proof.
  intros Hl Hin. pose proof (ordered_records_strictly reg) as Hs.
  assert (forall k : list entry, strictly k -> NoDup k) as Hnd.
  { induction 1 as [|x k Hk IH Hx]; constructor; [|done]. intros Hi. rewrite Forall_forall in Hx.
    specialize (Hx x Hi). by rewrite snapshot_less_key, key_less_irrefl in Hx. }
  apply (StronglySorted_unique_strong snapshot_le); [|by apply strictly_le..|].
  - intros [i r] [j q] Hx Hy H1 H2. unfold snapshot_le in *. rewrite snapshot_less_key in *.
    apply ordered_records_elem in Hx. apply Hin in Hy.
    destruct (decide (entry_key (i, r) = entry_key (j, q))) as [Heq|[?|?]%key_less_total]; [|congruence..].
    apply (f_equal snd) in Heq. cbn in Heq. congruence.
  - apply NoDup_Permutation; [by apply Hnd..|]. intros [i r]. by rewrite ordered_records_elem, Hin.
Qed.

(** ** Writing and reading the records *)

Section Snapshot.
Context `{Crypto}.

Definition previous_of (l : list entry) : option (Z * Z * bytes) := entry_key <$> last l.

Lemma in_order_key k height priority id :
  in_order (Some k) height priority id = key_less k (height, priority, id).
Proof.
  destruct k as [[h p] i]. unfold in_order, key_less. cbn.
  destruct (memcmp_lt i id); repeat case_if; lia.
Qed.

Lemma strictly_middle l x m : strictly (l ++ x :: m) ->
  (forall y, y ∈ l -> snapshot_less y x = true) /\ (forall y, y ∈ m -> snapshot_less x y = true).
Proof.
  unfold strictly. intros Hs. split.
  - intros y Hy. eapply (StronglySorted_app_1_elem_of _ _ _ _ _ Hs); [done|left].
  - apply StronglySorted_app_1_r in Hs. inversion Hs as [|?? _ Hx]; subst. by apply Forall_forall.
Qed.

Lemma in_order_ordered pre x l : strictly (pre ++ x :: l) ->
  in_order (previous_of pre) (r_issuance_height x.2)
    (snapshot_class_priority (d_type (r_descriptor x.2))) x.1 = true.
Proof.
  intros [Hpre _]%strictly_middle. unfold previous_of. destruct (last pre) as [y|] eqn:Hy; [|done].
  cbn [fmap option_fmap option_map]. rewrite in_order_key. by apply (Hpre y), last_Some_elem_of.
Qed.

(** A collection does not claim a collection. *)
Lemma validate_member d : validate_issuance_descriptor d = Good () ->
  d_collection_id d <> null_hash -> d_type d <> collection.
Proof.
  unfold validate_issuance_descriptor, claims_collection. intros E Hc Ht. good_inv E.
  rewrite Ht, Z.eqb_refl, (bool_decide_eq_false_2 _ Hc), orb_true_r in *. done.
Qed.

Lemma derive_asset_id_valid d id : derive_asset_id d = Good id -> validate_issuance_descriptor d = Good ().
Proof.
  unfold derive_asset_id. intros E. apply bind_Good in E as (e & E & _).
  by apply encode_descriptor_Good in E as [? _].
Qed.

(** A collection comes before its members. *)
Lemma collection_first reg pre id r l : registry_ok reg ->
  ordered_records reg = pre ++ (id, r) :: l ->
  forall c, reg !! d_collection_id (r_descriptor r) = Some c ->
    d_collection_id (r_descriptor r) <> null_hash ->
    d_type (r_descriptor c) = collection -> r_issuance_height c <= r_issuance_height r ->
    (d_collection_id (r_descriptor r), c) ∈ pre.
Proof.
  intros Hreg Hord c Hc Hn Ht Hh.
  pose proof (ordered_records_strictly reg) as Hs. rewrite Hord in Hs. apply strictly_middle in Hs as [_ Hs].
  assert (reg !! id = Some r) as Hr by (apply ordered_records_elem; rewrite Hord; set_solver).
  destruct (Hreg _ _ Hr). pose proof (validate_member _ (derive_asset_id_valid _ _ ok_id) Hn) as Hnt.
  pose proof Hc as Hin. rewrite <- ordered_records_elem, Hord in Hin.
  apply elem_of_app in Hin as [?|[Heq|Hin]%elem_of_cons]; [done|congruence|].
  specialize (Hs _ Hin). unfold snapshot_less, snapshot_class_priority in Hs. cbn [fst snd] in Hs.
  rewrite Ht, Z.eqb_refl, (proj2 (Z.eqb_neq _ _) Hnt) in Hs. exfalso.
  destruct (r_issuance_height r =? r_issuance_height c) eqn:E; cbn in Hs; lia.
Qed.

(** One record is accepted when the records before it have been restored. *)
Lemma restore_record reg pre id r l restored : registry_ok reg ->
  ordered_records reg = pre ++ (id, r) :: l ->
  (forall j q, restored !! j = Some q <-> (j, q) ∈ pre) ->
  apply_issuance restored (payload_of r) (r_issuance_height r) = Good (<[id := r]> restored, id).
Proof.
  intros Hreg Hord Hres.
  pose proof (ordered_records_strictly reg) as Hs. rewrite Hord in Hs. apply strictly_middle in Hs as [Hs _].
  assert (forall j q, (j, q) ∈ pre -> reg !! j = Some q) as Hsub.
  { intros j q Hq. apply ordered_records_elem. rewrite Hord. set_solver. }
  assert (reg !! id = Some r) as Hr by (apply ordered_records_elem; rewrite Hord; set_solver).
  pose proof (Hreg _ _ Hr) as []. apply apply_issuance_Good. split_and!; [done| |done| |by destruct r].
  - destruct (restored !! id) as [q|] eqn:Hq; [|done]. apply Hres in Hq. specialize (Hs _ Hq).
    assert (q = r) as -> by (apply Hsub in Hq; congruence).
    by rewrite snapshot_less_key, key_less_irrefl in Hs.
  - cbn [payload_of p_descriptor p_collection_signature]. apply check_membership_Good.
    apply check_membership_Good in ok_membership as [?|(Hn & c & g & Hc & Hg & Ht & Hnet & Hh & Hv)]; [by left|].
    right. split; [done|]. exists c, g. split_and!; try done. apply Hres.
    by apply (collection_first reg pre id r l).
Qed.

Lemma encode_records_Good id r l e : encode_records ((id, r) :: l) = Good e ->
  exists pb rest, encode_issuance_payload (payload_of r) = Good pb /\ Z.of_nat (length pb) <= UINT16_MAX /\
    encode_records l = Good rest /\
    e = u64_le (r_issuance_height r) ++ u16_le (Z.of_nat (length pb)) ++ pb ++ rest.
Proof.
  cbn. intros E. apply bind_Good in E as (pb & E1 & E). apply bind_Good in E as ([] & E2%require_Good & E).
  apply bind_Good in E as (rest & E3 & [= <-]). exists pb, rest. split_and!; [done|lia|done|done].
Qed.

Lemma restore_records reg net l : registry_ok reg ->
  map_Forall (fun _ r => d_network (r_descriptor r) = net) reg ->
  forall pre restored e rest, ordered_records reg = pre ++ l ->
  (forall j q, restored !! j = Some q <-> (j, q) ∈ pre) -> encode_records l = Good e ->
  decode_records (length l) (e ++ rest) net restored (previous_of pre) = Good (reg, rest).
Proof.
  intros Hreg Hnet. induction l as [|[id r] l IH]; intros pre restored e rest Hord Hres E.
  - injection E as <-. cbn. repeat f_equal. apply map_eq. intros j. apply option_eq. intros q.
    rewrite Hres, <- ordered_records_elem, Hord. set_solver.
  - apply encode_records_Good in E as (pb & tl & E1 & Hl & E2 & ->). unfold UINT16_MAX in Hl.
    assert (reg !! id = Some r) as Hr by (apply ordered_records_elem; rewrite Hord; set_solver).
    pose proof (Hreg _ _ Hr) as []. rewrite <- !app_assoc. cbn [length decode_records].
    do 4 read_back. rewrite (decode_encode (Codec:=payload_codec) _ _ ok_wf E1), bind_of_Good.
    cbn [p_descriptor payload_of]. rewrite (Hnet _ _ Hr). read_back. rewrite ok_id, bind_of_Good.
    pose proof (ordered_records_strictly reg) as Hs. rewrite Hord in Hs. apply in_order_ordered in Hs.
    cbn [fst snd] in Hs. rewrite require_true, bind_of_Good by exact Hs.
    rewrite (restore_record reg pre id r l) by done. rewrite bind_of_Good.
    specialize (IH (pre ++ [(id, r)]) (<[id:=r]> restored) tl rest).
    unfold previous_of in IH at 1. rewrite last_snoc in IH. apply IH; [by rewrite <- app_assoc| |done].
    pose proof (restore_record reg pre id r l restored Hreg Hord Hres) as (_ & Hnew & _)%apply_issuance_Good.
    intros j q. rewrite elem_of_app, list_elem_of_singleton, <- Hres.
    destruct (decide (j = id)) as [->|Hne].
    + rewrite lookup_insert_eq, Hnew. naive_solver.
    + rewrite lookup_insert_ne by done. naive_solver.
Qed.
(** What [decode_records] read: strictly ordered records, written as they were
    found, and added to the registry. *)
Lemma decode_records_Good n net : forall s restored prev reg rest, is_bytes s ->
  decode_records n s net restored prev = Good (reg, rest) ->
  exists l e, length l = n /\ encode_records l = Good e /\ s = e ++ rest /\
    Forall (fun x => d_network (r_descriptor x.2) = net) l /\ strictly l /\
    (forall k, prev = Some k -> Forall (fun x => key_less k (entry_key x) = true) l) /\
    (forall j q, reg !! j = Some q <-> restored !! j = Some q \/ (j, q) ∈ l).
Proof.
  induction n as [|n IH]; intros s restored prev reg rest Hs E.
  { injection E as <- <-. exists [], []. split_and!; try done; [constructor|]. intros j q. set_solver. }
  cbn [decode_records] in E. unfold read_u64_le, read_u16_le in E. do 4 read_inv E.
  apply bind_Good in E as (p & Hp & E). read_inv E. apply bind_Good in E as (id & Hid & E). read_inv E.
  apply bind_Good in E as ([restored' id'] & Ha & E). cbv beta iota in E.
  apply apply_issuance_Good in Ha as (Hid' & Hnew & _ & _ & ->).
  assert (id' = id) as -> by congruence.
  apply IH in E as (tl & e & Hlen & Hl & Hse & Hnet & Hsorted & Hprev & Hreg); [|done].
  pose proof Hp as Hep. apply (encode_decode (Codec:=payload_codec)) in Hep; [|by eapply array_bytes].
  pose proof Hep as (Hv & _)%encode_payload_Good.
  assert (payload_of (record_of p z) = p) as Hpp by (destruct p as [v d g c]; cbn [p_version] in Hv; by rewrite Hv).
  array_lengths. specialize (Hprev _ eq_refl).
  exists ((id, record_of p z) :: tl). eexists. split_and!.
  - cbn. by rewrite Hlen.
  - cbn [encode_records]. rewrite Hpp, Hep, bind_of_Good, require_true by (unfold UINT16_MAX; lia).
    by rewrite bind_of_Good, Hl.
  - subst. unfold u64_le, u16_le. rewrite <- !app_assoc. repeat f_equal. lia.
  - constructor; [cbn; lia|done].
  - constructor; done.
  - intros k ->. rewrite in_order_key in *. constructor; [done|]. eapply Forall_impl; [done|].
    intros x Hx. by eapply key_less_trans.
  - intros j q. rewrite Hreg, elem_of_cons. destruct (decide (j = id)) as [->|Hne].
    + rewrite lookup_insert_eq, Hnew. naive_solver.
    + rewrite lookup_insert_ne by done. naive_solver.
Qed.

(** Every record of a registry can be written. *)
Lemma length_encoded_descriptor d e : descriptor_wf d -> encode_issuance_descriptor d = Good e ->
  (length e <= 1000)%nat.
Proof.
  intros Hwf (Hv & i & _ & Ha & ->)%encode_descriptor_Good. apply validate_reference in Hv.
  rewrite length_descriptor_bytes by done. unfold descriptor_fixed_size. cbn [length DOMAIN]. lia.
Qed.

Lemma record_encodes reg id r : record_ok reg id r -> exists pb,
  encode_issuance_payload (payload_of r) = Good pb /\ Z.of_nat (length pb) <= UINT16_MAX.
Proof.
  intros []. pose proof ok_wf as [Hd Hs Hc]. cbn in Hd, Hs, Hc.
  pose proof ok_id as Hid. unfold derive_asset_id in Hid. apply bind_Good in Hid as (e & He & _).
  pose proof (length_encoded_descriptor _ _ Hd He) as Hl.
  exists (payload_bytes e (payload_of r)). split.
  - apply encode_payload_Good. split_and!; [done|done| |exists e; split_and!; [done| |done]; unfold UINT16_MAX; lia].
    cbn. unfold claims_collection.
    apply check_membership_Good in ok_membership as [[-> ->]|(Hn & c & g & _ & -> & _)]; [done|].
    by rewrite bool_decide_eq_false_2.
  - unfold payload_bytes, u16_le, UINT16_MAX. rewrite !length_app, length_append_le.
    array_lengths. cbn [payload_of p_issuer_signature p_collection_signature length ISSUANCE_PAYLOAD_DOMAIN].
    destruct (r_collection_signature r) as [g|]; cbn [from_option length] in *; array_lengths; lia.
Qed.

Lemma records_encode reg l : (forall id r, (id, r) ∈ l -> record_ok reg id r) ->
  exists e, encode_records l = Good e.
Proof.
  induction l as [|[id r] l IH]; intros Hl; [by eexists|].
  destruct (record_encodes reg id r) as (pb & Epb & Hpb); [apply Hl; left|].
  destruct IH as (e & He); [intros; apply Hl; by right|].
  cbn [encode_records]. rewrite Epb, bind_of_Good, require_true, bind_of_Good, He by lia. by eexists.
Qed.

Lemma encode_snapshot_Good reg net e : encode_snapshot reg net = Good e <->
  public_network net = true /\ Z.of_nat (size reg) <= MAX_REGISTRY_SNAPSHOT_RECORDS /\
  map_Forall (fun _ r => d_network (r_descriptor r) = net) reg /\
  exists id records, network_id net = Good id /\ encode_records (ordered_records reg) = Good records /\
    e = REGISTRY_SNAPSHOT_DOMAIN ++ [REGISTRY_SNAPSHOT_VERSION] ++ id
      ++ u32_le (Z.of_nat (length (ordered_records reg))) ++ records.
Proof.
  unfold encode_snapshot. split.
  - intros E. apply bind_Good in E as ([] & E1%require_Good & E). apply bind_Good in E as ([] & E2%require_Good & E).
    apply bind_Good in E as ([] & E3%require_Good & E). apply bind_Good in E as (id & E4 & E).
    apply bind_Good in E as (rs & E5 & [= <-]). apply bool_decide_eq_true in E3.
    split_and!; [done|lia|done|]. by exists id, rs.
  - intros (E1 & E2 & E3 & id & rs & E4 & E5 & ->). rewrite (bool_decide_eq_true_2 _ E3).
    do 3 read_back. by rewrite E4, bind_of_Good, E5.
Qed.

Lemma decode_encode_snapshot reg net e : registry_ok reg ->
  encode_snapshot reg net = Good e -> decode_snapshot e net = Good reg.
Proof.
  intros Hreg (Hpub & Hsize & Hnet & id & rs & Hid & Hrs & ->)%encode_snapshot_Good.
  destruct (network_id_public _ Hpub) as (i & Hi & Ha). assert (i = id) as -> by congruence.
  unfold MAX_REGISTRY_SNAPSHOT_RECORDS in Hsize. rewrite <- length_ordered_records in Hsize.
  unfold decode_snapshot. read_back.
  rewrite require_true by (unfold snapshot_header_size, u32_le; rewrite !length_app, length_append_le;
    array_lengths; cbn [length]; lia).
  rewrite bind_of_Good. do 5 read_back. rewrite Hid, bind_of_Good, bool_decide_eq_true_2 by done.
  unfold MAX_REGISTRY_SNAPSHOT_RECORDS. do 3 read_back. rewrite Nat2Z.id, <- (app_nil_r rs).
  rewrite (restore_records reg net _ Hreg Hnet [] ∅ rs []); [done|done| |done].
  intros j q. rewrite lookup_empty. set_solver.
Qed.

Lemma encode_decode_snapshot reg net e : is_bytes e ->
  decode_snapshot e net = Good reg -> encode_snapshot reg net = Good e.
Proof.
  intros Hb E. unfold decode_snapshot, read_u32_le in E. do 7 read_inv E.
  apply bind_Good in E as (id & Hid & E). do 3 read_inv E.
  apply bind_Good in E as ([reg' rest] & Hd & E). cbv beta iota in E. read_inv E. injection E as ->.
  apply decode_records_Good in Hd as (tl & e' & Hlen & Hl & Hse & Hnet & Hsorted & _ & Hreg); [|done].
  assert (ordered_records reg = tl) as Ho.
  { apply ordered_records_unique; [done|]. intros j q. rewrite Hreg, lookup_empty. naive_solver. }
  apply encode_snapshot_Good. unfold MAX_REGISTRY_SNAPSHOT_RECORDS in *.
  rewrite <- length_ordered_records, Ho, Hlen. split_and!; [done|lia| |].
  - intros j q Hq. rewrite <- ordered_records_elem, Ho in Hq. rewrite Forall_forall in Hnet.
    by apply (Hnet (j, q)).
  - exists id, e'. split_and!; [done|done|]. destruct rest; [|done]. rewrite app_nil_r in Hse.
    match goal with Hi : bool_decide _ = true |- _ => apply bool_decide_eq_true in Hi end.
    subst. rewrite Z2Nat.id by lia.
    assert (z = REGISTRY_SNAPSHOT_VERSION) as -> by lia. done.
Qed.

Lemma decode_records_ok n net : forall s restored prev reg rest, is_bytes s -> registry_ok restored ->
  decode_records n s net restored prev = Good (reg, rest) -> registry_ok reg.
Proof.
  induction n as [|n IH]; intros s restored prev reg rest Hs Hok E; [by injection E as <- _|].
  cbn [decode_records] in E. unfold read_u64_le, read_u16_le in E. do 4 read_inv E.
  apply bind_Good in E as (p & Hp & E). read_inv E. apply bind_Good in E as (id & Hid & E). read_inv E.
  apply bind_Good in E as ([restored' id'] & Ha & E). cbv beta iota in E.
  eapply IH; [| |exact E]; [done|]. eapply apply_issuance_ok; [| |exact Hok|exact Ha]; [|lia].
  eapply (decode_wf (Codec:=payload_codec)); [|exact Hp]. by eapply array_bytes.
Qed.

Lemma decode_snapshot_ok e net reg : is_bytes e -> decode_snapshot e net = Good reg -> registry_ok reg.
Proof.
  intros Hb E. unfold decode_snapshot, read_u32_le in E. do 7 read_inv E.
  apply bind_Good in E as (id & Hid & E). do 3 read_inv E.
  apply bind_Good in E as ([reg' rest] & Hd & E). cbv beta iota in E. read_inv E. injection E as ->.
  eapply decode_records_ok; [|apply map_Forall_empty|exact Hd]. done.
Qed.

(** ** No exceptions, no reads out of bounds *)

Lemma derive_asset_id_tame d : tame (derive_asset_id d).
Proof. apply tame_bind; [apply encode_descriptor_tame|done]. Qed.

Lemma check_membership_tame reg d height id cs : tame (check_membership reg d height id cs).
Proof.
  unfold check_membership, verify_collection_membership, derive_collection_membership_hash.
  destruct (claims_collection d); [|apply tame_require].
  apply tame_bind; [apply tame_expect|]. intros c _. do 3 tame_step.
  apply tame_bind; [apply tame_expect|]. intros g _. tame_step.
  apply tame_bind; [by tame_step|]. intros m _. apply tame_require.
Qed.

Lemma apply_issuance_tame reg p height : tame (apply_issuance reg p height).
Proof.
  apply tame_bind; [apply derive_asset_id_tame|]. intros id _. tame_step.
  apply tame_bind; [apply authorization_tame|]. intros _ _.
  apply tame_bind; [apply check_membership_tame|done].
Qed.

Lemma decode_records_tame n net : forall s restored prev, tame (decode_records n s net restored prev).
Proof.
  induction n as [|n IH]; intros s restored prev; cbn [decode_records]; [done|].
  unfold read_u64_le, read_u16_le. do 4 tame_step. cbv beta iota.
  apply tame_bind; [apply (decode_tame (Codec:=payload_codec))|]. intros p _. tame_step.
  apply tame_bind; [apply derive_asset_id_tame|]. intros id _. tame_step.
  apply tame_bind; [apply apply_issuance_tame|]. intros [? ?] _. apply IH.
Qed.

Lemma decode_snapshot_tame e net : tame (decode_snapshot e net).
Proof.
  unfold decode_snapshot, snapshot_header_size, read_u32_le. do 7 tame_step. cbv beta iota.
  destruct (network_id_public net) as (i & -> & _); [done|]. rewrite bind_of_Good. do 3 tame_step.
  cbv beta iota. apply tame_bind; [apply decode_records_tame|]. intros [? ?] _. tame_step. done.
Qed.

(** ** Registries the code can reach *)

(** A call of a method that changes the registry, with arguments of their
    C++ types. *)
Inductive registry_step : registry -> registry -> Prop :=
| step_issuance reg p height reg' id : payload_wf p -> 0 <= height < 2 ^ 64 ->
    apply_issuance reg p height = Good (reg', id) -> registry_step reg reg'
| step_block reg ps height reg' ids : Forall payload_wf ps -> 0 <= height < 2 ^ 64 ->
    apply_block_issuances reg ps height = Good (reg', ids) -> registry_step reg reg'
| step_extensions reg xs carriers net height reg' ids : Forall extension_wf xs -> 0 <= height < 2 ^ 64 ->
    apply_block_extensions reg xs carriers net height = Good (reg', ids) -> registry_step reg reg'
| step_detach reg height : registry_step reg (detach height reg)
| step_snapshot reg e net reg' : is_bytes e -> decode_snapshot e net = Good reg' -> registry_step reg reg'.

Lemma registry_step_ok reg reg' : registry_step reg reg' -> registry_ok reg -> registry_ok reg'.
Proof.
  intros [] Hok; eauto using apply_issuance_ok, apply_issuances_ok, detach_ok, decode_snapshot_ok.
  unfold apply_block_extensions in *.
  match goal with E : _ = Good (_, _) |- _ => good_inv E end.
  eauto using apply_issuances_ok, check_extensions_wf.
Qed.

Lemma reachable_ok reg : rtc registry_step ∅ reg -> registry_ok reg.
Proof.
  intros Hr. assert (registry_ok ∅) as H0 by apply map_Forall_empty. revert H0.
  induction Hr; eauto using registry_step_ok.
Qed.

(** In every registry that issuances, blocks, extensions, rollbacks and
    restored snapshots can lead to, each asset is registered under the hash of
    its descriptor, signed by its issuer, and, if it claims a collection, the
    collection is registered, on the same network, not later than the asset, and
    its controller has signed the membership. *)
Theorem registry_invariant reg : rtc registry_step ∅ reg ->
  forall id r, reg !! id = Some r ->
    derive_asset_id (r_descriptor r) = Good id /\
    verify_issuance_authorization (r_descriptor r) (r_issuer_signature r) = Good () /\
    (d_collection_id (r_descriptor r) = null_hash /\ r_collection_signature r = None \/
     exists c signature, reg !! d_collection_id (r_descriptor r) = Some c /\
       r_collection_signature r = Some signature /\ d_type (r_descriptor c) = collection /\
       d_network (r_descriptor c) = d_network (r_descriptor r) /\
       r_issuance_height c <= r_issuance_height r /\
       verify_collection_membership (d_collection_id (r_descriptor r)) id
         (d_issuer_key (r_descriptor c)) signature = Good ()).
Proof.
  intros Hr%reachable_ok id r Hid. destruct (Hr _ _ Hid). split_and!; [done..|].
  apply check_membership_Good in ok_membership as [?|[_ ?]]; auto.
Qed.

(** A snapshot of a reachable registry restores that registry, an accepted
    snapshot is the one the restored registry is written as, and every reachable
    registry of one public network with at most 100000 records has a snapshot. *)
Theorem snapshot_exact reg net : rtc registry_step ∅ reg ->
  (forall e, encode_snapshot reg net = Good e -> decode_snapshot e net = Good reg) /\
  (forall e, is_bytes e -> decode_snapshot e net = Good reg -> encode_snapshot reg net = Good e) /\
  (public_network net = true -> Z.of_nat (size reg) <= 100000 ->
   map_Forall (fun _ r => d_network (r_descriptor r) = net) reg ->
   exists e, encode_snapshot reg net = Good e).
Proof.
  intros Hr%reachable_ok. split_and!; [|eauto using encode_decode_snapshot|].
  - intros e. by apply decode_encode_snapshot.
  - intros Hpub Hsize Hnet. destruct (network_id_public _ Hpub) as (i & Hi & _).
    destruct (records_encode reg (ordered_records reg)) as (rs & Hrs).
    { intros id r Hin. apply Hr, ordered_records_elem, Hin. }
    eexists. apply encode_snapshot_Good. split_and!; [done|done|done|]. by exists i, rs.
Qed.

End Snapshot.

(** ** A registry with a collection and its member *)

Abbreviation sample_block := (apply_block_issuances ∅ [coin; gallery; picture] 5).
Definition sample_registry : registry := (value (∅, []) sample_block).1.

Lemma sample_reachable : rtc registry_step ∅ sample_registry.
Proof.
  apply rtc_once. apply (step_block _ [coin; gallery; picture] 5 _ (value (∅, []) sample_block).2);
    [exact samples_wf|lia|].
  assert (is_good sample_block = true) as Hg by (vm_compute; reflexivity).
  unfold sample_registry. exact (value_pair (∅, []) sample_block Hg).
Qed.

Lemma registry_invariant_witness : exists r, sample_registry !! id_of picture = Some r /\
  derive_asset_id (r_descriptor r) = Good (id_of picture).
Proof.
  destruct (sample_registry !! id_of picture) as [r|] eqn:E.
  - exists r. split; [reflexivity|]. apply (registry_invariant sample_registry sample_reachable _ _ E).
  - exfalso. assert (is_Some (sample_registry !! id_of picture)) as [? ?]; [|congruence].
    apply (bool_decide_eq_true_1 (is_Some _)). vm_compute. reflexivity.
Defined.

Lemma snapshot_exact_witness : exists e, encode_snapshot sample_registry MAINNET = Good e /\
  decode_snapshot e MAINNET = Good sample_registry.
Proof.
  exists (value [] (encode_snapshot sample_registry MAINNET)).
  assert (encode_snapshot sample_registry MAINNET
    = Good (value [] (encode_snapshot sample_registry MAINNET))) as E
    by (apply value_Good; vm_compute; reflexivity).
  split; [exact E|]. exact (proj1 (snapshot_exact sample_registry MAINNET sample_reachable) _ E).
Defined.
