(* ===== verification/AssetBalance.v ===== *)
(** The transparent balance statement of [cryptonote_basic/asset_types.cpp]: the
    rule by which a transaction conserves every asset. *)

From stdpp Require Import gmap sorting.
From S2P Require Import Prelude Bytes AssetTypes AssetExamples AssetCodec.

Record transparent_amount := Amount { a_asset_id : bytes; a_amount : Z }.

Record transparent_balance_statement := Statement {
  t_xmz_inputs : Z;
  t_xmz_outputs : Z;
  t_xmz_fee : Z;
  t_issuance : option issuance_descriptor;
  t_asset_inputs : list transparent_amount;
  t_asset_outputs : list transparent_amount;
  t_asset_burns : list transparent_amount;
}.

Definition UINT64_MAX : Z := 2 ^ 64 - 1.

(** [std::map<crypto::hash, uint64_t>] *)
Abbreviation balances := (gmap bytes Z).

Fixpoint aggregate (entries : list transparent_amount) (totals : balances) : outcome balances :=
  match entries with
  | [] => Good totals
  | entry :: entries =>
      require (negb (bool_decide (a_asset_id entry = null_hash)))
        "the zero asset ID is reserved and invalid";;
      require (negb (a_amount entry =? 0)) "zero-valued asset entries are not canonical";;
      let total := default 0 (totals !! a_asset_id entry) in
      require (a_amount entry <=? UINT64_MAX - total) "asset amount aggregation overflow";;
      aggregate entries (<[a_asset_id entry := (total + a_amount entry) mod 2 ^ 64]> totals)
  end.

(** [std::set<crypto::hash>] is walked in the order of the ids. *)
Definition id_le (a b : bytes) : Prop := memcmp_lt b a = false.
#[global] Instance id_le_dec a b : Decision (id_le a b).
Proof. unfold id_le. apply _. Defined.

Definition touched (inputs outputs burns : balances) : list bytes :=
  merge_sort id_le (elements (dom inputs ∪ dom outputs ∪ dom burns : gset bytes)).

Fixpoint check_touched (ids : list bytes) (issued : option bytes) (known_assets : gset bytes)
  (inputs outputs burns : balances) : outcome unit :=
  match ids with
  | [] => Good ()
  | id :: ids =>
      if bool_decide (issued = Some id) then check_touched ids issued known_assets inputs outputs burns
      else
        require (bool_decide (id ∈ known_assets)) "statement references an unknown asset ID";;
        let input := default 0 (inputs !! id) in
        let output := default 0 (outputs !! id) in
        let burn := default 0 (burns !! id) in
        require (negb ((UINT64_MAX - burn <? output) || negb (input =? (output + burn) mod 2 ^ 64)))
          "asset inputs must equal outputs plus explicit burns";;
        check_touched ids issued known_assets inputs outputs burns
  end.

Section Balance.
Context `{Crypto}.

Definition check_issuance (issuance : option issuance_descriptor) (known_assets : gset bytes)
  (inputs outputs burns : balances) : outcome (option bytes) :=
  match issuance with
  | None => Good None
  | Some d =>
      asset_id ← derive_asset_id d;
      require (negb (bool_decide (asset_id ∈ known_assets))) "asset ID is already issued";;
      require (negb (bool_decide (is_Some (inputs !! asset_id)) || bool_decide (is_Some (burns !! asset_id))))
        "newly issued supply cannot have inputs or burns";;
      require (bool_decide (outputs !! asset_id = Some (d_atomic_supply d)))
        "issuance outputs must equal the complete fixed supply";;
      Good (Some asset_id)
  end.

Definition validate_transparent_balance_statement (s : transparent_balance_statement)
  (known_assets : gset bytes) : outcome unit :=
  require (negb ((UINT64_MAX - t_xmz_fee s <? t_xmz_outputs s)
    || negb (t_xmz_inputs s =? (t_xmz_outputs s + t_xmz_fee s) mod 2 ^ 64)))
    "XMZ inputs must equal XMZ outputs plus the XMZ fee";;
  inputs ← aggregate (t_asset_inputs s) ∅;
  outputs ← aggregate (t_asset_outputs s) ∅;
  burns ← aggregate (t_asset_burns s) ∅;
  issued ← check_issuance (t_issuance s) known_assets inputs outputs burns;
  let ids := touched inputs outputs burns in
  require (negb (length ids =? 0)%nat) "asset statement contains no issuance, transfer, or burn";;
  check_touched ids issued known_assets inputs outputs burns.

End Balance.

(** ** Sums *)

(** The sum of the entries of one asset. *)
Fixpoint total (entries : list transparent_amount) (id : bytes) : Z :=
  match entries with
  | [] => 0
  | entry :: entries => (if bool_decide (a_asset_id entry = id) then a_amount entry else 0) + total entries id
  end.

Definition amount_wf (entry : transparent_amount) : Prop := 0 <= a_amount entry < 2 ^ 64.
Definition entry_ok (entry : transparent_amount) : Prop := a_asset_id entry <> null_hash /\ a_amount entry <> 0.

Lemma total_app l k id : total (l ++ k) id = total l id + total k id.
Proof. induction l as [|e l IH]; cbn [total app]; lia. Qed.

Lemma total_nonneg l id : Forall amount_wf l -> 0 <= total l id.
Proof.
  induction 1 as [|e l He Hl IH]; cbn [total]; [done|]. unfold amount_wf in He. case_bool_decide; lia.
Qed.

Lemma total_not_in l id : id ∉ a_asset_id <$> l -> total l id = 0.
Proof.
  induction l as [|e l IH]; cbn [total fmap list_fmap]; [done|]. intros Hn.
  apply not_elem_of_cons in Hn as [Hne Hn]. rewrite bool_decide_eq_false_2 by congruence.
  rewrite IH by done. lia.
Qed.

(** The map [m] holds the sums of [l]. *)
Definition sums (m : balances) (l : list transparent_amount) : Prop :=
  forall id, m !! id = if bool_decide (id ∈ a_asset_id <$> l) then Some (total l id) else None.

Lemma sums_default m l id : sums m l -> default 0 (m !! id) = total l id.
Proof.
  intros Hm. rewrite (Hm id). case_bool_decide; cbn; [done|]. symmetry. by apply total_not_in.
Qed.

Lemma sums_is_Some m l id : sums m l -> is_Some (m !! id) <-> id ∈ a_asset_id <$> l.
Proof. intros Hm. rewrite (Hm id). case_bool_decide; split; by eauto. Qed.

Lemma sums_insert m l e : sums m l ->
  sums (<[a_asset_id e := total l (a_asset_id e) + a_amount e]> m) (l ++ [e]).
Proof.
  intros Hm id. rewrite fmap_app, total_app. cbn [fmap list_fmap total].
  destruct (decide (a_asset_id e = id)) as [<-|Hne].
  - rewrite lookup_insert_eq, (bool_decide_eq_true_2 (a_asset_id e = a_asset_id e)) by done.
    rewrite bool_decide_eq_true_2 by set_solver. f_equal. lia.
  - rewrite lookup_insert_ne by done. rewrite (Hm id), (bool_decide_eq_false_2 (a_asset_id e = id)) by done.
    rewrite !Z.add_0_r. assert (id ∈ (a_asset_id <$> l) ++ [a_asset_id e] <-> id ∈ a_asset_id <$> l) as Heq
      by set_solver.
    by rewrite (bool_decide_ext _ _ Heq).
Qed.

Definition bounded_totals (l : list transparent_amount) : Prop := forall id, total l id < 2 ^ 64.

Lemma bounded_totals_app l k : Forall amount_wf k -> bounded_totals (l ++ k) -> bounded_totals l.
Proof. intros Hk Hb id. specialize (Hb id). rewrite total_app in Hb. pose proof (total_nonneg k id Hk). lia. Qed.

Lemma sums_step m pre e : sums m pre -> Forall amount_wf pre -> amount_wf e -> bounded_totals (pre ++ [e]) ->
  sums (<[a_asset_id e := (default 0 (m !! a_asset_id e) + a_amount e) mod 2 ^ 64]> m) (pre ++ [e]).
Proof.
  intros Hm Hpre He Hb. rewrite (sums_default _ _ _ Hm). specialize (Hb (a_asset_id e)).
  rewrite total_app in Hb. cbn [total] in Hb. rewrite bool_decide_eq_true_2 in Hb by done.
  pose proof (total_nonneg pre (a_asset_id e) Hpre). unfold amount_wf in He.
  rewrite Z.mod_small by lia. by apply sums_insert.
Qed.

Lemma aggregate_sound l : forall pre m m', sums m pre -> Forall amount_wf pre -> Forall amount_wf l ->
  bounded_totals pre -> aggregate l m = Good m' ->
  Forall entry_ok l /\ bounded_totals (pre ++ l) /\ sums m' (pre ++ l).
Proof.
  induction l as [|e l IH]; intros pre m m' Hm Hpre Hl Hb E.
  { injection E as <-. by rewrite app_nil_r. }
  inversion Hl as [|?? He Hl']; subst. cbn [aggregate] in E.
  apply bind_Good in E as ([] & E1%require_Good & E). apply bind_Good in E as ([] & E2%require_Good & E).
  apply bind_Good in E as ([] & E3%require_Good & E). apply negb_true_iff, bool_decide_eq_false in E1.
  assert (bounded_totals (pre ++ [e])) as Hb'.
  { intros id. rewrite total_app. cbn [total]. case_bool_decide as Hid; [|specialize (Hb id); lia].
    subst id. rewrite (sums_default _ _ _ Hm) in E3. unfold UINT64_MAX in E3. lia. }
  replace (pre ++ e :: l) with ((pre ++ [e]) ++ l) by (by rewrite <- app_assoc).
  eapply IH in E as (H1 & H2 & H3); [|by apply sums_step|apply Forall_app_2; [done|by apply Forall_singleton]|done|done].
  split_and!; [|done|done]. constructor; [|done]. split; [done|lia].
Qed.

Lemma aggregate_complete l : forall pre m, sums m pre -> Forall amount_wf pre -> Forall amount_wf l ->
  Forall entry_ok l -> bounded_totals (pre ++ l) -> exists m', aggregate l m = Good m'.
Proof.
  induction l as [|e l IH]; intros pre m Hm Hpre Hl Hok Hb; [by eexists|].
  inversion Hl as [|?? He Hl']; subst. inversion Hok as [|?? [Hn Hz] Hok']; subst. cbn [aggregate].
  replace (pre ++ e :: l) with ((pre ++ [e]) ++ l) in Hb by (by rewrite <- app_assoc).
  pose proof (bounded_totals_app _ _ Hl' Hb) as Hb'.
  rewrite (bool_decide_eq_false_2 _ Hn). rewrite (require_true (negb false)), bind_of_Good by done.
  rewrite (require_true (negb (_ =? _))), bind_of_Good by lia.
  rewrite (require_true (_ <=? _)), bind_of_Good.
  2:{ rewrite (sums_default _ _ _ Hm). specialize (Hb' (a_asset_id e)). rewrite total_app in Hb'.
      cbn [total] in Hb'. rewrite bool_decide_eq_true_2 in Hb' by done. unfold UINT64_MAX. lia. }
  apply (IH (pre ++ [e])); [by apply sums_step|apply Forall_app_2; [done|by apply Forall_singleton]|done|done|done].
Qed.

(** ** The rule *)

Lemma touched_elem i o b li lo lb id : sums i li -> sums o lo -> sums b lb ->
  id ∈ touched i o b <-> id ∈ a_asset_id <$> (li ++ lo ++ lb).
Proof.
  intros Hi Ho Hb. unfold touched. rewrite merge_sort_Permutation, elem_of_elements, !elem_of_union.
  rewrite !elem_of_dom, (sums_is_Some i li), (sums_is_Some o lo), (sums_is_Some b lb) by done.
  rewrite !fmap_app, !elem_of_app. tauto.
Qed.

Lemma check_touched_Good ids issued known i o b li lo lb :
  sums i li -> sums o lo -> sums b lb -> Forall amount_wf lo -> Forall amount_wf lb -> bounded_totals li ->
  check_touched ids issued known i o b = Good () <->
  Forall (fun id => issued = Some id \/ (id ∈ known /\ total li id = total lo id + total lb id)) ids.
Proof.
  intros Hi Ho Hb Hwo Hwb Hbi. induction ids as [|id ids IH]; cbn [check_touched]; [done|].
  rewrite Forall_cons. case_bool_decide as Hiss; [rewrite IH; tauto|].
  rewrite (sums_default i li), (sums_default o lo), (sums_default b lb) by done.
  pose proof (total_nonneg lo id Hwo). pose proof (total_nonneg lb id Hwb). specialize (Hbi id).
  unfold UINT64_MAX. split.
  - intros E. apply bind_Good in E as ([] & E1%require_Good & E). apply bind_Good in E as ([] & E2%require_Good & E).
    apply bool_decide_eq_true in E1. split; [right; split; [done|]|by apply IH].
    destruct (Z.ltb_spec (2 ^ 64 - 1 - total lb id) (total lo id)); [done|].
    rewrite Z.mod_small in E2 by lia. lia.
  - intros [[?|[Hk Hsum]] Hids]; [done|]. rewrite (bool_decide_eq_true_2 _ Hk).
    rewrite (require_true true), bind_of_Good by done.
    rewrite Z.mod_small by lia. rewrite require_true, bind_of_Good by lia. by apply IH.
Qed.

Section Rule.
Context `{Crypto}.

(** What the C++ types of the fields guarantee. *)
Record statement_wf (s : transparent_balance_statement) : Prop := {
  wf_xmz : 0 <= t_xmz_inputs s < 2 ^ 64 /\ 0 <= t_xmz_outputs s < 2 ^ 64 /\ 0 <= t_xmz_fee s < 2 ^ 64;
  wf_inputs : Forall amount_wf (t_asset_inputs s);
  wf_outputs : Forall amount_wf (t_asset_outputs s);
  wf_burns : Forall amount_wf (t_asset_burns s);
}.

Definition entries (s : transparent_balance_statement) : list transparent_amount :=
  t_asset_inputs s ++ t_asset_outputs s ++ t_asset_burns s.

Definition issues (s : transparent_balance_statement) (id : bytes) : Prop :=
  exists d, t_issuance s = Some d /\ derive_asset_id d = Good id.

(** The rule in unbounded integers. *)
Record conserves (s : transparent_balance_statement) (known : gset bytes) : Prop := {
  conserves_xmz : t_xmz_inputs s = t_xmz_outputs s + t_xmz_fee s;
  conserves_entries : entries s <> [] /\ Forall entry_ok (entries s);
  conserves_bounds : bounded_totals (t_asset_inputs s) /\ bounded_totals (t_asset_outputs s) /\
    bounded_totals (t_asset_burns s);
  conserves_issued : forall d, t_issuance s = Some d -> exists id, derive_asset_id d = Good id /\ (id ∉ known) /\
    ~ id ∈ a_asset_id <$> t_asset_inputs s /\ ~ id ∈ a_asset_id <$> t_asset_burns s /\
    id ∈ a_asset_id <$> t_asset_outputs s /\ total (t_asset_outputs s) id = d_atomic_supply d;
  conserves_other : forall id, id ∈ a_asset_id <$> entries s -> issues s id \/
    (id ∈ known /\
     total (t_asset_inputs s) id = total (t_asset_outputs s) id + total (t_asset_burns s) id);
}.

Lemma check_issuance_Good d known i o b li lo lb issued : sums i li -> sums o lo -> sums b lb ->
  check_issuance d known i o b = Good issued <->
  match d with
  | None => issued = None
  | Some d => exists id, issued = Some id /\ derive_asset_id d = Good id /\ (id ∉ known) /\
      ~ id ∈ a_asset_id <$> li /\ ~ id ∈ a_asset_id <$> lb /\ id ∈ a_asset_id <$> lo /\
      total lo id = d_atomic_supply d
  end.
Proof.
  intros Hi Ho Hb. destruct d as [d|]; cbn [check_issuance]; [|split; congruence]. split.
  - intros E. apply bind_Good in E as (id & E1 & E). apply bind_Good in E as ([] & E2%require_Good & E).
    apply bind_Good in E as ([] & E3%require_Good & E). apply bind_Good in E as ([] & E4%require_Good & [= <-]).
    apply negb_true_iff, bool_decide_eq_false in E2.
    apply negb_true_iff, orb_false_iff in E3 as [E3%bool_decide_eq_false E3'%bool_decide_eq_false].
    rewrite (sums_is_Some i li) in E3 by done. rewrite (sums_is_Some b lb) in E3' by done.
    apply bool_decide_eq_true in E4. exists id.
    assert (id ∈ a_asset_id <$> lo) as Hin by (apply (sums_is_Some o); eauto).
    split_and!; try done. pose proof (sums_default o lo id Ho) as Ht. rewrite E4 in Ht. by rewrite <- Ht.
  - intros (id & -> & -> & Hk & Hni & Hnb & Hin & Ht). rewrite bind_of_Good.
    rewrite (bool_decide_eq_false_2 _ Hk), (bool_decide_eq_false_2 (is_Some (i !! id))),
      (bool_decide_eq_false_2 (is_Some (b !! id))), bool_decide_eq_true_2; [done| | |].
    + rewrite (Ho id). rewrite bool_decide_eq_true_2 by done. by rewrite Ht.
    + by rewrite (sums_is_Some b lb).
    + by rewrite (sums_is_Some i li).
Qed.

Lemma sums_empty : sums ∅ [].
Proof. intros id. by rewrite lookup_empty. Qed.

Lemma touched_nil s i o b :
  sums i (t_asset_inputs s) -> sums o (t_asset_outputs s) -> sums b (t_asset_burns s) ->
  length (touched i o b) = 0%nat <-> entries s = [].
Proof.
  intros Hi Ho Hb. pose proof (fun id => touched_elem i o b _ _ _ id Hi Ho Hb) as Ht. split.
  - intros Hl%nil_length_inv. rewrite Hl in Ht. apply elem_of_nil_inv. intros e He.
    apply (not_elem_of_nil (a_asset_id e)), Ht, list_elem_of_fmap. by exists e.
  - intros Hn. unfold entries in Hn. rewrite Hn in Ht. apply length_zero_iff_nil, elem_of_nil_inv.
    intros id Hid%Ht. by apply not_elem_of_nil in Hid.
Qed.

(** The checks that follow the sums. *)
Lemma checks_Good s known i o b : statement_wf s -> bounded_totals (t_asset_inputs s) ->
  sums i (t_asset_inputs s) -> sums o (t_asset_outputs s) -> sums b (t_asset_burns s) ->
  (issued ← check_issuance (t_issuance s) known i o b;
   require (negb (length (touched i o b) =? 0)%nat) "asset statement contains no issuance, transfer, or burn";;
   check_touched (touched i o b) issued known i o b) = Good () <->
  entries s <> [] /\
  (forall d, t_issuance s = Some d -> exists id, derive_asset_id d = Good id /\ (id ∉ known) /\
    ~ id ∈ a_asset_id <$> t_asset_inputs s /\ ~ id ∈ a_asset_id <$> t_asset_burns s /\
    id ∈ a_asset_id <$> t_asset_outputs s /\ total (t_asset_outputs s) id = d_atomic_supply d) /\
  (forall id, id ∈ a_asset_id <$> entries s -> issues s id \/
    (id ∈ known /\
     total (t_asset_inputs s) id = total (t_asset_outputs s) id + total (t_asset_burns s) id)).
Proof.
  intros [_ Hwi Hwo Hwb] Hbi Hi Ho Hb. rewrite <- (touched_nil s i o b) by done.
  pose proof (fun id => touched_elem i o b _ _ _ id Hi Ho Hb) as Ht. unfold issues. split.
  - intros E. apply bind_Good in E as (issued & E1 & E). apply bind_Good in E as ([] & E2%require_Good & E).
    apply (check_issuance_Good _ _ _ _ _ _ _ _ _ Hi Ho Hb) in E1.
    apply (check_touched_Good _ _ _ _ _ _ _ _ _ Hi Ho Hb Hwo Hwb Hbi) in E. rewrite Forall_forall in E.
    split_and!; [lia| |].
    + intros d Hd. rewrite Hd in E1. destruct E1 as (id & _ & E1). by exists id.
    + intros id Hid%Ht. destruct (E id Hid) as [->|?]; [|by right]. left.
      destruct (t_issuance s) as [d|]; [|done]. destruct E1 as (id' & [= <-] & ? & _). by exists d.
  - intros (Hne & Hiss & Hoth).
    assert (exists issued, check_issuance (t_issuance s) known i o b = Good issued /\
      forall d id, t_issuance s = Some d -> derive_asset_id d = Good id -> issued = Some id) as (issued & Ei & Hid).
    { destruct (t_issuance s) as [d|] eqn:Hd; [|by exists None].
      destruct (Hiss d eq_refl) as (id & Hder & Hrest). exists (Some id). split.
      - apply (check_issuance_Good _ _ _ _ _ _ _ _ _ Hi Ho Hb). by exists id.
      - intros d' id' [= <-] Hder'. congruence. }
    rewrite Ei, bind_of_Good, require_true, bind_of_Good by lia.
    apply (check_touched_Good _ _ _ _ _ _ _ _ _ Hi Ho Hb Hwo Hwb Hbi). apply Forall_forall.
    intros id Hin%Ht. destruct (Hoth id Hin) as [(d & Hd & Hder)|?]; eauto.
Qed.

(** A balance statement is accepted if and only if, over the integers and not
    modulo 2^64, XMZ inputs are outputs plus fee, every issued asset is new and
    comes out with exactly its supply, and every other asset is known and comes
    in as much as it comes out and is burnt. *)
Theorem transparent_balance_exact s known : statement_wf s ->
  (validate_transparent_balance_statement s known = Good () <-> conserves s known).
Proof.
  intros Hwf. pose proof Hwf as [Hx Hwi Hwo Hwb].
  unfold validate_transparent_balance_statement, UINT64_MAX. split.
  - intros E. apply bind_Good in E as ([] & E1%require_Good & E).
    apply bind_Good in E as (i & Ei & E). apply bind_Good in E as (o & Eo & E).
    apply bind_Good in E as (b & Eb & E).
    apply (aggregate_sound _ [] _ _ sums_empty) in Ei as (Hoi & Hbi & Hi); [|done..].
    apply (aggregate_sound _ [] _ _ sums_empty) in Eo as (Hoo & Hbo & Ho); [|done..].
    apply (aggregate_sound _ [] _ _ sums_empty) in Eb as (Hob & Hbb & Hb); [|done..].
    apply checks_Good in E as (Hne & Hiss & Hoth); [|done..].
    split; [|split; [done|by repeat apply Forall_app_2]|done|done|done].
    destruct (Z.ltb_spec (2 ^ 64 - 1 - t_xmz_fee s) (t_xmz_outputs s)); [done|].
    rewrite Z.mod_small in E1 by lia. lia.
  - intros [Hxmz [Hne Hok] (Hbi & Hbo & Hbb) Hiss Hoth].
    apply Forall_app in Hok as [Hoki [Hoko Hokb]%Forall_app].
    rewrite Z.mod_small, require_true, bind_of_Good by lia.
    destruct (aggregate_complete (t_asset_inputs s) [] ∅ sums_empty) as (i & Ei); [done..|].
    destruct (aggregate_complete (t_asset_outputs s) [] ∅ sums_empty) as (o & Eo); [done..|].
    destruct (aggregate_complete (t_asset_burns s) [] ∅ sums_empty) as (b & Eb); [done..|].
    rewrite Ei, bind_of_Good, Eo, bind_of_Good, Eb, bind_of_Good.
    apply (aggregate_sound _ [] _ _ sums_empty) in Ei as (_ & _ & Hi); [|done..].
    apply (aggregate_sound _ [] _ _ sums_empty) in Eo as (_ & _ & Ho); [|done..].
    apply (aggregate_sound _ [] _ _ sums_empty) in Eb as (_ & _ & Hb); [|done..].
    by apply checks_Good.
Qed.

End Rule.

(** A transfer of five coins, two of which are burnt, with the issue of a picture. *)
Definition sample_statement : transparent_balance_statement :=
  Statement 10 9 1 (Some (p_descriptor gallery)) [Amount (id_of coin) 2; Amount (id_of coin) 3]
    [Amount (id_of gallery) 1; Amount (id_of coin) 3] [Amount (id_of coin) 2].

Lemma transparent_balance_exact_witness :
  statement_wf sample_statement /\ conserves sample_statement {[ id_of coin ]}.
Proof.
  assert (statement_wf sample_statement) as Hwf.
  { split; cbn; [lia|..]; repeat constructor; cbn; lia. }
  split; [exact Hwf|]. apply (transparent_balance_exact sample_statement {[ id_of coin ]} Hwf).
  vm_compute. reflexivity.
Defined.
