(* ===== verification/AssetConfidential.v ===== *)
(** Confidential asset transfers, [cryptonote_basic/asset_confidential.cpp]:
    ownership proofs, balances of commitments, and the match between the inputs
    of a transaction and its ownership proofs. *)

From stdpp Require Import gmap.
From S2P Require Import Prelude Bytes AssetTypes AssetExamples AssetCodec.

(** ** Ring signatures and range proofs *)

Record BulletproofPlus := Bulletproof {
  bp_V : list bytes;
  bp_A : bytes;
  bp_A1 : bytes;
  bp_B : bytes;
  bp_r1 : bytes;
  bp_s1 : bytes;
  bp_d1 : bytes;
  bp_L : list bytes;
  bp_R : list bytes;
}.

Record clsag := Clsag { cl_s : list bytes; cl_c1 : bytes; cl_I : bytes; cl_D : bytes }.

Record ctkey := Ctkey { ct_dest : bytes; ct_mask : bytes }.

(** The functions of [ringct/] the asset code calls.  Those that may throw
    return an [outcome]. *)
Class RingCt := {
  isInMainSubgroup : bytes -> bool;
  scalarmult8 : bytes -> outcome bytes;
  addKeys : list bytes -> outcome bytes;
  (** [commit(amount, zero())] *)
  commit : Z -> bytes;
  bulletproof_plus_VERIFY : BulletproofPlus -> outcome bool;
  verRctCLSAGSimple : bytes -> clsag -> list ctkey -> bytes -> outcome bool;
}.

(** [try { if (!m) return fail(error, refused); } catch (...) { return fail(error, caught); }] *)
Definition try_verify (m : outcome bool) (refused caught : string) : outcome unit :=
  match m with
  | Good b => require b refused
  | Bad _ => Bad refused
  | Thrown _ => Bad caught
  | Wild => Wild
  end.
Arguments try_verify m refused%_string caught%_string.

Lemma try_verify_Good m refused caught x : try_verify m refused caught = Good x <-> m = Good true.
Proof.
  destruct x, m as [[]| | |]; cbn; split; congruence.
Qed.

(** ** Data *)

Definition MAX_CONFIDENTIAL_ASSET_INPUTS : nat := 16.
Definition MAX_CONFIDENTIAL_ASSET_OUTPUTS : nat := 16.
Definition CONFIDENTIAL_ASSET_RING_SIZE : nat := 16.

Definition OWNERSHIP_DOMAIN : bytes := Eval vm_compute in u "MonzeroAssetOwnershipCLSAGV1".

Record confidential_pseudo_input := Pseudo { i_source_asset_id : bytes; i_commitment : bytes }.

Record asset_ring_member := Member {
  m_asset_id : bytes;
  m_output_id : bytes;
  m_public_output : ctkey;
}.

Record asset_ownership_proof := Ownership {
  o_asset_id : bytes;
  o_pseudo_input : bytes;
  o_key_image : bytes;
  o_ring : list asset_ring_member;
  o_signature : clsag;
}.

Record confidential_asset_balance := Balance {
  b_asset_id : bytes;
  b_pseudo_inputs : list confidential_pseudo_input;
  b_outputs : list bytes;
  b_burns : list bytes;
  b_range_proofs : list BulletproofPlus;
}.

(** The state of the loops over the inputs: the proofs used so far and their key images. *)
Abbreviation match_state := (list bool * list bytes)%type.

Section Confidential.
Context `{Crypto, RingCt}.

(** ** Ownership *)

(** The loop over the ring: [output_ids] are the ids seen so far. *)
Fixpoint ring_bytes (asset_id : bytes) (ring : list asset_ring_member) (output_ids : gset bytes) :
  outcome bytes :=
  match ring with
  | [] => Good []
  | m :: ring =>
      require (bool_decide (m_asset_id m = asset_id)) "ownership ring crosses asset domains";;
      require (negb (bool_decide (m_output_id m = null_hash) || bool_decide (m_output_id m ∈ output_ids)))
        "ownership ring has a zero or duplicate output id";;
      require (isInMainSubgroup (ct_dest (m_public_output m)) && isInMainSubgroup (ct_mask (m_public_output m)))
        "ownership ring contains an invalid curve point";;
      rest ← ring_bytes asset_id ring ({[ m_output_id m ]} ∪ output_ids);
      Good (m_output_id m ++ ct_dest (m_public_output m) ++ ct_mask (m_public_output m) ++ rest)
  end.

Definition derive_asset_ownership_message (proof : asset_ownership_proof) (network : Z)
  (carrier_prefix_hash : bytes) : outcome bytes :=
  require (public_network network) "ownership proof requires a public network";;
  require (negb (bool_decide (o_asset_id proof = null_hash) || bool_decide (carrier_prefix_hash = null_hash)))
    "ownership proof has a zero asset or carrier id";;
  require (length (o_ring proof) =? CONFIDENTIAL_ASSET_RING_SIZE)%nat "ownership proof has the wrong ring size";;
  id ← network_id network;
  ring ← ring_bytes (o_asset_id proof) (o_ring proof) ∅;
  Good (cn_fast_hash (OWNERSHIP_DOMAIN ++ id ++ carrier_prefix_hash ++ o_asset_id proof
    ++ o_pseudo_input proof ++ ring)).

Definition verify_asset_ownership_proof (proof : asset_ownership_proof) (network : Z)
  (carrier_prefix_hash : bytes) : outcome unit :=
  message ← derive_asset_ownership_message proof network carrier_prefix_hash;
  require (length (cl_s (o_signature proof)) =? length (o_ring proof))%nat
    "ownership CLSAG response count does not match its ring";;
  let g := o_signature proof in
  let signature := Clsag (cl_s g) (cl_c1 g) (o_key_image proof) (cl_D g) in
  try_verify (verRctCLSAGSimple message signature (m_public_output <$> o_ring proof) (o_pseudo_input proof))
    "invalid asset ownership CLSAG" "malformed asset ownership CLSAG".

(** ** Balances *)

Definition size_t_sub (a b : nat) : Z := (Z.of_nat a - Z.of_nat b) mod 2 ^ 64.

(** The loop over the pseudo inputs. *)
Fixpoint input_commitments (asset_id : bytes) (inputs : list confidential_pseudo_input) :
  outcome (list bytes) :=
  match inputs with
  | [] => Good []
  | input :: inputs =>
      require (bool_decide (i_source_asset_id input = asset_id))
        "pseudo input crosses asset balance domains";;
      rest ← input_commitments asset_id inputs;
      Good (i_commitment input :: rest)
  end.

(** [scalarmult8] of each commitment of a range proof. *)
Fixpoint scale_commitments (V : list bytes) : outcome (list bytes) :=
  match V with
  | [] => Good []
  | v :: V => p ← scalarmult8 v; ps ← scale_commitments V; Good (p :: ps)
  end.

(** The loop over the range proofs. *)
Fixpoint check_range_proofs (proofs : list BulletproofPlus) (commitment_count proof_commitments : nat)
  (proven : list bytes) : outcome (nat * list bytes) :=
  match proofs with
  | [] => Good (proof_commitments, proven)
  | proof :: proofs =>
      require (negb ((length (bp_V proof) =? 0)%nat
        || (size_t_sub commitment_count (length (bp_V proof)) <? Z.of_nat proof_commitments)))
        "range proofs do not cover the declared commitments exactly";;
      try_verify (bulletproof_plus_VERIFY proof) "invalid asset Bulletproof+" "malformed asset Bulletproof+";;
      scaled ← scale_commitments (bp_V proof);
      check_range_proofs proofs commitment_count (proof_commitments + length (bp_V proof)) (proven ++ scaled)
  end.

(** The comparison by index, from where [proven] starts; the rest of [proven]. *)
Fixpoint match_commitments (proven expected : list bytes) (message : string) : outcome (list bytes) :=
  match expected, proven with
  | [], _ => Good proven
  | _ :: _, [] => Wild
  | e :: expected, p :: proven =>
      require (bool_decide (p = e)) message;;
      match_commitments proven expected message
  end.

Definition verify_confidential_asset_balance (b : confidential_asset_balance) : outcome unit :=
  require (negb (bool_decide (b_asset_id b = null_hash))) "confidential balance has a zero asset id";;
  require (negb (length (b_pseudo_inputs b) =? 0)%nat) "confidential balance has no pseudo inputs";;
  require (negb ((length (b_outputs b) =? 0)%nat && (length (b_burns b) =? 0)%nat))
    "confidential balance has no outputs or burns";;
  require (negb ((MAX_CONFIDENTIAL_ASSET_INPUTS <? length (b_pseudo_inputs b))%nat
    || (MAX_CONFIDENTIAL_ASSET_OUTPUTS <? length (b_outputs b) + length (b_burns b))%nat))
    "confidential balance exceeds input or output limits";;
  inputs ← input_commitments (b_asset_id b) (b_pseudo_inputs b);
  require (forallb isInMainSubgroup inputs && forallb isInMainSubgroup (b_outputs b)
    && forallb isInMainSubgroup (b_burns b)) "confidential balance contains an invalid curve point";;
  let commitment_count := (length (b_outputs b) + length (b_burns b))%nat in
  '(proof_commitments, proven) ← check_range_proofs (b_range_proofs b) commitment_count 0 [];
  require (proof_commitments =? commitment_count)%nat "range proofs do not cover every output and burn";;
  rest ← match_commitments proven (b_outputs b) "range proof output commitment mismatch";
  match_commitments rest (b_burns b) "range proof burn commitment mismatch";;
  input_sum ← addKeys inputs;
  output_sum ← addKeys (b_outputs b ++ b_burns b);
  require (bool_decide (input_sum = output_sum)) "asset commitments do not conserve value".

(** ** Transactions *)

(** The id of the asset a transaction issues, if it issues one. *)
Definition derive_issued_id (issuance : option issuance_descriptor) : outcome (option bytes) :=
  match issuance with
  | None => Good None
  | Some d => id ← derive_asset_id d; Good (Some id)
  end.

(** The checks on the balance group of the issued asset. *)
Definition check_issuance_group (b : confidential_asset_balance) (known_assets : gset bytes)
  (atomic_supply : Z) : outcome unit :=
  require (negb (bool_decide (b_asset_id b ∈ known_assets)))
    "confidential issuance duplicates an existing asset";;
  require match b_pseudo_inputs b with
    | [input] => bool_decide (i_commitment input = commit atomic_supply)
        && bool_decide (i_source_asset_id input = b_asset_id b)
    | _ => false
    end "issuance pseudo input does not commit to the fixed supply".

(** The loop over the balance groups; the result says whether one was the
    group of the issued asset. *)
Fixpoint verify_groups (balances : list confidential_asset_balance) (known_assets : gset bytes)
  (issuance : option issuance_descriptor) (issued_id : option bytes) (seen : gset bytes)
  (found_issuance : bool) : outcome bool :=
  match balances with
  | [] => Good found_issuance
  | b :: balances =>
      require (negb (bool_decide (b_asset_id b ∈ seen))) "asset appears in more than one balance group";;
      let is_issuance := bool_decide (issued_id = Some (b_asset_id b)) in
      require (is_issuance || bool_decide (b_asset_id b ∈ known_assets))
        "confidential balance references an unknown asset";;
      (if is_issuance
       then check_issuance_group b known_assets (from_option d_atomic_supply 0 issuance)
       else Good ());;
      verify_confidential_asset_balance b;;
      verify_groups balances known_assets issuance issued_id ({[ b_asset_id b ]} ∪ seen)
        (found_issuance || is_issuance)
  end.

Definition verify_confidential_asset_transaction (balances : list confidential_asset_balance)
  (known_assets : gset bytes) (issuance : option issuance_descriptor) : outcome unit :=
  require (negb (length balances =? 0)%nat) "confidential asset transaction is empty";;
  issued_id ← derive_issued_id issuance;
  found ← verify_groups balances known_assets issuance issued_id ∅ false;
  require (negb (bool_decide (is_Some issuance)) || found)
    "issuance has no matching confidential balance group".

(** The search for the ownership proof of an input, from proof [index] on. *)
Fixpoint find_proof (proofs : list asset_ownership_proof) (matched : list bool) (index : nat)
  (input : confidential_pseudo_input) (found : option nat) : outcome (option nat) :=
  match proofs, matched with
  | proof :: proofs, m :: matched =>
      if negb m && bool_decide (o_asset_id proof = i_source_asset_id input)
         && bool_decide (o_pseudo_input proof = i_commitment input)
      then
        require (negb (bool_decide (is_Some found))) "multiple ownership proofs match one pseudo input";;
        find_proof proofs matched (S index) input (Some index)
      else find_proof proofs matched (S index) input found
  | [], _ => Good found
  | _ :: _, [] => Wild
  end.

Definition match_input (proofs : list asset_ownership_proof) (network : Z) (carrier_prefix_hash : bytes)
  (input : confidential_pseudo_input) (st : match_state) : outcome match_state :=
  let '(matched, key_images) := st in
  found ← find_proof proofs matched 0 input None;
  index ← expect found "pseudo input has no ownership proof";
  proof ← match proofs !! index with Some proof => Good proof | None => Wild end;
  require (negb (bool_decide (o_key_image proof ∈ key_images))) "duplicate asset key image in transaction";;
  verify_asset_ownership_proof proof network carrier_prefix_hash;;
  Good (<[index := true]> matched, key_images ++ [o_key_image proof]).

Fixpoint match_inputs (proofs : list asset_ownership_proof) (network : Z) (carrier_prefix_hash : bytes)
  (inputs : list confidential_pseudo_input) (st : match_state) : outcome match_state :=
  match inputs with
  | [] => Good st
  | input :: inputs =>
      st ← match_input proofs network carrier_prefix_hash input st;
      match_inputs proofs network carrier_prefix_hash inputs st
  end.

(** The inputs of a group that need a proof: all but the first of the issued asset. *)
Definition owned_inputs (issued_id : option bytes) (b : confidential_asset_balance) :
  list confidential_pseudo_input :=
  if bool_decide (issued_id = Some (b_asset_id b)) then drop 1 (b_pseudo_inputs b) else b_pseudo_inputs b.

Fixpoint match_groups (balances : list confidential_asset_balance) (proofs : list asset_ownership_proof)
  (issued_id : option bytes) (network : Z) (carrier_prefix_hash : bytes) (st : match_state) :
  outcome match_state :=
  match balances with
  | [] => Good st
  | b :: balances =>
      st ← match_inputs proofs network carrier_prefix_hash (owned_inputs issued_id b) st;
      match_groups balances proofs issued_id network carrier_prefix_hash st
  end.

Definition verify_confidential_asset_transaction_with_ownership (balances : list confidential_asset_balance)
  (proofs : list asset_ownership_proof) (known_assets : gset bytes)
  (issuance : option issuance_descriptor) (network : Z) (carrier_prefix_hash : bytes) : outcome unit :=
  verify_confidential_asset_transaction balances known_assets issuance;;
  issued_id ← derive_issued_id issuance;
  '(matched, _) ← match_groups balances proofs issued_id network carrier_prefix_hash
    (replicate (length proofs) false, []);
  require (forallb id matched) "ownership proof does not match a pseudo input".

End Confidential.

(** ** What an accepted balance is *)

Section Balances.
Context `{RingCt}.

Lemma input_commitments_Good id inputs cs : input_commitments id inputs = Good cs <->
  Forall (fun i => i_source_asset_id i = id) inputs /\ cs = i_commitment <$> inputs.
Proof.
  revert cs. induction inputs as [|i inputs IH]; intros cs; cbn [input_commitments fmap list_fmap].
  { split; [intros [= <-]; done|by intros [_ ->]]. }
  rewrite Forall_cons. split.
  - intros E. apply bind_Good in E as ([] & E1%require_Good & E). apply bind_Good in E as (r & [E2 ->]%IH & [= <-]).
    apply bool_decide_eq_true in E1. done.
  - intros [[Hi Hin] ->]. rewrite (bool_decide_eq_true_2 _ Hi). cbn [require]. rewrite bind_of_Good.
    rewrite (proj2 (IH _) (conj Hin eq_refl)). done.
Qed.

Lemma scale_commitments_app V W : scale_commitments (V ++ W) =
  (p ← scale_commitments V; q ← scale_commitments W; Good (p ++ q)).
Proof.
  induction V as [|v V IH]; cbn [scale_commitments app].
  - rewrite bind_of_Good. by destruct (scale_commitments W).
  - destruct (scalarmult8 v); [|done..]. rewrite !bind_of_Good, IH.
    destruct (scale_commitments V); [|done..]. rewrite !bind_of_Good. by destruct (scale_commitments W).
Qed.

Lemma scale_commitments_length V ps : scale_commitments V = Good ps -> length ps = length V.
Proof.
  revert ps. induction V as [|v V IH]; intros ps E; [by injection E as <-|]. cbn in E.
  good_inv E. injection E as <-. cbn. f_equal. by apply IH.
Qed.

(** All commitments the range proofs are about. *)
Definition proof_V (proofs : list BulletproofPlus) : list bytes := concat (bp_V <$> proofs).

Lemma proof_V_cons p proofs : proof_V (p :: proofs) = bp_V p ++ proof_V proofs.
Proof. done. Qed.

Definition proof_ok (proof : BulletproofPlus) : Prop :=
  bp_V proof <> [] /\ bulletproof_plus_VERIFY proof = Good true.

Lemma match_commitments_Good expected message : forall proven rest,
  match_commitments proven expected message = Good rest <-> proven = expected ++ rest.
Proof.
  induction expected as [|e expected IH]; intros [|p proven] rest; cbn [match_commitments app];
    try (split; congruence).
  split.
  - intros E. apply bind_Good in E as ([] & E1%require_Good & E). apply bool_decide_eq_true in E1 as ->.
    by apply IH in E as ->.
  - intros [= -> ->]. rewrite bool_decide_eq_true_2 by done. cbn [require]. rewrite bind_of_Good. by apply IH.
Qed.

Lemma check_range_proofs_Good proofs n : forall k proven k' proven',
  check_range_proofs proofs n k proven = Good (k', proven') ->
  Forall proof_ok proofs /\ k' = (k + length (proof_V proofs))%nat /\
  exists ps, scale_commitments (proof_V proofs) = Good ps /\ proven' = proven ++ ps.
Proof.
  induction proofs as [|p proofs IH]; intros k proven k' proven' E; cbn [check_range_proofs] in E.
  - injection E as <- <-. split_and!; [done|cbn; lia|]. exists []. by rewrite app_nil_r.
  - apply bind_Good in E as ([] & E1%require_Good & E). apply bind_Good in E as ([] & E2 & E).
    apply try_verify_Good in E2. apply bind_Good in E as (ps & E3 & E).
    apply IH in E as (Hok & -> & qs & Hqs & ->).
    split_and!.
    + constructor; [|done]. split; [|done]. intros Hn. rewrite Hn in E1. done.
    + rewrite proof_V_cons, length_app. lia.
    + exists (ps ++ qs). split; [|by rewrite app_assoc]. by rewrite proof_V_cons, scale_commitments_app, E3, bind_of_Good, Hqs.
Qed.

Lemma check_range_proofs_complete proofs n ps : forall k proven, Z.of_nat n < 2 ^ 64 ->
  Forall proof_ok proofs -> (k + length (proof_V proofs) <= n)%nat ->
  scale_commitments (proof_V proofs) = Good ps ->
  check_range_proofs proofs n k proven = Good ((k + length (proof_V proofs))%nat, proven ++ ps).
Proof.
  revert ps. induction proofs as [|p proofs IH]; intros ps k proven Hn Hok Hk Hs; cbn [check_range_proofs].
  - injection Hs as <-. rewrite app_nil_r. cbn. by rewrite Nat.add_0_r.
  - inversion Hok as [|?? [Hne Hv] Hok']; subst.
    rewrite proof_V_cons in *. rewrite length_app in *. rewrite scale_commitments_app in Hs.
    apply bind_Good in Hs as (qs & Hqs & Hs). apply bind_Good in Hs as (rs & Hrs & [= <-]).
    assert (length (bp_V p) <> 0%nat) as Hl by (by destruct (bp_V p)).
    rewrite require_true by (unfold size_t_sub; rewrite Z.mod_small; lia).
    rewrite bind_of_Good, Hv. cbn [try_verify require]. rewrite bind_of_Good, Hqs, bind_of_Good.
    rewrite (IH rs) by (done || lia). by rewrite <- app_assoc, Nat.add_assoc.
Qed.

(** What makes a balance group valid. *)
Record balanced (b : confidential_asset_balance) : Prop := {
  bal_asset : b_asset_id b <> null_hash;
  bal_inputs : (1 <= length (b_pseudo_inputs b) <= 16)%nat;
  bal_destinations : (1 <= length (b_outputs b ++ b_burns b) <= 16)%nat;
  bal_one_asset : Forall (fun i => i_source_asset_id i = b_asset_id b) (b_pseudo_inputs b);
  bal_points : Forall (fun p => isInMainSubgroup p = true)
    ((i_commitment <$> b_pseudo_inputs b) ++ b_outputs b ++ b_burns b);
  bal_range : Forall proof_ok (b_range_proofs b);
  bal_proven : scale_commitments (proof_V (b_range_proofs b)) = Good (b_outputs b ++ b_burns b);
  bal_sum : exists sum, addKeys (i_commitment <$> b_pseudo_inputs b) = Good sum /\
    addKeys (b_outputs b ++ b_burns b) = Good sum;
}.

Lemma forallb_Forall {A} (f : A -> bool) l : forallb f l = true <-> Forall (fun x => f x = true) l.
Proof. rewrite forallb_forall, Forall_forall. by setoid_rewrite list_elem_of_In. Qed.

Lemma balance_sound b : verify_confidential_asset_balance b = Good () -> balanced b.
Proof.
  unfold verify_confidential_asset_balance, MAX_CONFIDENTIAL_ASSET_INPUTS, MAX_CONFIDENTIAL_ASSET_OUTPUTS.
  intros E. apply bind_Good in E as ([] & E1%require_Good & E). apply bind_Good in E as ([] & E2%require_Good & E).
  apply bind_Good in E as ([] & E3%require_Good & E). apply bind_Good in E as ([] & E4%require_Good & E).
  apply bind_Good in E as (ins & [E5 ->]%input_commitments_Good & E).
  apply bind_Good in E as ([] & E6%require_Good & E). cbv zeta in E.
  apply bind_Good in E as ([k proven] & (Hok & Hk & ps & Hps & Hpr)%check_range_proofs_Good & E).
  apply bind_Good in E as ([] & E7%require_Good & E).
  apply bind_Good in E as (rest & E8%match_commitments_Good & E).
  apply bind_Good in E as (rest' & E9%match_commitments_Good & E).
  apply bind_Good in E as (si & Hsi & E). apply bind_Good in E as (so & Hso & E%require_Good).
  apply bool_decide_eq_true in E as ->. apply negb_true_iff, bool_decide_eq_false in E1.
  rewrite !andb_true_iff, !forallb_Forall in E6.
  cbn [app] in Hpr. subst ps. pose proof (scale_commitments_length _ _ Hps) as Hl.
  subst rest proven. rewrite !length_app in Hl.
  assert (rest' = []) as -> by (apply nil_length_inv; lia). rewrite app_nil_r in Hps.
  split; try done; rewrite ?length_app; [lia|lia| |by exists so].
  repeat apply Forall_app_2; tauto.
Qed.

Lemma balance_complete b : balanced b -> verify_confidential_asset_balance b = Good ().
Proof.
  intros [Hasset Hins Hdest Hone Hpoints Hrange Hproven (sum & Hsi & Hso)]. rewrite length_app in Hdest.
  unfold verify_confidential_asset_balance, MAX_CONFIDENTIAL_ASSET_INPUTS, MAX_CONFIDENTIAL_ASSET_OUTPUTS.
  rewrite (bool_decide_eq_false_2 _ Hasset). do 4 read_back.
  rewrite (proj2 (input_commitments_Good _ _ _) (conj Hone eq_refl)), bind_of_Good.
  apply Forall_app in Hpoints as [H1 [H2 H3]%Forall_app].
  apply forallb_Forall in H1, H2, H3. rewrite H1, H2, H3. read_back. cbv zeta.
  pose proof (scale_commitments_length _ _ Hproven) as Hl. rewrite length_app in Hl.
  rewrite (check_range_proofs_complete _ (length (b_outputs b) + length (b_burns b)) _ 0 []
    ltac:(lia) Hrange ltac:(lia) Hproven).
  read_back. cbn [app]. read_back.
  rewrite (proj2 (match_commitments_Good _ _ _ (b_burns b)) eq_refl), bind_of_Good.
  rewrite (proj2 (match_commitments_Good _ _ _ [])) by (by rewrite app_nil_r).
  by rewrite bind_of_Good, Hsi, bind_of_Good, Hso, bind_of_Good, bool_decide_eq_true_2.
Qed.

End Balances.
