(* ===== verification/AssetOwnership.v ===== *)
(** Accepted confidential transactions: every group balances, every input is
    owned by exactly one proof, and no key image occurs twice. *)

From stdpp Require Import gmap.
From S2P Require Import Prelude Bytes AssetTypes AssetExamples AssetCodec AssetConfidential.

(** ** Lists picked by index *)

Lemma omap_lookup_seq {A} (l : list A) : omap (fun j => l !! j) (seq 0 (length l)) = l.
Proof.
  enough (forall k, omap (fun j => (k ++ l) !! j) (seq (length k) (length l)) = l) as Hk by apply (Hk []).
  induction l as [|x l IH]; intros k; [done|]. cbn [length seq omap list_omap].
  rewrite lookup_app_r, Nat.sub_diag by lia. cbn. f_equal.
  specialize (IH (k ++ [x])). rewrite <- app_assoc, length_app, Nat.add_1_r in IH. done.
Qed.

Lemma picked_omap {A} (l : list A) js ps :
  Forall2 (fun j p => l !! j = Some p) js ps -> ps = omap (fun j => l !! j) js.
Proof. induction 1 as [|j p js ps Hj _ IH]; cbn; [done|]. rewrite Hj. by f_equal. Qed.

(** Picking every element once is a permutation. *)
Lemma picked_all {A} (l : list A) js ps : NoDup js -> Forall2 (fun j p => l !! j = Some p) js ps ->
  (forall j, (j < length l)%nat -> j ∈ js) -> ps ≡ₚ l.
Proof.
  intros Hnd Hps Hall. rewrite (picked_omap l js ps Hps).
  trans (omap (fun j => l !! j) (seq 0 (length l))); [|by rewrite omap_lookup_seq].
  apply omap_Permutation. apply NoDup_Permutation; [done|apply NoDup_seq|]. intros j.
  rewrite elem_of_seq. split; [|intros [_ Hj]; by apply Hall].
  intros Hj. apply list_elem_of_lookup in Hj as [i Hi].
  destruct (Forall2_lookup_l _ _ _ _ _ Hps Hi) as (p & _ & Hp).
  apply lookup_lt_Some in Hp. lia.
Qed.

Lemma NoDup_snoc {A} (x : A) l : x ∉ l -> NoDup l -> NoDup (l ++ [x]).
Proof. intros Hx Hl. apply NoDup_app. split_and!; [done|set_solver|apply NoDup_singleton]. Qed.

Section Ownership.
Context `{Crypto, RingCt} (network : Z) (carrier_prefix_hash : bytes).

(** ** The match between inputs and proofs *)

(** [proof] shows the ownership of [input]. *)
Record owns (input : confidential_pseudo_input) (proof : asset_ownership_proof) : Prop := {
  owns_asset : o_asset_id proof = i_source_asset_id input;
  owns_commitment : o_pseudo_input proof = i_commitment input;
  owns_signature : verify_asset_ownership_proof proof network carrier_prefix_hash = Good ();
}.

Lemma find_proof_Good proofs : forall matched k input found r,
  find_proof proofs matched k input found = Good r ->
  forall j, r = Some j -> found = Some j \/ exists i proof, j = (k + i)%nat /\ proofs !! i = Some proof /\
    matched !! i = Some false /\ o_asset_id proof = i_source_asset_id input /\
    o_pseudo_input proof = i_commitment input.
Proof.
  induction proofs as [|p proofs IH]; intros matched k input found r E j Hj; cbn in E.
  { left. congruence. }
  destruct matched as [|m matched]; [done|].
  assert (forall found', find_proof proofs matched (S k) input found' = Good r ->
    found' = Some j \/ exists i proof, j = (k + i)%nat /\ (p :: proofs) !! i = Some proof /\
      (m :: matched) !! i = Some false /\ o_asset_id proof = i_source_asset_id input /\
      o_pseudo_input proof = i_commitment input) as Hnext.
  { intros found' E'. destruct (IH _ _ _ _ _ E' j Hj) as [?|(i & q & -> & Hq)]; [by left|].
    right. exists (S i), q. split; [lia|done]. }
  case_if_in E; [|by apply Hnext].
  apply bind_Good in E as ([] & _ & E). destruct (Hnext _ E) as [[= <-]|?]; [|by right].
  right. exists 0%nat, p. rewrite !andb_true_iff, !bool_decide_eq_true in Heqb.
  destruct Heqb as ((Hm & ?) & ?). destruct m; [done|]. split_and!; done || lia.
Qed.

(** After the inputs [done], the proofs [ps] at [js] have been used. *)
Record used (proofs : list asset_ownership_proof) (done : list confidential_pseudo_input)
  (js : list nat) (ps : list asset_ownership_proof) (st : match_state) : Prop := {
  used_at : Forall2 (fun j p => proofs !! j = Some p) js ps;
  used_once : NoDup js;
  used_matched : forall j, st.1 !! j = Some true -> j ∈ js;
  used_marked : forall j, j ∈ js -> st.1 !! j = Some true;
  used_length : length st.1 = length proofs;
  used_images : st.2 = o_key_image <$> ps;
  used_images_once : NoDup st.2;
  used_owns : Forall2 owns done ps;
}.

Lemma match_input_used proofs input st st' dn js ps : used proofs dn js ps st ->
  match_input proofs network carrier_prefix_hash input st = Good st' ->
  exists j p, used proofs (dn ++ [input]) (js ++ [j]) (ps ++ [p]) st'.
Proof.
  destruct st as [matched images]. intros [Hat Hnd Hm Hmk Hlen Hi Hid How] E. cbn [fst snd] in *.
  unfold match_input in E. apply bind_Good in E as (found & Ef & E).
  apply bind_Good in E as (j & Ej%expect_Good & E).
  destruct (find_proof_Good _ _ _ _ _ _ Ef j Ej) as [[=]|(i & p & -> & Hp & Hf & Ha & Hc)].
  cbn [Nat.add] in *. rewrite Hp in E. cbn in E.
  apply bind_Good in E as ([] & Eimg%require_Good & E). apply bind_Good in E as ([] & Ever & [= <-]).
  apply negb_true_iff, bool_decide_eq_false in Eimg.
  assert (i < length matched)%nat as Hlt by (by apply lookup_lt_Some in Hf).
  exists i, p. split; cbn [fst snd].
  - apply Forall2_app; [done|]. by apply Forall2_cons.
  - apply NoDup_snoc; [|done]. intros Hin. apply Hmk in Hin. congruence.
  - intros j. destruct (decide (i = j)) as [<-|Hne]; [set_solver|].
    rewrite list_lookup_insert_ne by done. intros ?%Hm. set_solver.
  - intros j Hj. apply elem_of_app in Hj. destruct (decide (i = j)) as [<-|Hne].
    + by rewrite list_lookup_insert_eq.
    + rewrite list_lookup_insert_ne by done. apply Hmk. set_solver.
  - by rewrite length_insert.
  - rewrite fmap_app. by rewrite Hi.
  - by apply NoDup_snoc.
  - apply Forall2_app; [done|]. apply Forall2_cons. split; [by split|constructor].
Qed.
Lemma match_inputs_used proofs inputs : forall st st' dn js ps, used proofs dn js ps st ->
  match_inputs proofs network carrier_prefix_hash inputs st = Good st' ->
  exists js' ps', used proofs (dn ++ inputs) js' ps' st'.
Proof.
  induction inputs as [|i inputs IH]; intros st st' dn js ps Hu E; cbn in E.
  - injection E as <-. rewrite app_nil_r. eauto.
  - apply bind_Good in E as (st1 & E1 & E). apply (match_input_used _ _ _ _ _ _ _ Hu) in E1 as (j & p & Hu1).
    apply (IH _ _ _ _ _ Hu1) in E as (js' & ps' & Hu'). rewrite <- app_assoc in Hu'. eauto.
Qed.

Lemma match_groups_used proofs issued balances : forall st st' dn js ps, used proofs dn js ps st ->
  match_groups balances proofs issued network carrier_prefix_hash st = Good st' ->
  exists js' ps', used proofs (dn ++ (balances ≫= owned_inputs issued)) js' ps' st'.
Proof.
  induction balances as [|b balances IH]; intros st st' dn js ps Hu E; cbn in E.
  - injection E as <-. rewrite app_nil_r. eauto.
  - apply bind_Good in E as (st1 & E1 & E). apply (match_inputs_used _ _ _ _ _ _ _ Hu) in E1 as (js1 & ps1 & Hu1).
    apply (IH _ _ _ _ _ Hu1) in E as (js' & ps' & Hu'). rewrite <- app_assoc in Hu'. eauto.
Qed.

Lemma used_initially proofs : used proofs [] [] [] (replicate (length proofs) false, []).
Proof.
  split; cbn [fst snd]; try constructor.
  - intros j [? _]%lookup_replicate_1. done.
  - intros j Hj. by apply not_elem_of_nil in Hj.
  - apply length_replicate.
Qed.

Lemma used_all proofs dn js ps st : used proofs dn js ps st -> forallb id st.1 = true -> ps ≡ₚ proofs.
Proof.
  intros [Hat Hnd Hm _ Hlen _ _ _] Hall. apply (picked_all _ js); [done|done|]. intros j Hj. apply Hm.
  rewrite forallb_Forall, Forall_lookup in Hall. rewrite <- Hlen in Hj.
  apply lookup_lt_is_Some in Hj as [b Hb]. rewrite Hb. f_equal. by apply (Hall j).
Qed.

(** ** The groups *)

(** What the group of an asset must be, given the asset the transaction issues. *)
Definition group_ok (known : gset bytes) (issuance : option issuance_descriptor) (issued : option bytes)
  (b : confidential_asset_balance) : Prop :=
  balanced b /\
  if bool_decide (issued = Some (b_asset_id b))
  then (b_asset_id b ∉ known) /\
    b_pseudo_inputs b = [Pseudo (b_asset_id b) (commit (from_option d_atomic_supply 0 issuance))]
  else b_asset_id b ∈ known.

Lemma check_issuance_group_Good b known supply : check_issuance_group b known supply = Good () <->
  (b_asset_id b ∉ known) /\ b_pseudo_inputs b = [Pseudo (b_asset_id b) (commit supply)].
Proof.
  unfold check_issuance_group. split.
  - intros E. apply bind_Good in E as ([] & E1%require_Good & E%require_Good).
    apply negb_true_iff, bool_decide_eq_false in E1. split; [done|].
    destruct (b_pseudo_inputs b) as [|[s c] [|]]; try done. cbn in E.
    apply andb_true_iff in E as [->%bool_decide_eq_true ->%bool_decide_eq_true]. done.
  - intros [Hk ->]. rewrite (bool_decide_eq_false_2 _ Hk). cbn. by rewrite !bool_decide_eq_true_2.
Qed.

Lemma verify_groups_Good balances known issuance issued : forall seen found r,
  verify_groups balances known issuance issued seen found = Good r <->
  Forall (group_ok known issuance issued) balances /\ NoDup (b_asset_id <$> balances) /\
  (forall b, b ∈ balances -> b_asset_id b ∉ seen) /\
  r = found || existsb (fun b => bool_decide (issued = Some (b_asset_id b))) balances.
Proof.
  induction balances as [|b balances IH]; intros seen found r; cbn [verify_groups].
  { rewrite orb_false_r. split; [|by intros (_ & _ & _ & ->)]. intros [= <-].
    split_and!; [done|constructor|set_solver|done]. }
  cbn [fmap list_fmap existsb]. rewrite Forall_cons, NoDup_cons, orb_assoc. unfold group_ok at 1. split.
  - intros E. apply bind_Good in E as ([] & E1%require_Good & E). apply bind_Good in E as ([] & E2%require_Good & E).
    apply bind_Good in E as ([] & E3 & E). apply bind_Good in E as ([] & E4%balance_sound & E).
    apply IH in E as (Hok & Hnd & Hseen & ->).
    apply negb_true_iff, bool_decide_eq_false in E1. split_and!; [done| |done| |done| |done].
    + destruct (bool_decide (issued = _)); [by apply check_issuance_group_Good|].
      by apply bool_decide_eq_true in E2.
    + intros (c & Hc & Hin)%list_elem_of_fmap. apply (Hseen c Hin). rewrite <- Hc. set_solver.
    + intros c [->|Hc]%elem_of_cons; [done|]. specialize (Hseen c Hc). set_solver.
  - intros (((Hb & Hg) & Hok) & (Hni & Hnd) & Hseen & ->).
    rewrite (bool_decide_eq_false_2 (b_asset_id b ∈ seen)) by (apply Hseen; left).
    rewrite (require_true (negb false)), bind_of_Good by done.
    assert (require (bool_decide (issued = Some (b_asset_id b)) || bool_decide (b_asset_id b ∈ known))
      "confidential balance references an unknown asset" = Good ()) as ->.
    { apply require_true. destruct (bool_decide (issued = _)); [done|]. by apply bool_decide_eq_true. }
    rewrite bind_of_Good.
    assert ((if bool_decide (issued = Some (b_asset_id b))
       then check_issuance_group b known (from_option d_atomic_supply 0 issuance) else Good ()) = Good ()) as ->.
    { destruct (bool_decide (issued = _)); [by apply check_issuance_group_Good|done]. }
    rewrite bind_of_Good, balance_complete, bind_of_Good by done. apply IH. split_and!; try done.
    intros c Hc. apply not_elem_of_union. split; [|apply Hseen; by right].
    intros Heq%elem_of_singleton. apply Hni. rewrite <- Heq. by apply list_elem_of_fmap_2.
Qed.

Lemma transaction_Good balances known issuance :
  verify_confidential_asset_transaction balances known issuance = Good () <->
  exists issued, derive_issued_id issuance = Good issued /\ balances <> [] /\
    Forall (group_ok known issuance issued) balances /\ NoDup (b_asset_id <$> balances) /\
    (forall id, issued = Some id -> id ∈ b_asset_id <$> balances).
Proof.
  unfold verify_confidential_asset_transaction. split.
  - intros E. apply bind_Good in E as ([] & E1%require_Good & E). apply bind_Good in E as (issued & E2 & E).
    apply bind_Good in E as (found & (Hok & Hnd & _ & ->)%verify_groups_Good & E%require_Good).
    exists issued. split_and!; try done; [by intros ->|]. intros id ->.
    destruct issuance as [d|]; [|done]. rewrite bool_decide_eq_true_2 in E by eauto. cbn in E.
    apply existsb_exists in E as (b & Hb%list_elem_of_In & Hi). apply bool_decide_eq_true in Hi as [= ->].
    by apply list_elem_of_fmap_2.
  - intros (issued & Hd & Hne & Hok & Hnd & Hin). rewrite require_true by (by destruct balances).
    rewrite bind_of_Good, Hd, bind_of_Good.
    rewrite (proj2 (verify_groups_Good _ _ _ _ ∅ false _)) by (split_and!; [done|done|set_solver|done]).
    rewrite bind_of_Good. apply require_true. destruct issuance as [d|]; [|done].
    rewrite bool_decide_eq_true_2 by eauto. cbn. apply existsb_exists.
    cbn in Hd. apply bind_Good in Hd as (id & _ & [= <-]).
    destruct (proj1 (list_elem_of_fmap _ _ _) (Hin id eq_refl)) as (b & -> & Hb). exists b.
    split; [by apply list_elem_of_In|by apply bool_decide_eq_true].
Qed.

(** C17: The groups of a transaction are accepted if and only if they are balance
    groups of distinct assets that conserve their commitments, each proven in
    range, where the group of the issued asset, which must be there, is new and
    has one input that commits to the whole supply, and all others are known. *)
Theorem confidential_transaction_exact balances known issuance :
  verify_confidential_asset_transaction balances known issuance = Good () <->
  exists issued, derive_issued_id issuance = Good issued /\ balances <> [] /\
    Forall (group_ok known issuance issued) balances /\ NoDup (b_asset_id <$> balances) /\
    (forall id, issued = Some id -> id ∈ b_asset_id <$> balances).
Proof. apply transaction_Good. Qed.

Lemma ownership_Good balances proofs known issuance :
  verify_confidential_asset_transaction_with_ownership balances proofs known issuance network
    carrier_prefix_hash = Good () ->
  verify_confidential_asset_transaction balances known issuance = Good () /\
  exists issued ps, derive_issued_id issuance = Good issued /\ ps ≡ₚ proofs /\
    Forall2 owns (balances ≫= owned_inputs issued) ps /\ NoDup (o_key_image <$> proofs).
Proof.
  unfold verify_confidential_asset_transaction_with_ownership. intros E.
  apply bind_Good in E as ([] & Et & E). split; [done|]. apply bind_Good in E as (issued & Ei & E).
  apply bind_Good in E as ([matched images] & Em & E%require_Good).
  apply (match_groups_used _ _ _ _ _ _ _ _ (used_initially proofs)) in Em as (js & ps & Hu).
  pose proof (used_all _ _ _ _ _ Hu E) as Hp. exists issued, ps. split_and!; [done|done| |].
  - by apply (used_owns _ _ _ _ _ Hu).
  - rewrite <- Hp, <- (used_images _ _ _ _ _ Hu). by apply (used_images_once _ _ _ _ _ Hu).
Qed.

(** C18: In an accepted transaction the ownership proofs are, in some order, one
    valid proof for each input that does not issue an asset, with the input's
    asset and commitment, and no two of them have the same key image. *)
Theorem inputs_owned_once balances proofs known issuance :
  verify_confidential_asset_transaction_with_ownership balances proofs known issuance network
    carrier_prefix_hash = Good () ->
  exists issued ps, derive_issued_id issuance = Good issued /\ ps ≡ₚ proofs /\
    Forall2 owns (balances ≫= owned_inputs issued) ps /\ NoDup (o_key_image <$> proofs).
Proof. intros E. by apply ownership_Good in E as [_ ?]. Qed.

End Ownership.

(** ** Samples *)

(** Commitments that hide nothing, and signatures that are always accepted. *)
#[global] Instance toy_ringct : RingCt := {
  isInMainSubgroup p := arrayb 32 p;
  scalarmult8 p := Good p;
  addKeys l := Good (append_le 32 0 (foldr (fun p s => of_le p + s) 0 l));
  commit v := append_le 32 0 v;
  bulletproof_plus_VERIFY _ := Good true;
  verRctCLSAGSimple _ _ _ _ := Good true;
}.

Definition sample_range_proof (V : list bytes) : BulletproofPlus :=
  Bulletproof V (fill 1) (fill 1) (fill 1) (fill 1) (fill 1) (fill 1) [fill 2] [fill 3].

(** The issue of all coins. *)
Definition coin_group : confidential_asset_balance :=
  Balance (id_of coin) [Pseudo (id_of coin) (commit 1000)] [commit 1000] []
    [sample_range_proof [commit 1000]].

(** Seven pieces of an asset: four are passed on, three burnt. *)
Definition gold : bytes := fill 8.
Definition gold_group : confidential_asset_balance :=
  Balance gold [Pseudo gold (commit 7)] [commit 4] [commit 3] [sample_range_proof [commit 4; commit 3]].

Definition gold_ring : list asset_ring_member :=
  (fun k => Member gold (fill (100 + Z.of_nat k)) (Ctkey (fill 5) (commit (Z.of_nat k)))) <$> seq 0 16.
Definition gold_proof : asset_ownership_proof :=
  Ownership gold (commit 7) (fill 77) gold_ring (Clsag (replicate 16 (fill 1)) (fill 2) (fill 77) (fill 3)).

Lemma inputs_owned_once_witness : exists issued ps,
  derive_issued_id (Some (p_descriptor coin)) = Good issued /\ ps ≡ₚ [gold_proof] /\
  Forall2 (owns MAINNET (fill 6)) ([coin_group; gold_group] ≫= owned_inputs issued) ps /\
  NoDup (o_key_image <$> [gold_proof]).
Proof.
  apply (inputs_owned_once MAINNET (fill 6) [coin_group; gold_group] [gold_proof] {[ gold ]}
    (Some (p_descriptor coin))).
  vm_compute. reflexivity.
Defined.
