(* ===== verification/AssetWire.v ===== *)
(** The asset envelope of a transaction, [cryptonote_basic/asset_wire.cpp]: its
    shape, its binary encoding, its verification and the ids of its outputs. *)

From stdpp Require Import gmap.
From S2P Require Import Prelude Bytes AssetTypes AssetExamples AssetCodec AssetConfidential AssetOwnership.

Definition ASSET_TRANSACTION_WIRE_VERSION : Z := 2.
Definition MAX_ASSET_BALANCE_GROUPS : nat := 8.
Definition MAX_ASSET_TOTAL_INPUTS : nat := 64.
Definition MAX_ASSET_TOTAL_DESTINATIONS : nat := 64.
Definition MAX_ASSET_OWNERSHIP_PROOFS : nat := 64.
Definition MAX_ASSET_RANGE_PROOFS : nat := 16.
Definition MAX_ASSET_WIRE_BYTES : Z := 256 * 1024.

Definition OUTPUT_ID_DOMAIN : bytes := Eval vm_compute in u "MonzeroAssetOutputIdV1".

(** [rct::identity()] and [crypto::null_pkey] *)
Definition rct_identity : bytes := 1 :: replicate 31 0.
Definition null_pkey : bytes := replicate 32 0.

Record asset_recipient_data := Recipient {
  c_destination : bytes;
  c_tx_public_key : bytes;
  c_encrypted_mask : bytes;
  c_encrypted_amount : bytes;
  c_view_tag : bytes;
}.

Record asset_transaction_payload := Envelope {
  w_version : Z;
  w_network : Z;
  w_carrier_prefix_hash : bytes;
  w_issuance : option issuance_payload;
  w_balances : list confidential_asset_balance;
  w_output_recipients : list (list asset_recipient_data);
  w_ownership_proofs : list asset_ownership_proof;
}.

(** ** Shape *)

Fixpoint check_group_shapes (balances : list confidential_asset_balance)
  (recipients : list (list asset_recipient_data)) (total_inputs total_destinations : nat) : outcome unit :=
  match balances, recipients with
  | [], _ => Good ()
  | _ :: _, [] => Wild
  | b :: balances, rs :: recipients =>
      require (negb ((length (b_pseudo_inputs b) =? 0)%nat
        || (MAX_CONFIDENTIAL_ASSET_INPUTS <? length (b_pseudo_inputs b))%nat
        || (MAX_CONFIDENTIAL_ASSET_OUTPUTS <? length (b_outputs b) + length (b_burns b))%nat
        || (length (b_range_proofs b) =? 0)%nat
        || (MAX_ASSET_RANGE_PROOFS <? length (b_range_proofs b))%nat))
        "asset balance group exceeds canonical limits";;
      require (length rs =? length (b_outputs b))%nat "asset output recipient count does not match commitments";;
      let total_inputs := (total_inputs + length (b_pseudo_inputs b))%nat in
      let total_destinations := (total_destinations + (length (b_outputs b) + length (b_burns b)))%nat in
      require (negb ((MAX_ASSET_TOTAL_INPUTS <? total_inputs)%nat
        || (MAX_ASSET_TOTAL_DESTINATIONS <? total_destinations)%nat))
        "asset transaction exceeds aggregate input or destination limits";;
      check_group_shapes balances recipients total_inputs total_destinations
  end.

Definition proof_shape (proof : asset_ownership_proof) : bool :=
  (length (o_ring proof) =? CONFIDENTIAL_ASSET_RING_SIZE)%nat
  && (length (cl_s (o_signature proof)) =? CONFIDENTIAL_ASSET_RING_SIZE)%nat.

Definition validate_asset_transaction_payload_shape (p : asset_transaction_payload) : outcome unit :=
  require (w_version p =? ASSET_TRANSACTION_WIRE_VERSION) "unsupported asset transaction wire version";;
  require (public_network (w_network p)) "asset transaction requires a public network";;
  require (negb (bool_decide (w_carrier_prefix_hash p = null_hash))) "asset transaction has a zero carrier hash";;
  require (negb ((length (w_balances p) =? 0)%nat || (MAX_ASSET_BALANCE_GROUPS <? length (w_balances p))%nat))
    "asset transaction has an invalid balance-group count";;
  require (length (w_output_recipients p) =? length (w_balances p))%nat
    "asset transaction output recipients do not match balance groups";;
  require (length (w_ownership_proofs p) <=? MAX_ASSET_OWNERSHIP_PROOFS)%nat
    "asset transaction has too many ownership proofs";;
  check_group_shapes (w_balances p) (w_output_recipients p) 0 0;;
  require (forallb proof_shape (w_ownership_proofs p)) "asset ownership proof has a noncanonical ring size".

(** ** Writing *)

(** [writer::count]: the size as one byte. *)
Definition write_count (n : nat) : bytes := [Z.of_nat n mod 256].

Definition write_keys (keys : list bytes) : bytes := write_count (length keys) ++ concat keys.

Definition write_range_proof (p : BulletproofPlus) : bytes :=
  write_keys (bp_V p) ++ bp_A p ++ bp_A1 p ++ bp_B p ++ bp_r1 p ++ bp_s1 p ++ bp_d1 p
  ++ write_keys (bp_L p) ++ write_keys (bp_R p).

Definition write_pseudo_input (i : confidential_pseudo_input) : bytes :=
  i_source_asset_id i ++ i_commitment i.

Definition write_output (output : bytes) (r : asset_recipient_data) : bytes :=
  c_destination r ++ output ++ c_tx_public_key r ++ c_encrypted_mask r ++ c_encrypted_amount r ++ c_view_tag r.

Fixpoint write_outputs (outputs : list bytes) (recipients : list asset_recipient_data) : outcome bytes :=
  match outputs, recipients with
  | [], _ => Good []
  | _ :: _, [] => Wild
  | o :: outputs, r :: recipients =>
      rest ← write_outputs outputs recipients;
      Good (write_output o r ++ rest)
  end.

Definition write_group (b : confidential_asset_balance) (recipients : list asset_recipient_data) : outcome bytes :=
  outputs ← write_outputs (b_outputs b) recipients;
  Good (b_asset_id b
    ++ write_count (length (b_pseudo_inputs b)) ++ concat (write_pseudo_input <$> b_pseudo_inputs b)
    ++ write_count (length (b_outputs b)) ++ outputs
    ++ write_keys (b_burns b)
    ++ write_count (length (b_range_proofs b)) ++ concat (write_range_proof <$> b_range_proofs b)).

Fixpoint write_groups (balances : list confidential_asset_balance)
  (recipients : list (list asset_recipient_data)) : outcome bytes :=
  match balances, recipients with
  | [], _ => Good []
  | _ :: _, [] => Wild
  | b :: balances, rs :: recipients =>
      group ← write_group b rs;
      rest ← write_groups balances recipients;
      Good (group ++ rest)
  end.

Definition write_member (m : asset_ring_member) : bytes :=
  m_asset_id m ++ m_output_id m ++ ct_dest (m_public_output m) ++ ct_mask (m_public_output m).

Definition write_ownership_proof (p : asset_ownership_proof) : bytes :=
  o_asset_id p ++ o_pseudo_input p ++ o_key_image p ++ concat (write_member <$> o_ring p)
  ++ cl_c1 (o_signature p) ++ cl_D (o_signature p) ++ concat (cl_s (o_signature p)).

Section Wire.
Context `{Crypto}.

Definition write_issuance (issuance : option issuance_payload) : outcome bytes :=
  match issuance with
  | None => Good [0]
  | Some p =>
      e ← encode_issuance_payload p;
      require (Z.of_nat (length e) <=? UINT16_MAX) "asset issuance payload is too large";;
      Good ([1] ++ u16_le (Z.of_nat (length e)) ++ e)
  end.

Definition encode_asset_transaction_payload (p : asset_transaction_payload) : outcome bytes :=
  validate_asset_transaction_payload_shape p;;
  issuance ← write_issuance (w_issuance p);
  groups ← write_groups (w_balances p) (w_output_recipients p);
  let out := [w_version p] ++ [w_network p] ++ w_carrier_prefix_hash p ++ issuance
    ++ write_count (length (w_balances p)) ++ groups
    ++ write_count (length (w_ownership_proofs p)) ++ concat (write_ownership_proof <$> w_ownership_proofs p) in
  require (Z.of_nat (length out) <=? MAX_ASSET_WIRE_BYTES) "asset transaction payload exceeds maximum size";;
  Good out.

(** ** Reading *)

(** [reader::pod], with the message of the failure. *)
Definition pod (n : nat) (message : string) (s : bytes) : outcome (bytes * bytes) := expect (read_pod n s) message.
Arguments pod n%_nat message%_string s.

Definition byte (message : string) (s : bytes) : outcome (Z * bytes) :=
  match s with b :: s => Good (b, s) | [] => Bad message end.
Arguments byte message%_string s.

(** [reader::count] *)
Definition count (limit : nat) (message : string) (s : bytes) : outcome (nat * bytes) :=
  '(b, s) ← byte message s;
  require (b <=? Z.of_nat limit) message;;
  Good (Z.to_nat b, s).
Arguments count limit%_nat message%_string s.

(** [n] items one after the other. *)
Fixpoint items {A} (read : bytes -> outcome (A * bytes)) (n : nat) (s : bytes) : outcome (list A * bytes) :=
  match n with
  | O => Good ([], s)
  | S n =>
      '(a, s) ← read s;
      '(l, s) ← items read n s;
      Good (a :: l, s)
  end.

Definition read_keys (limit : nat) (message : string) (s : bytes) : outcome (list bytes * bytes) :=
  '(n, s) ← count limit message s;
  items (pod 32 message) n s.
Arguments read_keys limit%_nat message%_string s.

Definition read_range_proof (message : string) (s : bytes) : outcome (BulletproofPlus * bytes) :=
  '(V, s) ← read_keys MAX_CONFIDENTIAL_ASSET_OUTPUTS message s;
  '(A, s) ← pod 32 message s;
  '(A1, s) ← pod 32 message s;
  '(B, s) ← pod 32 message s;
  '(r1, s) ← pod 32 message s;
  '(s1, s) ← pod 32 message s;
  '(d1, s) ← pod 32 message s;
  '(L, s) ← read_keys 16 message s;
  '(R, s) ← read_keys 16 message s;
  require (negb (length L =? 0)%nat && (length L =? length R)%nat) message;;
  Good (Bulletproof V A A1 B r1 s1 d1 L R, s).
Arguments read_range_proof message%_string s.

Definition read_pseudo_input (s : bytes) : outcome (confidential_pseudo_input * bytes) :=
  '(source, s) ← pod 32 "truncated asset pseudo input" s;
  '(commitment, s) ← pod 32 "truncated asset pseudo input" s;
  Good (Pseudo source commitment, s).

Definition read_output (s : bytes) : outcome (bytes * asset_recipient_data * bytes) :=
  let message := "truncated asset output"%string in
  '(destination, s) ← pod 32 message s;
  '(output, s) ← pod 32 message s;
  '(tx_public_key, s) ← pod 32 message s;
  '(mask, s) ← pod 32 message s;
  '(amount, s) ← pod 32 message s;
  '(view_tag, s) ← pod 1 message s;
  Good (output, Recipient destination tx_public_key mask amount view_tag, s).

Definition read_group (s : bytes) : outcome (confidential_asset_balance * list asset_recipient_data * bytes) :=
  '(asset_id, s) ← pod 32 "truncated or invalid asset inputs" s;
  '(inputs, s) ← count MAX_CONFIDENTIAL_ASSET_INPUTS "truncated or invalid asset inputs" s;
  require (negb (inputs =? 0)%nat) "truncated or invalid asset inputs";;
  '(pseudo_inputs, s) ← items read_pseudo_input inputs s;
  '(outputs, s) ← count MAX_CONFIDENTIAL_ASSET_OUTPUTS "invalid asset output count" s;
  '(outs, s) ← items read_output outputs s;
  '(burns, s) ← read_keys (MAX_CONFIDENTIAL_ASSET_OUTPUTS - outputs) "invalid asset burn or range-proof count" s;
  '(proofs, s) ← count MAX_ASSET_RANGE_PROOFS "invalid asset burn or range-proof count" s;
  require (negb (proofs =? 0)%nat) "invalid asset burn or range-proof count";;
  '(range_proofs, s) ← items (read_range_proof "truncated or noncanonical asset range proof") proofs s;
  Good (Balance asset_id pseudo_inputs outs.*1 burns range_proofs, outs.*2, s).

Definition read_member (s : bytes) : outcome (asset_ring_member * bytes) :=
  let message := "truncated asset ownership ring"%string in
  '(asset_id, s) ← pod 32 message s;
  '(output_id, s) ← pod 32 message s;
  '(dest, s) ← pod 32 message s;
  '(mask, s) ← pod 32 message s;
  Good (Member asset_id output_id (Ctkey dest mask), s).

Definition read_ownership_proof (s : bytes) : outcome (asset_ownership_proof * bytes) :=
  '(asset_id, s) ← pod 32 "truncated asset ownership proof" s;
  '(pseudo_input, s) ← pod 32 "truncated asset ownership proof" s;
  '(key_image, s) ← pod 32 "truncated asset ownership proof" s;
  '(ring, s) ← items read_member CONFIDENTIAL_ASSET_RING_SIZE s;
  '(c1, s) ← pod 32 "truncated asset CLSAG header" s;
  '(D, s) ← pod 32 "truncated asset CLSAG header" s;
  '(responses, s) ← items (pod 32 "truncated asset CLSAG responses") CONFIDENTIAL_ASSET_RING_SIZE s;
  Good (Ownership asset_id pseudo_input key_image ring (Clsag responses c1 key_image D), s).

Definition read_issuance (s : bytes) : outcome (option issuance_payload * bytes) :=
  '(has_issuance, s) ← byte "truncated asset transaction header" s;
  require (has_issuance <=? 1) "truncated asset transaction header";;
  if negb (has_issuance =? 0) then
    '(size, s) ← expect (read_u16_le s) "truncated asset issuance length";
    '(issuance, s) ← pod (Z.to_nat size) "truncated asset issuance payload" s;
    decoded ← decode_issuance_payload issuance;
    Good (Some decoded, s)
  else Good (None, s).

Definition decode_asset_transaction_payload (encoded : bytes) : outcome asset_transaction_payload :=
  require (negb ((length encoded =? 0)%nat || (MAX_ASSET_WIRE_BYTES <? Z.of_nat (length encoded))))
    "asset transaction payload has an invalid size";;
  '(version, s) ← byte "truncated asset transaction header" encoded;
  '(network, s) ← byte "truncated asset transaction header" s;
  '(carrier_prefix_hash, s) ← pod 32 "truncated asset transaction header" s;
  '(issuance, s) ← read_issuance s;
  '(groups, s) ← count MAX_ASSET_BALANCE_GROUPS "invalid asset balance-group count" s;
  require (negb (groups =? 0)%nat) "invalid asset balance-group count";;
  '(balances, s) ← items read_group groups s;
  '(ownership_count, s) ← count MAX_ASSET_OWNERSHIP_PROOFS "invalid asset ownership-proof count" s;
  '(proofs, s) ← items read_ownership_proof ownership_count s;
  let candidate := Envelope version network carrier_prefix_hash issuance balances.*1 balances.*2 proofs in
  require (length s =? 0)%nat "trailing asset transaction bytes";;
  relabel (validate_asset_transaction_payload_shape candidate) "invalid asset transaction payload";;
  Good candidate.

End Wire.

(** ** Verification *)

Section Verify.
Context `{Crypto, RingCt}.

Definition recipient_valid (r : asset_recipient_data) : bool :=
  isInMainSubgroup (c_destination r) && negb (bool_decide (c_destination r = rct_identity))
  && negb (bool_decide (c_tx_public_key r = null_pkey)) && check_key (c_tx_public_key r).

Definition verify_asset_transaction_payload (p : asset_transaction_payload) (known_assets : gset bytes)
  (expected_network : Z) (expected_carrier_prefix_hash : bytes) : outcome unit :=
  validate_asset_transaction_payload_shape p;;
  require (w_network p =? expected_network) "asset transaction belongs to a different network";;
  require (bool_decide (w_carrier_prefix_hash p = expected_carrier_prefix_hash))
    "asset transaction carrier hash mismatch";;
  match w_issuance p with
  | Some i => verify_issuance_authorization (p_descriptor i) (p_issuer_signature i)
  | None => Good ()
  end;;
  require (forallb (forallb recipient_valid) (w_output_recipients p))
    "asset transaction contains invalid recipient data";;
  verify_confidential_asset_transaction_with_ownership (w_balances p) (w_ownership_proofs p) known_assets
    (p_descriptor <$> w_issuance p) expected_network expected_carrier_prefix_hash.

Definition derive_asset_output_id (network : Z) (carrier_prefix_hash asset_id : bytes) (output_index : Z)
  (destination commitment : bytes) : outcome bytes :=
  require (public_network network) "asset output identity requires a public network";;
  require (negb (bool_decide (carrier_prefix_hash = null_hash) || bool_decide (asset_id = null_hash)))
    "asset output identity has a zero carrier or asset id";;
  require (isInMainSubgroup destination && isInMainSubgroup commitment)
    "asset output identity contains an invalid point";;
  id ← network_id network;
  Good (cn_fast_hash (OUTPUT_ID_DOMAIN ++ id ++ carrier_prefix_hash ++ asset_id ++ u32_le output_index
    ++ destination ++ commitment)).

End Verify.
