(* ===== verification/AssetWireCodec.v ===== *)
(** The asset envelope has one encoding: the pieces it is read from are the
    pieces it is written as. *)

From stdpp Require Import gmap.
From S2P Require Import Prelude Bytes AssetTypes AssetExamples AssetCodec AssetRegistry AssetRegistryProps AssetSnapshot.
From S2P Require Import AssetConfidential AssetOwnership AssetWire.

(** ** Formats

    A writer and a reader of a piece of the envelope that undo each other: what
    is written is read back whatever follows, and what is read was written. *)
Class Format {A : Type} (wf : A -> Prop) (write : A -> bytes) (read : bytes -> outcome (A * bytes)) : Prop := {
  read_write : forall a s, wf a -> read (write a ++ s) = Good (a, s);
  write_read : forall s a t, is_bytes s -> read s = Good (a, t) -> wf a /\ is_bytes t /\ s = write a ++ t;
  read_tame : forall s, tame (read s);
}.

#[global] Instance pod_format n message : Format (array n) id (pod n message).
Proof.
  split; unfold pod, id.
  - intros a s Ha. by rewrite read_pod_app by by apply array_length.
  - intros s a t Hs E%expect_Good. by apply read_pod_bytes in E.
  - intros s. apply tame_expect.
Qed.

#[global] Instance byte_format message : Format (fun b => 0 <= b < 256) (fun b => [b]) (byte message).
Proof.
  split.
  - done.
  - intros [|b s] b' t Hs E; [done|]. injection E as <- <-. by inversion Hs.
  - by intros [|b s].
Qed.

#[global] Instance count_format limit message : (limit < 256)%nat ->
  Format (fun n => (n <= limit)%nat) write_count (count limit message).
Proof.
  intros Hlim. split; unfold count, write_count.
  - intros n s Hn. rewrite (read_write (Format:=byte_format message)) by (apply Z.mod_pos_bound; lia).
    rewrite bind_of_Good, Z.mod_small, require_true, bind_of_Good, Nat2Z.id by lia. done.
  - intros s n t Hs E. apply bind_Good in E as ([b u] & Eb & E).
    apply (write_read (Format:=byte_format message)) in Eb as (Hb & Hu & ->); [|done].
    apply bind_Good in E as ([] & Hle%require_Good & [= <- <-]).
    split_and!; [lia|done|]. by rewrite Z2Nat.id, Z.mod_small by lia.
  - intros s. apply tame_bind; [apply (read_tame (Format:=byte_format message))|]. intros [b t] _.
    tame_step. done.
Qed.

(** A list of [n] items. *)
#[global] Instance items_format {A} (wf : A -> Prop) write read n : Format wf write read ->
  Format (fun l => length l = n /\ Forall wf l) (fun l => concat (write <$> l)) (items read n).
Proof.
  intros Hf. split.
  - intros l s [<- Hl]. induction Hl as [|a l Ha Hl IH]; [done|]. cbn [length items fmap list_fmap concat].
    rewrite <- app_assoc, read_write, bind_of_Good by done. by rewrite IH.
  - induction n as [|n IH]; intros s l t Hs E; cbn [items] in E.
    + by injection E as <- <-.
    + apply bind_Good in E as ([a u] & Ea & E). apply write_read in Ea as (Ha & Hu & ->); [|done].
      apply bind_Good in E as ([l' u'] & El & [= <- <-]). apply IH in El as ((Hn & Hl) & Ht & ->); [|done].
      split_and!; [cbn; lia|by constructor|done|]. cbn [fmap list_fmap concat]. by rewrite app_assoc.
  - induction n as [|n IH]; intros s; cbn [items]; [done|].
    apply tame_bind; [apply read_tame|]. intros [a u] _. apply tame_bind; [apply IH|]. by intros [l u'] _.
Qed.

(** A list with its length in front. *)
Lemma counted_format {A} (wf : A -> Prop) write read limit message : (limit < 256)%nat ->
  Format wf write read ->
  Format (fun l => (length l <= limit)%nat /\ Forall wf l)
    (fun l => write_count (length l) ++ concat (write <$> l))
    (fun s => '(n, s) ← count limit message s; items read n s).
Proof.
  intros Hlim Hf. pose proof (count_format limit message Hlim) as Hc. split.
  - intros l s [Hn Hl]. rewrite <- app_assoc, read_write, bind_of_Good by done.
    by apply (read_write (Format:=items_format wf write read (length l) Hf)).
  - intros s l t Hs E. apply bind_Good in E as ([n u] & En & E). apply write_read in En as (Hn & Hu & ->); [|done].
    apply (write_read (Format:=items_format wf write read n Hf)) in E as ((Hln & Hl) & Ht & ->); [|done].
    subst n. by rewrite app_assoc.
  - intros s. apply tame_bind; [apply read_tame|]. intros [n u] _.
    apply (read_tame (Format:=items_format wf write read n Hf)).
Qed.

(** Keys with their number in front. *)
Definition keys_wf (limit : nat) (keys : list bytes) : Prop :=
  (length keys <= limit)%nat /\ Forall (array 32) keys.

Lemma keys_format limit message : (limit < 256)%nat ->
  Format (keys_wf limit) write_keys (read_keys limit message).
Proof.
  intros Hlim. destruct (counted_format (array 32) id (pod 32 message) limit message Hlim _) as [H1 H2 H3].
  unfold write_keys, read_keys. split; [|intros s l t Hs E|done].
  - intros l s Hl. specialize (H1 l s Hl). by rewrite list_fmap_id in H1.
  - specialize (H2 s l t Hs E). by rewrite list_fmap_id in H2.
Qed.

Lemma pod_write n message a s : array n a -> pod n message (a ++ s) = Good (a, s).
Proof. apply (read_write (Format:=pod_format n message)). Qed.

(** The steps of a reader, in the two directions: [back] reads what was written,
    [fore E] says what the reader in [E] has read. *)
Ltac back :=
  cbv beta iota;
  lazymatch goal with
  | |- pod ?n ?m (?a ++ ?s) ≫= _ = _ => rewrite (pod_write n m a s) by done
  | |- byte ?m ([?b] ++ ?s) ≫= _ = _ => change (byte m ([b] ++ s)) with (@Good (Z * bytes) (b, s))
  | |- read_keys ?l ?m (write_keys ?k ++ ?s) ≫= _ = _ =>
      rewrite (read_write (Format:=keys_format l m ltac:(unfold MAX_CONFIDENTIAL_ASSET_OUTPUTS; lia)) k s) by done
  | |- count ?l ?m (write_count ?n ++ ?s) ≫= _ = _ =>
      rewrite (read_write (Format:=count_format l m ltac:(by apply Nat.ltb_lt)) n s) by lia
  | |- require ?b ?e ≫= _ = _ => rewrite (require_true b e) by lia
  end; rewrite bind_of_Good.

Ltac fore E :=
  cbv beta iota in E;
  lazymatch type of E with
  | pod ?n ?m _ ≫= _ = Good _ =>
      let R := fresh "R" in
      apply bind_Good in E as ([? ?] & R & E);
      apply (write_read (Format:=pod_format n m)) in R as (? & ? & ->); [|assumption]; unfold id in *
  | byte ?m _ ≫= _ = Good _ =>
      let R := fresh "R" in
      apply bind_Good in E as ([? ?] & R & E);
      apply (write_read (Format:=byte_format m)) in R as (? & ? & ->); [|assumption]
  | read_keys ?l ?m _ ≫= _ = Good _ =>
      let R := fresh "R" in
      apply bind_Good in E as ([? ?] & R & E);
      apply (write_read (Format:=keys_format l m ltac:(unfold MAX_CONFIDENTIAL_ASSET_OUTPUTS; lia))) in R
        as (? & ? & ->); [|assumption]
  | count ?l ?m _ ≫= _ = Good _ =>
      let R := fresh "R" in
      apply bind_Good in E as ([? ?] & R & E);
      apply (write_read (Format:=count_format l m ltac:(by apply Nat.ltb_lt))) in R as (? & ? & ->); [|assumption]
  | require _ _ ≫= _ = Good _ =>
      let R := fresh "R" in apply bind_Good in E as ([] & R & E); apply require_Good in R
  end.

(** A step of a reader is tame. *)
Ltac tame_read :=
  cbv beta iota;
  lazymatch goal with
  | |- tame (pod ?n ?m _ ≫= _) => apply tame_bind; [apply (read_tame (Format:=pod_format n m))|]; intros [? ?] _
  | |- tame (byte ?m _ ≫= _) => apply tame_bind; [apply (read_tame (Format:=byte_format m))|]; intros [? ?] _
  | |- tame (read_keys ?l ?m _ ≫= _) =>
      apply tame_bind;
      [apply (read_tame (Format:=keys_format l m ltac:(unfold MAX_CONFIDENTIAL_ASSET_OUTPUTS; lia)))|];
      intros [? ?] _
  | |- tame (count ?l ?m _ ≫= _) =>
      apply tame_bind; [apply (read_tame (Format:=count_format l m ltac:(by apply Nat.ltb_lt)))|];
      intros [? ?] _
  | |- tame (require _ _ ≫= _) => apply tame_bind; [apply tame_require|]; intros ? _
  end.

(** ** The pieces of the envelope *)

(** The shape of a range proof the decoder accepts. *)
Record range_wf (p : BulletproofPlus) : Prop := {
  wf_V : keys_wf 16 (bp_V p);
  wf_scalars : array 32 (bp_A p) /\ array 32 (bp_A1 p) /\ array 32 (bp_B p) /\ array 32 (bp_r1 p) /\
    array 32 (bp_s1 p) /\ array 32 (bp_d1 p);
  wf_L : keys_wf 16 (bp_L p);
  wf_R : keys_wf 16 (bp_R p);
  wf_LR : length (bp_L p) <> 0%nat /\ length (bp_L p) = length (bp_R p);
}.

#[global] Instance range_format message : Format range_wf write_range_proof (read_range_proof message).
Proof.
  split; unfold read_range_proof, write_range_proof, MAX_CONFIDENTIAL_ASSET_OUTPUTS.
  - intros p s [HV (HA & HA1 & HB & Hr & Hs & Hd) HL HR HLR]. rewrite <- !app_assoc. repeat back. by destruct p.
  - intros s p t Hs E. repeat fore E. injection E as <- <-.
    split_and!; [|done|by rewrite <- !app_assoc]. split; cbn; try done; lia.
  - intros s. repeat tame_read. done.
Qed.

Definition pseudo_wf (i : confidential_pseudo_input) : Prop :=
  array 32 (i_source_asset_id i) /\ array 32 (i_commitment i).

#[global] Instance pseudo_format : Format pseudo_wf write_pseudo_input read_pseudo_input.
Proof.
  split; unfold read_pseudo_input, write_pseudo_input.
  - intros i s [Ha Hc]. rewrite <- !app_assoc. repeat back. by destruct i.
  - intros s p t Hs E. repeat fore E. injection E as <- <-. split_and!; [done..|by rewrite <- app_assoc].
  - intros s. repeat tame_read. done.
Qed.

Record recipient_wf (r : asset_recipient_data) : Prop := {
  wf_destination : array 32 (c_destination r);
  wf_tx_key : array 32 (c_tx_public_key r);
  wf_mask : array 32 (c_encrypted_mask r);
  wf_amount : array 32 (c_encrypted_amount r);
  wf_tag : array 1 (c_view_tag r);
}.

Definition out_wf (o : bytes * asset_recipient_data) : Prop := array 32 o.1 /\ recipient_wf o.2.

Lemma Forall_zip {A B} (P : A -> Prop) (Q : B -> Prop) l k :
  Forall P l -> Forall Q k -> Forall (fun o => P o.1 /\ Q o.2) (zip l k).
Proof.
  intros Hl. revert k. induction Hl as [|a l Ha Hl IH]; intros k Hk; [constructor|].
  destruct Hk as [|b k Hb Hk]; constructor; [done|]. by apply IH.
Qed.

#[global] Instance output_format : Format out_wf (fun o => write_output o.1 o.2) read_output.
Proof.
  split; unfold read_output, write_output.
  - intros [o r] s [Ho [Hd Hk Hm Ha Hv]]. cbn [fst snd] in *. rewrite <- !app_assoc. repeat back. by destruct r.
  - intros s p t Hs E. repeat fore E. injection E as <- <-. split_and!; [split; [done|by split]|done|by rewrite <- !app_assoc].
  - intros s. repeat tame_read. done.
Qed.

Definition member_wf (m : asset_ring_member) : Prop :=
  array 32 (m_asset_id m) /\ array 32 (m_output_id m) /\ array 32 (ct_dest (m_public_output m)) /\
  array 32 (ct_mask (m_public_output m)).

#[global] Instance member_format : Format member_wf write_member read_member.
Proof.
  split; unfold read_member, write_member.
  - intros m s (Ha & Ho & Hd & Hm). rewrite <- !app_assoc. repeat back. by destruct m as [a o []].
  - intros s p t Hs E. repeat fore E. injection E as <- <-. split_and!; [by split_and!|done|by rewrite <- !app_assoc].
  - intros s. repeat tame_read. done.
Qed.

Record proof_wf (p : asset_ownership_proof) : Prop := {
  wf_proof_head : array 32 (o_asset_id p) /\ array 32 (o_pseudo_input p) /\ array 32 (o_key_image p);
  wf_ring : length (o_ring p) = 16%nat /\ Forall member_wf (o_ring p);
  wf_clsag : array 32 (cl_c1 (o_signature p)) /\ array 32 (cl_D (o_signature p));
  wf_responses : length (cl_s (o_signature p)) = 16%nat /\ Forall (array 32) (cl_s (o_signature p));
  (** The key image of the signature is not written: it is the one of the proof. *)
  wf_image : cl_I (o_signature p) = o_key_image p;
}.

Lemma items_write {A} (wf : A -> Prop) write read `{!Format wf write read} n l s :
  length l = n -> Forall wf l -> items read n (concat (write <$> l) ++ s) = Good (l, s).
Proof. intros Hn Hl. by apply (read_write (Format:=items_format wf write read n _)). Qed.

Lemma items_read {A} (wf : A -> Prop) write read `{!Format wf write read} n s l t :
  is_bytes s -> items read n s = Good (l, t) ->
  length l = n /\ Forall wf l /\ is_bytes t /\ s = concat (write <$> l) ++ t.
Proof. intros Hs E. by apply (write_read (Format:=items_format wf write read n _)) in E as ([??] & ? & ?). Qed.

Lemma items_tame {A} (wf : A -> Prop) write read `{!Format wf write read} n s : tame (items read n s).
Proof. apply (read_tame (Format:=items_format wf write read n _)). Qed.

#[global] Instance ownership_format : Format proof_wf write_ownership_proof read_ownership_proof.
Proof.
  split; unfold read_ownership_proof, write_ownership_proof, CONFIDENTIAL_ASSET_RING_SIZE.
  - intros p s [(Ha & Hp & Hk) [Hrl Hr] [Hc HD] [Hsl Hs] HI]. rewrite <- !app_assoc. do 3 back.
    rewrite (items_write member_wf), bind_of_Good by (done || apply _). do 2 back.
    rewrite <- (list_fmap_id (cl_s (o_signature p))).
    rewrite (items_write (array 32) id), bind_of_Good by (done || apply _).
    destruct p as [a pi k r [sc c i d]]. cbn in *. by subst.
  - intros s p t Hs E. do 3 fore E. cbv beta iota in E.
    apply bind_Good in E as ([ring u1] & R & E).
    apply (items_read member_wf write_member) in R as (Hrl & Hr & Hu1 & ->); [|done || apply _..]. do 2 fore E. cbv beta iota in E.
    apply bind_Good in E as ([sc u2] & R & E).
    apply (items_read (array 32) id) in R as (Hsl & Hsc & Hu2 & ->); [|done || apply _..]. injection E as <- <-.
    split_and!; [by split|done|]. cbn [cl_s o_signature cl_c1 cl_D o_asset_id o_pseudo_input o_key_image o_ring].
    rewrite list_fmap_id. by rewrite <- !app_assoc.
  - intros s. do 3 tame_read. apply tame_bind; [apply (items_tame member_wf write_member); apply _|]. intros [? ?] _.
    do 2 tame_read. apply tame_bind; [apply (items_tame (array 32) id); apply _|]. by intros [? ?] _.
Qed.

(** A balance group with its recipients. *)
Abbreviation group := (confidential_asset_balance * list asset_recipient_data)%type.

Record group_wf (g : group) : Prop := {
  wf_group_asset : array 32 (b_asset_id g.1);
  wf_group_inputs : (1 <= length (b_pseudo_inputs g.1) <= 16)%nat /\ Forall pseudo_wf (b_pseudo_inputs g.1);
  wf_group_outputs : (length (b_outputs g.1) <= 16)%nat /\ Forall (array 32) (b_outputs g.1);
  wf_group_recipients : length g.2 = length (b_outputs g.1) /\ Forall recipient_wf g.2;
  wf_group_burns : keys_wf (16 - length (b_outputs g.1)) (b_burns g.1);
  wf_group_proofs : (1 <= length (b_range_proofs g.1) <= 16)%nat /\ Forall range_wf (b_range_proofs g.1);
}.

Definition group_bytes (g : group) : bytes :=
  b_asset_id g.1
  ++ write_count (length (b_pseudo_inputs g.1)) ++ concat (write_pseudo_input <$> b_pseudo_inputs g.1)
  ++ write_count (length (b_outputs g.1))
  ++ concat ((fun o => write_output o.1 o.2) <$> zip (b_outputs g.1) g.2)
  ++ write_keys (b_burns g.1)
  ++ write_count (length (b_range_proofs g.1)) ++ concat (write_range_proof <$> b_range_proofs g.1).

Lemma write_outputs_zip outputs : forall recipients, length recipients = length outputs ->
  write_outputs outputs recipients = Good (concat ((fun o => write_output o.1 o.2) <$> zip outputs recipients)).
Proof.
  induction outputs as [|o outputs IH]; intros [|r rs] Hl; try done.
  cbn [write_outputs zip_with fmap list_fmap concat fst snd]. rewrite IH by (cbn in Hl; lia). done.
Qed.

Lemma write_group_bytes b rs : length rs = length (b_outputs b) -> write_group b rs = Good (group_bytes (b, rs)).
Proof. intros Hl. unfold write_group. rewrite write_outputs_zip by done. done. Qed.

#[global] Instance group_format : Format group_wf group_bytes read_group.
Proof.
  split; unfold read_group, group_bytes, MAX_CONFIDENTIAL_ASSET_INPUTS, MAX_CONFIDENTIAL_ASSET_OUTPUTS,
    MAX_ASSET_RANGE_PROOFS.
  - intros [b rs] s [Ha [Hin Hi] [Hon Ho] [Hrn Hr] Hb [Hpn Hp]]. cbn [fst snd] in *.
    rewrite <- !app_assoc. do 3 back. rewrite (items_write pseudo_wf), bind_of_Good by (done || apply _). back.
    rewrite (items_write out_wf), bind_of_Good by (try apply Forall_zip; rewrite ?length_zip_with; done || lia || apply _).
    do 3 back.
    rewrite (items_write range_wf), bind_of_Good by (done || apply _).
    rewrite fst_zip, snd_zip by lia. by destruct b.
  - intros s g t Hs E. do 3 fore E. cbv beta iota in E.
    apply bind_Good in E as ([ins u1] & G & E).
    apply (items_read pseudo_wf write_pseudo_input) in G as (Hin & Hi & Hu1 & ->); [|done || apply _..]. fore E. cbv beta iota in E.
    apply bind_Good in E as ([outs u2] & G & E).
    apply (items_read out_wf (fun o => write_output o.1 o.2)) in G as (Hon & Ho & Hu2 & ->); [|done || apply _..]. do 3 fore E. cbv beta iota in E.
    apply bind_Good in E as ([proofs u4] & G & E).
    apply (items_read range_wf write_range_proof) in G as (Hpn & Hp & Hu4 & ->); [|done || apply _..]. injection E as <- <-.
    assert (Forall (array 32) outs.*1 /\ Forall recipient_wf outs.*2) as [Ho1 Ho2].
    { rewrite !Forall_fmap. split; (eapply Forall_impl; [exact Ho|]); by intros ? [? ?]. }
    subst. split_and!; [split; cbn [fst snd b_asset_id b_pseudo_inputs b_outputs b_burns b_range_proofs]|done|].
    + done.
    + split; [lia|done].
    + rewrite length_fmap. split; [lia|done].
    + by rewrite !length_fmap.
    + by rewrite length_fmap.
    + split; [lia|done].
    + cbn [fst snd b_asset_id b_pseudo_inputs b_outputs b_burns b_range_proofs].
      rewrite zip_fst_snd, length_fmap. by rewrite <- !app_assoc.
  - intros s. do 3 tame_read. apply tame_bind; [apply (items_tame pseudo_wf write_pseudo_input); apply _|]. intros [? ?] _.
    tame_read. apply tame_bind; [apply (items_tame out_wf (fun o => write_output o.1 o.2)); apply _|]. intros [? ?] _.
    do 3 tame_read. apply tame_bind; [apply (items_tame range_wf write_range_proof); apply _|]. by intros [? ?] _.
Qed.

(** ** The envelope *)

Section Envelope.
Context `{Crypto}.

Lemma issuance_back i e s : from_option payload_wf True i -> write_issuance i = Good e ->
  read_issuance (e ++ s) = Good (i, s).
Proof.
  intros Hwf E. unfold read_issuance. destruct i as [p|]; cbn [write_issuance from_option] in *.
  - apply bind_Good in E as (pb & Ep & E). apply bind_Good in E as ([] & Hl%require_Good & <-%(inj Good)).
    unfold UINT16_MAX in Hl. rewrite <- !app_assoc. do 2 back. cbn [Z.eqb negb].
    rewrite read_u16_app by lia. cbn [expect]. rewrite bind_of_Good, Nat2Z.id.
    unfold pod. rewrite read_pod_app by done. cbn [expect]. rewrite bind_of_Good.
    by rewrite (decode_encode (Codec:=payload_codec) _ _ Hwf Ep).
  - by injection E as <-.
Qed.

Lemma issuance_fore s i t : is_bytes s -> read_issuance s = Good (i, t) ->
  from_option payload_wf True i /\ is_bytes t /\ exists e, write_issuance i = Good e /\ s = e ++ t.
Proof.
  intros Hs E. unfold read_issuance in E. do 2 fore E. case_if_in E.
  - apply bind_Good in E as ([size u1] & R1 & E). apply expect_Good in R1.
    unfold read_u16_le in R1. apply read_int_bytes in R1 as (Hv & Hu1 & ->); [|done]. fore E.
    apply bind_Good in E as (p & Hp & [= <- <-]).
    match goal with Ha : array (Z.to_nat size) _ |- _ => pose proof (array_length _ _ Ha); pose proof (array_bytes _ _ Ha) end.
    split_and!; [by apply (decode_wf (Codec:=payload_codec)) in Hp|done|].
    apply (encode_decode (Codec:=payload_codec)) in Hp; [|done].
    eexists. cbn [write_issuance]. rewrite Hp, bind_of_Good, require_true, bind_of_Good by (unfold UINT16_MAX; lia).
    split; [done|]. rewrite <- !app_assoc. f_equal; [f_equal; lia|]. f_equal. unfold u16_le. f_equal. lia.
  - injection E as <- <-. split_and!; [done|done|]. exists [0]. split; [done|]. f_equal. f_equal. lia.
Qed.

Lemma issuance_tame s : tame (read_issuance s).
Proof.
  unfold read_issuance. do 2 tame_read. case_if; [|done].
  apply tame_bind; [apply tame_expect|]. intros [? ?] _. tame_read.
  apply tame_bind; [apply (decode_tame (Codec:=payload_codec))|done].
Qed.

Lemma group_shapes_tame balances : forall recipients m n, length recipients = length balances ->
  tame (check_group_shapes balances recipients m n).
Proof.
  induction balances as [|b balances IH]; intros [|rs recipients] m n Hl; try done.
  cbn [check_group_shapes]. do 3 tame_read. apply IH. cbn in Hl. lia.
Qed.

Lemma shape_tame p : tame (validate_asset_transaction_payload_shape p).
Proof.
  unfold validate_asset_transaction_payload_shape. do 4 tame_read.
  apply tame_bind; [apply tame_require|]. intros [] Hl%require_Good. tame_read.
  apply tame_bind; [apply group_shapes_tame; lia|]. intros _ _. apply tame_require.
Qed.

(** The groups of an envelope with their recipients. *)
Definition groups_of (p : asset_transaction_payload) : list group := zip (w_balances p) (w_output_recipients p).

(** What the C++ types guarantee, and the shapes of range proofs and signatures
    that the decoder produces. *)
Record envelope_wf (p : asset_transaction_payload) : Prop := {
  wf_env_carrier : array 32 (w_carrier_prefix_hash p);
  wf_env_issuance : from_option payload_wf True (w_issuance p);
  wf_env_groups : Forall group_wf (groups_of p);
  wf_env_proofs : Forall proof_wf (w_ownership_proofs p);
}.

Lemma write_groups_zip balances : forall recipients, length recipients = length balances ->
  Forall group_wf (zip balances recipients) ->
  write_groups balances recipients = Good (concat (group_bytes <$> zip balances recipients)).
Proof.
  induction balances as [|b balances IH]; intros [|rs recipients] Hl Hwf; try done.
  cbn [zip_with] in Hwf. inversion Hwf as [|?? [_ _ _ [Hr _] _ _] Hwf']; subst. cbn [fst snd] in Hr.
  cbn [write_groups zip_with fmap list_fmap concat]. rewrite write_group_bytes by done.
  rewrite bind_of_Good, IH by (done || (cbn in Hl; lia)). done.
Qed.

(** The whole encoding, given the encoding of the issuance. *)
Definition envelope_bytes (issuance : bytes) (p : asset_transaction_payload) : bytes :=
  [w_version p] ++ [w_network p] ++ w_carrier_prefix_hash p ++ issuance
  ++ write_count (length (w_balances p)) ++ concat (group_bytes <$> groups_of p)
  ++ write_count (length (w_ownership_proofs p)) ++ concat (write_ownership_proof <$> w_ownership_proofs p).

Lemma shape_Good p : validate_asset_transaction_payload_shape p = Good () ->
  w_version p = 2 /\ 0 <= w_network p < 256 /\ (1 <= length (w_balances p) <= 8)%nat /\
  length (w_output_recipients p) = length (w_balances p) /\ (length (w_ownership_proofs p) <= 64)%nat.
Proof.
  unfold validate_asset_transaction_payload_shape, ASSET_TRANSACTION_WIRE_VERSION, public_network, MAINNET,
    TESTNET, STAGENET, MAX_ASSET_BALANCE_GROUPS, MAX_ASSET_OWNERSHIP_PROOFS.
  intros E. apply bind_Good in E as ([] & E1%require_Good & E). apply bind_Good in E as ([] & E2%require_Good & E).
  apply bind_Good in E as ([] & _ & E). apply bind_Good in E as ([] & E3%require_Good & E).
  apply bind_Good in E as ([] & E4%require_Good & E). apply bind_Good in E as ([] & E5%require_Good & _). lia.
Qed.

Lemma encode_envelope_Good p e : envelope_wf p -> encode_asset_transaction_payload p = Good e <->
  validate_asset_transaction_payload_shape p = Good () /\ Z.of_nat (length e) <= MAX_ASSET_WIRE_BYTES /\
  exists issuance, write_issuance (w_issuance p) = Good issuance /\ e = envelope_bytes issuance p.
Proof.
  intros [_ _ Hg _]. unfold encode_asset_transaction_payload. split.
  - intros E. apply bind_Good in E as ([] & Hs & E). apply bind_Good in E as (i & Hi & E).
    pose proof (shape_Good _ Hs) as (_ & _ & _ & Hl & _).
    rewrite write_groups_zip, bind_of_Good in E by done. cbv zeta in E.
    apply bind_Good in E as ([] & Hsz%require_Good%Z.leb_le & <-%(inj Good)). by eauto.
  - intros (Hs & Hsz & i & Hi & ->). pose proof (shape_Good _ Hs) as (_ & _ & _ & Hl & _).
    rewrite Hs, bind_of_Good, Hi, bind_of_Good, write_groups_zip, bind_of_Good by done. cbv zeta.
    by rewrite require_true by (apply Z.leb_le; exact Hsz).
Qed.

Lemma decode_encode_envelope p e : envelope_wf p -> encode_asset_transaction_payload p = Good e ->
  decode_asset_transaction_payload e = Good p.
Proof.
  intros Hwf E. apply encode_envelope_Good in E as (Hs & Hsz & i & Hi & ->); [|done].
  pose proof Hwf as [Hc Hiss Hg Hp]. pose proof (shape_Good _ Hs) as (_ & Hn & Hb & Hl & Ho).
  unfold decode_asset_transaction_payload, MAX_ASSET_BALANCE_GROUPS, MAX_ASSET_OWNERSHIP_PROOFS.
  assert (length (envelope_bytes i p) <> 0%nat) as Hne by done. rewrite require_true by lia.
  rewrite bind_of_Good. unfold envelope_bytes. do 3 back. rewrite (issuance_back _ _ _ Hiss Hi), bind_of_Good. do 2 back.
  rewrite (items_write group_wf), bind_of_Good by (unfold groups_of; rewrite ?length_zip_with; done || lia || apply _).
  back. rewrite <- (app_nil_r (concat (write_ownership_proof <$> _))).
  rewrite (items_write proof_wf), bind_of_Good by (done || apply _). cbv zeta.
  rewrite require_true, bind_of_Good by done. unfold groups_of. rewrite fst_zip, snd_zip by lia.
  replace (Envelope _ _ _ _ _ _ _) with p by (by destruct p). by rewrite Hs.
Qed.

Lemma encode_decode_envelope e p : is_bytes e -> decode_asset_transaction_payload e = Good p ->
  envelope_wf p /\ encode_asset_transaction_payload p = Good e.
Proof.
  intros Hb E. unfold decode_asset_transaction_payload, MAX_ASSET_BALANCE_GROUPS, MAX_ASSET_OWNERSHIP_PROOFS in E.
  apply bind_Good in E as ([] & Hsz%require_Good & E). do 3 fore E. cbv beta iota in E.
  apply bind_Good in E as ([i u1] & Hi & E).
  apply issuance_fore in Hi as (Hiw & Hu1 & ie & Hie & ->); [|done]. do 2 fore E. cbv beta iota in E.
  apply bind_Good in E as ([gs u2] & Hg & E).
  apply (items_read group_wf group_bytes) in Hg as (Hgl & Hgw & Hu2 & ->); [|done || apply _..]. fore E.
  cbv beta iota in E. apply bind_Good in E as ([ps u3] & Hp & E).
  apply (items_read proof_wf write_ownership_proof) in Hp as (Hpl & Hpw & Hu3 & ->); [|done || apply _..].
  cbv beta iota zeta in E. apply bind_Good in E as ([] & Hend%require_Good & E).
  apply bind_Good in E as ([] & Hs%relabel_Good & [= <-]).
  destruct u3; [|done].
  match goal with |- envelope_wf ?q /\ _ => assert (envelope_wf q) as Hwf end.
  { split; try done. unfold groups_of. cbn. by rewrite zip_fst_snd. }
  split; [done|]. apply encode_envelope_Good; [done|]. split_and!; [done| |].
  - lia.
  - exists ie. split; [done|]. unfold envelope_bytes, groups_of.
    cbn [w_version w_network w_carrier_prefix_hash w_balances w_output_recipients w_ownership_proofs].
    by rewrite zip_fst_snd, length_fmap, Hgl, Hpl, app_nil_r.
Qed.

Lemma decode_envelope_tame e : tame (decode_asset_transaction_payload e).
Proof.
  unfold decode_asset_transaction_payload, MAX_ASSET_BALANCE_GROUPS, MAX_ASSET_OWNERSHIP_PROOFS. do 4 tame_read.
  cbv beta iota. apply tame_bind; [apply issuance_tame|]. intros [? ?] _. do 2 tame_read.
  apply tame_bind; [apply (items_tame group_wf group_bytes); apply _|]. intros [? ?] _. tame_read.
  apply tame_bind; [apply (items_tame proof_wf write_ownership_proof); apply _|]. intros [? ?] _.
  cbv zeta. tame_read. apply tame_bind; [apply tame_relabel, shape_tame|done].
Qed.

(** C13: The decoder reads exactly the encodings of well-formed payloads: bytes
    decode to a payload if and only if the payload has hashes, keys and scalars of
    their sizes, groups and range proofs within the limits (at most sixteen
    commitments, as many points L as R and at least one), rings and responses of
    sixteen, and signatures with the key image of their proof, and it encodes to
    these bytes. So no two byte strings stand for one payload. The encoder does not
    check these shapes, and a payload without them does not survive the encoding. *)
Theorem wire_payload_exact p e : is_bytes e ->
  decode_asset_transaction_payload e = Good p <->
  envelope_wf p /\ encode_asset_transaction_payload p = Good e.
Proof.
  intros He. split; [by apply encode_decode_envelope|]. intros [Hwf E]. by apply decode_encode_envelope.
Qed.

(** No decoder of the asset code throws or reads outside its input, whatever
    the bytes. *)
Theorem asset_decoders_tame e network :
  tame (decode_issuance_descriptor e) /\ tame (decode_issuance_payload e) /\
  tame (decode_transaction_extension e) /\ tame (decode_snapshot e network) /\
  tame (decode_asset_transaction_payload e).
Proof.
  split_and!.
  - apply (decode_tame (Codec:=descriptor_codec)).
  - apply (decode_tame (Codec:=payload_codec)).
  - apply (decode_tame (Codec:=extension_codec)).
  - apply decode_snapshot_tame.
  - apply decode_envelope_tame.
Qed.

End Envelope.

(** ** A sample: coins are issued and gold is passed on *)

Definition sample_recipient : asset_recipient_data := Recipient (fill 5) (fill 9) (fill 1) (fill 1) [7].

Definition sample_envelope : asset_transaction_payload :=
  Envelope ASSET_TRANSACTION_WIRE_VERSION MAINNET (fill 6) (Some coin) [coin_group; gold_group]
    [[sample_recipient]; [sample_recipient]] [gold_proof].

Lemma wire_payload_exact_witness : exists e, envelope_wf sample_envelope /\
  encode_asset_transaction_payload sample_envelope = Good e.
Proof.
  pose (e := value [] (encode_asset_transaction_payload sample_envelope)). exists e.
  apply (wire_payload_exact sample_envelope e).
  - apply (array_bytes (length e)), arrayb_array. vm_compute. reflexivity.
  - vm_compute. reflexivity.
Defined.
