(* ===== verification/AssetDb.v ===== *)
(** The consensus state of assets: the tables of [blockchain_db/lmdb/db_lmdb.cpp],
    the transitions of [blockchain_db/asset_db.cpp], and the blocks that
    [cryptonote_core/blockchain.cpp] and [blockchain_db/blockchain_db.cpp] add
    and pop. *)

From stdpp Require Import gmap sorting.
From S2P Require Import Prelude Bytes AssetTypes AssetCodec AssetRegistry.
From S2P Require Import AssetConfidential AssetOwnership AssetWire.

(** ** Tables *)

Record asset_output_data_t := Output {
  out_asset_id : bytes;
  out_destination : bytes;
  out_commitment : bytes;
  out_height : Z;
  out_tx_public_key : bytes;
  out_encrypted_mask : bytes;
  out_encrypted_amount : bytes;
  out_view_tag : bytes;
  out_output_index : Z;
}.

(** The six asset tables and the number of blocks.  A height table is keyed by
    height with sorted duplicates: a set of pairs. *)
Record asset_db := Db {
  db_height : Z;
  asset_records : gmap bytes bytes;
  asset_heights : gset (Z * bytes);
  asset_outputs : gmap bytes asset_output_data_t;
  asset_output_heights : gset (Z * bytes);
  asset_key_images : gmap bytes Z;
  asset_key_image_heights : gset (Z * bytes);
}.

Definition empty_db : asset_db := Db 0 ∅ ∅ ∅ ∅ ∅ ∅.

Definition set_records (records : gmap bytes bytes) (heights : gset (Z * bytes)) (db : asset_db) : asset_db :=
  Db (db_height db) records heights (asset_outputs db) (asset_output_heights db) (asset_key_images db)
    (asset_key_image_heights db).
Definition set_outputs (outputs : gmap bytes asset_output_data_t) (heights : gset (Z * bytes)) (db : asset_db) :
  asset_db :=
  Db (db_height db) (asset_records db) (asset_heights db) outputs heights (asset_key_images db)
    (asset_key_image_heights db).
Definition set_key_images (key_images : gmap bytes Z) (heights : gset (Z * bytes)) (db : asset_db) : asset_db :=
  Db (db_height db) (asset_records db) (asset_heights db) (asset_outputs db) (asset_output_heights db)
    key_images heights.
Definition set_height (height : Z) (db : asset_db) : asset_db :=
  Db height (asset_records db) (asset_heights db) (asset_outputs db) (asset_output_heights db)
    (asset_key_images db) (asset_key_image_heights db).

(** [mdb_put] with [MDB_NOOVERWRITE] into a table, then with [MDB_NODUPDATA]
    into its height table. *)
Definition put {A} (table : gmap bytes A) (heights : gset (Z * bytes)) (key : bytes) (height : Z) (a : A)
  (exists_ index : string) : outcome (gmap bytes A * gset (Z * bytes)) :=
  if bool_decide (is_Some (table !! key)) then Thrown exists_
  else if bool_decide ((height, key) ∈ heights) then Thrown index
  else Good (<[key := a]> table, {[ (height, key) ]} ∪ heights).
Arguments put {A} table heights key height a exists_%_string index%_string.

(** The value of the records table is the height, then the payload. *)
Definition add_asset_record (asset_id : bytes) (height : Z) (payload : bytes) (db : asset_db) : outcome asset_db :=
  '(records, heights) ← put (asset_records db) (asset_heights db) asset_id height (u64_le height ++ payload)
    "Attempting to add an asset record that already exists" "Error indexing asset record height: ";
  Good (set_records records heights db).

Definition get_asset_record (asset_id : bytes) (db : asset_db) : outcome (option (Z * bytes)) :=
  match asset_records db !! asset_id with
  | None => Good None
  | Some value =>
      match read_u64_le value with
      | Some record => Good (Some record)
      | None => Thrown "Asset record is too small"
      end
  end.

Definition add_asset_output (output_id : bytes) (output : asset_output_data_t) (db : asset_db) : outcome asset_db :=
  '(outputs, heights) ← put (asset_outputs db) (asset_output_heights db) output_id (out_height output) output
    "Attempting to add an asset output that already exists" "Error indexing asset output height: ";
  Good (set_outputs outputs heights db).

Definition get_asset_output (output_id : bytes) (db : asset_db) : option asset_output_data_t :=
  asset_outputs db !! output_id.

Definition add_asset_key_image (key_image : bytes) (height : Z) (db : asset_db) : outcome asset_db :=
  '(key_images, heights) ← put (asset_key_images db) (asset_key_image_heights db) key_image height height
    "Attempting to spend an asset key image that already exists" "Error indexing asset key image height: ";
  Good (set_key_images key_images heights db).

Definition has_asset_key_image (key_image : bytes) (db : asset_db) : bool :=
  bool_decide (is_Some (asset_key_images db !! key_image)).

(** The cursor loop of the three [remove_asset_..._from_height]: every entry of
    the height table from [height] on, and the key it names, is deleted. *)
Fixpoint remove_entries {A} (entries : list (Z * bytes)) (table : gmap bytes A) (heights : gset (Z * bytes)) :
  gmap bytes A * gset (Z * bytes) :=
  match entries with
  | [] => (table, heights)
  | e :: entries => remove_entries entries (delete e.2 table) (heights ∖ {[ e ]})
  end.

Definition remove_from_height {A} (height : Z) (table : gmap bytes A) (heights : gset (Z * bytes)) :
  gmap bytes A * gset (Z * bytes) :=
  remove_entries (elements (filter (fun e => height <= e.1) heights)) table heights.

Definition remove_asset_records_from_height (height : Z) (db : asset_db) : asset_db :=
  let '(records, heights) := remove_from_height height (asset_records db) (asset_heights db) in
  set_records records heights db.
Definition remove_asset_outputs_from_height (height : Z) (db : asset_db) : asset_db :=
  let '(outputs, heights) := remove_from_height height (asset_outputs db) (asset_output_heights db) in
  set_outputs outputs heights db.
Definition remove_asset_key_images_from_height (height : Z) (db : asset_db) : asset_db :=
  let '(key_images, heights) := remove_from_height height (asset_key_images db) (asset_key_image_heights db) in
  set_key_images key_images heights db.

(** The asset part of [BlockchainDB::pop_block]; without a block
    [get_top_block] throws. *)
Definition pop_block (db : asset_db) : outcome asset_db :=
  if db_height db =? 0 then Thrown "no block"
  else
    let detached_height := db_height db - 1 in
    let db := remove_asset_records_from_height detached_height db in
    let db := remove_asset_outputs_from_height detached_height db in
    let db := remove_asset_key_images_from_height detached_height db in
    Good (set_height (db_height db - 1) db).

(** ** The registry of the stored records *)

Record stored_issuance := Stored { st_id : bytes; st_height : Z; st_payload : bytes }.

(** What [for_all_asset_records] passes for an entry. *)
Definition stored_record (entry : bytes * bytes) : outcome stored_issuance :=
  match read_u64_le entry.2 with
  | Some (height, payload) =>
      if (length entry.1 =? 32)%nat then Good (Stored entry.1 height payload)
      else Thrown "Asset record has an invalid size"
  | None => Thrown "Asset record has an invalid size"
  end.

Fixpoint for_all_asset_records (entries : list (bytes * bytes)) : outcome (list stored_issuance) :=
  match entries with
  | [] => Good []
  | e :: entries => r ← stored_record e; rs ← for_all_asset_records entries; Good (r :: rs)
  end.

(** The order of [load_registry_from_db]: by height, then by id. *)
Definition stored_less (l r : stored_issuance) : bool :=
  if negb (st_height l =? st_height r) then st_height l <? st_height r
  else memcmp_lt (st_id l) (st_id r).

Definition stored_le (l r : stored_issuance) : Prop := stored_less r l = false.
#[global] Instance stored_le_dec l r : Decision (stored_le l r).
Proof. unfold stored_le. apply _. Defined.

Section Db.
Context `{Crypto}.

Fixpoint load_records (records : list stored_issuance) (expected_network : Z) (candidate : registry) :
  outcome registry :=
  match records with
  | [] => Good candidate
  | stored :: records =>
      payload ← decode_issuance_payload (st_payload stored);
      require (d_network (p_descriptor payload) =? expected_network)
        "stored asset belongs to a different network";;
      '(candidate, derived) ← apply_issuance candidate payload (st_height stored);
      require (bool_decide (derived = st_id stored)) "stored asset id does not match its authenticated payload";;
      load_records records expected_network candidate
  end.

Definition load_registry_from_db (db : asset_db) (expected_network : Z) : outcome registry :=
  records ← for_all_asset_records (map_to_list (asset_records db));
  load_records (merge_sort stored_le records) expected_network ∅.

(** The encodings of [apply_block_extensions_to_db]. *)
Fixpoint encode_issuances (extensions : list transaction_extension) : outcome (list bytes) :=
  match extensions with
  | [] => Good []
  | x :: extensions =>
      e ← encode_issuance_payload (x_issuance x);
      es ← encode_issuances extensions;
      Good (e :: es)
  end.

Fixpoint add_asset_records (ids encoded : list bytes) (height : Z) (db : asset_db) : outcome asset_db :=
  match encoded, ids with
  | [], _ => Good db
  | _ :: _, [] => Wild
  | e :: encoded, id :: ids =>
      db ← add_asset_record id height e db;
      add_asset_records ids encoded height db
  end.

Definition apply_block_extensions_to_db (db : asset_db) (extensions : list transaction_extension)
  (carriers : list bytes) (expected_network height : Z) : outcome (asset_db * list bytes) :=
  reg ← load_registry_from_db db expected_network;
  '(_, candidate_ids) ← apply_block_extensions reg extensions carriers expected_network height;
  encoded ← encode_issuances extensions;
  db ← add_asset_records candidate_ids encoded height db;
  Good (db, candidate_ids).

End Db.

(** ** Asset transactions *)

(** The outputs of a payload in the order of the loops over its groups: the
    asset, the commitment and the recipient. *)
Abbreviation payload_output := (bytes * bytes * asset_recipient_data)%type.

(** A block as far as assets are concerned: the envelope of each transaction
    that has one. *)
Abbreviation block := (list (option asset_transaction_payload)).

Section Transactions.
Context `{Crypto, RingCt}.

Fixpoint group_outputs (asset_id : bytes) (outputs : list bytes) (recipients : list asset_recipient_data) :
  outcome (list payload_output) :=
  match outputs, recipients with
  | [], _ => Good []
  | _ :: _, [] => Wild
  | o :: outputs, r :: recipients =>
      rest ← group_outputs asset_id outputs recipients;
      Good ((asset_id, o, r) :: rest)
  end.

Fixpoint payload_outputs (balances : list confidential_asset_balance)
  (recipients : list (list asset_recipient_data)) : outcome (list payload_output) :=
  match balances, recipients with
  | [], _ => Good []
  | _ :: _, [] => Wild
  | b :: balances, rs :: recipients =>
      group ← group_outputs (b_asset_id b) (b_outputs b) rs;
      rest ← payload_outputs balances recipients;
      Good (group ++ rest)
  end.

Definition check_ring_member (db : asset_db) (asset_id : bytes) (member : asset_ring_member) : outcome unit :=
  stored ← expect (get_asset_output (m_output_id member) db)
    "asset ownership ring references an unknown output";
  require (bool_decide (out_asset_id stored = m_asset_id member) && bool_decide (m_asset_id member = asset_id))
    "asset ownership ring member has the wrong asset id";;
  require (bool_decide (out_destination stored = ct_dest (m_public_output member)))
    "asset ownership ring destination does not match consensus state";;
  require (bool_decide (out_commitment stored = ct_mask (m_public_output member)))
    "asset ownership ring commitment does not match consensus state".

Fixpoint check_ring (db : asset_db) (asset_id : bytes) (ring : list asset_ring_member) : outcome unit :=
  match ring with
  | [] => Good ()
  | member :: ring => check_ring_member db asset_id member;; check_ring db asset_id ring
  end.

Definition verify_asset_ownership_against_db (db : asset_db) (proof : asset_ownership_proof)
  (expected_network : Z) (carrier_prefix_hash : bytes) : outcome unit :=
  require (negb (has_asset_key_image (o_key_image proof) db)) "asset key image is already spent";;
  check_ring db (o_asset_id proof) (o_ring proof);;
  verify_asset_ownership_proof proof expected_network carrier_prefix_hash.

Fixpoint verify_ownerships (db : asset_db) (proofs : list asset_ownership_proof) (expected_network : Z)
  (carrier_prefix_hash : bytes) : outcome unit :=
  match proofs with
  | [] => Good ()
  | proof :: proofs =>
      verify_asset_ownership_against_db db proof expected_network carrier_prefix_hash;;
      verify_ownerships db proofs expected_network carrier_prefix_hash
  end.

(** The ids of the outputs from [global_output_index] on, none of them stored. *)
Fixpoint candidate_output_ids (db : asset_db) (expected_network : Z) (carrier_prefix_hash : bytes)
  (global_output_index : Z) (outputs : list payload_output) : outcome (list bytes) :=
  match outputs with
  | [] => Good []
  | (asset_id, commitment, r) :: outputs =>
      output_id ← derive_asset_output_id expected_network carrier_prefix_hash asset_id global_output_index
        (c_destination r) commitment;
      require (negb (bool_decide (is_Some (get_asset_output output_id db)))) "asset output identity already exists";;
      ids ← candidate_output_ids db expected_network carrier_prefix_hash (global_output_index + 1) outputs;
      Good (output_id :: ids)
  end.

Definition verify_asset_transaction_against_db (db : asset_db) (payload : asset_transaction_payload)
  (expected_network : Z) (carrier_prefix_hash : bytes) : outcome unit :=
  reg ← load_registry_from_db db expected_network;
  verify_asset_transaction_payload payload (known_assets reg) expected_network carrier_prefix_hash;;
  verify_ownerships db (w_ownership_proofs payload) expected_network carrier_prefix_hash;;
  match w_issuance payload with
  | Some i => '(_, _) ← apply_issuance reg i (db_height db); Good ()
  | None => Good ()
  end;;
  outputs ← payload_outputs (w_balances payload) (w_output_recipients payload);
  _ ← candidate_output_ids db expected_network carrier_prefix_hash 0 outputs;
  Good ().

Fixpoint add_key_images (proofs : list asset_ownership_proof) (height : Z) (db : asset_db) : outcome asset_db :=
  match proofs with
  | [] => Good db
  | proof :: proofs =>
      db ← add_asset_key_image (o_key_image proof) height db;
      add_key_images proofs height db
  end.

Definition output_data (o : payload_output) (height index : Z) : asset_output_data_t :=
  let '(asset_id, commitment, r) := o in
  Output asset_id (c_destination r) commitment height (c_tx_public_key r) (c_encrypted_mask r)
    (c_encrypted_amount r) (c_view_tag r) (index mod 2 ^ 32).

Fixpoint add_outputs (outputs : list payload_output) (candidate_ids : list bytes) (height candidate_index : Z)
  (db : asset_db) : outcome asset_db :=
  match outputs, candidate_ids with
  | [], _ => Good db
  | _ :: _, [] => Wild
  | o :: outputs, id :: candidate_ids =>
      db ← add_asset_output id (output_data o height candidate_index) db;
      add_outputs outputs candidate_ids height (candidate_index + 1) db
  end.

(** The id and the encoding of the asset a payload issues. *)
Definition issue_asset (reg : registry) (issuance : option issuance_payload) (height : Z) :
  outcome (option (bytes * bytes)) :=
  match issuance with
  | Some i =>
      '(_, issued_id) ← apply_issuance reg i height;
      encoded_issuance ← encode_issuance_payload i;
      Good (Some (issued_id, encoded_issuance))
  | None => Good None
  end.

Definition add_issued (issued : option (bytes * bytes)) (height : Z) (db : asset_db) : outcome asset_db :=
  match issued with
  | Some (issued_id, encoded_issuance) => add_asset_record issued_id height encoded_issuance db
  | None => Good db
  end.

Definition apply_asset_transaction_to_db (db : asset_db) (payload : asset_transaction_payload)
  (expected_network : Z) (carrier_prefix_hash : bytes) (height : Z) : outcome (asset_db * list bytes) :=
  reg ← load_registry_from_db db expected_network;
  verify_asset_transaction_payload payload (known_assets reg) expected_network carrier_prefix_hash;;
  verify_ownerships db (w_ownership_proofs payload) expected_network carrier_prefix_hash;;
  issued ← issue_asset reg (w_issuance payload) height;
  outputs ← payload_outputs (w_balances payload) (w_output_recipients payload);
  candidate_ids ← candidate_output_ids db expected_network carrier_prefix_hash 0 outputs;
  db ← add_issued issued height db;
  db ← add_key_images (w_ownership_proofs payload) height db;
  db ← add_outputs outputs candidate_ids height 0 db;
  Good (db, candidate_ids).

(** ** Blocks *)

Definition asset_network (nettype : Z) : Z := if nettype =? FAKECHAIN then MAINNET else nettype.

(** The loop over [asset_payloads] in [handle_block_to_main_chain]; a failure
    is thrown. *)
Fixpoint apply_payloads (payloads : block) (nettype blockchain_height : Z) (db : asset_db) : outcome asset_db :=
  match payloads with
  | [] => Good db
  | None :: payloads => apply_payloads payloads nettype blockchain_height db
  | Some payload :: payloads =>
      '(db, _) ← match apply_asset_transaction_to_db db payload (asset_network nettype)
          (w_carrier_prefix_hash payload) blockchain_height with
        | Bad error => Thrown (String.append "Monzero asset state transition failed: " error)
        | r => r
        end;
      apply_payloads payloads nettype blockchain_height db
  end.

(** The block goes on top: its height is the number of blocks before it. *)
Definition handle_block_to_main_chain (nettype : Z) (payloads : block) (db : asset_db) : outcome asset_db :=
  db' ← apply_payloads payloads nettype (db_height db) db;
  Good (set_height (db_height db + 1) db').

(** ** The transaction pool *)

(** A pooled transaction: its id, and what parsing its blob and its envelope
    gives, [None] where that fails. *)
Record pooled_tx := Pooled { pooled_id : bytes; pooled_payload : option (option asset_transaction_payload) }.

Definition pool_conflict (id : bytes) (candidate_issuance : option bytes) (candidate_key_images : gset bytes)
  (t : pooled_tx) : bool :=
  if bool_decide (pooled_id t = id) then false
  else match pooled_payload t with
  | None => true
  | Some None => false
  | Some (Some p) =>
      match candidate_issuance, w_issuance p with
      | Some candidate, Some i =>
          match derive_asset_id (p_descriptor i) with
          | Good pooled_issuance => bool_decide (pooled_issuance = candidate)
          | _ => true
          end
      | _, _ => false
      end
      || existsb (fun proof => bool_decide (o_key_image proof ∈ candidate_key_images)) (w_ownership_proofs p)
  end.

(** The asset part of [tx_memory_pool::add_tx] after the envelope is parsed. *)
Definition pool_accepts (nettype : Z) (db : asset_db) (pool : list pooled_tx) (id : bytes)
  (payload : asset_transaction_payload) : outcome unit :=
  verify_asset_transaction_against_db db payload (asset_network nettype) (w_carrier_prefix_hash payload);;
  candidate_issuance ← match w_issuance payload with
    | Some i => issued ← derive_asset_id (p_descriptor i); Good (Some issued)
    | None => Good None
    end;
  require (negb (existsb (pool_conflict id candidate_issuance
      (list_to_set (o_key_image <$> w_ownership_proofs payload))) pool))
    "conflicts with a pending Monzero asset transaction".

End Transactions.
