(* ===== verification/AssetDbTables.v ===== *)
(** The asset tables across blocks: popping a block restores the tables, so a
    database that blocks were added to and popped from is the one its chain
    builds from nothing. *)

From stdpp Require Import gmap sorting.
From S2P Require Import Prelude Bytes AssetTypes AssetCodec AssetRegistry AssetRegistryProps AssetSnapshot.
From S2P Require Import AssetConfidential AssetOwnership AssetWire AssetDb.

(** ** A table and its heights *)

Section Table.
Context {A : Type}.
Implicit Types (table : gmap bytes A) (heights : gset (Z * bytes)).

Lemma put_Good table heights k h a e1 e2 r : put table heights k h a e1 e2 = Good r <->
  table !! k = None /\ ((h, k) ∉ heights) /\ r = (<[k := a]> table, {[ (h, k) ]} ∪ heights).
Proof.
  unfold put. rewrite eq_None_not_Some. split.
  - case_bool_decide as E1; [done|]. case_bool_decide as E2; [done|]. by intros [= <-].
  - intros (E1 & E2 & ->). by rewrite !bool_decide_eq_false_2.
Qed.

Lemma remove_entries_spec entries : forall table heights,
  remove_entries entries table heights =
  (filter (fun e => e.1 ∉ entries.*2) table, heights ∖ list_to_set entries).
Proof.
  induction entries as [|e entries IH]; intros table heights; cbn [remove_entries fmap list_fmap list_to_set].
  - f_equal; [|set_solver]. symmetry. apply map_filter_id. set_solver.
  - rewrite IH. f_equal; [|set_solver]. apply map_eq. intros k. apply option_eq. intros a.
    rewrite !map_lookup_filter_Some, lookup_delete_Some. set_solver.
Qed.

(** [table] and [heights] come from [table0] and [heights0] by additions at
    height [n]. *)
Record grown (n : Z) table0 heights0 table heights : Prop := {
  grown_table : table0 ⊆ table;
  grown_heights : forall h k, (h, k) ∈ heights <->
    (h, k) ∈ heights0 \/ h = n /\ is_Some (table !! k) /\ table0 !! k = None;
}.

Lemma grown_refl n table heights : grown n table heights table heights.
Proof. split; [done|]. intros h k. split; [by left|]. intros [?|(_ & [? ?] & ?)]; congruence. Qed.

Lemma grown_put n table0 heights0 table heights k a e1 e2 table' heights' :
  grown n table0 heights0 table heights -> put table heights k n a e1 e2 = Good (table', heights') ->
  grown n table0 heights0 table' heights'.
Proof.
  intros [Hsub Hh] (Hk & _ & [= -> ->])%put_Good. split.
  - etrans; [done|]. by apply insert_subseteq.
  - intros h j. rewrite elem_of_union, elem_of_singleton, Hh.
    assert (table0 !! k = None) by (eapply lookup_weaken_None; eauto).
    destruct (decide (j = k)) as [->|Hne].
    + rewrite lookup_insert_eq, Hk. split; [intros [[= ->]|[?|(_ & [? ?] & _)]]|intros [?|(-> & _)]]; eauto.
      done.
    + rewrite lookup_insert_ne by done. naive_solver.
Qed.

(** Removing from height [n] takes the additions back. *)
Lemma grown_removed n table0 heights0 table heights :
  (forall e, e ∈ heights0 -> e.1 < n) -> grown n table0 heights0 table heights ->
  remove_from_height n table heights = (table0, heights0).
Proof.
  intros Hlow [Hsub Hh]. unfold remove_from_height. rewrite remove_entries_spec.
  assert (forall k, k ∈ (elements (filter (fun e => n <= e.1) heights)).*2 <->
    is_Some (table !! k) /\ table0 !! k = None) as Hin.
  { intros k. rewrite list_elem_of_fmap. setoid_rewrite elem_of_elements. setoid_rewrite elem_of_filter. split.
    - intros ([h j] & -> & Hle & [Hin|(_ & ?)]%Hh); [|done]. apply Hlow in Hin. cbn in *. lia.
    - intros Hk. exists (n, k). cbn. split_and!; [done|lia|]. apply Hh. by right. }
  f_equal.
  - apply map_eq. intros k. apply option_eq. intros a. rewrite map_lookup_filter_Some. cbn. rewrite Hin. split.
    + intros [Hk Hno]. destruct (table0 !! k) as [b|] eqn:E0; [|destruct Hno; eauto].
      rewrite (lookup_weaken _ _ _ _ E0 Hsub) in Hk. congruence.
    + intros Hk. split; [by apply (lookup_weaken _ _ _ _ Hk Hsub)|]. intros [_ ?]. congruence.
  - apply set_eq. intros [h k]. rewrite elem_of_difference, elem_of_list_to_set, elem_of_elements, elem_of_filter, Hh.
    cbn. split.
    + intros [[?|(-> & ?)] Hno]; [done|]. destruct Hno. split; [lia|by right].
    + intros Hin0. split; [by left|]. intros [Hle _]. apply Hlow in Hin0. cbn in Hin0. lia.
Qed.

Lemma grown_below n table0 heights0 table heights :
  (forall e, e ∈ heights0 -> e.1 < n) -> grown n table0 heights0 table heights ->
  forall e, e ∈ heights -> e.1 < n + 1.
Proof. intros Hlow [_ Hh] [h k] [Hin|(-> & _)]%Hh; cbn; [apply Hlow in Hin; cbn in Hin; lia|lia]. Qed.

End Table.

(** ** Databases *)

(** Nothing is indexed at the height of the next block or above. *)
Record db_below (db : asset_db) : Prop := {
  below_records : forall e, e ∈ asset_heights db -> e.1 < db_height db;
  below_outputs : forall e, e ∈ asset_output_heights db -> e.1 < db_height db;
  below_key_images : forall e, e ∈ asset_key_image_heights db -> e.1 < db_height db;
}.

(** [db] comes from [db0] by additions at height [n]. *)
Record db_grown (n : Z) (db0 db : asset_db) : Prop := {
  grown_height : db_height db = db_height db0;
  grown_records : grown n (asset_records db0) (asset_heights db0) (asset_records db) (asset_heights db);
  grown_outputs : grown n (asset_outputs db0) (asset_output_heights db0) (asset_outputs db) (asset_output_heights db);
  grown_key_images : grown n (asset_key_images db0) (asset_key_image_heights db0)
    (asset_key_images db) (asset_key_image_heights db);
}.

Lemma db_grown_refl n db : db_grown n db db.
Proof. split; auto using grown_refl. Qed.

Lemma add_record_grown n db0 db id payload db' : db_grown n db0 db ->
  add_asset_record id n payload db = Good db' -> db_grown n db0 db'.
Proof.
  intros [] E. unfold add_asset_record in E. apply bind_Good in E as ([t h] & E & [= <-]).
  split; cbn; eauto using grown_put.
Qed.

Lemma add_key_image_grown n db0 db key_image db' : db_grown n db0 db ->
  add_asset_key_image key_image n db = Good db' -> db_grown n db0 db'.
Proof.
  intros [] E. unfold add_asset_key_image in E. apply bind_Good in E as ([t h] & E & [= <-]).
  split; cbn; eauto using grown_put.
Qed.

Lemma add_output_grown n db0 db id output db' : db_grown n db0 db -> out_height output = n ->
  add_asset_output id output db = Good db' -> db_grown n db0 db'.
Proof.
  intros [] Ho E. unfold add_asset_output in E. apply bind_Good in E as ([t h] & E & [= <-]).
  rewrite Ho in E. split; cbn; eauto using grown_put.
Qed.

Lemma set_height_grown n db0 db : db_below db0 -> n = db_height db0 -> db_grown n db0 db ->
  db_below (set_height (n + 1) db) /\ pop_block (set_height (n + 1) db) = if n + 1 =? 0 then Thrown "no block" else Good db0.
Proof.
  intros [Hr Ho Hk] -> [Hh Gr Go Gk]. split.
  - split; cbn; eauto using grown_below.
  - unfold pop_block. cbn [db_height set_height]. case_if; [done|]. rewrite Z.add_simpl_r. f_equal.
    unfold remove_asset_records_from_height, remove_asset_outputs_from_height, remove_asset_key_images_from_height.
    cbn -[remove_from_height]. rewrite (grown_removed _ _ _ _ _ Hr Gr).
    cbn -[remove_from_height]. rewrite (grown_removed _ _ _ _ _ Ho Go).
    cbn -[remove_from_height].
    rewrite (grown_removed _ _ _ _ _ Hk Gk). cbn. rewrite Z.add_simpl_r. by destruct db0.
Qed.

(** ** Transactions and blocks *)

Section Chain.
Context `{Crypto, RingCt}.

(** The steps of an asset transaction that is applied. *)
Record applied (db : asset_db) (p : asset_transaction_payload) (net : Z) (carrier : bytes) (height : Z)
  (reg : registry) (issued : option (bytes * bytes)) (outputs : list payload_output)
  (ids : list bytes) (db1 db2 db' : asset_db) : Prop := {
  applied_load : load_registry_from_db db net = Good reg;
  applied_payload : verify_asset_transaction_payload p (known_assets reg) net carrier = Good ();
  applied_ownerships : verify_ownerships db (w_ownership_proofs p) net carrier = Good ();
  applied_issued : issue_asset reg (w_issuance p) height = Good issued;
  applied_outputs : payload_outputs (w_balances p) (w_output_recipients p) = Good outputs;
  applied_ids : candidate_output_ids db net carrier 0 outputs = Good ids;
  applied_record : add_issued issued height db = Good db1;
  applied_images : add_key_images (w_ownership_proofs p) height db1 = Good db2;
  applied_stored : add_outputs outputs ids height 0 db2 = Good db';
}.

Lemma apply_Good db p net carrier height db' ids :
  apply_asset_transaction_to_db db p net carrier height = Good (db', ids) <->
  exists reg issued outputs db1 db2, applied db p net carrier height reg issued outputs ids db1 db2 db'.
Proof.
  unfold apply_asset_transaction_to_db. split.
  - intros E. apply bind_Good in E as (reg & E1 & E). apply bind_Good in E as ([] & E2 & E).
    apply bind_Good in E as ([] & E3 & E). apply bind_Good in E as (issued & E4 & E).
    apply bind_Good in E as (outputs & E5 & E). apply bind_Good in E as (ids' & E6 & E).
    apply bind_Good in E as (db1 & E7 & E). apply bind_Good in E as (db2 & E8 & E).
    apply bind_Good in E as (db3 & E9 & [= <- <-]). exists reg, issued, outputs, db1, db2. by split.
  - intros (reg & issued & outputs & db1 & db2 & [E1 E2 E3 E4 E5 E6 E7 E8 E9]).
    rewrite E1, bind_of_Good, E2, bind_of_Good, E3, bind_of_Good, E4, bind_of_Good, E5, bind_of_Good.
    by rewrite E6, bind_of_Good, E7, bind_of_Good, E8, bind_of_Good, E9.
Qed.

Lemma add_key_images_grown n db0 proofs : forall db db', db_grown n db0 db ->
  add_key_images proofs n db = Good db' -> db_grown n db0 db'.
Proof.
  induction proofs as [|p proofs IH]; intros db db' Hg E; [by injection E as <-|].
  cbn [add_key_images] in E. apply bind_Good in E as (db1 & E1 & E). eauto using add_key_image_grown.
Qed.

Lemma add_outputs_grown n db0 outputs : forall ids index db db', db_grown n db0 db ->
  add_outputs outputs ids n index db = Good db' -> db_grown n db0 db'.
Proof.
  induction outputs as [|[[asset commitment] r] outputs IH]; intros [|id ids] index db db' Hg E;
    try (by injection E as <-); [done|].
  cbn [add_outputs] in E. apply bind_Good in E as (db1 & E1 & E).
  apply (add_output_grown _ _ _ _ _ _ Hg) in E1; [eauto|done].
Qed.

Lemma apply_grown n db0 db p net carrier db' ids : db_grown n db0 db ->
  apply_asset_transaction_to_db db p net carrier n = Good (db', ids) -> db_grown n db0 db'.
Proof.
  intros Hg (reg & issued & outputs & db1 & db2 & [])%apply_Good.
  assert (db_grown n db0 db1).
  { destruct issued as [[id e]|]; cbn in *; [by eapply add_record_grown|congruence]. }
  eauto using add_key_images_grown, add_outputs_grown.
Qed.

(** A block that is added applies its payloads one after the other. *)
Lemma apply_payloads_cons p payloads nettype n db db' :
  apply_payloads (Some p :: payloads) nettype n db = Good db' <->
  exists db1 ids, apply_asset_transaction_to_db db p (asset_network nettype) (w_carrier_prefix_hash p) n = Good (db1, ids) /\
    apply_payloads payloads nettype n db1 = Good db'.
Proof.
  cbn [apply_payloads]. destruct (apply_asset_transaction_to_db _ _ _ _ _) as [[db1 ids]| | |];
    cbn [mbind outcome_bind]; split; try done; try (by intros (? & ? & ? & _)); [eauto|].
  by intros (? & ? & [= -> ->] & ?).
Qed.

Lemma apply_payloads_grown nettype n db0 payloads : forall db db', db_grown n db0 db ->
  apply_payloads payloads nettype n db = Good db' -> db_grown n db0 db'.
Proof.
  induction payloads as [|[p|] payloads IH]; intros db db' Hg E; [by injection E as <-| |by apply (IH db)].
  apply apply_payloads_cons in E as (db1 & ids & E1 & E). eauto using apply_grown.
Qed.

(** ** Chains *)

(** The database a chain of blocks builds from nothing. *)
Fixpoint replay (nettype : Z) (chain : list block) (db : asset_db) : outcome asset_db :=
  match chain with
  | [] => Good db
  | b :: chain => db ← handle_block_to_main_chain nettype b db; replay nettype chain db
  end.

(** A database that blocks are added to and popped from, with its chain. *)
Inductive run (nettype : Z) : list block -> asset_db -> Prop :=
| run_empty : run nettype [] empty_db
| run_add chain b db db' : run nettype chain db ->
    handle_block_to_main_chain nettype b db = Good db' -> run nettype (chain ++ [b]) db'
| run_pop chain b db db' : run nettype (chain ++ [b]) db ->
    pop_block db = Good db' -> run nettype chain db'.

Lemma replay_app nettype c1 c2 : forall db,
  replay nettype (c1 ++ c2) db = (db1 ← replay nettype c1 db; replay nettype c2 db1).
Proof.
  induction c1 as [|b c1 IH]; intros db; [done|]. cbn [app replay].
  destruct (handle_block_to_main_chain nettype b db); cbn [mbind outcome_bind]; auto.
Qed.

Lemma handle_block_Good nettype b db db' : handle_block_to_main_chain nettype b db = Good db' <->
  exists db1, apply_payloads b nettype (db_height db) db = Good db1 /\ db' = set_height (db_height db + 1) db1.
Proof.
  unfold handle_block_to_main_chain. rewrite bind_Good. split.
  - intros (db1 & E & [= <-]). eauto.
  - intros (db1 & E & ->). eauto.
Qed.

(** Popping the block that was added last restores the database. *)
Lemma handle_block_pop nettype b db db' : db_below db -> 0 <= db_height db ->
  handle_block_to_main_chain nettype b db = Good db' -> db_below db' /\ pop_block db' = Good db.
Proof.
  intros Hb Hh (db1 & E & ->)%handle_block_Good.
  apply (apply_payloads_grown _ _ db) in E; [|apply db_grown_refl].
  apply set_height_grown in E as [? E]; [|done..]. split; [done|].
  by rewrite (proj2 (Z.eqb_neq (db_height db + 1) 0)) in E by lia.
Qed.

Lemma empty_below : db_below empty_db.
Proof. split; cbn; set_solver. Qed.

Lemma replay_below nettype chain : forall db db', db_below db -> 0 <= db_height db ->
  replay nettype chain db = Good db' -> db_below db' /\ db_height db' = db_height db + Z.of_nat (length chain).
Proof.
  induction chain as [|b chain IH]; intros db db' Hb Hh E; cbn [replay length] in *.
  { injection E as <-. split; [done|lia]. }
  apply bind_Good in E as (db1 & E1 & E).
  assert (db_height db1 = db_height db + 1) by (by apply handle_block_Good in E1 as (? & _ & ->)).
  apply handle_block_pop in E1 as [Hb1 _]; [|done..].
  apply IH in E as [? ->]; [|done|lia]. split; [done|lia].
Qed.

Lemma run_replay nettype chain db : run nettype chain db -> replay nettype chain empty_db = Good db.
Proof.
  induction 1 as [|chain b db db' _ IH E|chain b db db' _ IH E]; [done| |].
  - rewrite replay_app, IH, bind_of_Good. cbn. by rewrite E.
  - rewrite replay_app in IH. apply bind_Good in IH as (db0 & E0 & IH). cbn in IH.
    apply bind_Good in IH as (db1 & E1 & [= <-]).
    destruct (replay_below nettype chain empty_db db0) as [Hb Hh]; [apply empty_below|done|done|].
    apply handle_block_pop in E1 as [_ E1]; [congruence|done|]. rewrite Hh. cbn. lia.
Qed.

(** C7: Whatever blocks are added and popped, in a reorganisation or not, the
    asset tables are those that the blocks of the current chain build from
    nothing: the records, outputs and key images of popped blocks leave no
    trace, and no other entry is lost. *)
Theorem reorganisation_exact nettype chain db :
  run nettype chain db -> replay nettype chain empty_db = Good db.
Proof. apply run_replay. Qed.

End Chain.
