(* ===== verification/AssetDbLoad.v ===== *)
(** Loading the registry from the asset database: what it contains, and two
    kinds of stored assets that keep it from loading, after which no asset
    transaction is accepted any more. *)

From stdpp Require Import gmap sorting.
From S2P Require Import Prelude Bytes AssetTypes AssetExamples AssetCodec AssetRegistry AssetRegistryProps AssetSnapshot.
From S2P Require Import AssetConfidential AssetOwnership AssetWire AssetWireCodec AssetDb AssetDbTables.

(** ** The registry of a database *)

Section Load.
Context `{Crypto}.

Lemma stored_records_Good entries : forall records, for_all_asset_records entries = Good records ->
  Forall2 (fun e r => stored_record e = Good r) entries records.
Proof.
  induction entries as [|e entries IH]; intros records E; cbn [for_all_asset_records] in E.
  - injection E as <-. constructor.
  - apply bind_Good in E as (r & E1 & E). apply bind_Good in E as (rs & E2 & [= <-]). constructor; eauto.
Qed.

Lemma stored_record_id e r : stored_record e = Good r -> st_id r = e.1.
Proof. unfold stored_record. destruct (read_u64_le e.2) as [[h p]|]; [|done]. case_if; [|done]. by intros [= <-]. Qed.

Lemma stored_records_ids entries records : for_all_asset_records entries = Good records ->
  st_id <$> records = entries.*1.
Proof.
  intros E%stored_records_Good. induction E as [|e r es rs E1 _ IH]; [done|]. cbn.
  by rewrite (stored_record_id _ _ E1), IH.
Qed.

(** The records that are read are those of the table. *)
Lemma stored_records_elem db records r :
  Forall2 (fun e r => stored_record e = Good r) (map_to_list (asset_records db)) records -> r ∈ records ->
  exists value, asset_records db !! st_id r = Some value /\ read_u64_le value = Some (st_height r, st_payload r).
Proof.
  intros E [i Hi]%list_elem_of_lookup. destruct (Forall2_lookup_r _ _ _ _ _ E Hi) as ([k v] & Hv & Es).
  apply list_elem_of_lookup_2, elem_of_map_to_list in Hv. unfold stored_record in Es. cbn [fst snd] in Es.
  destruct (read_u64_le v) as [[h p]|] eqn:Er; [|done]. case_if_in Es; [|done]. injection Es as <-. eauto.
Qed.

(** A stored record, when it is loaded onto the records [before] it. *)
Definition loads (net : Z) (before : gset bytes) (r : stored_issuance) : Prop :=
  exists p, decode_issuance_payload (st_payload r) = Good p /\ d_network (p_descriptor p) = net /\
    (d_collection_id (p_descriptor p) = null_hash \/ d_collection_id (p_descriptor p) ∈ before).

Lemma load_records_Good net records : forall reg reg', load_records records net reg = Good reg' ->
  dom reg' = dom reg ∪ list_to_set (st_id <$> records) /\
  forall pre r post, records = pre ++ r :: post -> loads net (dom reg ∪ list_to_set (st_id <$> pre)) r.
Proof.
  induction records as [|s records IH]; intros reg reg' E; cbn [load_records] in E.
  { injection E as <-. split; [set_solver|]. by intros [] ? ?. }
  apply bind_Good in E as (p & Ep & E). apply bind_Good in E as ([] & En%require_Good & E).
  apply bind_Good in E as ([reg1 id] & (_ & _ & _ & Em & ->)%apply_issuance_Good & E).
  apply bind_Good in E as ([] & ->%require_Good%bool_decide_eq_true & E).
  apply IH in E as [Hdom Hall]. rewrite dom_insert_L in *. split; [set_solver|].
  intros [|s' pre] r post [= -> ->].
  - exists p. split_and!; [done|lia|]. apply check_membership_Good in Em as [[? _]|(_ & c & g & Hc & _)]; [by left|].
    right. apply elem_of_dom_2 in Hc. set_solver.
  - destruct (Hall pre r post eq_refl) as (q & Hq & Hn & Hc). exists q. split_and!; [done|done|].
    destruct Hc as [?|Hc]; [by left|right]. cbn. set_solver.
Qed.

(** The registry of a database has exactly its records. *)
Lemma load_registry_dom db net reg : load_registry_from_db db net = Good reg ->
  known_assets reg = dom (asset_records db).
Proof.
  intros E. apply bind_Good in E as (records & E1 & [Hdom _]%load_records_Good).
  unfold known_assets. rewrite Hdom, dom_empty_L, (left_id_L ∅ (∪)). apply set_eq. intros id.
  rewrite elem_of_list_to_set, merge_sort_Permutation, (stored_records_ids _ _ E1), elem_of_dom, list_elem_of_fmap.
  split.
  - intros ([i v] & -> & Hi%elem_of_map_to_list). by exists v.
  - intros [v Hv]. exists (id, v). split; [done|]. by apply elem_of_map_to_list.
Qed.

(** ** The order of the records *)

#[global] Instance stored_le_total : Total stored_le.
Proof. intros l r. apply (key_le_total (st_height l, 0, st_id l) (st_height r, 0, st_id r)). Qed.

#[global] Instance stored_le_trans : Transitive stored_le.
Proof. intros a b c. apply (key_le_trans (st_height a, 0, st_id a) (st_height b, 0, st_id b) (st_height c, 0, st_id c)). Qed.

(** What a record needs for a registry to load that has it: it decodes, it is
    of the network, and its collection is stored before it. *)
Lemma load_registry_Good db net reg id value height payload :
  load_registry_from_db db net = Good reg ->
  asset_records db !! id = Some value -> read_u64_le value = Some (height, payload) ->
  exists p, decode_issuance_payload payload = Good p /\ d_network (p_descriptor p) = net /\
    (d_collection_id (p_descriptor p) = null_hash \/ exists value' height' payload',
      asset_records db !! d_collection_id (p_descriptor p) = Some value' /\
      read_u64_le value' = Some (height', payload') /\
      stored_less (Stored id height payload) (Stored (d_collection_id (p_descriptor p)) height' payload') = false).
Proof.
  intros E Hid Hr. apply bind_Good in E as (records & E1%stored_records_Good & [_ Hall]%load_records_Good).
  assert (Stored id height payload ∈ merge_sort stored_le records) as (pre & post & Hs)%list_elem_of_split.
  { rewrite merge_sort_Permutation. apply elem_of_map_to_list, list_elem_of_lookup in Hid as [i Hi].
    destruct (Forall2_lookup_l _ _ _ _ _ E1 Hi) as (r & Hri & Es). apply list_elem_of_lookup_2 in Hri.
    unfold stored_record in Es. cbn [fst snd] in Es. rewrite Hr in Es. case_if_in Es; [|done]. by injection Es as ->. }
  destruct (Hall _ _ _ Hs) as (p & Hp & Hn & Hc). exists p. split_and!; [done..|].
  destruct Hc as [?|Hc]; [by left|right]. rewrite dom_empty_L, (left_id_L ∅ (∪)), elem_of_list_to_set in Hc.
  apply list_elem_of_fmap in Hc as (c & -> & Hc).
  destruct (stored_records_elem _ _ c E1) as (v & Hv & Hrv).
  { rewrite <- (merge_sort_Permutation stored_le), Hs. set_solver. }
  exists v, (st_height c), (st_payload c). split_and!; [done..|].
  pose proof (StronglySorted_merge_sort stored_le records) as Hsort. rewrite Hs in Hsort.
  apply StronglySorted_app_1_elem_of with (x1 := c) (x2 := Stored id height payload) in Hsort; [|done|by left].
  by destruct c.
Qed.

End Load.

(** ** Databases that do not load *)

Section Stopped.
Context `{Crypto, RingCt}.

(** No asset transaction is accepted, by the pool or in a block, for as long as
    no block is popped. *)
Definition assets_stopped (nettype : Z) (db : asset_db) : Prop :=
  forall blocks db', replay nettype blocks db = Good db' ->
    Forall (Forall (fun payload => payload = None)) blocks /\
    forall pool id p, pool_accepts nettype db' pool id p <> Good ().

Lemma unloadable_block nettype b db db' :
  (forall reg, load_registry_from_db db (asset_network nettype) <> Good reg) ->
  handle_block_to_main_chain nettype b db = Good db' ->
  Forall (fun payload => payload = None) b /\ asset_records db' = asset_records db.
Proof.
  intros Hno (db1 & E & ->)%handle_block_Good. cbn.
  revert E. generalize (db_height db). induction b as [|[p|] b IH]; intros n E.
  - injection E as <-. split; [constructor|done].
  - apply apply_payloads_cons in E as (db2 & ids & (reg & ? & ? & ? & ? & [Hl])%apply_Good & _). by apply Hno in Hl.
  - destruct (IH n E) as [Hb ?]. split; [by constructor|done].
Qed.

Lemma unloadable_stopped nettype db :
  (forall reg, load_registry_from_db db (asset_network nettype) <> Good reg) -> assets_stopped nettype db.
Proof.
  intros Hno blocks. revert db Hno. induction blocks as [|b blocks IH]; intros db Hno db' E.
  - injection E as <-. split; [constructor|]. intros pool id p Hp. apply bind_Good in Hp as ([] & Hp & _).
    apply bind_Good in Hp as (reg & Hl & _). by apply Hno in Hl.
  - cbn [replay] in E. apply bind_Good in E as (db1 & (Hb & Hrec)%unloadable_block & E); [|done].
    destruct (IH db1) with (db' := db') as [? ?]; [|done|split; [by constructor|done]].
    intros reg Hl. apply (Hno reg). unfold load_registry_from_db in *. by rewrite Hrec in Hl.
Qed.

(** C37: The registry is loaded in the order of heights and ids.  Once a
    database has a collection and a member of it that was issued at the same
    height and has the smaller id, no asset transaction is accepted any more,
    by the pool or in a block, until a block is popped.  The witness builds such
    a database with one block. *)
Theorem early_member_stops_assets nettype db id value height payload p value' payload' :
  asset_records db !! id = Some value -> read_u64_le value = Some (height, payload) ->
  decode_issuance_payload payload = Good p -> d_collection_id (p_descriptor p) <> null_hash ->
  asset_records db !! d_collection_id (p_descriptor p) = Some value' ->
  read_u64_le value' = Some (height, payload') ->
  memcmp_lt id (d_collection_id (p_descriptor p)) = true ->
  assets_stopped nettype db.
Proof.
  intros Hid Hr Hp Hn Hid' Hr' Hless. apply unloadable_stopped. intros reg Hl.
  destruct (load_registry_Good _ _ _ _ _ _ _ Hl Hid Hr) as (q & Hq & _ & Hc).
  assert (q = p) as -> by congruence.
  destruct Hc as [?|(v & h & pl & Hv & Hrv & Hle)]; [done|]. assert (v = value') as -> by congruence.
  assert (h = height) as -> by congruence. unfold stored_less in Hle. cbn in Hle.
  rewrite Z.eqb_refl in Hle. cbn in Hle. congruence.
Qed.

(** C38: The network of an issued asset's descriptor is checked when the registry
    is loaded, and not before.  Once a database has an asset whose descriptor
    names another network, no asset transaction is accepted any more, by the
    pool or in a block, until a block is popped.  The witness builds such a
    database with one block. *)
Theorem foreign_asset_stops_assets nettype db id value height payload p :
  asset_records db !! id = Some value -> read_u64_le value = Some (height, payload) ->
  decode_issuance_payload payload = Good p -> d_network (p_descriptor p) <> asset_network nettype ->
  assets_stopped nettype db.
Proof.
  intros Hid Hr Hp Hn. apply unloadable_stopped. intros reg Hl.
  destruct (load_registry_Good _ _ _ _ _ _ _ Hl Hid Hr) as (q & Hq & ? & _). congruence.
Qed.

End Stopped.

(** ** Samples *)

(** The envelope that issues an asset to one recipient. *)
Definition issue (p : issuance_payload) (carrier : bytes) : asset_transaction_payload :=
  let supply := d_atomic_supply (p_descriptor p) in
  Envelope ASSET_TRANSACTION_WIRE_VERSION MAINNET carrier (Some p)
    [Balance (id_of p) [Pseudo (id_of p) (commit supply)] [commit supply] [] [sample_range_proof [commit supply]]]
    [[sample_recipient]] [].

(** The database after a block of sample envelopes on top of nothing. *)
Definition after (b : block) : asset_db := value empty_db (handle_block_to_main_chain MAINNET b empty_db).

Lemma run_after b : is_good (handle_block_to_main_chain MAINNET b empty_db) = true -> run MAINNET [b] (after b).
Proof. intros E. apply (run_add _ [] b empty_db); [constructor|]. by apply value_Good. Qed.

Abbreviation stored_bytes p := (value [] (encode_issuance_payload p)).

(** A picture whose id is smaller than that of its collection. *)
Definition early_picture : issuance_payload := sample MAINNET non_fungible 5 1 (id_of gallery).
Definition early_block : block := [Some (issue gallery (fill 6)); Some (issue early_picture (fill 7))].

Lemma early_member_stops_assets_witness :
  run MAINNET [early_block] (after early_block) /\ assets_stopped MAINNET (after early_block).
Proof.
  split; [apply run_after; vm_compute; reflexivity|].
  apply (early_member_stops_assets MAINNET (after early_block) (id_of early_picture)
    (u64_le 0 ++ stored_bytes early_picture) 0 (stored_bytes early_picture) early_picture
    (u64_le 0 ++ stored_bytes gallery) (stored_bytes gallery));
    first [by vm_compute|vm_compute; reflexivity].
Defined.

(** A coin of the test network, issued on the main network. *)
Definition foreign_coin : issuance_payload := sample TESTNET fungible 1 1000 null_hash.
Definition foreign_block : block := [Some (issue foreign_coin (fill 6))].

Lemma foreign_asset_stops_assets_witness :
  run MAINNET [foreign_block] (after foreign_block) /\ assets_stopped MAINNET (after foreign_block).
Proof.
  split; [apply run_after; vm_compute; reflexivity|].
  apply (foreign_asset_stops_assets MAINNET (after foreign_block) (id_of foreign_coin)
    (u64_le 0 ++ stored_bytes foreign_coin) 0 (stored_bytes foreign_coin) foreign_coin);
    first [by vm_compute|vm_compute; reflexivity].
Defined.
