(* ===== verification/AssetDbLedger.v ===== *)
(** The contract of the asset database: a ledger of asset transactions, whose
    rules every chain obeys and which the tables represent. *)

From stdpp Require Import gmap sorting.
From S2P Require Import Prelude Bytes AssetTypes AssetExamples AssetCodec AssetRegistry AssetRegistryProps AssetSnapshot.
From S2P Require Import AssetConfidential AssetOwnership AssetWire AssetWireCodec AssetDb AssetDbTables AssetDbLoad.

(** ** The ledger *)

Section Ledger.
Context `{Crypto, RingCt}.
Implicit Types (p q : asset_transaction_payload) (ledger : list asset_transaction_payload).

(** The key images that a transaction spends, the asset it issues and the
    outputs it creates. *)
Definition spends p : list bytes := o_key_image <$> w_ownership_proofs p.

Definition issues p : option bytes :=
  i ← w_issuance p;
  match derive_asset_id (p_descriptor i) with Good id => Some id | _ => None end.

Definition creates p (asset_id destination commitment : bytes) : Prop :=
  exists outputs r, payload_outputs (w_balances p) (w_output_recipients p) = Good outputs /\
    (asset_id, commitment, r) ∈ outputs /\ c_destination r = destination.

Definition spent ledger : list bytes := ledger ≫= spends.
Definition issued ledger : list bytes := omap issues ledger.

(** Transaction [p] may follow the transactions of [ledger]: it issues a new
    asset, if any; its groups are of distinct assets of the ledger or of the new
    one, balance and are in range; its inputs are each owned by one of its
    proofs; the proofs spend key images that are new and distinct; and their
    rings are outputs of the ledger with the asset of the proof. *)
Record may_follow (network : Z) ledger p : Prop := {
  follow_issue : forall id, issues p = Some id -> id ∉ issued ledger;
  follow_groups : Forall (group_ok (list_to_set (issued ledger)) (p_descriptor <$> w_issuance p) (issues p))
    (w_balances p);
  follow_assets : NoDup (b_asset_id <$> w_balances p);
  follow_owned : exists proofs, proofs ≡ₚ w_ownership_proofs p /\
    Forall2 (owns network (w_carrier_prefix_hash p)) (w_balances p ≫= owned_inputs (issues p)) proofs;
  follow_new : forall key_image, key_image ∈ spends p -> key_image ∉ spent ledger;
  follow_once : NoDup (spends p);
  follow_rings : forall proof member, proof ∈ w_ownership_proofs p -> member ∈ o_ring proof ->
    m_asset_id member = o_asset_id proof /\
    exists q, q ∈ ledger /\
      creates q (o_asset_id proof) (ct_dest (m_public_output member)) (ct_mask (m_public_output member));
}.

Inductive valid_ledger (network : Z) : list asset_transaction_payload -> Prop :=
| valid_nil : valid_ledger network []
| valid_snoc ledger p : valid_ledger network ledger -> may_follow network ledger p ->
    valid_ledger network (ledger ++ [p]).

(** The tables of [db] hold what the transactions of [ledger] did. *)
Record represents (db : asset_db) ledger : Prop := {
  rep_records : dom (asset_records db) = list_to_set (issued ledger);
  rep_key_images : dom (asset_key_images db) = list_to_set (spent ledger);
  rep_outputs : forall id o, asset_outputs db !! id = Some o ->
    exists q, q ∈ ledger /\ creates q (out_asset_id o) (out_destination o) (out_commitment o);
}.

(** The transactions of a chain. *)
Definition chain_ledger (chain : list block) : list asset_transaction_payload := chain ≫= omap id.

(** *** One transaction *)

Lemma add_key_images_Good proofs n : forall db db', add_key_images proofs n db = Good db' ->
  asset_records db' = asset_records db /\ asset_outputs db' = asset_outputs db /\
  dom (asset_key_images db') = dom (asset_key_images db) ∪ list_to_set (o_key_image <$> proofs).
Proof.
  induction proofs as [|p proofs IH]; intros db db' E; [injection E as <-; set_solver|].
  cbn [add_key_images] in E. apply bind_Good in E as (db1 & E1 & E). apply IH in E as (-> & -> & ->).
  unfold add_asset_key_image in E1. apply bind_Good in E1 as ([t h] & (_ & _ & [= -> ->])%put_Good & [= <-]).
  cbn. rewrite dom_insert_L. split_and!; [done..|set_solver].
Qed.

Lemma add_outputs_Good n outputs : forall ids index db db', add_outputs outputs ids n index db = Good db' ->
  asset_records db' = asset_records db /\ asset_key_images db' = asset_key_images db /\
  forall id o, asset_outputs db' !! id = Some o -> asset_outputs db !! id = Some o \/
    exists r, (out_asset_id o, out_commitment o, r) ∈ outputs /\ c_destination r = out_destination o.
Proof.
  induction outputs as [|[[asset commitment] r] outputs IH]; intros [|i ids] index db db' E;
    try (injection E as <-; by auto); [done|].
  cbn [add_outputs] in E. apply bind_Good in E as (db1 & E1 & E). apply IH in E as (-> & -> & Hout).
  unfold add_asset_output in E1. apply bind_Good in E1 as ([t h] & (_ & _ & [= -> ->])%put_Good & [= <-]).
  cbn in *. split_and!; [done..|]. intros id o Ho.
  destruct (Hout id o Ho) as [[[<- <-]|[? ?]]%lookup_insert_Some|(s & ? & ?)]; [right|by left|right].
  - exists r. split; [by left|done].
  - exists s. split; [by right|done].
Qed.

Lemma add_issued_Good i n db db' : add_issued i n db = Good db' ->
  asset_outputs db' = asset_outputs db /\ asset_key_images db' = asset_key_images db /\
  dom (asset_records db') = dom (asset_records db) ∪ list_to_set (option_list (fst <$> i)).
Proof.
  destruct i as [[id e]|]; cbn [add_issued]; intros E.
  - unfold add_asset_record in E. apply bind_Good in E as ([t h] & (_ & _ & [= -> ->])%put_Good & [= <-]).
    cbn. rewrite dom_insert_L. split_and!; [done..|set_solver].
  - injection E as <-. split_and!; [done..|set_solver].
Qed.

Lemma issue_asset_Good reg p n i : issue_asset reg (w_issuance p) n = Good i ->
  fst <$> i = issues p /\ forall id, issues p = Some id -> id ∉ known_assets reg.
Proof.
  unfold issues. destruct (w_issuance p) as [ip|]; cbn [issue_asset mbind option_bind].
  - intros E. apply bind_Good in E as ([reg' id] & (Hd & Hn & _)%apply_issuance_Good & E).
    apply bind_Good in E as (e & _ & [= <-]). rewrite Hd. split; [done|]. intros ? [= <-].
    by apply not_elem_of_dom.
  - intros [= <-]. done.
Qed.

Lemma derive_issued_issues p i : derive_issued_id (p_descriptor <$> w_issuance p) = Good i -> i = issues p.
Proof.
  unfold issues. destruct (w_issuance p) as [ip|]; cbn; [|congruence].
  intros E. apply bind_Good in E as (id & -> & [= <-]). done.
Qed.

Lemma verify_ownerships_Good db proofs net carrier : verify_ownerships db proofs net carrier = Good () ->
  forall proof, proof ∈ proofs -> verify_asset_ownership_against_db db proof net carrier = Good ().
Proof.
  induction proofs as [|p proofs IH]; intros E proof Hin; [by apply not_elem_of_nil in Hin|].
  cbn [verify_ownerships] in E. apply bind_Good in E as ([] & E1 & E). set_solver.
Qed.

Lemma check_ring_Good db asset ring member : check_ring db asset ring = Good () -> member ∈ ring ->
  m_asset_id member = asset /\ exists o, get_asset_output (m_output_id member) db = Some o /\
    out_asset_id o = asset /\ out_destination o = ct_dest (m_public_output member) /\
    out_commitment o = ct_mask (m_public_output member).
Proof.
  intros E Hin. revert E. induction Hin as [m ring|m x ring Hin IH]; intros E; cbn [check_ring] in E;
    apply bind_Good in E as ([] & E1 & E); [|eauto].
  unfold check_ring_member in E1. apply bind_Good in E1 as (o & Ho%expect_Good & E1).
  apply bind_Good in E1 as ([] & E2%require_Good & E1). apply bind_Good in E1 as ([] & E3%require_Good & E4%require_Good).
  rewrite andb_true_iff, !bool_decide_eq_true in *. destruct E2 as [Ha <-]. split; [done|]. eauto 10.
Qed.

Lemma payload_Good p known net carrier : verify_asset_transaction_payload p known net carrier = Good () ->
  verify_confidential_asset_transaction_with_ownership (w_balances p) (w_ownership_proofs p) known
    (p_descriptor <$> w_issuance p) net carrier = Good ().
Proof. unfold verify_asset_transaction_payload. intros E. by good_inv E. Qed.

(** A transaction that passes the checks of the database may follow. *)
Lemma verified_follows db ledger p net reg : represents db ledger ->
  load_registry_from_db db net = Good reg ->
  verify_asset_transaction_payload p (known_assets reg) net (w_carrier_prefix_hash p) = Good () ->
  verify_ownerships db (w_ownership_proofs p) net (w_carrier_prefix_hash p) = Good () ->
  (forall id, issues p = Some id -> id ∉ known_assets reg) -> may_follow net ledger p.
Proof.
  intros [Hr Hk Ho] Hload Hp%payload_Good Hown Hnew. rewrite (load_registry_dom _ _ _ Hload), Hr in *.
  apply ownership_Good in Hp as [(i & ->%derive_issued_issues & _ & Hg & Hnd & _)%transaction_Good
    (i' & proofs & ->%derive_issued_issues & Hperm & Howns & Honce)].
  pose proof (verify_ownerships_Good _ _ _ _ Hown) as Hver. split; [set_solver|done|done|by exists proofs| |done|].
  - intros k (proof & -> & Hin)%list_elem_of_fmap. apply Hver in Hin.
    apply bind_Good in Hin as ([] & Hin%require_Good & _). unfold has_asset_key_image in Hin.
    apply negb_true_iff, bool_decide_eq_false in Hin. rewrite <- elem_of_dom, Hk in Hin. set_solver.
  - intros proof member Hin Hm. apply Hver in Hin. apply bind_Good in Hin as ([] & _ & Hin).
    apply bind_Good in Hin as ([] & Hring & _).
    destruct (check_ring_Good _ _ _ _ Hring Hm) as (Ha & o & Hout & Hao & <- & <-).
    split; [done|]. rewrite <- Hao. by apply (Ho (m_output_id member)).
Qed.

Lemma apply_represents db ledger p net n db' ids : represents db ledger ->
  apply_asset_transaction_to_db db p net (w_carrier_prefix_hash p) n = Good (db', ids) ->
  may_follow net ledger p /\ represents db' (ledger ++ [p]).
Proof.
  intros Hrep (reg & i & outputs & db1 & db2 & [E1 E2 E3 E4 E5 E6 E7 E8 E9])%apply_Good.
  apply issue_asset_Good in E4 as [Hi Hnew]. split; [by eapply verified_follows|].
  destruct Hrep as [Hr Hk Ho]. apply add_issued_Good in E7 as (Ho1 & Hk1 & Hr1).
  apply add_key_images_Good in E8 as (Hr2 & Ho2 & Hk2). apply add_outputs_Good in E9 as (Hr3 & Hk3 & Ho3).
  split.
  - rewrite Hr3, Hr2, Hr1, Hi, Hr. unfold issued. rewrite omap_app. cbn. destruct (issues p); set_solver.
  - rewrite Hk3, Hk2, Hk1, Hk. unfold spent. rewrite bind_app. cbn. unfold spends. set_solver.
  - intros id o Hid. destruct (Ho3 id o Hid) as [Hid'|(r & Hin & Hd)].
    + rewrite Ho2, Ho1 in Hid'. destruct (Ho id o Hid') as (q & ? & ?). exists q. split; [set_solver|done].
    + exists p. split; [set_solver|]. by exists outputs, r.
Qed.

(** *** Chains *)

Lemma payloads_ledger nettype n payloads : forall db ledger db', represents db ledger ->
  valid_ledger (asset_network nettype) ledger -> apply_payloads payloads nettype n db = Good db' ->
  represents db' (ledger ++ omap id payloads) /\ valid_ledger (asset_network nettype) (ledger ++ omap id payloads).
Proof.
  induction payloads as [|[p|] payloads IH]; intros db ledger db' Hrep Hv E.
  - injection E as <-. by rewrite app_nil_r.
  - apply apply_payloads_cons in E as (db1 & ids & E1 & E).
    apply (apply_represents _ _ _ _ _ _ _ Hrep) in E1 as [Hf Hrep1].
    apply (IH _ _ _ Hrep1) in E; [|by constructor]. by rewrite <- app_assoc in E.
  - by apply (IH db).
Qed.

Lemma set_height_represents n db ledger : represents db ledger -> represents (set_height n db) ledger.
Proof. intros []. by split. Qed.

Lemma replay_ledger nettype chain : forall db ledger db', represents db ledger ->
  valid_ledger (asset_network nettype) ledger -> replay nettype chain db = Good db' ->
  represents db' (ledger ++ chain_ledger chain) /\ valid_ledger (asset_network nettype) (ledger ++ chain_ledger chain).
Proof.
  induction chain as [|b chain IH]; intros db ledger db' Hrep Hv E; cbn [replay] in E.
  - injection E as <-. by rewrite app_nil_r.
  - apply bind_Good in E as (db1 & (db2 & E1 & ->)%handle_block_Good & E).
    apply (payloads_ledger _ _ _ _ _ _ Hrep Hv) in E1 as [Hrep1 Hv1].
    apply (IH _ (ledger ++ omap id b)) in E; [|by apply set_height_represents|done].
    by rewrite <- app_assoc in E.
Qed.

Lemma empty_represents : represents empty_db [].
Proof. split; [done|done|]. by intros id o. Qed.

Lemma run_ledger nettype chain db : run nettype chain db ->
  represents db (chain_ledger chain) /\ valid_ledger (asset_network nettype) (chain_ledger chain).
Proof. intros E%run_replay. apply (replay_ledger _ _ empty_db []); [apply empty_represents|constructor|done]. Qed.

(** C2: The asset database refines the ledger: however blocks are added and
    popped, the transactions of the current chain obey the ledger's rules one
    after the other, and the tables hold exactly the assets they issued and
    the key images they spent, and only outputs they created. *)
Theorem asset_db_refines_ledger nettype chain db : run nettype chain db ->
  valid_ledger (asset_network nettype) (chain_ledger chain) /\ represents db (chain_ledger chain).
Proof. intros [? ?]%run_ledger. done. Qed.

Lemma valid_ledger_NoDup net ledger : valid_ledger net ledger -> NoDup (spent ledger) /\ NoDup (issued ledger).
Proof.
  induction 1 as [|ledger p _ [Hs Hi] [Hnew _ _ _ Hfresh Honce _]]; [split; constructor|].
  unfold spent, issued in *. rewrite bind_app, omap_app. split; apply NoDup_app.
  - split_and!; [done|set_solver|]. cbn. by rewrite app_nil_r.
  - split_and!; [done| |]; cbn; destruct (issues p) as [id|]; try (apply NoDup_singleton || constructor); set_solver.
Qed.

(** C5: No asset output is spent twice in a chain and no asset is issued twice:
    all key images of all ownership proofs of the chain differ, and so do all
    issued ids. *)
Theorem no_double_spend nettype chain db : run nettype chain db ->
  NoDup (spent (chain_ledger chain)) /\ NoDup (issued (chain_ledger chain)).
Proof. intros [_ ?]%run_ledger. by eapply valid_ledger_NoDup. Qed.

End Ledger.

(** ** Samples *)

(** Sixteen pennies are issued, each to an output of its own, and one of them is
    passed on. *)
Definition penny : issuance_payload := sample MAINNET fungible 1 16 null_hash.
Definition issue_pennies : asset_transaction_payload :=
  Envelope ASSET_TRANSACTION_WIRE_VERSION MAINNET (fill 6) (Some penny)
    [Balance (id_of penny) [Pseudo (id_of penny) (commit 16)] (replicate 16 (commit 1)) []
      [sample_range_proof (replicate 16 (commit 1))]]
    [replicate 16 sample_recipient] [].

Definition penny_member (k : nat) : asset_ring_member :=
  Member (id_of penny)
    (value [] (derive_asset_output_id MAINNET (fill 6) (id_of penny) (Z.of_nat k) (fill 5) (commit 1)))
    (Ctkey (fill 5) (commit 1)).
Definition pass_penny : asset_transaction_payload :=
  Envelope ASSET_TRANSACTION_WIRE_VERSION MAINNET (fill 7) None
    [Balance (id_of penny) [Pseudo (id_of penny) (commit 1)] [commit 1] [] [sample_range_proof [commit 1]]]
    [[sample_recipient]]
    [Ownership (id_of penny) (commit 1) (fill 77) (penny_member <$> seq 0 16)
      (Clsag (replicate 16 (fill 1)) (fill 2) (fill 77) (fill 3))].

Definition penny_chain : list block := [[Some issue_pennies]; [None; Some pass_penny]].

Lemma pop_after b : is_good (handle_block_to_main_chain MAINNET b empty_db) = true ->
  pop_block (after b) = Good empty_db.
Proof. intros E. apply (handle_block_pop MAINNET b); [apply empty_below|done|by apply value_Good]. Qed.

(** The pennies' chain, after a block with another coin was popped. *)
Lemma penny_run : exists db, run MAINNET penny_chain db.
Proof.
  pose (db1 := after [Some issue_pennies]).
  exists (value empty_db (handle_block_to_main_chain MAINNET [None; Some pass_penny] db1)).
  apply (run_add _ [[Some issue_pennies]] _ db1); [|apply value_Good; vm_compute; reflexivity].
  apply (run_add _ [] _ empty_db); [|apply value_Good; vm_compute; reflexivity].
  apply (run_pop _ [] [Some (issue coin (fill 6))] (after [Some (issue coin (fill 6))])).
  - apply run_after. vm_compute. reflexivity.
  - apply pop_after. vm_compute. reflexivity.
Qed.

Lemma asset_db_refines_ledger_witness : exists db,
  valid_ledger MAINNET [issue_pennies; pass_penny] /\ represents db [issue_pennies; pass_penny].
Proof.
  destruct penny_run as [db Hrun]. exists db. exact (asset_db_refines_ledger MAINNET penny_chain db Hrun).
Defined.

Lemma no_double_spend_witness :
  NoDup (spent [issue_pennies; pass_penny]) /\ NoDup (issued [issue_pennies; pass_penny]).
Proof. destruct penny_run as [db Hrun]. exact (no_double_spend MAINNET penny_chain db Hrun). Defined.

Lemma reorganisation_exact_witness : exists db, replay MAINNET penny_chain empty_db = Good db.
Proof. destruct penny_run as [db Hrun]. exists db. exact (reorganisation_exact MAINNET penny_chain db Hrun). Defined.
