(* ===== verification/AssetPool.v ===== *)
(** The transaction pool: its asset transactions never compete, and what it
    accepts is what the next block may contain. *)

From stdpp Require Import gmap.
From S2P Require Import Prelude Bytes AssetTypes AssetExamples AssetCodec AssetRegistry AssetRegistryProps.
From S2P Require Import AssetConfidential AssetOwnership AssetWire AssetWireCodec.
From S2P Require Import AssetDb AssetDbTables AssetDbLoad AssetDbLedger.

(** ** Additions that succeed *)

Section Additions.
Context {A : Type}.
Implicit Types (table : gmap bytes A) (heights : gset (Z * bytes)).

(** Keys that are indexed at height [n] are stored. *)
Definition indexed (n : Z) table heights : Prop := forall k, (n, k) ∈ heights -> is_Some (table !! k).

Lemma put_succeeds n table heights k a e1 e2 : indexed n table heights -> table !! k = None ->
  put table heights k n a e1 e2 = Good (<[k := a]> table, {[ (n, k) ]} ∪ heights) /\
  indexed n (<[k := a]> table) ({[ (n, k) ]} ∪ heights).
Proof.
  intros Hix Hk. split.
  - apply put_Good. split_and!; [done| |done]. intros Hin%Hix. rewrite Hk in Hin. by destruct Hin.
  - intros j [[= ->]%elem_of_singleton|Hin%Hix]%elem_of_union; rewrite lookup_insert_is_Some; [by left|].
    destruct (decide (k = j)); auto.
Qed.

Lemma below_indexed n table heights : (forall e, e ∈ heights -> e.1 < n) -> indexed n table heights.
Proof. intros Hlow k Hk%Hlow. cbn in Hk. lia. Qed.

End Additions.

Section Pool.
Context `{Crypto, RingCt}.

Lemma add_key_images_succeeds n proofs : forall db, indexed n (asset_key_images db) (asset_key_image_heights db) ->
  NoDup (o_key_image <$> proofs) -> (forall k, k ∈ o_key_image <$> proofs -> asset_key_images db !! k = None) ->
  exists db', add_key_images proofs n db = Good db' /\
    asset_outputs db' = asset_outputs db /\ asset_output_heights db' = asset_output_heights db.
Proof.
  induction proofs as [|p proofs IH]; intros db Hix Hnd Hnew; [by eauto|].
  cbn [fmap list_fmap] in *. apply NoDup_cons in Hnd as [Hni Hnd].
  cbn [add_key_images]. unfold add_asset_key_image.
  destruct (put_succeeds n (asset_key_images db) (asset_key_image_heights db) (o_key_image p) n
    "Attempting to spend an asset key image that already exists" "Error indexing asset key image height: ")
    as [-> Hix']; [done|set_solver|].
  rewrite !bind_of_Good. destruct (IH (set_key_images (<[o_key_image p := n]> (asset_key_images db))
    ({[ (n, o_key_image p) ]} ∪ asset_key_image_heights db) db)) as (db' & E & ? & ?); [done|done| |by eauto].
  intros k Hk. cbn. rewrite lookup_insert_ne by set_solver. set_solver.
Qed.

Lemma add_outputs_succeeds n outputs : forall ids index db, length ids = length outputs ->
  indexed n (asset_outputs db) (asset_output_heights db) -> NoDup ids ->
  (forall id, id ∈ ids -> asset_outputs db !! id = None) ->
  exists db', add_outputs outputs ids n index db = Good db'.
Proof.
  induction outputs as [|[[asset commitment] r] outputs IH]; intros [|i ids] index db Hl Hix Hnd Hnew;
    try done; [by eauto|].
  apply NoDup_cons in Hnd as [Hni Hnd]. cbn [add_outputs]. unfold add_asset_output. cbn [out_height output_data].
  edestruct (put_succeeds n (asset_outputs db) (asset_output_heights db) i) as [-> Hix']; [done|set_solver|].
  rewrite !bind_of_Good. apply IH; [cbn in Hl; lia|done|done|]. intros k Hk. cbn.
  rewrite lookup_insert_ne by set_solver. set_solver.
Qed.

(** Outputs are only added under distinct ids. *)
Lemma add_outputs_NoDup n outputs : forall ids index db db', length ids = length outputs ->
  add_outputs outputs ids n index db = Good db' ->
  NoDup ids /\ forall id, id ∈ ids -> asset_outputs db !! id = None.
Proof.
  induction outputs as [|o outputs IH]; intros [|i ids] index db db' Hl E; try done.
  { split; [constructor|set_solver]. }
  cbn [add_outputs] in E. apply bind_Good in E as (db1 & E1 & E). apply IH in E as [Hnd Hnew]; [|cbn in Hl; lia].
  unfold add_asset_output in E1. apply bind_Good in E1 as ([t h] & (Hi & _ & [= -> ->])%put_Good & [= <-]).
  cbn in Hnew. split.
  - constructor; [|done]. intros Hin%Hnew. by rewrite lookup_insert_eq in Hin.
  - intros id [->|Hin]%elem_of_cons; [done|]. apply Hnew, lookup_insert_None in Hin. by destruct Hin.
Qed.

Lemma candidate_ids_Good db net carrier outputs : forall index ids,
  candidate_output_ids db net carrier index outputs = Good ids ->
  length ids = length outputs /\ forall id, id ∈ ids -> asset_outputs db !! id = None.
Proof.
  induction outputs as [|[[asset commitment] r] outputs IH]; intros index ids E; cbn [candidate_output_ids] in E.
  { injection E as <-. split; [done|set_solver]. }
  apply bind_Good in E as (i & _ & E). apply bind_Good in E as ([] & Hn%require_Good & E).
  apply bind_Good in E as (l & E & [= <-]). apply IH in E as [Hl Hnew]. split; [cbn; lia|].
  apply negb_true_iff, bool_decide_eq_false in Hn. rewrite <- eq_None_not_Some in Hn.
  intros id [->|?]%elem_of_cons; [done|by apply Hnew].
Qed.

(** ** The pool and the next block *)

(** No two outputs of the payload have the same id. *)
Definition distinct_output_ids (db : asset_db) (p : asset_transaction_payload) (net : Z) (carrier : bytes) : Prop :=
  forall outputs ids, payload_outputs (w_balances p) (w_output_recipients p) = Good outputs ->
    candidate_output_ids db net carrier 0 outputs = Good ids -> NoDup ids.

(** The steps of an asset transaction that is verified. *)
Lemma verify_Good db p net carrier : verify_asset_transaction_against_db db p net carrier = Good () <->
  exists reg outputs ids, load_registry_from_db db net = Good reg /\
    verify_asset_transaction_payload p (known_assets reg) net carrier = Good () /\
    verify_ownerships db (w_ownership_proofs p) net carrier = Good () /\
    from_option (fun i => is_good (apply_issuance reg i (db_height db)) = true) True (w_issuance p) /\
    payload_outputs (w_balances p) (w_output_recipients p) = Good outputs /\
    candidate_output_ids db net carrier 0 outputs = Good ids.
Proof.
  unfold verify_asset_transaction_against_db. split.
  - intros E. apply bind_Good in E as (reg & E1 & E). apply bind_Good in E as ([] & E2 & E).
    apply bind_Good in E as ([] & E3 & E). apply bind_Good in E as ([] & E4 & E).
    apply bind_Good in E as (outputs & E5 & E). apply bind_Good in E as (ids & E6 & _).
    exists reg, outputs, ids. split_and!; try done. destruct (w_issuance p) as [i|]; [|done].
    apply bind_Good in E4 as ([? ?] & E4 & _). cbn. by rewrite E4.
  - intros (reg & outputs & ids & E1 & E2 & E3 & E4 & E5 & E6).
    rewrite E1, bind_of_Good, E2, bind_of_Good, E3, bind_of_Good, E5.
    replace (match w_issuance p with Some i => _ | None => Good () end) with (Good ()).
    + by rewrite !bind_of_Good, E6.
    + destruct (w_issuance p) as [i|]; [|done]. cbn in E4. by destruct (apply_issuance _ _ _) as [[? ?]| | |].
Qed.

Lemma decoded_issuance e p i : is_bytes e -> decode_asset_transaction_payload e = Good p ->
  w_issuance p = Some i -> exists ie, encode_issuance_payload i = Good ie.
Proof.
  intros He Ed Hi. apply encode_decode_envelope in Ed as [_ E]; [|done].
  unfold encode_asset_transaction_payload in E. apply bind_Good in E as ([] & _ & E).
  apply bind_Good in E as (w & E & _). rewrite Hi in E. apply bind_Good in E as (ie & ? & _). eauto.
Qed.

(** What is verified can be applied on top of the chain. *)
Lemma verified_applies db p net carrier e : db_below db -> is_bytes e ->
  decode_asset_transaction_payload e = Good p -> distinct_output_ids db p net carrier ->
  verify_asset_transaction_against_db db p net carrier = Good () ->
  exists r, apply_asset_transaction_to_db db p net carrier (db_height db) = Good r.
Proof.
  intros [Hbr Hbo Hbk] He Hd Hids (reg & outputs & ids & E1 & E2 & E3 & E4 & E5 & E6)%verify_Good.
  pose proof (load_registry_dom _ _ _ E1) as Hdom.
  assert (exists issued db1, issue_asset reg (w_issuance p) (db_height db) = Good issued /\
    add_issued issued (db_height db) db = Good db1 /\ asset_key_images db1 = asset_key_images db /\
    asset_key_image_heights db1 = asset_key_image_heights db /\ asset_outputs db1 = asset_outputs db /\
    asset_output_heights db1 = asset_output_heights db) as (issued & db1 & Ei & E7 & Hk1 & Hkh1 & Ho1 & Hoh1).
  { destruct (w_issuance p) as [i|] eqn:Hi; [|by exists None, db].
    destruct (decoded_issuance _ _ _ He Hd Hi) as [ie Hie]. cbn in E4.
    destruct (apply_issuance reg i (db_height db)) as [[reg' id]| | |] eqn:Ha; try done.
    cbn [issue_asset]. rewrite Ha, bind_of_Good, Hie, bind_of_Good.
    apply apply_issuance_Good in Ha as (_ & Hn & _). apply not_elem_of_dom in Hn.
    unfold known_assets in Hdom. rewrite Hdom in Hn. apply not_elem_of_dom in Hn.
    edestruct (put_succeeds (db_height db) (asset_records db) (asset_heights db) id) as [Hput _];
      [by apply below_indexed|done|].
    eexists _, _. split; [done|]. cbn [add_issued]. unfold add_asset_record. by rewrite Hput. }
  destruct (add_key_images_succeeds (db_height db) (w_ownership_proofs p) db1) as (db2 & E8 & Ho2 & Hoh2).
  { rewrite Hk1, Hkh1. by apply below_indexed. }
  { by apply payload_Good, ownership_Good in E2 as (_ & ? & ? & _ & _ & _ & ?). }
  { intros k (proof & -> & Hin)%list_elem_of_fmap. apply (verify_ownerships_Good _ _ _ _ E3) in Hin.
    apply bind_Good in Hin as ([] & Hin%require_Good & _). rewrite Hk1. unfold has_asset_key_image in Hin.
    apply eq_None_not_Some. by apply negb_true_iff, bool_decide_eq_false in Hin. }
  pose proof (candidate_ids_Good _ _ _ _ _ _ E6) as [Hl Hnew].
  destruct (add_outputs_succeeds (db_height db) outputs ids 0 db2) as (db3 & E9);
    [done|rewrite Ho2, Hoh2, Ho1, Hoh1; by apply below_indexed|by eapply Hids|by rewrite Ho2, Ho1|].
  exists (db3, ids). apply apply_Good. exists reg, issued, outputs, db1, db2. by split.
Qed.

(** What can be applied is verified. *)
Lemma applied_verifies db p net carrier r :
  apply_asset_transaction_to_db db p net carrier (db_height db) = Good r ->
  verify_asset_transaction_against_db db p net carrier = Good () /\ distinct_output_ids db p net carrier.
Proof.
  destruct r as [db' ids]. intros (reg & issued & outputs & db1 & db2 & [E1 E2 E3 E4 E5 E6 E7 E8 E9])%apply_Good.
  split.
  - apply verify_Good. exists reg, outputs, ids. split_and!; try done.
    destruct (w_issuance p) as [i|]; [|done]. cbn. apply bind_Good in E4 as ([? ?] & -> & _). done.
  - intros outputs' ids' Eo Ei. 
    assert (outputs' = outputs) as -> by congruence. assert (ids' = ids) as -> by congruence.
    pose proof (candidate_ids_Good _ _ _ _ _ _ E6) as [Hl _].
    by apply add_outputs_NoDup in E9 as [? _].
Qed.

(** C25: The pool and the blocks agree: on top of a chain, a transaction whose
    envelope was decoded passes the database check of the pool, and the ids of
    its outputs do not collide, if and only if a block with this one asset
    transaction is accepted. *)
Theorem pool_agrees_with_block nettype chain db e p :
  run nettype chain db -> is_bytes e -> decode_asset_transaction_payload e = Good p ->
  let net := asset_network nettype in let carrier := w_carrier_prefix_hash p in
  verify_asset_transaction_against_db db p net carrier = Good () /\ distinct_output_ids db p net carrier <->
  exists db', handle_block_to_main_chain nettype [Some p] db = Good db'.
Proof.
  intros Hrun He Hd net carrier. apply run_replay in Hrun.
  destruct (replay_below nettype chain empty_db db) as [Hb _]; [apply empty_below|done|done|].
  split.
  - intros [Hv Hids]. destruct (verified_applies db p net carrier e) as [[db1 ids] Ha]; try done.
    eexists. apply handle_block_Good. exists db1. split; [|done]. apply apply_payloads_cons. by exists db1, ids.
  - intros (db' & (db1 & (db2 & ids & Ha & _)%apply_payloads_cons & _)%handle_block_Good).
    by apply applied_verifies in Ha.
Qed.


(** ** Competing transactions *)

(** A pool after the activation of assets: an asset transaction enters through
    the checks of the pool, any other with an envelope to parse to [None]; a
    transaction that comes again replaces its old entry; and any transaction may
    leave. *)
Definition without (id : bytes) (pool : list pooled_tx) : list pooled_tx :=
  filter (fun t => pooled_id t <> id) pool.

Inductive pool_run (nettype : Z) : list pooled_tx -> Prop :=
| pool_empty : pool_run nettype []
| pool_asset db pool id p : pool_run nettype pool -> pool_accepts nettype db pool id p = Good () ->
    pool_run nettype (without id pool ++ [Pooled id (Some (Some p))])
| pool_native pool id : pool_run nettype pool -> pool_run nettype (without id pool ++ [Pooled id (Some None)])
| pool_remove pool id : pool_run nettype pool -> pool_run nettype (without id pool).

Definition pool_payloads (pool : list pooled_tx) : list asset_transaction_payload :=
  omap (fun t => mjoin (pooled_payload t)) pool.

Lemma without_sublist id pool : pool_payloads (without id pool) `sublist_of` pool_payloads pool.
Proof.
  unfold pool_payloads, without. induction pool as [|t pool IH]; [done|]. rewrite filter_cons.
  case_decide; cbn; destruct (mjoin (pooled_payload t)); by constructor || done.
Qed.

Lemma spent_sublist l k : l `sublist_of` k -> spent l `sublist_of` spent k.
Proof.
  unfold spent. induction 1; cbn; [done|by apply sublist_app|]. by apply sublist_inserts_l.
Qed.

Lemma issued_sublist l k : l `sublist_of` k -> issued l `sublist_of` issued k.
Proof.
  unfold issued. induction 1 as [|x ??? IH|x ??? IH]; cbn; [done|..]; destruct (issues x); by try constructor.
Qed.

Lemma derive_candidate p i :
  match w_issuance p with
  | Some i => issued ← derive_asset_id (p_descriptor i); Good (Some issued)
  | None => Good None
  end = Good i -> i = issues p.
Proof.
  unfold issues. destruct (w_issuance p) as [ip|]; cbn [mbind option_bind]; [|congruence].
  intros E. apply bind_Good in E as (id & -> & [= <-]). done.
Qed.

(** What the pool accepts shares no key image and no issued asset with another
    transaction of the pool. *)
Lemma pool_accepts_apart nettype db pool id p q : pool_accepts nettype db pool id p = Good () ->
  q ∈ pool_payloads (without id pool) ->
  (forall k, k ∈ spends p -> k ∉ spends q) /\ (forall i, issues p = Some i -> issues q <> Some i).
Proof.
  intros E. apply bind_Good in E as ([] & _ & E). apply bind_Good in E as (i & ->%derive_candidate & E%require_Good).
  intros ([tid tp] & Hin & Hp)%list_elem_of_omap. apply list_elem_of_filter in Hin as [Hid Hin].
  apply negb_true_iff in E. cbn in Hid, Hp. destruct tp as [[q'|]|]; try done. injection Hp as ->.
  assert (pool_conflict id (issues p) (list_to_set (spends p)) (Pooled tid (Some (Some q))) = false) as Hno.
  { apply not_true_iff_false. intros Ht. apply not_true_iff_false in E. apply E, existsb_exists.
    eexists. split; [by apply list_elem_of_In|done]. }
  unfold pool_conflict in Hno. cbn [pooled_id pooled_payload] in Hno. rewrite bool_decide_eq_false_2 in Hno by done.
  apply orb_false_iff in Hno as [Hiss Himg]. split.
  - intros k Hk (proof & -> & Hpr)%list_elem_of_fmap. apply not_true_iff_false in Himg. apply Himg, existsb_exists.
    exists proof. split; [by apply list_elem_of_In|]. apply bool_decide_eq_true. by apply elem_of_list_to_set.
  - intros j Hj. rewrite Hj in Hiss. unfold issues. destruct (w_issuance q) as [iq|]; [|done]. cbn.
    destruct (derive_asset_id (p_descriptor iq)); [|done..]. apply bool_decide_eq_false in Hiss. congruence.
Qed.

(** What the pool accepts has distinct key images. *)
Lemma pool_accepts_once nettype db pool id p : pool_accepts nettype db pool id p = Good () -> NoDup (spends p).
Proof.
  intros E. apply bind_Good in E as ([] & (reg & outputs & ids & _ & E & _)%verify_Good & _).
  by apply payload_Good, ownership_Good in E as (_ & ? & ? & _ & _ & _ & ?).
Qed.

Lemma pool_run_once nettype pool : pool_run nettype pool ->
  NoDup (spent (pool_payloads pool)) /\ NoDup (issued (pool_payloads pool)).
Proof.
  assert (forall id pool, NoDup (spent (pool_payloads pool)) /\ NoDup (issued (pool_payloads pool)) ->
    NoDup (spent (pool_payloads (without id pool))) /\ NoDup (issued (pool_payloads (without id pool)))) as Hw.
  { intros id l [Hs Hi]. pose proof (without_sublist id l) as Hsub.
    split; eauto using sublist_NoDup, spent_sublist, issued_sublist. }
  induction 1 as [|db pool id p _ [Hs Hi]%(Hw id) E|pool id _ IH|pool id _ IH]; [split; constructor| | |by apply Hw].
  - pose proof (fun q => pool_accepts_apart _ _ _ _ _ q E) as Hapart.
    unfold pool_payloads in *. rewrite omap_app. cbn. unfold spent, issued in *. rewrite bind_app, omap_app. cbn.
    rewrite app_nil_r. split; apply NoDup_app; split_and!; [done| |by eapply pool_accepts_once|done| |].
    + intros k (q & Hk & Hq)%list_elem_of_bind Hk'. by apply (Hapart q Hq) in Hk'.
    + intros i (q & Hq & Hi')%list_elem_of_omap Hp. destruct (issues p) as [j|] eqn:Hj; [|by apply not_elem_of_nil in Hp].
      apply list_elem_of_singleton in Hp as ->. by apply (Hapart q Hq) in Hi'.
    + destruct (issues p); [apply NoDup_singleton|constructor].
  - unfold pool_payloads. rewrite omap_app. cbn. rewrite app_nil_r. by apply Hw.
Qed.

(** Transactions of the pool never compete: over the whole pool all key
    images of ownership proofs differ and so do all issued ids, whatever enters
    and leaves, against whatever databases it was checked. *)
Theorem pool_never_competes nettype pool : pool_run nettype pool ->
  NoDup (spent (pool_payloads pool)) /\ NoDup (issued (pool_payloads pool)).
Proof. apply pool_run_once. Qed.

End Pool.

(** ** Samples *)

Definition pass_bytes : bytes := value [] (encode_asset_transaction_payload pass_penny).
Definition penny_db : asset_db := after [Some issue_pennies].

Lemma penny_db_run : run MAINNET [[Some issue_pennies]] penny_db.
Proof. apply run_after. vm_compute. reflexivity. Qed.

Lemma pool_agrees_with_block_witness :
  verify_asset_transaction_against_db penny_db pass_penny MAINNET (fill 7) = Good () /\
  distinct_output_ids penny_db pass_penny MAINNET (fill 7).
Proof.
  apply (pool_agrees_with_block MAINNET [[Some issue_pennies]] penny_db pass_bytes pass_penny penny_db_run).
  - apply (array_bytes (length pass_bytes)), arrayb_array. vm_compute. reflexivity.
  - vm_compute. reflexivity.
  - exists (value empty_db (handle_block_to_main_chain MAINNET [Some pass_penny] penny_db)).
    apply value_Good. vm_compute. reflexivity.
Defined.

Lemma pool_never_competes_witness :
  NoDup (spent [pass_penny; issue coin (fill 8)]) /\ NoDup (issued [pass_penny; issue coin (fill 8)]).
Proof.
  apply (pool_never_competes MAINNET
    [Pooled (fill 1) (Some None); Pooled (fill 2) (Some (Some pass_penny)); Pooled (fill 3) (Some (Some (issue coin (fill 8))))]).
  apply (pool_asset MAINNET penny_db [Pooled (fill 1) (Some None); Pooled (fill 2) (Some (Some pass_penny))]
    (fill 3) (issue coin (fill 8))).
  - apply (pool_asset MAINNET penny_db [Pooled (fill 1) (Some None)] (fill 2) pass_penny); [|vm_compute; reflexivity].
    apply (pool_native MAINNET [] (fill 1)). constructor.
  - vm_compute. reflexivity.
Defined.
