(* ===== verification/AssetDbLive.v ===== *)
(** When the registry of a database loads: exactly if all stored assets are of
    the network and no member of a collection was issued at the height of its
    collection with a smaller id. *)

From stdpp Require Import gmap sorting.
From S2P Require Import Prelude Bytes AssetTypes AssetExamples AssetCodec AssetRegistry AssetRegistryProps AssetSnapshot.
From S2P Require Import AssetConfidential AssetOwnership AssetWire AssetWireCodec AssetDb AssetDbTables AssetDbLoad AssetDbLedger AssetPool.

Section Live.
Context `{CryptoLaws, RingCt}.

(** The records have asset [id], issued at [height] with payload [p]. *)
Definition stored (records : gmap bytes bytes) (id : bytes) (height : Z) (p : issuance_payload) : Prop :=
  exists value encoded, records !! id = Some value /\ read_u64_le value = Some (height, encoded) /\
    decode_issuance_payload encoded = Good p.

(** What was checked when a record was stored. *)
Record record_sound (records : gmap bytes bytes) (id : bytes) (height : Z) (p : issuance_payload) : Prop := {
  sound_id : derive_asset_id (p_descriptor p) = Good id;
  sound_size : length id = 32%nat;
  sound_authorization : verify_issuance_authorization (p_descriptor p) (p_issuer_signature p) = Good ();
  sound_uncollected : d_collection_id (p_descriptor p) = null_hash -> p_collection_signature p = None;
  sound_member : d_collection_id (p_descriptor p) <> null_hash -> d_collection_id (p_descriptor p) <> id /\
    exists height' c signature, stored records (d_collection_id (p_descriptor p)) height' c /\
      p_collection_signature p = Some signature /\ d_type (p_descriptor c) = collection /\
      d_network (p_descriptor c) = d_network (p_descriptor p) /\ height' <= height /\
      verify_collection_membership (d_collection_id (p_descriptor p)) id (d_issuer_key (p_descriptor c))
        signature = Good ();
}.

Definition records_sound (records : gmap bytes bytes) : Prop :=
  forall id, is_Some (records !! id) ->
    exists height p, stored records id height p /\ record_sound records id height p.

Lemma stored_fun records id h p h' p' : stored records id h p -> stored records id h' p' -> h = h' /\ p = p'.
Proof.
  intros (v & e & Hv & Hr & Hd) (v' & e' & Hv' & Hr' & Hd').
  assert (v' = v) as -> by congruence. rewrite Hr in Hr'. injection Hr' as <- <-. split; congruence.
Qed.

Lemma stored_insert records id value j h p : records !! id = None -> stored records j h p ->
  stored (<[id := value]> records) j h p.
Proof.
  intros Hn (v & e & Hv & ?). exists v, e. split; [|done]. rewrite lookup_insert_ne by congruence. done.
Qed.

Lemma record_sound_insert records id value j h p : records !! id = None -> record_sound records j h p ->
  record_sound (<[id := value]> records) j h p.
Proof.
  intros Hn [Hid Hs Ha Hu Hm]. split; try done. intros Hc. destruct (Hm Hc) as (Hne & h' & c & g & Hst & Hrest).
  split; [done|]. exists h', c, g. split; [by apply stored_insert|done].
Qed.

(** ** The content of a loaded registry *)

Lemma load_records_content net records : forall reg reg' id r, load_records records net reg = Good reg' ->
  reg' !! id = Some r -> reg !! id = Some r \/ exists s p, s ∈ records /\ st_id s = id /\
    decode_issuance_payload (st_payload s) = Good p /\ r = record_of p (st_height s).
Proof.
  induction records as [|s records IH]; intros reg reg' id r E Hr; cbn [load_records] in E.
  { injection E as <-. by left. }
  apply bind_Good in E as (p & Ep & E). apply bind_Good in E as ([] & _ & E).
  apply bind_Good in E as ([reg1 i] & (_ & _ & _ & _ & ->)%apply_issuance_Good & E).
  apply bind_Good in E as ([] & ->%require_Good%bool_decide_eq_true & E).
  destruct (IH _ _ _ _ E Hr) as [[[<- <-]|[_ ?]]%lookup_insert_Some|(s' & q & Hin & Hq)]; [|by left|].
  - right. exists s, p. split; [by left|done].
  - right. exists s', q. split; [by right|done].
Qed.

Lemma load_registry_content db net reg id r : load_registry_from_db db net = Good reg -> reg !! id = Some r ->
  exists height p, stored (asset_records db) id height p /\ r = record_of p height.
Proof.
  intros E Hr. apply bind_Good in E as (records & E1%stored_records_Good & E).
  destruct (load_records_content _ _ _ _ _ _ E Hr) as [Hno|(s & p & Hs & <- & Hd & ->)].
  { by rewrite lookup_empty in Hno. }
  exists (st_height s), p. split; [|done]. rewrite merge_sort_Permutation in Hs.
  destruct (stored_records_elem _ _ _ E1 Hs) as (value & ? & ?). by exists value, (st_payload s).
Qed.

(** ** Stored records stay sound *)

Lemma derive_asset_id_array d id : derive_asset_id d = Good id -> array 32 id.
Proof. intros E. apply bind_Good in E as (e & _ & [= <-]). apply cn_fast_hash_array. Qed.

Lemma issue_sound db net reg i n id encoded db' : records_sound (asset_records db) -> payload_wf i ->
  0 <= n < 2 ^ 64 -> load_registry_from_db db net = Good reg ->
  issue_asset reg (Some i) n = Good (Some (id, encoded)) -> add_asset_record id n encoded db = Good db' ->
  records_sound (asset_records db').
Proof.
  intros Hs Hwf Hn Hload Hi Hadd. apply bind_Good in Hi as ([reg' id'] & Ha & Hi).
  apply bind_Good in Hi as (e & He & [= <- <-]).
  apply apply_issuance_Good in Ha as (Hid & _ & Hauth & Hmem & _).
  unfold add_asset_record in Hadd. apply bind_Good in Hadd as ([t h] & (Hnew & _ & [= -> ->])%put_Good & [= <-]).
  cbn. intros j Hj. destruct (decide (j = id')) as [->|Hne].
  - exists n, i. split.
    { exists (u64_le n ++ e), e. rewrite lookup_insert_eq, read_u64_app by done.
      by rewrite (decode_encode (Codec:=payload_codec) _ _ Hwf He). }
    apply check_membership_Good in Hmem. split; try done.
    + apply derive_asset_id_array in Hid. by apply array_length in Hid.
    + intros Hc. by destruct Hmem as [[_ ?]|[? _]].
    + intros Hc. destruct Hmem as [[? _]|(_ & r & g & Hr & Hg & Ht & Hnet & Hh & Hv)]; [done|].
      destruct (load_registry_content _ _ _ _ _ Hload Hr) as (h & c & Hst & ->). split.
      * intros Heq. rewrite Heq in Hst. destruct Hst as (v & ? & ? & _). congruence.
      * exists h, c, g. split; [by apply stored_insert|done].
  - rewrite lookup_insert_ne in Hj by done. destruct (Hs j Hj) as (h & p & Hst & Hok). exists h, p.
    split; [by apply stored_insert|by apply record_sound_insert].
Qed.


Lemma apply_sound db p net carrier n db' ids : records_sound (asset_records db) ->
  from_option payload_wf True (w_issuance p) -> 0 <= n < 2 ^ 64 ->
  apply_asset_transaction_to_db db p net carrier n = Good (db', ids) -> records_sound (asset_records db').
Proof.
  intros Hs Hwf Hn (reg & i & outputs & db1 & db2 & [E1 _ _ E4 _ _ E7 E8 E9])%apply_Good.
  apply add_key_images_Good in E8 as (Hr2 & _). apply add_outputs_Good in E9 as (Hr3 & _). rewrite Hr3, Hr2.
  destruct (w_issuance p) as [ip|].
  - pose proof E4 as Ei. apply bind_Good in Ei as ([? id] & _ & Ei). apply bind_Good in Ei as (e & _ & [= <-]).
    by eapply issue_sound.
  - injection E4 as <-. by injection E7 as <-.
Qed.

(** What the C++ types guarantee of the issuances of a chain. *)
Definition chain_wf (chain : list block) : Prop :=
  Forall (fun p => from_option payload_wf True (w_issuance p)) (chain_ledger chain).

Lemma payloads_sound nettype n payloads : forall db db', records_sound (asset_records db) -> 0 <= n < 2 ^ 64 ->
  Forall (fun p => from_option payload_wf True (w_issuance p)) (omap id payloads) ->
  apply_payloads payloads nettype n db = Good db' -> records_sound (asset_records db').
Proof.
  induction payloads as [|[p|] payloads IH]; intros db db' Hs Hn Hwf E; [by injection E as <-| |by eapply (IH db)].
  cbn in Hwf. apply Forall_cons in Hwf as [Hp Hwf].
  apply apply_payloads_cons in E as (db1 & ids & E1 & E). eapply (IH db1); eauto using apply_sound.
Qed.

Lemma replay_sound nettype chain : forall db db', records_sound (asset_records db) -> 0 <= db_height db ->
  db_height db + Z.of_nat (length chain) < 2 ^ 64 -> chain_wf chain ->
  replay nettype chain db = Good db' -> records_sound (asset_records db').
Proof.
  induction chain as [|b chain IH]; intros db db' Hs Hh Hl Hwf E; cbn [replay length] in *; [by injection E as <-|].
  unfold chain_wf, chain_ledger in Hwf. cbn in Hwf. apply Forall_app in Hwf as [Hb Hwf].
  apply bind_Good in E as (db1 & (db2 & E1 & ->)%handle_block_Good & E).
  eapply (IH (set_height (db_height db + 1) db2)); cbn; try done; [|lia|lia].
  eapply payloads_sound; try done. lia.
Qed.

(** ** Loading succeeds *)

(** All assets are of the network, and members come after their collection. *)
Definition loadable (net : Z) (records : gmap bytes bytes) : Prop :=
  forall id height p, stored records id height p -> d_network (p_descriptor p) = net /\
    forall c, d_collection_id (p_descriptor p) <> null_hash ->
      stored records (d_collection_id (p_descriptor p)) height c ->
      memcmp_lt id (d_collection_id (p_descriptor p)) = false.

(** The registry has exactly the records [l]. *)
Record holds (reg : registry) (l : list stored_issuance) : Prop := {
  holds_all : forall s p, s ∈ l -> decode_issuance_payload (st_payload s) = Good p ->
    reg !! st_id s = Some (record_of p (st_height s));
  holds_only : forall id, is_Some (reg !! id) -> id ∈ st_id <$> l;
}.

Lemma holds_snoc reg l s p : holds reg l -> st_id s ∉ st_id <$> l -> decode_issuance_payload (st_payload s) = Good p ->
  holds (<[st_id s := record_of p (st_height s)]> reg) (l ++ [s]).
Proof.
  intros [Hall Honly] Hn Hd. split.
  - intros t q [Hin| ->%list_elem_of_singleton]%elem_of_app Hq.
    + rewrite lookup_insert_ne; [by apply Hall|]. intros Heq. apply Hn. rewrite Heq. by apply list_elem_of_fmap_2.
    + rewrite lookup_insert_eq. congruence.
  - intros id Hid. rewrite fmap_app, elem_of_app. destruct (decide (id = st_id s)) as [->|Hne]; [right; by left|left].
    rewrite lookup_insert_ne in Hid by done. by apply Honly.
Qed.

Section Loading.
Context (net : Z) (records : gmap bytes bytes) (all : list stored_issuance).
Hypothesis Hsound : records_sound records.
Hypothesis Hloadable : loadable net records.
Hypothesis Hsorted : StronglySorted stored_le all.
Hypothesis Hids : NoDup (st_id <$> all).
Hypothesis Hread : forall s, s ∈ all -> exists p, decode_issuance_payload (st_payload s) = Good p /\
  stored records (st_id s) (st_height s) p.
Hypothesis Hcover : forall id h p, stored records id h p -> exists s, s ∈ all /\ st_id s = id /\ st_height s = h.

(** The collection of the next record is already loaded. *)
Lemma collection_loaded pre s post p h c : all = pre ++ s :: post ->
  stored records (st_id s) (st_height s) p -> d_collection_id (p_descriptor p) <> null_hash ->
  d_collection_id (p_descriptor p) <> st_id s -> h <= st_height s ->
  stored records (d_collection_id (p_descriptor p)) h c ->
  exists t, t ∈ pre /\ st_id t = d_collection_id (p_descriptor p) /\ st_height t = h /\
    decode_issuance_payload (st_payload t) = Good c.
Proof.
  intros Hall Hst Hn Hne Hh Hc. destruct (Hcover _ _ _ Hc) as (t & Ht & Hid & Hth).
  destruct (Hread t Ht) as (q & Hq & Hqs). rewrite Hid, Hth in Hqs.
  destruct (stored_fun _ _ _ _ _ _ Hc Hqs) as [_ <-]. exists t. split_and!; try done.
  rewrite Hall in Ht. apply elem_of_app in Ht as [?|[->|Hpost]%elem_of_cons]; [done|congruence|].
  rewrite Hall in Hsorted. apply StronglySorted_app in Hsorted as (_ & _ & Hs).
  apply StronglySorted_inv in Hs as [_ Hs]. rewrite Forall_forall in Hs. specialize (Hs t Hpost).
  unfold stored_le, stored_less in Hs. rewrite Hid, Hth in Hs.
  destruct (Hloadable _ _ _ Hst) as [_ Hless]. destruct (decide (h = st_height s)) as [->|Hlt].
  - rewrite Z.eqb_refl in Hs. cbn in Hs. specialize (Hless c Hn Hc).
    by destruct (memcmp_total _ _ Hne); congruence.
  - rewrite (proj2 (Z.eqb_neq _ _)) in Hs by done. cbn in Hs. lia.
Qed.

Lemma load_records_complete rest : forall pre reg, all = pre ++ rest -> holds reg pre ->
  exists reg', load_records rest net reg = Good reg'.
Proof.
  induction rest as [|s rest IH]; intros pre reg Hall Hreg; [by eexists|]. cbn [load_records].
  destruct (Hread s) as (p & Hp & Hst); [rewrite Hall; set_solver|]. rewrite Hp, bind_of_Good.
  destruct (Hloadable _ _ _ Hst) as [Hnet _]. rewrite require_true, bind_of_Good by (by apply Z.eqb_eq).
  destruct (Hsound (st_id s)) as (h & q & Hq & [Hid _ Hauth Hunc Hmem]); [destruct Hst as (v & ? & ? & _); eauto|].
  destruct (stored_fun _ _ _ _ _ _ Hst Hq) as [<- <-].
  assert (st_id s ∉ st_id <$> pre) as Hnew.
  { intros Hin. rewrite Hall, fmap_app in Hids. apply NoDup_app in Hids as (_ & Hdis & _). apply (Hdis _ Hin). left. }
  assert (apply_issuance reg p (st_height s) = Good (<[st_id s := record_of p (st_height s)]> reg, st_id s)) as ->.
  { apply apply_issuance_Good. split_and!; try done.
    - apply eq_None_not_Some. intros Hin%(holds_only _ _ Hreg). done.
    - apply check_membership_Good. destruct (decide (d_collection_id (p_descriptor p) = null_hash)) as [Hc|Hc].
      { left. auto. }
      right. split; [done|]. destruct (Hmem Hc) as (Hne & h & c & g & Hcs & Hg & Ht & Hn & Hh & Hv).
      destruct (collection_loaded pre s rest p h c) as (t & Htin & Htid & Hth & Htd); try done.
      exists (record_of c h), g. split_and!; try done. rewrite <- Htid, <- Hth. by apply (holds_all _ _ Hreg). }
  rewrite bind_of_Good, require_true, bind_of_Good by (by apply bool_decide_eq_true).
  apply (IH (pre ++ [s])); [by rewrite <- app_assoc|by apply holds_snoc].
Qed.

End Loading.

(** ** The records of a chain *)

Lemma for_all_complete entries :
  (forall e, e ∈ entries -> is_Some (read_u64_le e.2) /\ length e.1 = 32%nat) ->
  exists records, for_all_asset_records entries = Good records.
Proof.
  induction entries as [|e entries IH]; intros Hok; [by eexists|]. cbn [for_all_asset_records].
  destruct (Hok e) as [[[h p] Hr] Hl]; [by left|].
  assert (stored_record e = Good (Stored e.1 h p)) as ->.
  { unfold stored_record. by rewrite Hr, Hl. }
  destruct IH as [rs ->]; [set_solver|]. by eexists.
Qed.

Lemma loadable_loads db net : records_sound (asset_records db) -> loadable net (asset_records db) ->
  exists reg, load_registry_from_db db net = Good reg.
Proof.
  intros Hs Hl. unfold load_registry_from_db.
  destruct (for_all_complete (map_to_list (asset_records db))) as [records E].
  { intros [id v] Hin%elem_of_map_to_list. destruct (Hs id) as (h & p & (v' & e & Hv & Hr & _) & Hok); [eauto|].
    assert (v' = v) as -> by congruence. split; [by eexists|by destruct Hok]. }
  rewrite E, bind_of_Good. pose proof (stored_records_Good _ _ E) as Hall.
  apply (load_records_complete net (asset_records db) (merge_sort stored_le records)) with (pre := []); try done.
  - apply (StronglySorted_merge_sort _).
  - rewrite merge_sort_Permutation, (stored_records_ids _ _ E). apply NoDup_fst_map_to_list.
  - intros s Hin. rewrite merge_sort_Permutation in Hin.
    destruct (stored_records_elem _ _ _ Hall Hin) as (v & Hv & Hr).
    destruct (Hs (st_id s)) as (h & p & (v' & e & Hv' & Hr' & Hd) & _); [eauto|].
    assert (v' = v) as -> by congruence. rewrite Hr in Hr'. injection Hr' as <- <-. exists p.
    split; [done|]. by exists v, (st_payload s).
  - intros id h p (v & e & Hv & Hr & _). apply elem_of_map_to_list, list_elem_of_lookup in Hv as [i Hi].
    destruct (Forall2_lookup_l _ _ _ _ _ Hall Hi) as (s & Hsi & Es). apply list_elem_of_lookup_2 in Hsi.
    unfold stored_record in Es. cbn [fst snd] in Es. rewrite Hr in Es. case_if_in Es; [|done].
    injection Es as <-. eexists. by rewrite merge_sort_Permutation.
  - split; [by intros s p ?%not_elem_of_nil|]. intros id [r Hr]. by rewrite lookup_empty in Hr.
Qed.

Lemma loads_loadable db net reg : load_registry_from_db db net = Good reg -> loadable net (asset_records db).
Proof.
  intros E id h p (v & e & Hv & Hr & Hd).
  destruct (load_registry_Good _ _ _ _ _ _ _ E Hv Hr) as (q & Hq & Hn & Hc).
  assert (q = p) as -> by congruence. split; [done|]. intros c Hne (v' & e' & Hv' & Hr' & _).
  destruct Hc as [?|(v2 & h2 & e2 & Hv2 & Hr2 & Hless)]; [done|]. assert (v2 = v') as -> by congruence.
  assert (h2 = h) as -> by congruence. unfold stored_less in Hless. cbn in Hless.
  by rewrite Z.eqb_refl in Hless.
Qed.

(** C26: On top of a chain the registry can be loaded, so that asset transactions
    can be accepted at all, if and only if all stored assets are of the network
    and no member of a collection has a smaller id than its collection and was
    issued at the same height. *)
Theorem registry_loads_iff nettype chain db : run nettype chain db -> Z.of_nat (length chain) < 2 ^ 64 ->
  chain_wf chain ->
  (exists reg, load_registry_from_db db (asset_network nettype) = Good reg) <->
  loadable (asset_network nettype) (asset_records db).
Proof.
  intros Hrun Hl Hwf. split; [by intros [reg ?%loads_loadable]|]. apply loadable_loads.
  apply (replay_sound nettype chain empty_db); try done; [|by apply run_replay].
  intros id [v Hv]. by apply (lookup_empty_Some id v) in Hv.
Qed.

End Live.

Lemma registry_loads_iff_witness : loadable MAINNET (asset_records penny_db).
Proof.
  apply (registry_loads_iff MAINNET [[Some issue_pennies]] penny_db penny_db_run); [done| |].
  - apply Forall_singleton, payload_wfb_wf. vm_compute. reflexivity.
  - exists (value ∅ (load_registry_from_db penny_db MAINNET)). apply value_Good. vm_compute. reflexivity.
Defined.
