(* ===== verification/AssetExtra.v ===== *)
(** The extra field of a native transaction: its fields
    ([cryptonote_basic/tx_extra.h], read and written by [serialization/]), the
    asset envelope among them and the hash of the transaction without it
    ([cryptonote_basic/cryptonote_format_utils.cpp]), and the envelope of a
    transaction ([parse_native_asset_transaction]). *)

From stdpp Require Import gmap.
From S2P Require Import Prelude Bytes AssetTypes AssetCodec AssetConfidential AssetWire AssetDb.

Definition TX_EXTRA_PADDING_MAX_COUNT : nat := 255.
Definition TX_EXTRA_NONCE_MAX_COUNT : nat := 255.
Definition TX_EXTRA_MONZERO_ASSET_MAX_COUNT : Z := 256 * 1024.
Definition TX_EXTRA_TAG_PADDING : Z := 0x00.
Definition TX_EXTRA_TAG_PUBKEY : Z := 0x01.
Definition TX_EXTRA_NONCE : Z := 0x02.
Definition TX_EXTRA_MERGE_MINING_TAG : Z := 0x03.
Definition TX_EXTRA_TAG_ADDITIONAL_PUBKEYS : Z := 0x04.
Definition TX_EXTRA_TAG_MONZERO_ASSET : Z := 0x7A.
Definition TX_EXTRA_MYSTERIOUS_MINERGATE_TAG : Z := 0xDE.
Definition MAX_TX_EXTRA_SIZE : nat := 1060.
Definition HF_VERSION_MONZERO_ASSETS : Z := 17.

Inductive tx_extra_field :=
| tx_extra_padding (size : nat)
| tx_extra_pub_key (pub_key : bytes)
| tx_extra_nonce (nonce : bytes)
| tx_extra_merge_mining_tag (depth : Z) (merkle_root : bytes)
| tx_extra_additional_pub_keys (data : list bytes)
| tx_extra_monzero_asset (data : bytes)
| tx_extra_mysterious_minergate (data : bytes).

(** ** Variable-length integers

    [tools::read_varint<64>]: a text that ends before the integer does is not an
    error, once a byte was read. *)
Fixpoint read_varint_from (shift write : Z) (s : bytes) : option (Z * bytes) :=
  match s with
  | [] => if shift =? 0 then None else Some (write, [])
  | b :: s =>
      if (64 <=? shift + 7) && (Z.shiftl 1 (64 - shift) <=? b) then None
      else if (b =? 0) && negb (shift =? 0) then None
      else
        let write := Z.lor write (Z.shiftl (Z.land b 127) shift) in
        if Z.land b 128 =? 0 then Some (write, s) else read_varint_from (shift + 7) write s
  end.

Definition read_varint (s : bytes) : option (Z * bytes) := read_varint_from 0 0 s.

(** [tools::write_varint]; ten bytes hold 64 bits. *)
Fixpoint write_varint_fuel (fuel : nat) (i : Z) : bytes :=
  match fuel with
  | O => [i]
  | S fuel => if 128 <=? i then Z.lor (Z.land i 127) 128 :: write_varint_fuel fuel (Z.shiftr i 7) else [i]
  end.

Definition write_varint (i : Z) : bytes := write_varint_fuel 9 i.

(** ** Reading fields *)

(** [do_serialize] of a string. *)
Definition read_string (s : bytes) : option (bytes * bytes) :=
  '(size, s) ← read_varint s;
  if Z.of_nat (length s) <? size then None else read_pod (Z.to_nat size) s.

(** [do_serialize_container] of a vector of keys. *)
Fixpoint read_blobs (n : nat) (s : bytes) : option (list bytes * bytes) :=
  match n with
  | O => Some ([], s)
  | S n =>
      '(k, s) ← read_pod 32 s;
      '(ks, s) ← read_blobs n s;
      Some (k :: ks, s)
  end.

Definition read_key_vector (s : bytes) : option (list bytes * bytes) :=
  '(cnt, s) ← read_varint s;
  if Z.of_nat (length s) <? cnt then None else read_blobs (Z.to_nat cnt) s.

(** [tx_extra_padding::member_do_serialize]: zeros to the end. *)
Definition read_padding (s : bytes) : option (tx_extra_field * bytes) :=
  if (length s <? TX_EXTRA_PADDING_MAX_COUNT)%nat && forallb (Z.eqb 0) s
  then Some (tx_extra_padding (S (length s)), []) else None.

(** [tx_extra_merge_mining_tag::member_do_serialize]: the string is read whole. *)
Definition read_merge_mining (s : bytes) : option (tx_extra_field * bytes) :=
  '(field, s) ← read_string s;
  '(depth, rest) ← read_varint field;
  '(merkle_root, rest) ← read_pod 32 rest;
  if (length rest =? 0)%nat then Some (tx_extra_merge_mining_tag depth merkle_root, s) else None.

(** A variant: its tag, then the alternative with this tag. *)
Definition read_field (s : bytes) : option (tx_extra_field * bytes) :=
  match s with
  | [] => None
  | t :: s =>
      if t =? TX_EXTRA_TAG_PADDING then read_padding s
      else if t =? TX_EXTRA_TAG_PUBKEY then '(k, s) ← read_pod 32 s; Some (tx_extra_pub_key k, s)
      else if t =? TX_EXTRA_NONCE then
        '(nonce, s) ← read_string s;
        if (TX_EXTRA_NONCE_MAX_COUNT <? length nonce)%nat then None else Some (tx_extra_nonce nonce, s)
      else if t =? TX_EXTRA_MERGE_MINING_TAG then read_merge_mining s
      else if t =? TX_EXTRA_TAG_ADDITIONAL_PUBKEYS then
        '(keys, s) ← read_key_vector s; Some (tx_extra_additional_pub_keys keys, s)
      else if t =? TX_EXTRA_TAG_MONZERO_ASSET then
        '(data, s) ← read_string s;
        if TX_EXTRA_MONZERO_ASSET_MAX_COUNT <? Z.of_nat (length data) then None
        else Some (tx_extra_monzero_asset data, s)
      else if t =? TX_EXTRA_MYSTERIOUS_MINERGATE_TAG then
        '(data, s) ← read_string s; Some (tx_extra_mysterious_minergate data, s)
      else None
  end.

(** The loop of [parse_tx_extra]; each field takes a byte at least. *)
Fixpoint read_fields (fuel : nat) (s : bytes) : option (list tx_extra_field) :=
  match fuel with
  | O => None
  | S fuel =>
      '(field, s) ← read_field s;
      match s with
      | [] => Some [field]
      | _ :: _ => fields ← read_fields fuel s; Some (field :: fields)
      end
  end.

Definition parse_tx_extra (tx_extra : bytes) : option (list tx_extra_field) :=
  match tx_extra with [] => Some [] | _ :: _ => read_fields (length tx_extra) tx_extra end.

(** ** Writing fields *)

Definition write_string (s : bytes) : bytes := write_varint (Z.of_nat (length s)) ++ s.

Definition write_field (f : tx_extra_field) : option bytes :=
  match f with
  | tx_extra_padding size =>
      if (TX_EXTRA_PADDING_MAX_COUNT <? size)%nat then None
      else Some (TX_EXTRA_TAG_PADDING :: replicate (size - 1) 0)
  | tx_extra_pub_key k => Some (TX_EXTRA_TAG_PUBKEY :: k)
  | tx_extra_nonce nonce =>
      if (TX_EXTRA_NONCE_MAX_COUNT <? length nonce)%nat then None
      else Some (TX_EXTRA_NONCE :: write_string nonce)
  | tx_extra_merge_mining_tag depth merkle_root =>
      Some (TX_EXTRA_MERGE_MINING_TAG :: write_string (write_varint depth ++ merkle_root))
  | tx_extra_additional_pub_keys keys =>
      Some (TX_EXTRA_TAG_ADDITIONAL_PUBKEYS :: write_varint (Z.of_nat (length keys)) ++ concat keys)
  | tx_extra_monzero_asset data =>
      if TX_EXTRA_MONZERO_ASSET_MAX_COUNT <? Z.of_nat (length data) then None
      else Some (TX_EXTRA_TAG_MONZERO_ASSET :: write_string data)
  | tx_extra_mysterious_minergate data => Some (TX_EXTRA_MYSTERIOUS_MINERGATE_TAG :: write_string data)
  end.

(** ** The envelope *)

Definition is_asset (f : tx_extra_field) : bool :=
  match f with tx_extra_monzero_asset _ => true | _ => false end.

(** The loop of [get_monzero_asset_tx_extra]; [None] is [found = false]. *)
Fixpoint find_envelope (fields : list tx_extra_field) (found : option bytes) : outcome (option bytes) :=
  match fields with
  | [] => Good found
  | tx_extra_monzero_asset data :: fields =>
      require (negb (bool_decide (is_Some found))) "transaction contains multiple Monzero asset envelopes";;
      find_envelope fields (Some data)
  | _ :: fields => find_envelope fields found
  end.

Definition get_monzero_asset_tx_extra (tx_extra : bytes) : outcome (option bytes) :=
  fields ← expect (parse_tx_extra tx_extra) "failed to parse transaction extra";
  find_envelope fields None.

Definition add_monzero_asset_tx_extra (tx_extra payload : bytes) : outcome bytes :=
  require (negb ((length payload =? 0)%nat || (TX_EXTRA_MONZERO_ASSET_MAX_COUNT <? Z.of_nat (length payload))))
    "Monzero asset envelope has an invalid size";;
  found ← get_monzero_asset_tx_extra tx_extra;
  require (negb (bool_decide (is_Some found))) "transaction already contains a Monzero asset envelope";;
  field ← expect (write_field (tx_extra_monzero_asset payload)) "failed to serialize Monzero asset envelope";
  Good (tx_extra ++ field).

(** The loop that [get_transaction_asset_carrier_hash] and
    [get_monzero_asset_normalized_extra_size] share: the fields without the
    envelope, written again. *)
Fixpoint normalize_fields (fields : list tx_extra_field) (envelopes : nat) (message : string) : outcome bytes :=
  match fields with
  | [] => Good []
  | f :: fields =>
      if is_asset f then
        require (envelopes =? 0)%nat "transaction contains multiple Monzero asset envelopes";;
        normalize_fields fields (S envelopes) message
      else
        field ← expect (write_field f) message;
        rest ← normalize_fields fields envelopes message;
        Good (field ++ rest)
  end.
Arguments normalize_fields fields envelopes%_nat message%_string.

(** A transaction prefix: the extra field, and everything else. *)
Record transaction_prefix (rest : Type) := Prefix { t_rest : rest; t_extra : bytes }.
Arguments Prefix {rest} t_rest t_extra.
Arguments t_rest {rest} t.
Arguments t_extra {rest} t.

Section Native.
Context `{Crypto} {rest : Type} (get_transaction_prefix_hash : transaction_prefix rest -> bytes).

Definition get_transaction_asset_carrier_hash (tx : transaction_prefix rest) : outcome bytes :=
  fields ← expect (parse_tx_extra (t_extra tx)) "failed to parse transaction extra for asset carrier";
  normalized ← normalize_fields fields 0 "failed to normalize transaction extra for asset carrier";
  Good (get_transaction_prefix_hash (Prefix (t_rest tx) normalized)).

Definition get_monzero_asset_normalized_extra_size (tx : transaction_prefix rest) : outcome nat :=
  fields ← expect (parse_tx_extra (t_extra tx)) "failed to parse transaction extra for asset policy";
  normalized ← normalize_fields fields 0 "failed to normalize transaction extra for asset policy";
  Good (length normalized).

Definition parse_native_asset_transaction (tx : transaction_prefix rest) (hard_fork_version expected_network : Z) :
  outcome (option asset_transaction_payload) :=
  found ← get_monzero_asset_tx_extra (t_extra tx);
  match found with
  | None => Good None
  | Some encoded =>
      require (HF_VERSION_MONZERO_ASSETS <=? hard_fork_version) "Monzero asset envelope appears before activation";;
      normalized_extra_size ← get_monzero_asset_normalized_extra_size tx;
      require (normalized_extra_size <=? MAX_TX_EXTRA_SIZE)%nat
        "non-asset transaction extra exceeds the standard limit";;
      carrier ← get_transaction_asset_carrier_hash tx;
      decoded ← decode_asset_transaction_payload encoded;
      require (w_network decoded =? expected_network) "native asset envelope belongs to a different network";;
      require (bool_decide (w_carrier_prefix_hash decoded = carrier))
        "native asset envelope has the wrong carrier hash";;
      Good (Some decoded)
  end.

(** What [handle_block_to_main_chain] collects of the transactions of a block;
    a failure refuses the block. *)
Fixpoint asset_payloads (txs : list (transaction_prefix rest)) (hf_version nettype : Z) : outcome block :=
  match txs with
  | [] => Good []
  | tx :: txs =>
      payload ← (if HF_VERSION_MONZERO_ASSETS <=? hf_version
        then parse_native_asset_transaction tx hf_version (asset_network nettype) else Good None);
      payloads ← asset_payloads txs hf_version nettype;
      Good (payload :: payloads)
  end.

End Native.
