(* ===== verification/AssetExtraProps.v ===== *)
(** The extra field is read as it is written, so that an envelope that is added
    to a transaction is found again and does not change what it refers to. *)

From stdpp Require Import gmap.
From S2P Require Import Prelude Bytes AssetTypes AssetExamples AssetCodec AssetConfidential AssetOwnership.
From S2P Require Import AssetWire AssetWireCodec AssetDb AssetExtra.

(** ** Variable-length integers *)

Lemma land_128 b : 0 <= b < 256 -> (Z.land b 128 =? 0) = (b <? 128).
Proof.
  intros Hb. destruct (Z.ltb_spec b 128).
  - apply Z.eqb_eq, Z.bits_inj'. intros n Hn. rewrite Z.land_spec, Z.bits_0.
    change 128 with (2 ^ 7). rewrite Z.pow2_bits_eqb by lia. destruct (Z.eqb_spec 7 n) as [<-|]; [|apply andb_false_r].
    rewrite andb_true_r. apply Z.testbit_false; [lia|]. change (2 ^ 7) with 128. by rewrite Z.div_small by lia.
  - apply Z.eqb_neq. intros E. apply (f_equal (fun z => Z.testbit z 7)) in E. rewrite Z.land_spec, Z.bits_0 in E.
    change (Z.testbit 128 7) with true in E. rewrite andb_true_r in E. apply Z.testbit_false in E; [|lia].
    change (2 ^ 7) with 128 in E. assert (b / 128 = 1) as Hd by (symmetry; apply (Z.div_unique_pos b 128 1 (b - 128)); lia).
    by rewrite Hd in E.
Qed.

Lemma land_127 b : Z.land b 127 = b mod 128.
Proof. exact (Z.land_ones b 7 ltac:(lia)). Qed.

Lemma lor_128 b : Z.lor (Z.land b 127) 128 = b mod 128 + 128.
Proof.
  rewrite land_127. change 128 with (Z.shiftl 1 7) at 2. pose proof (Z.mod_pos_bound b 128).
  rewrite lor_shiftl by (change (2 ^ 7) with 128; lia). change (2 ^ 7) with 128. lia.
Qed.

Lemma varint_back_from fuel : forall shift write i s, shift + 7 * Z.of_nat fuel = 63 -> 0 <= shift ->
  0 <= write < 2 ^ shift -> 0 <= i < 2 ^ (64 - shift) -> (shift = 0 \/ i <> 0) ->
  read_varint_from shift write (write_varint_fuel fuel i ++ s) = Some (write + 2 ^ shift * i, s).
Proof.
  assert (forall shift write i s, 0 <= shift <= 63 -> 0 <= write < 2 ^ shift -> 0 <= i < 2 ^ (64 - shift) ->
    i < 128 -> (shift = 0 \/ i <> 0) ->
    read_varint_from shift write (i :: s) = Some (write + 2 ^ shift * i, s)) as Hlast.
  { intros shift write i s Hs Hw Hi Hi' Hz. cbn [read_varint_from].
    rewrite Z.shiftl_1_l. rewrite (proj2 (Z.leb_gt (2 ^ (64 - shift)) i)), andb_false_r by lia.
    replace ((i =? 0) && negb (shift =? 0)) with false by lia.
    rewrite land_127, Z.mod_small, lor_shiftl, land_128, (proj2 (Z.ltb_lt i 128)) by lia. done. }
  induction fuel as [|fuel IH]; intros shift write i s Hf Hs Hw Hi Hz; cbn [write_varint_fuel].
  - assert (shift = 63) as -> by lia. change (2 ^ (64 - 63)) with 2 in Hi. apply Hlast; cbn; lia.
  - case_if; [|apply Hlast; lia]. cbn [app read_varint_from]. rewrite lor_128.
    replace ((64 <=? shift + 7) && _) with false by lia. pose proof (Z.mod_pos_bound i 128).
    replace (((i mod 128 + 128) =? 0) && negb (shift =? 0)) with false by lia.
    rewrite land_128, (proj2 (Z.ltb_ge _ 128)) by lia.
    assert ((i mod 128 + 128) mod 128 = i mod 128) as Hmod.
    { rewrite <- (Z.mul_1_l 128) at 2. by rewrite Z.mod_add, Z.mod_mod by lia. }
    rewrite land_127, Hmod, lor_shiftl by lia.
    rewrite Z.shiftr_div_pow2 by lia. change (2 ^ 7) with 128.
    assert (2 ^ (shift + 7) = 2 ^ shift * 128) as Hp by (by rewrite Z.pow_add_r by lia).
    rewrite IH; [|lia|lia| | |].
    + rewrite Hp. f_equal. f_equal. pose proof (Z.div_mod i 128). nia.
    + rewrite Hp. nia.
    + replace (64 - shift) with (64 - (shift + 7) + 7) in Hi by lia.
      rewrite Z.pow_add_r in Hi by lia. change (2 ^ 7) with 128 in Hi.
      split; [apply Z.div_pos; lia|apply Z.div_lt_upper_bound; lia].
    + right. assert (1 <= i / 128); [|lia]. apply Z.div_le_lower_bound; lia.
Qed.

Lemma varint_back i s : 0 <= i < 2 ^ 64 -> read_varint (write_varint i ++ s) = Some (i, s).
Proof.
  intros Hi. unfold read_varint, write_varint. rewrite varint_back_from; [|lia|lia|lia|exact Hi|by left].
  by rewrite Z.add_0_l, Z.pow_0_r, Z.mul_1_l.
Qed.

(** What is read has 64 bits. *)
Lemma read_varint_from_range s : forall shift write v r, 0 <= shift <= 63 -> Z.rem shift 7 = 0 ->
  0 <= write < 2 ^ shift -> is_bytes s -> read_varint_from shift write s = Some (v, r) ->
  0 <= v < 2 ^ 64 /\ (length r <= length s)%nat /\ is_bytes r.
Proof.
  induction s as [|b s IH]; intros shift write v r Hs Hm Hw Hb E; cbn [read_varint_from] in E.
  { case_if_in E; [done|]. injection E as <- <-. split_and!; [lia| |done|done].
    pose proof (Z.pow_le_mono_r 2 shift 64). lia. }
  inversion Hb as [|?? Hb0 Hb']; subst. case_if_in E; [done|]. case_if_in E; [done|].
  rewrite Z.shiftl_1_l in Heqb0. rewrite land_127, lor_shiftl, land_128 in E by lia.
  pose proof (Z.mod_pos_bound b 128).
  assert (2 ^ (shift + 7) = 2 ^ shift * 128) as Hp by (by rewrite Z.pow_add_r by lia).
  destruct (decide (shift = 63)) as [->|Hne].
  - change (2 ^ (64 - 63)) with 2 in Heqb0. assert (b < 2) by lia.
    rewrite (proj2 (Z.ltb_lt b 128)) in E by lia. injection E as <- <-.
    rewrite Z.mod_small by lia. cbn [length]. split_and!; [lia..|lia|done].
  - assert (shift <= 56) as Hs'.
    { apply Z.rem_divide in Hm as [k ->]; lia. }
    pose proof (Z.pow_le_mono_r 2 (shift + 7) 63). cbn [length]. case_if_in E.
    + injection E as <- <-. split_and!; [nia|nia|lia|done].
    + apply IH in E as (? & ? & ?); [split_and!; (done || lia)|lia| |nia|done].
      rewrite Z.rem_mod_nonneg in * by lia. by rewrite <- Z.add_mod_idemp_l, Hm by lia.
Qed.

Lemma read_varint_range s v r : is_bytes s -> read_varint s = Some (v, r) ->
  0 <= v < 2 ^ 64 /\ (length r <= length s)%nat /\ is_bytes r.
Proof. intros Hs E. eapply read_varint_from_range in E; try done; lia. Qed.

(** ** Fields *)

Abbreviation fits s := (Z.of_nat (length s) < 2 ^ 64).

(** What the C++ types guarantee of a field, and the size of a padding. *)
Definition field_wf (f : tx_extra_field) : Prop :=
  match f with
  | tx_extra_padding size => (1 <= size <= 255)%nat
  | tx_extra_pub_key k => length k = 32%nat
  | tx_extra_nonce s => (length s <= 255)%nat
  | tx_extra_merge_mining_tag depth root => 0 <= depth < 2 ^ 64 /\ length root = 32%nat
  | tx_extra_additional_pub_keys keys => fits keys /\ Forall (fun k => length k = 32%nat) keys
  | tx_extra_monzero_asset s => Z.of_nat (length s) <= TX_EXTRA_MONZERO_ASSET_MAX_COUNT
  | tx_extra_mysterious_minergate s => fits s
  end.

Lemma string_back s r : fits s -> read_string (write_string s ++ r) = Some (s, r).
Proof.
  intros Hs. unfold read_string, write_string. rewrite <- app_assoc, varint_back by lia.
  cbn [mbind option_bind]. rewrite length_app, (proj2 (Z.ltb_ge _ _)) by lia.
  rewrite Nat2Z.id. by apply read_pod_app.
Qed.

Lemma blobs_back keys r : Forall (fun k => length k = 32%nat) keys ->
  read_blobs (length keys) (concat keys ++ r) = Some (keys, r).
Proof.
  induction 1 as [|k keys Hk _ IH]; [done|]. cbn [length concat read_blobs]. rewrite <- app_assoc.
  rewrite read_pod_app by done. cbn [mbind option_bind]. by rewrite IH.
Qed.

Lemma length_concat_keys (keys : list bytes) : Forall (fun k => length k = 32%nat) keys ->
  length (concat keys) = (32 * length keys)%nat.
Proof. induction 1 as [|k keys Hk _ IH]; cbn; [done|]. rewrite length_app. lia. Qed.

Lemma length_varint_fuel fuel : forall i, (length (write_varint_fuel fuel i) <= S fuel)%nat.
Proof.
  induction fuel as [|fuel IH]; intros i; cbn [write_varint_fuel length]; [lia|]. case_if; cbn [length]; [|lia].
  specialize (IH (Z.shiftr i 7)). lia.
Qed.

(** The alternative of each tag. *)
Section Tags.
Context (s : bytes).

Lemma read_tag_padding : read_field (TX_EXTRA_TAG_PADDING :: s) = read_padding s.
Proof. done. Qed.
Lemma read_tag_pub_key : read_field (TX_EXTRA_TAG_PUBKEY :: s) =
  ('(k, s) ← read_pod 32 s; Some (tx_extra_pub_key k, s)).
Proof. done. Qed.
Lemma read_tag_nonce : read_field (TX_EXTRA_NONCE :: s) =
  ('(nonce, s) ← read_string s;
   if (TX_EXTRA_NONCE_MAX_COUNT <? length nonce)%nat then None else Some (tx_extra_nonce nonce, s)).
Proof. done. Qed.
Lemma read_tag_merge_mining : read_field (TX_EXTRA_MERGE_MINING_TAG :: s) = read_merge_mining s.
Proof. done. Qed.
Lemma read_tag_additional : read_field (TX_EXTRA_TAG_ADDITIONAL_PUBKEYS :: s) =
  ('(keys, s) ← read_key_vector s; Some (tx_extra_additional_pub_keys keys, s)).
Proof. done. Qed.
Lemma read_tag_asset : read_field (TX_EXTRA_TAG_MONZERO_ASSET :: s) =
  ('(data, s) ← read_string s;
   if TX_EXTRA_MONZERO_ASSET_MAX_COUNT <? Z.of_nat (length data) then None
   else Some (tx_extra_monzero_asset data, s)).
Proof. done. Qed.
Lemma read_tag_minergate : read_field (TX_EXTRA_MYSTERIOUS_MINERGATE_TAG :: s) =
  ('(data, s) ← read_string s; Some (tx_extra_mysterious_minergate data, s)).
Proof. done. Qed.
End Tags.

Lemma padding_back size : (1 <= size <= 255)%nat ->
  read_padding (replicate (size - 1) 0) = Some (tx_extra_padding size, []).
Proof.
  intros Hs. unfold read_padding, TX_EXTRA_PADDING_MAX_COUNT. rewrite length_replicate.
  replace (forallb (Z.eqb 0) (replicate (size - 1) 0)) with true.
  - replace (size - 1 <? 255)%nat with true by lia. cbn [andb]. do 3 f_equal. lia.
  - symmetry. apply forallb_forall. intros x Hx%list_elem_of_In%elem_of_replicate. lia.
Qed.

Lemma merge_mining_back depth root r : 0 <= depth < 2 ^ 64 -> length root = 32%nat ->
  read_merge_mining (write_string (write_varint depth ++ root) ++ r) = Some (tx_extra_merge_mining_tag depth root, r).
Proof.
  intros Hd Hroot. unfold read_merge_mining. pose proof (length_varint_fuel 9 depth).
  rewrite string_back by (rewrite length_app; unfold write_varint; lia). cbn [mbind option_bind].
  rewrite varint_back by lia. cbn [mbind option_bind]. rewrite <- (app_nil_r root) at 1.
  by rewrite read_pod_app.
Qed.

Lemma key_vector_back keys r : fits keys -> Forall (fun k => length k = 32%nat) keys ->
  read_key_vector ((write_varint (Z.of_nat (length keys)) ++ concat keys) ++ r) = Some (keys, r).
Proof.
  intros Hn Hk. unfold read_key_vector. rewrite <- app_assoc, varint_back by lia. cbn [mbind option_bind].
  rewrite (proj2 (Z.ltb_ge _ _)) by (rewrite length_app, length_concat_keys by done; lia).
  by rewrite Nat2Z.id, blobs_back.
Qed.

(** A field is read as it is written; a padding only at the end. *)
Lemma field_back f e r : field_wf f -> write_field f = Some e ->
  (forall size, f = tx_extra_padding size -> r = []) -> read_field (e ++ r) = Some (f, r).
Proof.
  intros Hwf E Hr. destruct f as [size|k|s|depth root|keys|s|s]; cbn [write_field field_wf] in *.
  - rewrite (Hr size) by done. case_if_in E; [done|]. injection E as <-.
    rewrite app_nil_r, read_tag_padding. by apply padding_back.
  - injection E as <-. rewrite <- app_comm_cons, read_tag_pub_key, read_pod_app by done. done.
  - case_if_in E; [done|]. injection E as <-. rewrite <- app_comm_cons, read_tag_nonce, string_back by lia.
    cbn [mbind option_bind]. by rewrite Heqb.
  - injection E as <-. destruct Hwf. rewrite <- app_comm_cons, read_tag_merge_mining. by apply merge_mining_back.
  - injection E as <-. destruct Hwf. rewrite <- app_comm_cons, read_tag_additional.
    by rewrite key_vector_back.
  - unfold TX_EXTRA_MONZERO_ASSET_MAX_COUNT in Hwf. case_if_in E; [done|]. injection E as <-.
    rewrite <- app_comm_cons, read_tag_asset, string_back by lia. cbn [mbind option_bind]. by rewrite Heqb.
  - injection E as <-. by rewrite <- app_comm_cons, read_tag_minergate, string_back.
Qed.

(** What is read is well-formed, and leaves less to read. *)
Lemma read_string_wf s x r : is_bytes s -> read_string s = Some (x, r) ->
  (length x + length r <= length s)%nat /\ is_bytes x /\ is_bytes r.
Proof.
  intros Hs E. apply bind_Some in E as ([size t] & (_ & Ht & Htb)%read_varint_range & E); [|done].
  case_if_in E; [done|]. apply read_pod_Some in E as [-> _]. rewrite length_app in Ht.
  apply Forall_app in Htb as [? ?]. split_and!; [lia|done|done].
Qed.

Lemma read_blobs_wf n : forall s ks r, is_bytes s -> read_blobs n s = Some (ks, r) ->
  length ks = n /\ Forall (fun k => length k = 32%nat) ks /\ (length r <= length s)%nat /\ is_bytes r.
Proof.
  induction n as [|n IH]; intros s ks r Hs E; cbn [read_blobs] in E.
  { injection E as <- <-. split_and!; [done|constructor|lia|done]. }
  apply bind_Some in E as ([k t] & [-> Hk]%read_pod_Some & E). apply bind_Some in E as ([l u] & E & [= <- <-]).
  apply Forall_app in Hs as [_ Hs]. apply IH in E as (Hl & Hall & Hle & Hu); [|done].
  rewrite length_app. cbn [length]. split_and!; [lia|by constructor|lia|done].
Qed.

Lemma read_field_wf s f r : is_bytes s -> fits s -> read_field s = Some (f, r) ->
  field_wf f /\ (length r < length s)%nat /\ is_bytes r /\ (forall size, f = tx_extra_padding size -> r = []).
Proof.
  intros Hs Hf E. destruct s as [|t s]; [done|]. inversion Hs as [|?? _ Hs']; subst.
  cbn [length] in *. unfold read_field in E.
  case_if_in E. { unfold read_padding, TX_EXTRA_PADDING_MAX_COUNT in E. case_if_in E; [|done]. injection E as <- <-.
    cbn. split_and!; [lia|lia|lia|constructor|done]. }
  case_if_in E. { apply bind_Some in E as ([k u] & [-> Hk]%read_pod_Some & [= <- <-]).
    apply Forall_app in Hs' as [_ ?]. rewrite length_app. split_and!; [done|lia|done|done]. }
  case_if_in E. { apply bind_Some in E as ([x u] & (? & ? & ?)%read_string_wf & E); [|done]. case_if_in E; [done|].
    injection E as <- <-. unfold TX_EXTRA_NONCE_MAX_COUNT in *. cbn. split_and!; [lia|lia|done|done]. }
  case_if_in E. { apply bind_Some in E as ([x u] & (? & Hx & ?)%read_string_wf & E); [|done].
    apply bind_Some in E as ([d v] & (? & _ & _)%read_varint_range & E); [|done].
    apply bind_Some in E as ([k w] & [-> Hk]%read_pod_Some & E). case_if_in E; [|done]. injection E as <- <-.
    cbn. split_and!; [lia|lia|done|lia|done|done]. }
  case_if_in E. { apply bind_Some in E as ([ks u] & E & [= <- <-]). unfold read_key_vector in E.
    apply bind_Some in E as ([n v] & (? & ? & ?)%read_varint_range & E); [|done]. case_if_in E; [done|].
    apply read_blobs_wf in E as (? & ? & ? & ?); [|done]. cbn. split_and!; [lia|done|lia|done|done]. }
  case_if_in E. { apply bind_Some in E as ([x u] & (? & ? & ?)%read_string_wf & E); [|done]. case_if_in E; [done|].
    injection E as <- <-. cbn. split_and!; [lia|lia|done|done]. }
  case_if_in E; [|done]. apply bind_Some in E as ([x u] & (? & ? & ?)%read_string_wf & [= <- <-]); [|done].
  cbn. split_and!; [lia|lia|done|done].
Qed.

(** ** Whole extra fields *)

(** A padding takes everything, so it comes last. *)
Fixpoint padding_last (fields : list tx_extra_field) : Prop :=
  match fields with
  | [] => True
  | f :: fields => (fields <> [] -> forall size, f <> tx_extra_padding size) /\ padding_last fields
  end.

Definition fields_wf (fields : list tx_extra_field) : Prop := Forall field_wf fields /\ padding_last fields.

(** [e] is what the fields are written as. *)
Inductive written : list tx_extra_field -> bytes -> Prop :=
| written_nil : written [] []
| written_cons f fields e es : write_field f = Some e -> written fields es -> written (f :: fields) (e ++ es).

Lemma write_field_wf f : field_wf f -> exists t e, write_field f = Some (t :: e).
Proof.
  destruct f as [size|k|s|depth root|keys|s|s]; cbn [write_field field_wf]; intros Hwf; try (by eexists _, _).
  - unfold TX_EXTRA_PADDING_MAX_COUNT. rewrite (proj2 (Nat.ltb_ge _ _)) by lia. by eexists _, _.
  - unfold TX_EXTRA_NONCE_MAX_COUNT. rewrite (proj2 (Nat.ltb_ge _ _)) by lia. by eexists _, _.
  - rewrite (proj2 (Z.ltb_ge _ _)) by lia. by eexists _, _.
Qed.

Lemma write_field_nonempty f e : field_wf f -> write_field f = Some e -> e <> [].
Proof. intros Hwf E. destruct (write_field_wf f Hwf) as (t & e' & E'). congruence. Qed.

Lemma written_nonempty f fields e : field_wf f -> written (f :: fields) e -> e <> [].
Proof.
  intros Hwf Hw. inversion Hw as [|?? e1 es E]; subst. apply write_field_nonempty in E; [|done]. by destruct e1.
Qed.

(** Fields are read as they are written. *)
Lemma fields_back fields : forall fuel e, fields_wf fields -> fields <> [] -> written fields e ->
  (length fields <= fuel)%nat -> read_fields fuel e = Some fields.
Proof.
  induction fields as [|f fields IH]; intros fuel e [Hwf Hl] Hne Hw Hf; [done|].
  destruct fuel as [|fuel]; [cbn in Hf; lia|]. apply Forall_cons in Hwf as [Hf0 Hwf]. destruct Hl as [Hp Hl].
  inversion Hw as [|?? e1 es E Hes]; subst. cbn [read_fields]. rewrite (field_back f e1 es); [|done..|].
  - cbn [mbind option_bind]. destruct fields as [|g fields]; [inversion Hes; by subst|].
    pose proof (written_nonempty g fields es) as Hn. apply Forall_cons in Hwf as Hwf'. destruct Hwf' as [Hg _].
    specialize (Hn Hg Hes). rewrite (IH fuel es); [|by split|done|done|cbn in *; lia]. by destruct es.
  - intros size ->. destruct fields; [by inversion Hes|]. by destruct (Hp ltac:(done) size).
Qed.

Lemma written_length fields e : Forall field_wf fields -> written fields e -> (length fields <= length e)%nat.
Proof.
  intros Hwf Hw. induction Hw as [|f l e1 es E _ IH]; [done|]. apply Forall_cons in Hwf as [Hf Hwf].
  apply write_field_nonempty in E; [|done]. rewrite length_app. specialize (IH Hwf). destruct e1; [done|]. cbn. lia.
Qed.

Lemma parse_written fields e : fields_wf fields -> written fields e -> parse_tx_extra e = Some fields.
Proof.
  intros Hwf Hw. destruct fields as [|f fields]; [inversion Hw; by subst|].
  pose proof Hwf as [[Hf _]%Forall_cons _]. pose proof (written_nonempty f fields e Hf Hw) as Hne.
  destruct Hwf as [Hall Hl]. pose proof (written_length _ _ Hall Hw). unfold parse_tx_extra.
  destruct e; [done|]. by apply fields_back.
Qed.

Lemma read_fields_wf fuel : forall s fields, is_bytes s -> fits s -> read_fields fuel s = Some fields ->
  fields_wf fields /\ fields <> [].
Proof.
  induction fuel as [|fuel IH]; intros s fields Hs Hf E; [done|]. cbn [read_fields] in E.
  apply bind_Some in E as ([f r] & (Hwf & Hlt & Hr & Hpad)%read_field_wf & E); [|done..].
  destruct r as [|b r]; [injection E as <-|].
  - split; [|done]. split; [by apply Forall_singleton|done].
  - apply bind_Some in E as (fields' & E & [= <-]). apply IH in E as [[Hall Hl] Hne]; [|done|cbn in *; lia].
    split; [|done]. split; [by constructor|]. split; [|done]. intros _ size ->. by specialize (Hpad size eq_refl).
Qed.

(** The fuel is enough: each field takes a byte. *)
Lemma read_fields_fuel f : forall g s, is_bytes s -> fits s -> (length s <= f <= g)%nat ->
  read_fields g s = read_fields f s.
Proof.
  induction f as [|f IH]; intros g s Hs Hf Hg; [destruct s; [by destruct g|cbn in *; lia]|].
  destruct g as [|g]; [lia|]. cbn [read_fields]. destruct (read_field s) as [[fd r]|] eqn:E; [|done].
  apply read_field_wf in E as (_ & Hlt & Hr & _); [|done..]. cbn [mbind option_bind].
  destruct r as [|b r]; [done|]. by rewrite (IH g) by (done || lia).
Qed.

Lemma parse_wf s fields : is_bytes s -> fits s -> parse_tx_extra s = Some fields -> fields_wf fields.
Proof.
  intros Hs Hf E. unfold parse_tx_extra in E. destruct s as [|b s]; [by injection E as <-|].
  by apply read_fields_wf in E as [? _].
Qed.

(** ** Without the envelope *)

Definition others (fields : list tx_extra_field) : list tx_extra_field := filter (fun f => is_asset f = false) fields.

Lemma others_wf fields : fields_wf fields -> fields_wf (others fields).
Proof.
  intros [Hall Hl]. split.
  { apply Forall_forall. intros f [_ Hf]%list_elem_of_filter. by eapply (proj1 (Forall_forall _ _) Hall). }
  unfold others.
  induction fields as [|f fields IH]; [done|]. apply Forall_cons in Hall as [_ Hall]. destruct Hl as [Hp Hl].
  specialize (IH Hall Hl). rewrite filter_cons. case_decide; [|done]. split; [|done].
  intros Hne. apply Hp. intros ->. done.
Qed.

Lemma others_none fields : Forall (fun f => is_asset f = false) fields -> others fields = fields.
Proof. induction 1 as [|f fields Hf _ IH]; [done|]. unfold others in *. rewrite filter_cons, decide_True by done. by rewrite IH. Qed.

Lemma others_asset_free fields : Forall (fun f => is_asset f = false) (others fields).
Proof. apply Forall_forall. intros f Hf. by apply list_elem_of_filter in Hf as [? _]. Qed.

Lemma normalize_written fields msg : forall n e, normalize_fields fields n msg = Good e -> written (others fields) e.
Proof.
  induction fields as [|f fields IH]; intros n e E; cbn [normalize_fields] in E; [injection E as <-; constructor|].
  unfold others. rewrite filter_cons. destruct (is_asset f) eqn:Ha.
  - rewrite decide_False by done. apply bind_Good in E as ([] & _ & E). by eapply IH.
  - rewrite decide_True by done. apply bind_Good in E as (e1 & E1%expect_Good & E).
    apply bind_Good in E as (es & Es & [= <-]). constructor; [done|]. by eapply IH.
Qed.

Lemma written_normalize fields msg n e : Forall (fun f => is_asset f = false) fields -> written fields e ->
  normalize_fields fields n msg = Good e.
Proof.
  intros Ha Hw. induction Hw as [|f l e1 es E _ IH]; [done|]. apply Forall_cons in Ha as [Hf Ha].
  cbn [normalize_fields]. rewrite Hf, E. cbn [expect]. by rewrite bind_of_Good, IH.
Qed.

Lemma find_envelope_none fields found : Forall (fun f => is_asset f = false) fields -> find_envelope fields found = Good found.
Proof. induction 1 as [|f fields Hf _ IH]; [done|]. by destruct f. Qed.

(** ** The carrier *)

Section Carrier.
Context `{Crypto} {rest : Type} (prefix_hash : transaction_prefix rest -> bytes).

(** The carrier hash of a transaction, which its envelope has to name, is
    the prefix hash of a transaction without an envelope that is its own carrier:
    taking the envelope out and writing the other fields again gives an extra
    field in which no envelope is found and which does not change when it is
    normalised once more. *)
Theorem carrier_hash_stable tx h : is_bytes (t_extra tx) -> fits (t_extra tx) ->
  get_transaction_asset_carrier_hash prefix_hash tx = Good h ->
  exists extra, let carrier := Prefix (t_rest tx) extra in h = prefix_hash carrier /\
    get_monzero_asset_tx_extra extra = Good None /\
    get_transaction_asset_carrier_hash prefix_hash carrier = Good h.
Proof.
  intros Hb Hf E. apply bind_Good in E as (fields & Hp%expect_Good & E). apply bind_Good in E as (e & He & [= <-]).
  apply parse_wf in Hp; [|done..]. apply normalize_written in He.
  pose proof (parse_written _ _ (others_wf _ Hp) He) as Hparse. exists e. split_and!; [done| |].
  - unfold get_monzero_asset_tx_extra. rewrite Hparse. apply find_envelope_none, others_asset_free.
  - unfold get_transaction_asset_carrier_hash. cbn [t_extra t_rest]. rewrite Hparse. cbn [expect]. rewrite bind_of_Good.
    by rewrite (written_normalize _ _ _ _ (others_asset_free fields) He).
Qed.

Lemma padding_last_snoc fields f : Forall (fun g => forall size, g <> tx_extra_padding size) fields ->
  padding_last (fields ++ [f]).
Proof. induction 1 as [|g fields Hg _ IH]; cbn; [by split|]. split; [by intros _|done]. Qed.

Lemma written_snoc fields e f e' : written fields e -> write_field f = Some e' -> written (fields ++ [f]) (e ++ e').
Proof.
  intros Hw Hf. induction Hw as [|g l e1 es E _ IH]; cbn; [rewrite <- (app_nil_r e'); by repeat constructor|].
  rewrite <- app_assoc. by constructor.
Qed.

Lemma find_envelope_snoc fields data : Forall (fun f => is_asset f = false) fields ->
  find_envelope (fields ++ [tx_extra_monzero_asset data]) None = Good (Some data).
Proof. induction 1 as [|f fields Hf _ IH]; [done|]. by destruct f. Qed.

Lemma normalize_snoc fields data msg e : Forall (fun f => is_asset f = false) fields -> written fields e ->
  normalize_fields (fields ++ [tx_extra_monzero_asset data]) 0 msg = Good e.
Proof.
  intros Ha Hw. induction Hw as [|f l e1 es E _ IH]; [done|]. apply Forall_cons in Ha as [Hf Ha].
  cbn [app normalize_fields]. rewrite Hf, E. cbn [expect]. by rewrite bind_of_Good, IH.
Qed.

(** An envelope that names the carrier hash of a transaction without an
    envelope can be added to it and is found again: with an extra field in
    canonical form and without padding, adding succeeds, and parsing the
    transaction gives back the envelope, from the activation on, on its network
    and with an extra field of standard size. *)
Lemma envelope_attached tx fields p encoded hf_version network :
  fields_wf fields -> Forall (fun f => is_asset f = false /\ forall size, f <> tx_extra_padding size) fields ->
  written fields (t_extra tx) -> (length (t_extra tx) <= MAX_TX_EXTRA_SIZE)%nat ->
  envelope_wf p -> encode_asset_transaction_payload p = Good encoded ->
  w_network p = network -> w_carrier_prefix_hash p = prefix_hash tx -> HF_VERSION_MONZERO_ASSETS <= hf_version ->
  exists extra, add_monzero_asset_tx_extra (t_extra tx) encoded = Good extra /\
    parse_native_asset_transaction prefix_hash (Prefix (t_rest tx) extra) hf_version network = Good (Some p).
Proof.
  intros Hwf Hno Hw Hsz Hp He Hnet Hc Hv. apply Forall_and in Hno as [Ha Hpad].
  pose proof (decode_encode_envelope _ _ Hp He) as Hd.
  assert (Z.of_nat (length encoded) <= MAX_ASSET_WIRE_BYTES /\ encoded <> []) as [Hl Hne].
  { apply encode_envelope_Good in He as (_ & ? & i & _ & ->); [|done]. by split. }
  unfold MAX_ASSET_WIRE_BYTES in Hl.
  destruct (write_field_wf (tx_extra_monzero_asset encoded)) as (t & e' & Ef); [done|].
  pose proof (written_snoc _ _ _ _ Hw Ef) as Hw'.
  assert (parse_tx_extra (t_extra tx ++ t :: e') = Some (fields ++ [tx_extra_monzero_asset encoded])) as Hparse.
  { apply parse_written; [|done]. split; [|by apply padding_last_snoc].
    apply Forall_app. split; [by destruct Hwf|by apply Forall_singleton]. }
  exists (t_extra tx ++ t :: e'). split.
  - unfold add_monzero_asset_tx_extra, TX_EXTRA_MONZERO_ASSET_MAX_COUNT, get_monzero_asset_tx_extra.
    rewrite require_true, bind_of_Good by (destruct encoded; [done|cbn in *; lia]).
    rewrite (parse_written _ _ Hwf Hw). cbn [expect]. rewrite bind_of_Good, find_envelope_none, bind_of_Good by done.
    by rewrite Ef.
  - unfold parse_native_asset_transaction, get_monzero_asset_tx_extra, get_monzero_asset_normalized_extra_size,
      get_transaction_asset_carrier_hash. cbn [t_extra t_rest]. rewrite Hparse. cbn [expect].
    rewrite !bind_of_Good, find_envelope_snoc, bind_of_Good by done.
    rewrite require_true, bind_of_Good by lia. rewrite !(normalize_snoc _ _ _ (t_extra tx)), !bind_of_Good by done.
    rewrite require_true, bind_of_Good by lia. rewrite Hd, bind_of_Good.
    rewrite (require_true (w_network p =? network)), bind_of_Good by lia. rewrite Hc.
    rewrite bool_decide_eq_true_2 by (by destruct tx). done.
Qed.

(** The carrier hash of a transaction without an envelope is its prefix hash. *)
Lemma carrier_of_written tx fields : fields_wf fields -> Forall (fun f => is_asset f = false) fields ->
  written fields (t_extra tx) -> get_transaction_asset_carrier_hash prefix_hash tx = Good (prefix_hash tx).
Proof.
  intros Hwf Ha Hw. unfold get_transaction_asset_carrier_hash. rewrite (parse_written _ _ Hwf Hw). cbn [expect].
  rewrite bind_of_Good, (written_normalize _ _ _ _ Ha Hw), bind_of_Good. by destruct tx.
Qed.

End Carrier.

(** ** Samples *)

Definition toy_prefix_hash (tx : transaction_prefix unit) : bytes := toy_hash (t_extra tx).

(** A transaction with a key and a nonce, and an envelope that issues coins with it. *)
Definition native_fields : list tx_extra_field := [tx_extra_pub_key (fill 9); tx_extra_nonce [1; 2]].
Definition native_tx : transaction_prefix unit :=
  Prefix () ((TX_EXTRA_TAG_PUBKEY :: fill 9) ++ (TX_EXTRA_NONCE :: [2; 1; 2]) ++ []).
Definition native_envelope : asset_transaction_payload :=
  Envelope ASSET_TRANSACTION_WIRE_VERSION MAINNET (toy_prefix_hash native_tx) (Some coin) [coin_group]
    [[sample_recipient]] [].
Definition native_encoded : bytes := value [] (encode_asset_transaction_payload native_envelope).

Lemma native_envelope_wf : envelope_wf native_envelope.
Proof.
  apply (encode_decode_envelope native_encoded); [|vm_compute; reflexivity].
  apply (array_bytes (length native_encoded)), arrayb_array. vm_compute. reflexivity.
Qed.

Lemma envelope_attached_witness : exists extra,
  add_monzero_asset_tx_extra (t_extra native_tx) native_encoded = Good extra /\
  parse_native_asset_transaction toy_prefix_hash (Prefix () extra) 17 MAINNET = Good (Some native_envelope).
Proof.
  apply (envelope_attached toy_prefix_hash native_tx native_fields native_envelope native_encoded 17 MAINNET).
  - split; [repeat constructor|]. by repeat split.
  - repeat constructor; done.
  - repeat constructor.
  - vm_compute. lia.
  - apply native_envelope_wf.
  - vm_compute. reflexivity.
  - reflexivity.
  - reflexivity.
  - unfold HF_VERSION_MONZERO_ASSETS. lia.
Defined.

(** The same transaction with the envelope before the nonce. *)
Definition carrying_tx : transaction_prefix unit :=
  Prefix () ((TX_EXTRA_TAG_PUBKEY :: fill 9) ++ (TX_EXTRA_TAG_MONZERO_ASSET :: write_string native_encoded)
    ++ (TX_EXTRA_NONCE :: [2; 1; 2])).

Lemma carrier_hash_stable_witness : exists extra, let carrier := Prefix () extra in
  toy_prefix_hash native_tx = toy_prefix_hash carrier /\ get_monzero_asset_tx_extra extra = Good None /\
  get_transaction_asset_carrier_hash toy_prefix_hash carrier = Good (toy_prefix_hash native_tx).
Proof.
  apply (carrier_hash_stable toy_prefix_hash carrying_tx).
  - apply (array_bytes (length (t_extra carrying_tx))), arrayb_array. vm_compute. reflexivity.
  - vm_compute. reflexivity.
  - vm_compute. reflexivity.
Defined.
