(* ===== verification/NativeExtra.v ===== *)
(** The other fields of the extra field of a native transaction: they are sorted,
    removed, added and looked up ([cryptonote_format_utils.cpp]); and the extra
    field that [construct_tx_with_tx_key] makes ([cryptonote_tx_utils.cpp]). *)

From stdpp Require Import gmap.
From S2P Require Import Prelude Bytes AssetTypes AssetCodec AssetConfidential AssetWire AssetExtra.

(** The types of the fields, for [typeid]. *)
Inductive extra_type := padding_type | pub_key_type | nonce_type | merge_mining_type | additional_type | asset_type | minergate_type.
#[global] Instance extra_type_eq_dec : EqDecision extra_type.
Proof. solve_decision. Defined.

Definition type_of (f : tx_extra_field) : extra_type :=
  match f with
  | tx_extra_padding _ => padding_type
  | tx_extra_pub_key _ => pub_key_type
  | tx_extra_nonce _ => nonce_type
  | tx_extra_merge_mining_tag _ _ => merge_mining_type
  | tx_extra_additional_pub_keys _ => additional_type
  | tx_extra_monzero_asset _ => asset_type
  | tx_extra_mysterious_minergate _ => minergate_type
  end.

(** ** Reading as far as possible

    The fields that are read before a failure, and what is left then. *)
Fixpoint read_some (fuel : nat) (s : bytes) : list tx_extra_field * bytes * bool :=
  match fuel with
  | O => ([], s, false)
  | S fuel =>
      match read_field s with
      | None => ([], s, false)
      | Some (field, []) => ([field], [], true)
      | Some (field, s) => let '(fields, unread, ok) := read_some fuel s in (field :: fields, unread, ok)
      end
  end.

Definition parse_some (tx_extra : bytes) : list tx_extra_field * bytes * bool :=
  match tx_extra with [] => ([], [], true) | _ :: _ => read_some (length tx_extra) tx_extra end.

(** ** Sorting *)

(** [pick]: the fields of a type are written and erased. *)
Fixpoint pick_fields (t : extra_type) (fields : list tx_extra_field) : option (bytes * list tx_extra_field) :=
  match fields with
  | [] => Some ([], [])
  | f :: fields =>
      if decide (type_of f = t) then
        field ← write_field f;
        '(picked, fields) ← pick_fields t fields;
        Some (field ++ picked, fields)
      else
        '(picked, fields) ← pick_fields t fields;
        Some (picked, f :: fields)
  end.

Definition sort_order : list extra_type :=
  [pub_key_type; additional_type; nonce_type; merge_mining_type; asset_type; minergate_type; padding_type].

Fixpoint pick_types (order : list extra_type) (fields : list tx_extra_field) : option (bytes * list tx_extra_field) :=
  match order with
  | [] => Some ([], fields)
  | t :: order =>
      '(picked, fields) ← pick_fields t fields;
      '(others, fields) ← pick_types order fields;
      Some (picked ++ others, fields)
  end.

Definition sort_tx_extra (tx_extra : bytes) (allow_partial : bool) : option bytes :=
  let '(fields, unparsed, ok) := parse_some tx_extra in
  if negb ok && negb allow_partial then None
  else
    '(sorted, fields) ← pick_types sort_order fields;
    match fields with
    | [] => Some (if allow_partial then sorted ++ unparsed else sorted)
    | _ :: _ => None
    end.

(** ** Single fields *)

(** [find_tx_extra_field_by_type]. *)
Fixpoint find_field (t : extra_type) (fields : list tx_extra_field) (index : nat) : option tx_extra_field :=
  match fields with
  | [] => None
  | f :: fields =>
      if decide (type_of f = t) then
        match index with O => Some f | S index => find_field t fields index end
      else find_field t fields index
  end.

(** A field that was read can be written; [None] is the result [false], with
    which the extra field stays as it is. *)
Definition remove_field_from_tx_extra (tx_extra : bytes) (t : extra_type) : option bytes :=
  fields ← parse_tx_extra tx_extra;
  Some (concat ((default [] ∘ write_field) <$> filter (fun f => type_of f <> t) fields)).

Definition add_tx_pub_key_to_extra (tx_extra tx_pub_key : bytes) : bytes :=
  tx_extra ++ TX_EXTRA_TAG_PUBKEY :: tx_pub_key.

(** The result of [parse_tx_extra] is not looked at. *)
Definition get_tx_pub_key_from_extra (tx_extra : bytes) (pk_index : nat) : bytes :=
  match find_field pub_key_type (parse_some tx_extra).1.1 pk_index with
  | Some (tx_extra_pub_key k) => k
  | _ => null_pkey
  end.

Definition add_additional_tx_pub_keys_to_extra (tx_extra : bytes) (additional_pub_keys : list bytes) : bytes :=
  tx_extra ++ default [] (write_field (tx_extra_additional_pub_keys additional_pub_keys)).

Definition get_additional_tx_pub_keys_from_extra (tx_extra : bytes) : list bytes :=
  match find_field additional_type (parse_some tx_extra).1.1 0 with
  | Some (tx_extra_additional_pub_keys keys) => keys
  | _ => []
  end.

Definition add_extra_nonce_to_tx_extra (tx_extra extra_nonce : bytes) : option bytes :=
  if (length extra_nonce <=? TX_EXTRA_NONCE_MAX_COUNT)%nat
  then Some (tx_extra ++ TX_EXTRA_NONCE :: write_varint (Z.of_nat (length extra_nonce)) ++ extra_nonce) else None.

Definition add_mm_merkle_root_to_tx_extra (tx_extra mm_merkle_root : bytes) (mm_merkle_tree_depth : Z) : option bytes :=
  if mm_merkle_tree_depth <? 32
  then Some (tx_extra ++ [TX_EXTRA_MERGE_MINING_TAG; 33; mm_merkle_tree_depth] ++ mm_merkle_root) else None.

(** ** Payment ids *)

Definition TX_EXTRA_NONCE_PAYMENT_ID : Z := 0x00.
Definition TX_EXTRA_NONCE_ENCRYPTED_PAYMENT_ID : Z := 0x01.
Definition null_hash8 : bytes := replicate 8 0.

Definition set_payment_id_to_tx_extra_nonce (payment_id : bytes) : bytes := TX_EXTRA_NONCE_PAYMENT_ID :: payment_id.
Definition set_encrypted_payment_id_to_tx_extra_nonce (payment_id : bytes) : bytes :=
  TX_EXTRA_NONCE_ENCRYPTED_PAYMENT_ID :: payment_id.

(** The payment id of [size] bytes after its tag. *)
Definition payment_id_of (tag : Z) (size : nat) (extra_nonce : bytes) : option bytes :=
  match extra_nonce with
  | t :: payment_id => if (length payment_id =? size)%nat && (t =? tag) then Some payment_id else None
  | [] => None
  end.
Definition get_payment_id_from_tx_extra_nonce : bytes -> option bytes := payment_id_of TX_EXTRA_NONCE_PAYMENT_ID 32.
Definition get_encrypted_payment_id_from_tx_extra_nonce : bytes -> option bytes :=
  payment_id_of TX_EXTRA_NONCE_ENCRYPTED_PAYMENT_ID 8.

(** ** The extra field of a new transaction *)

Section Construct.

(** The key of the destination for the payment id, and the encryption with it. *)
Context (view_key_pub : bytes) (encrypt_payment_id : bytes -> option bytes).

(** The nonce of the given extra field, if it has a payment id: the field with the
    id encrypted, and whether a dummy id is to be added. *)
Definition encrypt_nonce (extra : bytes) (fields : list tx_extra_field) : option (bytes * bool) :=
  match find_field nonce_type fields 0 with
  | Some (tx_extra_nonce extra_nonce) =>
      match get_encrypted_payment_id_from_tx_extra_nonce extra_nonce with
      | Some payment_id8 =>
          if bool_decide (view_key_pub = null_pkey) then None
          else
            payment_id8 ← encrypt_payment_id payment_id8;
            extra ← add_extra_nonce_to_tx_extra (default extra (remove_field_from_tx_extra extra nonce_type))
              (set_encrypted_payment_id_to_tx_extra_nonce payment_id8);
            Some (extra, false)
      | None => Some (extra, negb (bool_decide (is_Some (get_payment_id_from_tx_extra_nonce extra_nonce))))
      end
  | _ => Some (extra, true)
  end.

Definition construct_payment_id (extra : bytes) (destinations : nat) : option bytes :=
  match parse_tx_extra extra with
  | None => Some extra
  | Some fields =>
      '(extra, add_dummy_payment_id) ← encrypt_nonce extra fields;
      Some (if add_dummy_payment_id && negb (2 <? destinations)%nat && negb (bool_decide (view_key_pub = null_pkey))
        then default extra (add_extra_nonce_to_tx_extra extra
          (set_encrypted_payment_id_to_tx_extra_nonce (default null_hash8 (encrypt_payment_id null_hash8))))
        else extra)
  end.

Definition replace_pub_key (extra txkey_pub : bytes) : bytes :=
  add_tx_pub_key_to_extra (default extra (remove_field_from_tx_extra extra pub_key_type)) txkey_pub.

(** [None] is the result [false]. [additional] has the keys if they are needed. *)
Definition construct_extra (extra : bytes) (destinations : nat) (txkey_pub : bytes) (additional : option (list bytes)) :
  option bytes :=
  extra ← construct_payment_id extra destinations;
  let extra := replace_pub_key extra txkey_pub in
  let extra := default extra (remove_field_from_tx_extra extra additional_type) in
  let extra := match additional with Some keys => add_additional_tx_pub_keys_to_extra extra keys | None => extra end in
  sort_tx_extra extra false.

End Construct.

(** [finalize_and_check_prefix], after which the transaction is signed. *)
Definition finalize_and_check_prefix {rest} (finalize_prefix : transaction_prefix rest -> outcome (transaction_prefix rest))
  (tx : transaction_prefix rest) : outcome (transaction_prefix rest) :=
  tx ← finalize_prefix tx;
  normalized_extra_size ← get_monzero_asset_normalized_extra_size tx;
  require (normalized_extra_size <=? MAX_TX_EXTRA_SIZE)%nat "Non-asset TX extra size is greater than max allowed";;
  Good tx.
