(* ===== verification/NativeExtraProps.v ===== *)
(** The extra field of a native transaction: sorting keeps its fields and puts it
    into the form in which fields are read as they were written, single fields
    are found where they were added, and an extra field that
    [construct_tx_with_tx_key] made can carry an envelope. *)

From stdpp Require Import gmap.
From S2P Require Import Prelude Bytes AssetTypes AssetExamples AssetCodec AssetConfidential AssetOwnership AssetWire AssetExtra AssetExtraProps NativeExtra.

(** ** Reading *)

Lemma read_some_all fuel : forall s fields, read_fields fuel s = Some fields <-> read_some fuel s = (fields, [], true).
Proof.
  induction fuel as [|fuel IH]; intros s fields; cbn [read_fields read_some]; [done|].
  destruct (read_field s) as [[f [|b r]]|]; cbn [mbind option_bind]; [split; congruence| |done].
  destruct (read_some fuel (b :: r)) as [[fs unread] ok] eqn:E. split.
  - intros (fs' & Ef%IH & [= <-])%bind_Some. congruence.
  - intros [= <- -> ->]. rewrite (proj2 (IH _ fs) E). done.
Qed.

Lemma parse_some_all e fields : parse_tx_extra e = Some fields <-> parse_some e = (fields, [], true).
Proof. destruct e; [split; cbn; congruence|]. apply read_some_all. Qed.

(** ** Sorting *)

Definition of_type (t : extra_type) (fields : list tx_extra_field) : list tx_extra_field :=
  filter (fun f => type_of f = t) fields.
Definition not_of_type (t : extra_type) (fields : list tx_extra_field) : list tx_extra_field :=
  filter (fun f => type_of f <> t) fields.

(** The fields in the order of their types. *)
Definition sorted_fields (fields : list tx_extra_field) : list tx_extra_field :=
  sort_order ≫= fun t => of_type t fields.

Lemma written_app l e k e' : written l e -> written k e' -> written (l ++ k) (e ++ e').
Proof. intros Hl Hk. induction Hl; cbn; [done|]. rewrite <- app_assoc. by constructor. Qed.

Lemma written_fun l e e' : written l e -> written l e' -> e = e'.
Proof.
  intros Hl. revert e'. induction Hl as [|f l e1 es E _ IH]; intros e' Hl'; inversion Hl' as [|?? e2 es2 E' Hl2]; subst; [done|].
  rewrite E in E'. injection E' as ->. f_equal. by apply IH.
Qed.

Lemma written_exists fields : Forall field_wf fields -> exists e, written fields e.
Proof.
  induction 1 as [|f fields Hf _ [e IH]]; [exists []; constructor|].
  destruct (write_field_wf f Hf) as (t & e1 & E). exists ((t :: e1) ++ e). by constructor.
Qed.

Lemma pick_fields_wf t fields : Forall field_wf fields ->
  exists e, pick_fields t fields = Some (e, not_of_type t fields) /\ written (of_type t fields) e.
Proof.
  unfold of_type, not_of_type. induction 1 as [|f fields Hf _ (e & IH & Hw)]; [exists []; split; [done|constructor]|].
  cbn [pick_fields]. rewrite !filter_cons, IH. destruct (decide (type_of f = t)) as [E|E].
  - rewrite decide_False by auto. destruct (write_field_wf f Hf) as (b & e1 & Ew). rewrite Ew. cbn [mbind option_bind].
    eexists. split; [done|]. by constructor.
  - rewrite decide_True by done. exists e. done.
Qed.

Lemma of_type_rest t t' fields : t <> t' -> of_type t' (not_of_type t fields) = of_type t' fields.
Proof.
  intros Hne. unfold of_type, not_of_type. rewrite list_filter_filter. apply list_filter_iff. intros f.
  split; [tauto|]. intros ->. by split.
Qed.

Lemma bind_ext_in {A B} (f g : A -> list B) l : (forall x, x ∈ l -> f x = g x) -> l ≫= f = l ≫= g.
Proof.
  induction l as [|x l IH]; intros E; [done|]. cbn. rewrite (E x) by left. f_equal. apply IH. intros y Hy. apply E. by right.
Qed.

Lemma filter_true {A} (P : A -> Prop) `{!forall x, Decision (P x)} l : Forall P l -> filter P l = l.
Proof. induction 1 as [|x l Hx _ IH]; [done|]. rewrite filter_cons, decide_True by done. by rewrite IH. Qed.

Lemma filter_false {A} (P : A -> Prop) `{!forall x, Decision (P x)} l : Forall (fun x => ~ P x) l -> filter P l = [].
Proof. induction 1 as [|x l Hx _ IH]; [done|]. by rewrite filter_cons, decide_False. Qed.

Lemma filter_Forall {A} (P Q : A -> Prop) `{!forall x, Decision (P x)} l : Forall Q l -> Forall Q (filter P l).
Proof. rewrite !Forall_forall. intros Hl x [_ Hx]%list_elem_of_filter. by apply Hl. Qed.

Lemma pick_types_wf order : forall fields, NoDup order -> Forall field_wf fields ->
  exists e, pick_types order fields = Some (e, filter (fun f => type_of f ∉ order) fields) /\
    written (order ≫= fun t => of_type t fields) e.
Proof.
  induction order as [|t order IH]; intros fields Hnd Hwf.
  - exists []. split; [|constructor]. cbn [pick_types]. rewrite filter_true; [done|]. apply Forall_true. intros f.
    apply not_elem_of_nil.
  - apply NoDup_cons in Hnd as [Ht Hnd]. destruct (pick_fields_wf t fields Hwf) as (e1 & E1 & W1).
    destruct (IH (not_of_type t fields) Hnd) as (e2 & E2 & W2); [by apply filter_Forall|].
    exists (e1 ++ e2). cbn [pick_types]. rewrite E1. cbn [mbind option_bind]. rewrite E2. cbn [mbind option_bind]. split.
    + do 2 f_equal. unfold not_of_type. rewrite list_filter_filter. apply list_filter_iff. intros f. set_solver.
    + cbn [mbind list_bind]. apply written_app; [done|]. rewrite (bind_ext_in _ (fun t' => of_type t' (not_of_type t fields))).
      { exact W2. }
      intros t' Ht'. symmetry. apply of_type_rest. by intros ->.
Qed.

Lemma in_sort_order t : t ∈ sort_order.
Proof. destruct t; unfold sort_order; set_solver. Qed.

Lemma sort_order_once : NoDup sort_order.
Proof. apply (bool_decide_unpack _). vm_compute. exact I. Qed.

(** Every field is in the bucket of its type. *)
Lemma bucket_cons order f fields : NoDup order -> type_of f ∈ order ->
  (order ≫= fun t => of_type t (f :: fields)) ≡ₚ f :: (order ≫= fun t => of_type t fields).
Proof.
  unfold of_type. induction order as [|t order IH]; intros Hnd Hin; [by apply not_elem_of_nil in Hin|].
  apply NoDup_cons in Hnd as [Ht Hnd]. cbn [mbind list_bind]. rewrite filter_cons. case_decide as E.
  - subst t. cbn [app]. apply perm_skip, Permutation_app_head. erewrite bind_ext_in; [done|].
    intros t' Ht'. rewrite filter_cons, decide_False; [done|]. by intros <-.
  - apply elem_of_cons in Hin as [?|Hin]; [done|]. rewrite (IH Hnd Hin). symmetry. apply Permutation_middle.
Qed.

Lemma sorted_permutation fields : sorted_fields fields ≡ₚ fields.
Proof.
  unfold sorted_fields. induction fields as [|f fields IH]; [done|].
  rewrite (bucket_cons sort_order f fields sort_order_once (in_sort_order _)). by f_equiv.
Qed.

Lemma of_type_bucket t order fields : NoDup order ->
  of_type t (order ≫= fun t' => of_type t' fields) = if decide (t ∈ order) then of_type t fields else [].
Proof.
  unfold of_type. induction order as [|t' order IH]; intros Hnd; [done|]. apply NoDup_cons in Hnd as [Ht Hnd].
  cbn [mbind list_bind]. rewrite filter_app, (IH Hnd). destruct (decide (t = t')) as [->|Hne].
  - rewrite (decide_True (P := t' ∈ t' :: order)), (decide_False (P := t' ∈ order)), app_nil_r by (done || left).
    rewrite list_filter_filter. apply list_filter_iff. tauto.
  - rewrite (filter_false _ (filter _ fields)); cbn [app].
    + destruct (decide (t ∈ order)); [rewrite decide_True by (by right)|rewrite decide_False by set_solver]; done.
    + apply Forall_forall. intros f [-> _]%list_elem_of_filter. congruence.
Qed.

Lemma sorted_twice fields : sorted_fields (sorted_fields fields) = sorted_fields fields.
Proof.
  unfold sorted_fields at 1 3. apply bind_ext_in. intros t Ht. unfold sorted_fields.
  by rewrite (of_type_bucket t sort_order fields sort_order_once), decide_True.
Qed.

Lemma paddings fields : padding_last fields -> (length (of_type padding_type fields) <= 1)%nat.
Proof.
  unfold of_type. induction fields as [|f fields IH]; [cbn; lia|]. intros [Hp Hl]. rewrite filter_cons. case_decide as E; [|by apply IH].
  destruct fields as [|g fields]; [done|]. destruct f; try done. by destruct (Hp ltac:(done) size).
Qed.

Lemma padding_last_app l k : Forall (fun f => type_of f <> padding_type) l -> (length k <= 1)%nat -> padding_last (l ++ k).
Proof.
  intros Hl Hk. induction Hl as [|f l Hf _ IH]; [destruct k as [|f [|]]; cbn in *; [done|done|lia]|].
  split; [|done]. intros _ size ->. done.
Qed.

Lemma sorted_wf fields : fields_wf fields -> fields_wf (sorted_fields fields).
Proof.
  intros [Hwf Hl]. split; [by rewrite sorted_permutation|]. unfold sorted_fields.
  change sort_order with (take 6 sort_order ++ [padding_type]). rewrite bind_app. cbn [mbind list_bind]. rewrite app_nil_r.
  apply padding_last_app; [|by apply paddings]. apply Forall_forall.
  intros f (t & [-> _]%list_elem_of_filter & Ht)%list_elem_of_bind E. rewrite E in Ht. revert Ht.
  apply (bool_decide_unpack _). vm_compute. exact I.
Qed.

Lemma sort_written fields e partial : fields_wf fields -> parse_tx_extra e = Some fields ->
  exists e', sort_tx_extra e partial = Some e' /\ written (sorted_fields fields) e'.
Proof.
  intros [Hwf _] Hp%parse_some_all. unfold sort_tx_extra. rewrite Hp. cbn [negb andb].
  destruct (pick_types_wf sort_order fields sort_order_once Hwf) as (e' & E & Hw). rewrite E. cbn [mbind option_bind].
  rewrite filter_false by (apply Forall_true; intros f Hf; apply Hf, in_sort_order).
  exists e'. split; [|done]. destruct partial; by rewrite ?app_nil_r.
Qed.

(** C32: Sorting an extra field keeps its fields: an extra field that can be read is
    sorted, into the same fields in the order of their types, in the order they
    had within a type, and it is read as that; sorting it again changes nothing. *)
Theorem sorted_extra_canonical e fields partial : is_bytes e -> fits e -> parse_tx_extra e = Some fields ->
  exists e', sort_tx_extra e partial = Some e' /\ parse_tx_extra e' = Some (sorted_fields fields) /\
    sorted_fields fields ≡ₚ fields /\ (forall t, of_type t (sorted_fields fields) = of_type t fields) /\
    sort_tx_extra e' partial = Some e'.
Proof.
  intros Hb Hf Hp. pose proof (parse_wf _ _ Hb Hf Hp) as Hwf. pose proof (sorted_wf _ Hwf) as Hs.
  destruct (sort_written _ _ partial Hwf Hp) as (e' & E & Hw). pose proof (parse_written _ _ Hs Hw) as Hp'.
  exists e'. split_and!; [done|done|apply sorted_permutation| |].
  - intros t. unfold sorted_fields. rewrite (of_type_bucket t sort_order fields sort_order_once), decide_True; [done|].
    apply in_sort_order.
  - destruct (sort_written _ _ partial Hs Hp') as (e2 & E2 & Hw2). rewrite sorted_twice in Hw2.
    by rewrite E2, (written_fun _ _ _ Hw Hw2).
Qed.

(** ** Single fields *)

(** Fields without an envelope or a padding, written one after the other. *)
Record clean (fields : list tx_extra_field) (e : bytes) : Prop := {
  clean_wf : Forall field_wf fields;
  clean_plain : Forall (fun f => type_of f <> asset_type /\ type_of f <> padding_type) fields;
  clean_written : written fields e;
}.

Lemma clean_fields_wf fields e : clean fields e -> fields_wf fields.
Proof.
  intros [Hwf Hp _]. split; [done|]. rewrite <- (app_nil_r fields). apply padding_last_app; [|cbn; lia].
  eapply Forall_impl; [exact Hp|]. by intros f [_ ?].
Qed.

Lemma clean_parsed fields e : clean fields e -> parse_tx_extra e = Some fields.
Proof. intros Hc. pose proof (clean_fields_wf _ _ Hc). destruct Hc. by apply parse_written. Qed.

Lemma clean_empty : clean [] [].
Proof. by repeat constructor. Qed.

Lemma clean_snoc fields e f e' : clean fields e -> field_wf f -> type_of f <> asset_type -> type_of f <> padding_type ->
  write_field f = Some e' -> clean (fields ++ [f]) (e ++ e').
Proof.
  intros [Hwf Hp Hw] Hf Ha Hpad E. split; [by apply Forall_app; split; [|apply Forall_singleton]| |by apply written_snoc].
  apply Forall_app. split; [done|]. by apply Forall_singleton.
Qed.

Lemma written_concat fields : Forall field_wf fields -> written fields (concat ((default [] ∘ write_field) <$> fields)).
Proof.
  induction 1 as [|f fields Hf _ IH]; [constructor|]. cbn. destruct (write_field_wf f Hf) as (t & e & E). constructor; [|done].
  by rewrite E.
Qed.

Lemma clean_remove fields e t : clean fields e ->
  exists e', remove_field_from_tx_extra e t = Some e' /\ clean (not_of_type t fields) e'.
Proof.
  intros Hc. unfold remove_field_from_tx_extra. rewrite (clean_parsed _ _ Hc). cbn [mbind option_bind]. eexists. split; [done|].
  destruct Hc as [Hwf Hp _]. split; [by apply filter_Forall..|]. by apply written_concat, filter_Forall.
Qed.

Lemma clean_sort fields e : clean fields e -> exists e', sort_tx_extra e false = Some e' /\ clean (sorted_fields fields) e'.
Proof.
  intros Hc. destruct (sort_written fields e false (clean_fields_wf _ _ Hc) (clean_parsed _ _ Hc)) as (e' & E & Hw).
  exists e'. split; [done|]. destruct Hc as [Hwf Hp _]. by split; [rewrite sorted_permutation..|].
Qed.

Lemma clean_nonce fields e nonce e' : clean fields e -> add_extra_nonce_to_tx_extra e nonce = Some e' ->
  clean (fields ++ [tx_extra_nonce nonce]) e'.
Proof.
  unfold add_extra_nonce_to_tx_extra, TX_EXTRA_NONCE_MAX_COUNT. intros Hc E. case_if_in E; [|done]. injection E as <-.
  apply clean_snoc; [done|cbn; lia|done|done|]. cbn [write_field]. unfold TX_EXTRA_NONCE_MAX_COUNT.
  by rewrite (proj2 (Nat.ltb_ge _ _)) by lia.
Qed.

Lemma find_first t fields : find_field t fields 0 = head (of_type t fields).
Proof.
  unfold of_type. induction fields as [|f fields IH]; [done|]. cbn [find_field]. rewrite filter_cons. by case_decide.
Qed.

Lemma of_type_app t l k : of_type t (l ++ k) = of_type t l ++ of_type t k.
Proof. apply filter_app. Qed.

Lemma of_type_sorted t fields : of_type t (sorted_fields fields) = of_type t fields.
Proof.
  unfold sorted_fields. rewrite (of_type_bucket t sort_order fields sort_order_once), decide_True; [done|]. apply in_sort_order.
Qed.

Lemma of_type_removed t fields : of_type t (not_of_type t fields) = [].
Proof. apply filter_false, Forall_forall. intros f [? _]%list_elem_of_filter. done. Qed.

(** The size of written fields. *)
Definition fields_size (fields : list tx_extra_field) : nat :=
  sum_list ((fun f => length (default [] (write_field f))) <$> fields).

Lemma written_size fields e : written fields e -> length e = fields_size fields.
Proof. unfold fields_size. induction 1 as [|f fields e es E _ IH]; [done|]. cbn. by rewrite length_app, E, IH. Qed.

Lemma sorted_size fields : fields_size (sorted_fields fields) = fields_size fields.
Proof. unfold fields_size. by rewrite sorted_permutation. Qed.

Lemma removed_size t fields : (fields_size (not_of_type t fields) <= fields_size fields)%nat.
Proof.
  unfold fields_size, not_of_type. induction fields as [|f fields IH]; [done|]. rewrite filter_cons.
  case_decide; cbn in *; lia.
Qed.

Lemma app_size l k : fields_size (l ++ k) = (fields_size l + fields_size k)%nat.
Proof. unfold fields_size. by rewrite fmap_app, sum_list_with_app. Qed.

(** ** The extra field of a new transaction *)

Section Constructed.
Context (view_key_pub : bytes) (encrypt : bytes -> option bytes).

Lemma payment_id_clean fields extra n e : clean fields extra -> construct_payment_id view_key_pub encrypt extra n = Some e ->
  exists fields', clean fields' e.
Proof.
  intros Hc. unfold construct_payment_id. rewrite (clean_parsed _ _ Hc). intros ([e1 dummy] & E1 & [= <-])%bind_Some.
  assert (exists fields1, clean fields1 e1) as [fields1 Hc1].
  { unfold encrypt_nonce in E1. destruct (find_field nonce_type fields 0) as [[]|]; try (injection E1 as <- _; by exists fields).
    destruct (get_encrypted_payment_id_from_tx_extra_nonce nonce); [|injection E1 as <- _; by exists fields].
    case_if_in E1; [done|]. apply bind_Some in E1 as (id & _ & E1). apply bind_Some in E1 as (e2 & E2 & [= <- _]).
    destruct (clean_remove fields extra nonce_type Hc) as (e3 & E3 & Hc3). rewrite E3 in E2. eexists. by eapply clean_nonce. }
  case_if; [|by exists fields1].
  destruct (add_extra_nonce_to_tx_extra e1 _) as [e2|] eqn:E2; cbn [default]; [|by exists fields1].
  eexists. by eapply clean_nonce.
Qed.

Definition additional_fields (additional : option (list bytes)) : list tx_extra_field :=
  match additional with Some keys => [tx_extra_additional_pub_keys keys] | None => [] end.

Definition keys_ok (txkey_pub : bytes) (additional : option (list bytes)) : Prop :=
  length txkey_pub = 32%nat /\
  from_option (fun keys => fits keys /\ Forall (fun k : bytes => length k = 32%nat) keys) True additional.

(** The keys of the new transaction take the place of those in the given field. *)
Lemma construct_clean fields extra n txkey_pub additional e1 : clean fields extra -> keys_ok txkey_pub additional ->
  construct_payment_id view_key_pub encrypt extra n = Some e1 ->
  exists e fields', construct_extra view_key_pub encrypt extra n txkey_pub additional = Some e /\ clean fields' e /\
    of_type pub_key_type fields' = [tx_extra_pub_key txkey_pub] /\
    of_type additional_type fields' = additional_fields additional /\
    (length e <= length e1 + 33 + fields_size (additional_fields additional))%nat.
Proof.
  intros Hc [Hk Hadd] E1. unfold construct_extra. rewrite E1. cbn [mbind option_bind]. cbv zeta. unfold replace_pub_key.
  destruct (payment_id_clean _ _ _ _ Hc E1) as [fields1 Hc1].
  destruct (clean_remove fields1 e1 pub_key_type Hc1) as (e2 & -> & Hc2). cbn [default id].
  pose proof (clean_snoc _ _ (tx_extra_pub_key txkey_pub) _ Hc2 Hk ltac:(done) ltac:(done) eq_refl) as Hc3.
  destruct (clean_remove _ _ additional_type Hc3) as (e4 & E4 & Hc4). unfold add_tx_pub_key_to_extra. rewrite E4. cbn [default id].
  set (base := not_of_type additional_type (not_of_type pub_key_type fields1 ++ [tx_extra_pub_key txkey_pub])) in *.
  assert (exists e5, match additional with Some keys => add_additional_tx_pub_keys_to_extra e4 keys | None => e4 end = e5 /\
    clean (base ++ additional_fields additional) e5) as (e5 & -> & Hc5).
  { eexists. split; [done|]. destruct additional as [keys|]; cbn [additional_fields]; [|by rewrite app_nil_r].
    by apply clean_snoc. }
  destruct (clean_sort _ _ Hc5) as (e & E & Hc6). exists e, (sorted_fields (base ++ additional_fields additional)).
  split_and!; [done|done|rewrite of_type_sorted, of_type_app; unfold base..|].
  - rewrite of_type_rest, of_type_app, of_type_removed by done. by destruct additional.
  - rewrite of_type_removed. by destruct additional.
  - rewrite (written_size _ _ (clean_written _ _ Hc6)), sorted_size, app_size, (written_size _ _ (clean_written _ _ Hc1)).
    pose proof (removed_size additional_type (not_of_type pub_key_type fields1 ++ [tx_extra_pub_key txkey_pub])) as H1.
    pose proof (removed_size pub_key_type fields1) as H2. rewrite app_size in H1. fold base in H1.
    assert (fields_size [tx_extra_pub_key txkey_pub] = 33%nat) as H3 by (cbn; rewrite Hk; done). lia.
Qed.

(** C29: The extra field of a new transaction has its keys: if the fields that
    were given are none or are written canonically, with no envelope and no padding
    among them, then the transaction key and the additional keys that are read from
    the result are those of the transaction, each in one field, and there is no
    envelope yet. *)
Theorem constructed_keys_found fields extra n txkey_pub additional e : clean fields extra -> keys_ok txkey_pub additional ->
  construct_extra view_key_pub encrypt extra n txkey_pub additional = Some e ->
  get_tx_pub_key_from_extra e 0 = txkey_pub /\ get_additional_tx_pub_keys_from_extra e = default [] additional /\
  get_monzero_asset_tx_extra e = Good None /\
  exists fields', parse_tx_extra e = Some fields' /\ of_type pub_key_type fields' = [tx_extra_pub_key txkey_pub] /\
    of_type additional_type fields' = additional_fields additional.
Proof.
  intros Hc Hk E. pose proof E as (e1 & E1 & _)%bind_Some.
  destruct (construct_clean fields extra n txkey_pub additional e1 Hc Hk E1) as (e' & fields' & E' & Hc' & Hpk & Hadd & _).
  rewrite E in E'. injection E' as <-. pose proof (clean_parsed _ _ Hc') as Hp.
  pose proof (proj1 (parse_some_all _ _) Hp) as Hs.
  unfold get_tx_pub_key_from_extra, get_additional_tx_pub_keys_from_extra, get_monzero_asset_tx_extra.
  rewrite Hs, Hp. cbn [fst]. rewrite !find_first, Hpk, Hadd. split_and!; [done|by destruct additional| |by exists fields'].
  cbn [expect]. rewrite bind_of_Good. apply find_envelope_none. destruct Hc' as [_ Hpl _].
  eapply Forall_impl; [exact Hpl|]. intros f [Ha _]. by destruct f.
Qed.

(** The extra field that the wallet passes is empty; a new one is always made, and
    it is small. *)
Lemma construct_empty n txkey_pub additional : keys_ok txkey_pub additional -> (length (default [] additional) <= 16)%nat ->
  exists e fields, construct_extra view_key_pub encrypt [] n txkey_pub additional = Some e /\ clean fields e /\
    (length e <= MAX_TX_EXTRA_SIZE)%nat.
Proof.
  intros Hk Hn. destruct (construct_payment_id view_key_pub encrypt [] n) as [e1|] eqn:E1; [|done].
  assert (length e1 <= 266)%nat as H1.
  { unfold construct_payment_id, encrypt_nonce in E1. cbn [parse_tx_extra find_field mbind option_bind] in E1.
    injection E1 as <-. case_if; [|cbn; lia]. unfold add_extra_nonce_to_tx_extra, TX_EXTRA_NONCE_MAX_COUNT.
    generalize (set_encrypted_payment_id_to_tx_extra_nonce (default null_hash8 (encrypt null_hash8))) as nonce. intros nonce.
    destruct (Nat.leb_spec (length nonce) 255); cbn [default id app length]; [|lia]. rewrite length_app. unfold write_varint.
    pose proof (length_varint_fuel 9 (Z.of_nat (length nonce))). lia. }
  assert (fields_size (additional_fields additional) <= 523)%nat as H2.
  { destruct Hk as [_ Hk]. destruct additional as [keys|]; [|cbn; lia]. destruct Hk as [_ Hk]. cbn [default id] in Hn.
    unfold fields_size, additional_fields. cbn [fmap list_fmap sum_list write_field default length id].
    rewrite length_app, (length_concat_keys _ Hk). pose proof (length_varint_fuel 9 (Z.of_nat (length keys))).
    unfold write_varint. lia. }
  destruct (construct_clean [] [] n txkey_pub additional e1 clean_empty Hk E1) as (e & fields & ? & ? & _ & _ & Hl).
  exists e, fields. split_and!; [done|done|]. unfold MAX_TX_EXTRA_SIZE. lia.
Qed.

End Constructed.

(** ** Samples *)

Definition mixed_extra : bytes := (TX_EXTRA_NONCE :: [2; 1; 2]) ++ (TX_EXTRA_TAG_PUBKEY :: fill 9).

Lemma sorted_extra_canonical_witness : exists e,
  sort_tx_extra mixed_extra false = Some e /\
  parse_tx_extra e = Some (sorted_fields [tx_extra_nonce [1; 2]; tx_extra_pub_key (fill 9)]) /\
  sort_tx_extra e false = Some e.
Proof.
  destruct (sorted_extra_canonical mixed_extra [tx_extra_nonce [1; 2]; tx_extra_pub_key (fill 9)] false)
    as (e & E & Hp & _ & _ & E').
  - apply (array_bytes (length mixed_extra)), arrayb_array. vm_compute. reflexivity.
  - vm_compute. reflexivity.
  - vm_compute. reflexivity.
  - by exists e.
Defined.

Definition keyed_extra : bytes := default [] (construct_extra (fill 5) Some [] 2 (fill 10) (Some [fill 11; fill 12])).

Lemma constructed_keys_found_witness :
  get_tx_pub_key_from_extra keyed_extra 0 = fill 10 /\
  get_additional_tx_pub_keys_from_extra keyed_extra = [fill 11; fill 12] /\
  get_monzero_asset_tx_extra keyed_extra = Good None /\
  exists fields, parse_tx_extra keyed_extra = Some fields /\ of_type pub_key_type fields = [tx_extra_pub_key (fill 10)] /\
    of_type additional_type fields = [tx_extra_additional_pub_keys [fill 11; fill 12]].
Proof.
  apply (constructed_keys_found (fill 5) Some [] [] 2 (fill 10) (Some [fill 11; fill 12])).
  - apply clean_empty.
  - split; [done|]. split; [done|]. by repeat constructor.
  - vm_compute. reflexivity.
Defined.
