(* ===== verification/AssetRpc.v ===== *)
(** The asset calls of the daemon's RPC server: hexadecimal texts
    ([contrib/epee/src/hex.cpp], [string_tools.h]), the enumeration of the output
    table ([db_lmdb.cpp]), and [on_get_assets] and [on_get_asset_outputs] of
    [rpc/core_rpc_server.cpp]. The transport of requests and answers as JSON is
    not part of the model. *)

From stdpp Require Import gmap sorting.
From S2P Require Import Prelude Bytes AssetTypes AssetCodec AssetConfidential AssetWire AssetBalance AssetDb AssetExtra.

(** ** Hexadecimal texts

    A text is the list of its character codes. *)
Definition hex_digits : bytes := [48; 49; 50; 51; 52; 53; 54; 55; 56; 57; 97; 98; 99; 100; 101; 102].

Fixpoint write_hex (src : bytes) : bytes :=
  match src with
  | [] => []
  | byte :: src =>
      nth (Z.to_nat (Z.shiftr byte 4)) hex_digits 0 :: nth (Z.to_nat (Z.land byte 15)) hex_digits 0
        :: write_hex src
  end.

Definition pod_to_hex (s : bytes) : bytes := write_hex s.

(** The table [isx]: the value of a digit, 255 for any other character. *)
Definition isx (c : Z) : Z :=
  if (48 <=? c) && (c <=? 57) then c - 48
  else if (65 <=? c) && (c <=? 70) then c - 55
  else if (97 <=? c) && (c <=? 102) then c - 87
  else 255.

(** A text of odd length is refused. *)
Fixpoint to_buffer_unchecked (s : bytes) : option bytes :=
  match s with
  | [] => Some []
  | [_] => None
  | a :: b :: s =>
      let tmp := isx a in
      if tmp =? 255 then None
      else
        let t2 := isx b in
        if t2 =? 255 then None
        else dst ← to_buffer_unchecked s; Some (Z.lor (Z.shiftl tmp 4) t2 :: dst)
  end.

(** [hex_to_pod] into an object of [size] bytes. *)
Definition hex_to_pod (size : nat) (hex_str : bytes) : option bytes :=
  if negb (Nat.div2 (length hex_str) =? size)%nat then None else to_buffer_unchecked hex_str.

(** ** Calls

    What a handler leaves: an answer, an error with its code, or undefined
    behaviour. *)
Inductive rpc_result (A : Type) : Type :=
| Answer (res : A)
| Failure (code : Z) (message : string)
| Undefined.
Arguments Answer {A} res.
Arguments Failure {A} code message%_string.
Arguments Undefined {A}.

Definition CORE_RPC_ERROR_CODE_WRONG_PARAM : Z := -1.
Definition CORE_RPC_ERROR_CODE_INTERNAL_ERROR : Z := -5.
Definition CORE_RPC_STATUS_OK : string := "OK".

(** The [try] of a handler: its early returns are errors of the parameters, and
    what it throws is an internal error. *)
Definition rpc_try {A} (m : outcome A) (message : string) : rpc_result A :=
  match m with
  | Good a => Answer a
  | Bad e => Failure CORE_RPC_ERROR_CODE_WRONG_PARAM e
  | Thrown e => Failure CORE_RPC_ERROR_CODE_INTERNAL_ERROR (message +:+ e)
  | Wild => Undefined
  end.
Arguments rpc_try {A} m message%_string.

Definition MAX_RPC_RESULTS : Z := 1000.

(** The end of a page, with the sum of offset and count cut off at 64 bits. *)
Definition page_end (size offset count : Z) : Z :=
  Z.min size (if UINT64_MAX - count <? offset then UINT64_MAX else offset + count).

(** [for (index = offset; index < end; ++index)] *)
Definition page_indices (size offset count : Z) : list Z := seqZ offset (page_end size offset count - offset).

(** The elements [items[index]] of a loop over indices. *)
Fixpoint pick {A B} (f : A -> B) (items : list A) (indices : list Z) : outcome (list B) :=
  match indices with
  | [] => Good []
  | index :: indices =>
      item ← match items !! Z.to_nat index with Some item => Good item | None => Wild end;
      rest ← pick f items indices;
      Good (f item :: rest)
  end.

(** ** [get_assets] *)

Record asset_entry := AssetEntry {
  ae_asset_id : bytes;
  ae_height : Z;
  ae_asset_class : Z;
  ae_issuer_key : bytes;
  ae_atomic_supply : Z;
  ae_display_decimals : Z;
  ae_metadata_content_hash : bytes;
  ae_metadata_reference : bytes;
  ae_collection_id : bytes;
}.

Record get_assets_response := AssetsResponse {
  as_active : bool;
  as_total : Z;
  as_assets : list asset_entry;
  as_status : string;
}.

Section Assets.
Context `{Crypto}.

(** The loop of the enumeration, with the callback of the handler. *)
Fixpoint decoded_records (entries : list (bytes * bytes)) : outcome (list (stored_issuance * issuance_payload)) :=
  match entries with
  | [] => Good []
  | e :: entries =>
      record ← stored_record e;
      payload ← match decode_issuance_payload (st_payload record) with
        | Bad decode_error => Thrown ("invalid stored asset: " +:+ decode_error)
        | m => m
        end;
      rest ← decoded_records entries;
      Good ((record, payload) :: rest)
  end.

(** The comparison of [sort] is that of [load_registry_from_db]. *)
Definition record_before (l r : stored_issuance * issuance_payload) : Prop := stored_le l.1 r.1.
#[global] Instance record_before_dec : RelDecision record_before := fun l r => _.

Definition asset_entry_of (record : stored_issuance * issuance_payload) : asset_entry :=
  let d := p_descriptor record.2 in
  AssetEntry (pod_to_hex (st_id record.1)) (st_height record.1) (d_type d) (pod_to_hex (d_issuer_key d))
    (d_atomic_supply d) (d_display_decimals d) (pod_to_hex (d_metadata_hash d)) (d_metadata_reference d)
    (if bool_decide (d_collection_id d = null_hash) then [] else pod_to_hex (d_collection_id d)).

Definition on_get_assets (db : asset_db) (hard_fork_version offset count : Z) : rpc_result get_assets_response :=
  if (count =? 0) || (MAX_RPC_RESULTS <? count)
  then Failure CORE_RPC_ERROR_CODE_WRONG_PARAM "Asset result count must be between 1 and 1000"
  else rpc_try
    (records ← decoded_records (map_to_list (asset_records db));
     let records := merge_sort record_before records in
     let size := Z.of_nat (length records) in
     assets ← pick asset_entry_of records (page_indices size offset count);
     Good (AssetsResponse (HF_VERSION_MONZERO_ASSETS <=? hard_fork_version) size assets CORE_RPC_STATUS_OK))
    "Failed to enumerate assets: ".

End Assets.

(** ** [get_asset_outputs] *)

Record output_entry := OutputEntry {
  e_output_id : bytes;
  e_asset_id : bytes;
  e_destination : bytes;
  e_commitment : bytes;
  e_tx_public_key : bytes;
  e_encrypted_mask : bytes;
  e_encrypted_amount : bytes;
  e_view_tag : bytes;
  e_output_index : Z;
  e_height : Z;
}.

Record get_asset_outputs_request := OutputsRequest {
  rq_asset_id : bytes;
  rq_offset : Z;
  rq_count : Z;
  rq_indices : list Z;
  rq_output_ids : list bytes;
}.

Record get_asset_outputs_response := OutputsResponse {
  rs_active : bool;
  rs_total : Z;
  rs_outputs : list output_entry;
  rs_status : string;
}.

Abbreviation stored_output := (bytes * asset_output_data_t)%type.

Fixpoint for_all_asset_outputs (entries : list stored_output) : outcome (list stored_output) :=
  match entries with
  | [] => Good []
  | e :: entries =>
      if negb (length e.1 =? 32)%nat then Thrown "Asset output has an invalid size"
      else rest ← for_all_asset_outputs entries; Good (e :: rest)
  end.

(** The comparison of [sort]: by height, then by id. *)
Definition output_less (l r : stored_output) : bool :=
  if negb (out_height l.2 =? out_height r.2) then out_height l.2 <? out_height r.2 else memcmp_lt l.1 r.1.

Definition output_before (l r : stored_output) : Prop := output_less r l = false.
#[global] Instance output_before_dec : RelDecision output_before := fun l r => decide (output_less r l = false).

(** The loops over the requested indices and ids; [selected_indices] is a
    [std::set]. *)
Fixpoint select_indices (size : Z) (indices : list Z) (selected_indices : gset Z) : outcome (gset Z) :=
  match indices with
  | [] => Good selected_indices
  | index :: indices =>
      require (index <? size) "Asset output index is out of range";;
      select_indices size indices ({[ index ]} ∪ selected_indices)
  end.

Fixpoint select_output_ids (records : list stored_output) (output_ids : list bytes) (selected_indices : gset Z) :
  outcome (gset Z) :=
  match output_ids with
  | [] => Good selected_indices
  | text :: output_ids =>
      id ← expect (hex_to_pod 32 text) "Asset output id must be a 32-byte hexadecimal value";
      found ← expect (list_find (fun record => record.1 = id) records) "Requested asset output id was not found";
      select_output_ids records output_ids ({[ Z.of_nat found.1 ]} ∪ selected_indices)
  end.

(** The order in which a [std::set] is iterated. *)
Definition set_order (selected_indices : gset Z) : list Z := merge_sort Z.le (elements selected_indices).

Definition output_entry_of (record : stored_output) : output_entry :=
  let output := record.2 in
  OutputEntry (pod_to_hex record.1) (pod_to_hex (out_asset_id output)) (pod_to_hex (out_destination output))
    (pod_to_hex (out_commitment output)) (pod_to_hex (out_tx_public_key output))
    (pod_to_hex (out_encrypted_mask output)) (pod_to_hex (out_encrypted_amount output))
    (pod_to_hex (out_view_tag output)) (out_output_index output) (out_height output).

(** [!filtered || output.asset_id == filter] *)
Definition of_asset (filter_id : option bytes) (record : stored_output) : Prop :=
  match filter_id with Some id => out_asset_id record.2 = id | None => True end.
#[global] Instance of_asset_dec filter_id record : Decision (of_asset filter_id record).
Proof. unfold of_asset. destruct filter_id; apply _. Defined.

(** The records of the answer: those of the asset, if one is given, in order. *)
Definition matching_outputs (db : asset_db) (filter_id : option bytes) : outcome (list stored_output) :=
  outputs ← for_all_asset_outputs (map_to_list (asset_outputs db));
  Good (merge_sort output_before (filter (of_asset filter_id) outputs)).

Definition on_get_asset_outputs (db : asset_db) (hard_fork_version : Z) (req : get_asset_outputs_request) :
  rpc_result get_asset_outputs_response :=
  let selected := negb (length (rq_indices req) =? 0)%nat || negb (length (rq_output_ids req) =? 0)%nat in
  if (negb selected && ((rq_count req =? 0) || (MAX_RPC_RESULTS <? rq_count req)))
     || (MAX_RPC_RESULTS <? Z.of_nat (length (rq_indices req) + length (rq_output_ids req)))
  then Failure CORE_RPC_ERROR_CODE_WRONG_PARAM "Asset output result count must be between 1 and 1000"
  else
    let filtered := negb (length (rq_asset_id req) =? 0)%nat in
    let filter_id := if filtered then hex_to_pod 32 (rq_asset_id req) else None in
    if filtered && negb (bool_decide (is_Some filter_id))
    then Failure CORE_RPC_ERROR_CODE_WRONG_PARAM "Asset id must be a 32-byte hexadecimal value"
    else rpc_try
      (records ← matching_outputs db filter_id;
       let size := Z.of_nat (length records) in
       selected_indices ←
         (if selected then
            chosen ← select_indices size (rq_indices req) ∅;
            select_output_ids records (rq_output_ids req) chosen
          else Good (list_to_set (page_indices size (rq_offset req) (rq_count req))));
       outputs ← pick output_entry_of records (set_order selected_indices);
       Good (OutputsResponse (HF_VERSION_MONZERO_ASSETS <=? hard_fork_version) size outputs CORE_RPC_STATUS_OK))
      "Failed to enumerate asset outputs: ".
