(* ===== verification/AssetRpcProps.v ===== *)
(** What the asset calls answer: hexadecimal texts are read back, the pages of
    assets and of outputs are those of one list in which every record of the
    table is once, and a request for chosen outputs is answered with them. *)

From stdpp Require Import gmap sorting.
From S2P Require Import Prelude Bytes AssetTypes AssetExamples AssetCodec AssetSnapshot AssetConfidential AssetOwnership AssetWire AssetBalance AssetDb AssetDbTables AssetDbLoad AssetDbLedger AssetDbLive AssetExtra AssetRpc.

(** ** Hexadecimal texts *)

Definition hex_byte_ok (b : Z) : bool :=
  let x := isx (nth (Z.to_nat (Z.shiftr b 4)) hex_digits 0) in
  let y := isx (nth (Z.to_nat (Z.land b 15)) hex_digits 0) in
  negb (x =? 255) && negb (y =? 255) && (Z.lor (Z.shiftl x 4) y =? b).

Lemma hex_bytes_ok b : 0 <= b < 256 -> hex_byte_ok b = true.
Proof.
  intros Hb. assert (forallb hex_byte_ok (seqZ 0 256) = true) as Hall by (vm_compute; reflexivity).
  rewrite forallb_forall in Hall. apply Hall, list_elem_of_In, elem_of_seqZ. lia.
Qed.

Lemma read_write_hex s : is_bytes s -> to_buffer_unchecked (write_hex s) = Some s.
Proof.
  induction 1 as [|b s Hb _ IH]; [done|]. cbn [write_hex to_buffer_unchecked].
  pose proof (hex_bytes_ok b Hb) as E. unfold hex_byte_ok in E. cbv zeta in E.
  apply andb_true_iff in E as [[E1%negb_true_iff E2%negb_true_iff]%andb_true_iff E3%Z.eqb_eq].
  rewrite E1, E2, IH. cbn [mbind option_bind]. by rewrite E3.
Qed.

Lemma length_write_hex s : length (write_hex s) = (2 * length s)%nat.
Proof. induction s as [|b s IH]; cbn [write_hex length]; lia. Qed.

(** A text made of an array is read back as that array. *)
Lemma hex_round_trip n s : array n s -> hex_to_pod n (pod_to_hex s) = Some s.
Proof.
  intros [<- Hs]. unfold hex_to_pod, pod_to_hex. rewrite length_write_hex, Nat.div2_double, Nat.eqb_refl.
  by apply read_write_hex.
Qed.

(** ** Pages *)

Lemma pick_range {A B} (f : A -> B) items n : forall k, (k + n <= length items)%nat ->
  pick f items (seqZ (Z.of_nat k) (Z.of_nat n)) = Good (f <$> take n (drop k items)).
Proof.
  induction n as [|n IH]; intros k Hk; [by rewrite take_0|].
  rewrite seqZ_cons by lia. cbn [pick]. rewrite Nat2Z.id.
  destruct (lookup_lt_is_Some_2 items k ltac:(lia)) as [x Hx]. rewrite Hx, bind_of_Good.
  replace (Z.succ (Z.of_nat k)) with (Z.of_nat (S k)) by lia.
  replace (Z.pred (Z.of_nat (S n))) with (Z.of_nat n) by lia.
  rewrite IH, bind_of_Good by lia. rewrite (drop_S items x k Hx). done.
Qed.

(** The elements of a page. *)
Definition page {A} (offset count : Z) (items : list A) : list A :=
  take (Z.to_nat count) (drop (Z.to_nat offset) items).

Lemma pick_page {A B} (f : A -> B) items offset count : 0 <= offset < 2 ^ 64 -> 1 <= count <= 1000 ->
  Z.of_nat (length items) < 2 ^ 64 ->
  pick f items (page_indices (Z.of_nat (length items)) offset count) = Good (f <$> page offset count items).
Proof.
  intros Ho Hc Hl. unfold page_indices, page_end, page, UINT64_MAX.
  destruct (decide (Z.of_nat (length items) <= offset)) as [Hge|Hlt].
  - rewrite seqZ_nil by lia. rewrite drop_ge by lia. by rewrite take_nil.
  - assert (exists n, (if 2 ^ 64 - 1 - count <? offset then 2 ^ 64 - 1 else offset + count) `min` 
      Z.of_nat (length items) - offset = Z.of_nat n /\ n = Nat.min (Z.to_nat count) (length items - Z.to_nat offset))
      as (n & En & ->).
    { eexists. split; [|reflexivity]. case_if; lia. }
    rewrite Z.min_comm, En. replace offset with (Z.of_nat (Z.to_nat offset)) at 1 by lia.
    rewrite pick_range by lia. f_equal. f_equal.
    rewrite <- (length_drop items (Z.to_nat offset)). generalize (drop (Z.to_nat offset) items) as l. intros l.
    destruct (decide (Z.to_nat count <= length l)%nat); [by rewrite Nat.min_l by lia|].
    rewrite Nat.min_r by lia. rewrite !take_ge by lia. done.
Qed.

Lemma concat_pages {A} (l : list A) c n :
  concat ((fun k => take c (drop (k * c) l)) <$> seq 0 n) = take (n * c) l.
Proof.
  induction n as [|n IH]; [by rewrite take_0|].
  rewrite seq_S, fmap_app, concat_app, IH. cbn [fmap list_fmap concat Nat.add]. rewrite app_nil_r.
  rewrite take_take_drop. f_equal. lia.
Qed.

(** ** Assets *)

#[global] Instance record_before_total : Total record_before.
Proof. intros l r. apply stored_le_total. Qed.
#[global] Instance record_before_trans : Transitive record_before.
Proof. intros a b c. apply stored_le_trans. Qed.

(** The assets of an answer; none in case of an error. *)
Definition assets_of (r : rpc_result get_assets_response) : list asset_entry :=
  match r with Answer a => as_assets a | _ => [] end.

Section Assets.
Context `{CryptoLaws, RingCt}.

Lemma stored_record_payload e r : stored_record e = Good r <->
  read_u64_le e.2 = Some (st_height r, st_payload r) /\ length e.1 = 32%nat /\ st_id r = e.1.
Proof.
  unfold stored_record. split.
  - destruct (read_u64_le e.2) as [[h p]|]; [|done]. case_if; [|done]. intros [= <-]. cbn. apply Nat.eqb_eq in Heqb. done.
  - intros (-> & Hl & Hid). rewrite Hl. cbn. destruct r. cbn in *. by subst.
Qed.

(** Every entry of sound records is enumerated, with its payload. *)
Lemma decoded_records_Good entries :
  Forall (fun e => exists r p, stored_record e = Good r /\ decode_issuance_payload (st_payload r) = Good p) entries ->
  exists records, decoded_records entries = Good records /\
    Forall2 (fun e r => stored_record e = Good r.1 /\ decode_issuance_payload (st_payload r.1) = Good r.2) entries records.
Proof.
  induction 1 as [|e entries (r & p & Hr & Hp) _ (records & E & Hall)]; [by exists []|].
  exists ((r, p) :: records). split; [|by constructor]. cbn [decoded_records].
  by rewrite Hr, bind_of_Good, Hp, bind_of_Good, E, bind_of_Good.
Qed.

(** What the enumeration gives for sound records. *)
Lemma enumerated db : records_sound (asset_records db) ->
  exists records, decoded_records (map_to_list (asset_records db)) = Good records /\
    NoDup ((fun r => st_id r.1) <$> records) /\
    length records = size (asset_records db) /\
    forall id height p, stored (asset_records db) id height p <-> exists e, (Stored id height e, p) ∈ records.
Proof.
  intros Hs. destruct (decoded_records_Good (map_to_list (asset_records db))) as (records & E & Hall).
  { apply Forall_forall. intros [id value] Hin%elem_of_map_to_list.
    destruct (Hs id (ex_intro _ _ Hin)) as (h & p & (v & e & Hv & Hr & Hd) & [_ Hl _ _ _]).
    assert (v = value) as -> by congruence. exists (Stored id h e), p. split; [|done]. by apply stored_record_payload. }
  exists records. split_and!; [done| | |].
  - replace ((fun r => st_id r.1) <$> records) with (map_to_list (asset_records db)).*1; [apply NoDup_fst_map_to_list|].
    clear E. induction Hall as [|e r es rs [(_ & _ & Hid)%stored_record_payload _] _ IH]; [done|]. cbn. by rewrite IH, Hid.
  - by rewrite <- (Forall2_length _ _ _ Hall), length_map_to_list.
  - intros id height p. split.
    + intros (v & e & Hv%elem_of_map_to_list & Hr & Hd). exists e.
      apply list_elem_of_lookup in Hv as [i Hi]. destruct (Forall2_lookup_l _ _ _ _ _ Hall Hi) as ([r q] & Hq & E1 & E2).
      apply stored_record_payload in E1 as (E1 & _ & Eid). destruct r as [rid rh rp]. cbn in *. subst rid.
      rewrite Hr in E1. injection E1 as -> ->. rewrite Hd in E2. injection E2 as ->. by eapply list_elem_of_lookup_2.
    + intros (e & [i Hi]%list_elem_of_lookup). destruct (Forall2_lookup_r _ _ _ _ _ Hall Hi) as ([k v] & Hv & E1 & E2).
      apply stored_record_payload in E1 as (E1 & _ & Eid). cbn in *. subst k. exists v, e.
      split_and!; [|done|done]. apply elem_of_map_to_list. by eapply list_elem_of_lookup_2.
Qed.

(** C28: [get_assets] pages through one list: on top of a chain the records of all
    assets, sorted by height and id, each once, are such that the answer to any
    request with a proper count is the page of them it asks for, and pages of any
    size put together are the beginning of the list. *)
Theorem assets_paged nettype chain db version : run nettype chain db -> Z.of_nat (length chain) < 2 ^ 64 ->
  chain_wf chain -> Z.of_nat (size (asset_records db)) < 2 ^ 64 ->
  exists records, StronglySorted record_before records /\ NoDup ((fun r => st_id r.1) <$> records) /\
    (forall id height p, stored (asset_records db) id height p <-> exists e, (Stored id height e, p) ∈ records) /\
    (forall offset count, 0 <= offset < 2 ^ 64 -> 1 <= count <= 1000 ->
      on_get_assets db version offset count = Answer (AssetsResponse (HF_VERSION_MONZERO_ASSETS <=? version)
        (Z.of_nat (length records)) (page offset count (asset_entry_of <$> records)) CORE_RPC_STATUS_OK)) /\
    (forall count n, (1 <= count <= 1000)%nat -> Z.of_nat (n * count) <= 2 ^ 64 ->
      concat ((fun k => assets_of (on_get_assets db version (Z.of_nat (k * count)) (Z.of_nat count))) <$> seq 0 n)
        = take (n * count) (asset_entry_of <$> records)).
Proof.
  intros Hrun Hl Hwf Hsize.
  assert (records_sound (asset_records db)) as Hs.
  { apply (replay_sound nettype chain empty_db); try done; [by intros id [? ?]|by apply run_replay]. }
  destruct (enumerated db Hs) as (records & E & Hnd & Hlen & Hin).
  pose proof (merge_sort_Permutation record_before records) as Hp.
  set (sorted := merge_sort record_before records) in *.
  assert (length sorted = length records) as Hls by (by apply Permutation_length).
  assert (forall offset count, 0 <= offset < 2 ^ 64 -> 1 <= count <= 1000 ->
      on_get_assets db version offset count = Answer (AssetsResponse (HF_VERSION_MONZERO_ASSETS <=? version)
        (Z.of_nat (length sorted)) (page offset count (asset_entry_of <$> sorted)) CORE_RPC_STATUS_OK)) as Hpage.
  { intros offset count Ho Hc. unfold on_get_assets, MAX_RPC_RESULTS.
    replace ((count =? 0) || (1000 <? count)) with false by lia. rewrite E, bind_of_Good. fold sorted. cbv zeta.
    rewrite pick_page, bind_of_Good by (rewrite ?Hls, ?Hlen; lia). cbn [rpc_try]. unfold page.
    by rewrite <- fmap_drop, <- fmap_take. }
  exists sorted. split_and!; [apply StronglySorted_merge_sort; apply _|by rewrite Hp| |done|].
  { intros id h p. setoid_rewrite Hp. apply Hin. }
  intros count n Hc Hn. rewrite <- (concat_pages (asset_entry_of <$> sorted) count n). f_equal.
  apply list_fmap_ext. intros i k [-> Hk]%lookup_seq. rewrite Hpage by nia. unfold page. cbn [assets_of as_assets].
  by rewrite !Nat2Z.id.
Qed.

End Assets.

(** ** Outputs *)

#[global] Instance output_before_total : Total output_before.
Proof. intros l r. apply (key_le_total (out_height l.2, 0, l.1) (out_height r.2, 0, r.1)). Qed.
#[global] Instance output_before_trans : Transitive output_before.
Proof.
  intros a b c. apply (key_le_trans (out_height a.2, 0, a.1) (out_height b.2, 0, b.1) (out_height c.2, 0, c.1)).
Qed.

Lemma pick_all {A B} (f : A -> B) items indices :
  Forall (fun i => 0 <= i < Z.of_nat (length items)) indices ->
  exists picked, pick f items indices = Good (f <$> picked) /\
    Forall2 (fun i x => items !! Z.to_nat i = Some x) indices picked.
Proof.
  induction 1 as [|i indices Hi _ (picked & E & Hall)]; [by exists []|].
  destruct (lookup_lt_is_Some_2 items (Z.to_nat i) ltac:(lia)) as [x Hx].
  exists (x :: picked). split; [|by constructor]. cbn [pick]. by rewrite Hx, bind_of_Good, E, bind_of_Good.
Qed.

Lemma picked_NoDup {A B} (g : A -> B) items indices picked : NoDup (g <$> items) -> NoDup indices ->
  Forall (fun i => 0 <= i) indices -> Forall2 (fun i x => items !! Z.to_nat i = Some x) indices picked ->
  NoDup (g <$> picked).
Proof.
  intros Hg Hnd Hpos Hall. induction Hall as [|i x indices picked Hx Hall IH]; [constructor|].
  apply NoDup_cons in Hnd as [Hni Hnd]. apply Forall_cons in Hpos as [Hi Hpos].
  cbn. apply NoDup_cons. split; [|by apply IH].
  intros (y & Ey & [j Hj]%list_elem_of_lookup)%list_elem_of_fmap. apply Hni.
  destruct (Forall2_lookup_r _ _ _ _ _ Hall Hj) as (k & Hk & Hky). rewrite Forall_lookup in Hpos.
  pose proof (Hpos _ _ Hk). apply list_elem_of_lookup_2 in Hk. replace i with k; [done|].
  assert (Z.to_nat i = Z.to_nat k); [|lia].
  apply (NoDup_lookup (g <$> items) _ _ (g x) Hg); rewrite list_lookup_fmap; [by rewrite Hx|by rewrite Hky, Ey].
Qed.

Lemma seqZ_sorted n m : StronglySorted Z.le (seqZ n m).
Proof.
  unfold seqZ. generalize 0%nat as k. induction (Z.to_nat m) as [|len IH]; intros k; cbn [seq fmap list_fmap]; constructor; [apply IH|].
  apply Forall_fmap, Forall_forall. intros j [Hj _]%elem_of_seq. cbn. lia.
Qed.

Lemma set_order_seqZ n m : set_order (list_to_set (seqZ n m)) = seqZ n m.
Proof.
  apply (StronglySorted_unique Z.le); [apply StronglySorted_merge_sort; apply _|apply seqZ_sorted|].
  unfold set_order. rewrite merge_sort_Permutation. apply elements_list_to_set, NoDup_seqZ.
Qed.

Lemma elem_of_set_order i s : i ∈ set_order s <-> i ∈ s.
Proof. unfold set_order. by rewrite merge_sort_Permutation, elem_of_elements. Qed.

(** Every stored id is a hash. *)
Definition ids_sound (db : asset_db) : Prop := forall id, is_Some (asset_outputs db !! id) -> length id = 32%nat.

Lemma all_outputs entries : Forall (fun e => length e.1 = 32%nat) entries ->
  for_all_asset_outputs entries = Good entries.
Proof.
  induction 1 as [|e entries He _ IH]; [done|]. cbn [for_all_asset_outputs]. rewrite He, IH. done.
Qed.

Lemma all_outputs_Good entries : forall all, for_all_asset_outputs entries = Good all -> all = entries.
Proof.
  induction entries as [|e entries IH]; intros all E; cbn [for_all_asset_outputs] in E; [by injection E|].
  case_if_in E; [done|]. apply bind_Good in E as (l & El & [= <-]). by rewrite (IH l).
Qed.

Lemma matching_Good db filter_id : ids_sound db ->
  exists records, matching_outputs db filter_id = Good records /\ StronglySorted output_before records /\
    NoDup records.*1 /\
    forall id o, (id, o) ∈ records <-> asset_outputs db !! id = Some o /\ of_asset filter_id (id, o).
Proof.
  intros Hs. unfold matching_outputs. rewrite all_outputs, bind_of_Good.
  - eexists. split; [reflexivity|]. split_and!; [apply StronglySorted_merge_sort; apply _| |].
    + rewrite merge_sort_Permutation. eapply sublist_NoDup; [|apply fmap_sublist, sublist_filter].
      apply NoDup_fst_map_to_list.
    + intros id o. rewrite merge_sort_Permutation, list_elem_of_filter, elem_of_map_to_list. tauto.
  - apply Forall_forall. intros [id o] Hin%elem_of_map_to_list. apply Hs. by exists o.
Qed.

(** The requests that choose nothing: with a proper count, and for all assets
    or for one. *)
Definition filter_of (req : get_asset_outputs_request) : option bytes :=
  if (length (rq_asset_id req) =? 0)%nat then None else hex_to_pod 32 (rq_asset_id req).

Definition filter_ok (req : get_asset_outputs_request) : Prop :=
  rq_asset_id req = [] \/ is_Some (hex_to_pod 32 (rq_asset_id req)).

Lemma filter_passes req : filter_ok req ->
  negb (length (rq_asset_id req) =? 0)%nat && negb (bool_decide (is_Some
    (if negb (length (rq_asset_id req) =? 0)%nat then hex_to_pod 32 (rq_asset_id req) else None))) = false /\
  (if negb (length (rq_asset_id req) =? 0)%nat then hex_to_pod 32 (rq_asset_id req) else None) = filter_of req.
Proof.
  unfold filter_of. intros [E|E]; [by rewrite E|]. destruct (length (rq_asset_id req) =? 0)%nat; [done|]. cbn [negb andb].
  by rewrite bool_decide_eq_true_2.
Qed.

Lemma outputs_page db version req records : matching_outputs db (filter_of req) = Good records ->
  filter_ok req -> rq_indices req = [] -> rq_output_ids req = [] ->
  0 <= rq_offset req < 2 ^ 64 -> 1 <= rq_count req <= 1000 -> Z.of_nat (length records) < 2 ^ 64 ->
  on_get_asset_outputs db version req = Answer (OutputsResponse (HF_VERSION_MONZERO_ASSETS <=? version)
    (Z.of_nat (length records)) (output_entry_of <$> page (rq_offset req) (rq_count req) records) CORE_RPC_STATUS_OK).
Proof.
  intros E Hf Hi Hid Ho Hc Hl. unfold on_get_asset_outputs, MAX_RPC_RESULTS. rewrite Hi, Hid. cbn [length negb orb Nat.eqb andb].
  replace ((rq_count req =? 0) || (1000 <? rq_count req) || (1000 <? Z.of_nat (0 + 0))) with false by lia.
  apply filter_passes in Hf as [Hf1 Hf2]. cbv zeta. rewrite Hf1, Hf2, E, !bind_of_Good.
  unfold page_indices. rewrite set_order_seqZ. fold (page_indices (Z.of_nat (length records)) (rq_offset req) (rq_count req)).
  by rewrite pick_page.
Qed.

Lemma select_indices_Good size indices : forall s, Forall (fun i => i < size) indices ->
  select_indices size indices s = Good (list_to_set indices ∪ s).
Proof.
  induction indices as [|i indices IH]; intros s Hi; cbn [select_indices].
  - f_equal. set_solver.
  - apply Forall_cons in Hi as [Hi His]. rewrite require_true, bind_of_Good, IH by (done || lia). f_equal. set_solver.
Qed.

(** The index of a record by its id. *)
Lemma select_ids_Good records texts : NoDup records.*1 -> forall s,
  Forall (fun text => exists id, hex_to_pod 32 text = Some id /\ id ∈ records.*1) texts ->
  exists s', select_output_ids records texts s = Good s' /\
    forall i, i ∈ s' <-> i ∈ s \/ exists k r text, i = Z.of_nat k /\ records !! k = Some r /\ text ∈ texts /\
      hex_to_pod 32 text = Some r.1.
Proof.
  intros Hnd. induction texts as [|text texts IH]; intros s Ht; cbn [select_output_ids].
  { exists s. split; [done|]. intros i. split; [by left|]. intros [?|(k & r & text & _ & _ & Hin & _)]; [done|].
    by apply not_elem_of_nil in Hin. }
  apply Forall_cons in Ht as [(id & Hid & ((id' & o) & -> & Hin)%list_elem_of_fmap) Ht]. cbn [fst] in *.
  rewrite Hid. cbn [expect]. rewrite bind_of_Good.
  destruct (list_find_elem_of (fun r => r.1 = id') records (id', o) Hin eq_refl) as [[j r] Hf].
  rewrite Hf. cbn [expect]. rewrite bind_of_Good. apply list_find_Some in Hf as (Hj & Hr & _). cbn [fst].
  destruct (IH ({[Z.of_nat j]} ∪ s) Ht) as (s' & E & Hs'). exists s'. split; [done|]. intros i. rewrite Hs', elem_of_union, elem_of_singleton.
  split.
  - intros [[->|?]|(k & q & t & ? & ? & ? & ?)]; [|by left|].
    + right. exists j, r, text. split_and!; [done|done|left|]. by rewrite Hr.
    + right. exists k, q, t. split_and!; try done. by right.
  - intros [?|(k & q & t & -> & Hk & [->|Hint]%elem_of_cons & Hq)]; [left; by right| |].
    + left. left. f_equal. rewrite Hid in Hq. injection Hq as Hq.
      apply (NoDup_lookup records.*1 _ _ id'); [done| |]; rewrite list_lookup_fmap.
      * by rewrite Hk; cbn; rewrite Hq.
      * by rewrite Hj; cbn; rewrite Hr.
    + right. by exists k, q, t.
Qed.

(** The outputs a request names by index or by id. *)
Definition names (records : list stored_output) (req : get_asset_outputs_request) (r : stored_output) : Prop :=
  (exists i, i ∈ rq_indices req /\ records !! Z.to_nat i = Some r) \/
  (r ∈ records /\ exists text, text ∈ rq_output_ids req /\ hex_to_pod 32 text = Some r.1).

Definition names_known (records : list stored_output) (req : get_asset_outputs_request) : Prop :=
  Forall (fun i => 0 <= i < Z.of_nat (length records)) (rq_indices req) /\
  Forall (fun text => exists id, hex_to_pod 32 text = Some id /\ id ∈ records.*1) (rq_output_ids req) /\
  (1 <= length (rq_indices req) + length (rq_output_ids req) <= 1000)%nat.

Lemma outputs_chosen db version req records : matching_outputs db (filter_of req) = Good records ->
  filter_ok req -> NoDup records.*1 -> names_known records req ->
  exists chosen, on_get_asset_outputs db version req = Answer (OutputsResponse (HF_VERSION_MONZERO_ASSETS <=? version)
      (Z.of_nat (length records)) (output_entry_of <$> chosen) CORE_RPC_STATUS_OK) /\
    NoDup chosen.*1 /\ forall r, r ∈ chosen <-> names records req r.
Proof.
  intros E Hf Hnd (Hi & Hid & Hn). apply filter_passes in Hf as [Hf1 Hf2].
  destruct (select_ids_Good records (rq_output_ids req) Hnd (list_to_set (rq_indices req) ∪ ∅) Hid) as (s & Es & Hs).
  assert (forall i, i ∈ s -> 0 <= i < Z.of_nat (length records)) as Hrange.
  { intros i [Hin|(k & r & t & -> & Hk%lookup_lt_Some & _)]%Hs; [|lia]. rewrite Forall_forall in Hi. apply Hi. set_solver. }
  destruct (pick_all output_entry_of records (set_order s)) as (chosen & Ec & Hc).
  { apply Forall_forall. intros i Hin%elem_of_set_order. by apply Hrange. }
  exists chosen. split_and!.
  - unfold on_get_asset_outputs, MAX_RPC_RESULTS.
    replace (negb (length (rq_indices req) =? 0)%nat || negb (length (rq_output_ids req) =? 0)%nat) with true by lia.
    replace ((negb true && ((rq_count req =? 0) || (1000 <? rq_count req)))
      || (1000 <? Z.of_nat (length (rq_indices req) + length (rq_output_ids req)))) with false by lia.
    cbv zeta. rewrite Hf1, Hf2, E, bind_of_Good, select_indices_Good, bind_of_Good, Es, bind_of_Good, Ec; [done|].
    eapply Forall_impl; [exact Hi|]. cbv beta. lia.
  - eapply (picked_NoDup fst records (set_order s)); [done| | |done].
    + unfold set_order. rewrite merge_sort_Permutation. apply NoDup_elements.
    + apply Forall_forall. intros i Hin%elem_of_set_order%Hrange. lia.
  - intros r. unfold names. split.
    + intros [j Hj]%list_elem_of_lookup. destruct (Forall2_lookup_r _ _ _ _ _ Hc Hj) as (i & Hi'%list_elem_of_lookup_2 & Hr).
      apply elem_of_set_order, Hs in Hi' as [Hin|(k & q & t & -> & Hk & Ht & Hq)]; [left; exists i; set_solver|].
      right. rewrite Nat2Z.id, Hk in Hr. injection Hr as ->. split; [by eapply list_elem_of_lookup_2|]. by exists t.
    + intros Hr. assert (exists i, i ∈ set_order s /\ records !! Z.to_nat i = Some r) as (i & [j Hj]%list_elem_of_lookup & Hr').
      { destruct Hr as [(i & Hin & Hr)|([k Hk]%list_elem_of_lookup & t & Ht & Hq)].
        - exists i. split; [|done]. apply elem_of_set_order, Hs. left. set_solver.
        - exists (Z.of_nat k). rewrite Nat2Z.id. split; [|done]. apply elem_of_set_order, Hs. right. by exists k, r, t. }
      destruct (Forall2_lookup_l _ _ _ _ _ Hc Hj) as (x & Hx%list_elem_of_lookup_2 & Ex). congruence.
Qed.

(** C27: [get_asset_outputs] answers from one list: the stored outputs of the asset
    that is asked for, or of all assets, sorted by height and id, each once. A
    request for a page gets that page; a request that names outputs of the list
    by index or by id gets exactly these, each once. *)
Theorem outputs_answered db version req : ids_sound db -> filter_ok req ->
  exists records, StronglySorted output_before records /\ NoDup records.*1 /\
    (forall id o, (id, o) ∈ records <-> asset_outputs db !! id = Some o /\ of_asset (filter_of req) (id, o)) /\
    (rq_indices req = [] -> rq_output_ids req = [] -> 0 <= rq_offset req < 2 ^ 64 -> 1 <= rq_count req <= 1000 ->
      Z.of_nat (length records) < 2 ^ 64 ->
      on_get_asset_outputs db version req = Answer (OutputsResponse (HF_VERSION_MONZERO_ASSETS <=? version)
        (Z.of_nat (length records)) (output_entry_of <$> page (rq_offset req) (rq_count req) records)
        CORE_RPC_STATUS_OK)) /\
    (names_known records req -> exists chosen,
      on_get_asset_outputs db version req = Answer (OutputsResponse (HF_VERSION_MONZERO_ASSETS <=? version)
        (Z.of_nat (length records)) (output_entry_of <$> chosen) CORE_RPC_STATUS_OK) /\
      NoDup chosen.*1 /\ forall r, r ∈ chosen <-> names records req r).
Proof.
  intros Hs Hf. destruct (matching_Good db (filter_of req) Hs) as (records & E & Hsort & Hnd & Hin).
  exists records. split_and!; try done.
  - intros Hi Hid Ho Hc Hl. by apply outputs_page.
  - intros Hn. by apply outputs_chosen.
Qed.
