(* ===== verification/Word.v ===== *)
(** Unsigned 64-bit arithmetic and the double-width helpers of
    [contrib/epee/include/int-util.h] and [contrib/epee/src/int-util.cpp]. *)

From S2P Require Import Prelude Bytes.

(** A result cut to [uint64_t], [uint128_t] and [uint32_t]. *)
Definition u64 (x : Z) : Z := x mod 2 ^ 64.
Definition u128 (x : Z) : Z := x mod 2 ^ 128.
Definition u32 (x : Z) : Z := x mod 2 ^ 32.

Abbreviation word x := (0 <= x < 2 ^ 64).

Lemma u64_small x : word x -> u64 x = x.
Proof. apply Z.mod_small. Qed.

Lemma u64_range x : word (u64 x).
Proof. by apply Z.mod_pos_bound. Qed.

Definition hi_dword (val : Z) : Z := Z.shiftr val 32.
Definition lo_dword (val : Z) : Z := Z.land val 0xFFFFFFFF.

(** The low half and, as [*product_hi], the high half of a product. *)
Definition mul128 (multiplier multiplicand : Z) : Z * Z :=
  let a := hi_dword multiplier in
  let b := lo_dword multiplier in
  let c := hi_dword multiplicand in
  let d := lo_dword multiplicand in
  let ac := u64 (a * c) in
  let ad := u64 (a * d) in
  let bc := u64 (b * c) in
  let bd := u64 (b * d) in
  let adbc := u64 (ad + bc) in
  let adbc_carry := if adbc <? ad then 1 else 0 in
  let product_lo := u64 (bd + u64 (Z.shiftl adbc 32)) in
  let product_lo_carry := if product_lo <? bd then 1 else 0 in
  let product_hi :=
    u64 (u64 (u64 (ac + Z.shiftr adbc 32) + u64 (Z.shiftl adbc_carry 32)) + product_lo_carry) in
  (product_lo, product_hi).

(** [div128_64], quotient only: its high and its low half. *)
Definition div128_64 (dividend_hi dividend_lo divisor : Z) : Z * Z :=
  let dividend := Z.lor (Z.shiftl dividend_hi 64) dividend_lo in
  let q := dividend / divisor in
  (Z.land (Z.shiftr q 64) 0xffffffffffffffff, Z.land q 0xffffffffffffffff).

(** ** Halves *)

Lemma shiftr_div x n : 0 <= n -> Z.shiftr x n = x / 2 ^ n.
Proof. apply Z.shiftr_div_pow2. Qed.

Lemma land_ones_32 x : Z.land x 0xFFFFFFFF = x mod 2 ^ 32.
Proof. change 0xFFFFFFFF with (Z.ones 32). by rewrite Z.land_ones. Qed.

Lemma land_ones_64 x : Z.land x 0xffffffffffffffff = x mod 2 ^ 64.
Proof. change 0xffffffffffffffff with (Z.ones 64). by rewrite Z.land_ones. Qed.

(** Two halves joined by [|] are their sum. *)
Lemma lor_shifted x y n : 0 <= n -> 0 <= y < 2 ^ n -> Z.lor (Z.shiftl x n) y = x * 2 ^ n + y.
Proof.
  intros Hn Hy. rewrite Z.shiftl_mul_pow2 by done.
  assert (Z.land (x * 2 ^ n) y = 0) as E.
  { apply Z.bits_inj'. intros i Hi. rewrite Z.land_spec, Z.bits_0.
    destruct (Z.ltb_spec i n); [by rewrite Z.mul_pow2_bits_low|].
    destruct (decide (y = 0)) as [->|]; [by rewrite Z.bits_0, andb_false_r|].
    rewrite (Z.bits_above_log2 y), andb_false_r; [done|lia|].
    apply Z.lt_le_trans with n; [apply Z.log2_lt_pow2; lia|lia]. }
  by rewrite Z.add_nocarry_lxor, Z.lxor_lor.
Qed.

(** Linear arithmetic with [/] and [mod] by constants. *)
Ltac zlia := Z.to_euclidean_division_equations; lia.

Lemma lor_join r y : 0 <= y < 2 ^ 32 -> Z.lor (u64 (Z.shiftl r 32)) y = r mod 2 ^ 32 * 2 ^ 32 + y.
Proof.
  intros Hy. replace (u64 (Z.shiftl r 32)) with (Z.shiftl (r mod 2 ^ 32) 32); [by apply lor_shifted|].
  unfold u64. rewrite !Z.shiftl_mul_pow2 by done. zlia.
Qed.

Ltac halves := rewrite ?land_ones_32, ?land_ones_64, ?shiftr_div, ?Z.shiftl_mul_pow2 by done.

Lemma dwords x : word x ->
  exists a b, hi_dword x = a /\ lo_dword x = b /\ x = a * 2 ^ 32 + b /\ 0 <= a < 2 ^ 32 /\ 0 <= b < 2 ^ 32.
Proof.
  intros Hx. eexists _, _. split_and!; [done|done|..]; unfold hi_dword, lo_dword; halves; zlia.
Qed.

Lemma dword_product a b : 0 <= a < 2 ^ 32 -> 0 <= b < 2 ^ 32 -> 0 <= a * b <= (2 ^ 32 - 1) * (2 ^ 32 - 1).
Proof. nia. Qed.

(** The long multiplication is exact. *)
Lemma mul128_exact m n : word m -> word n -> mul128 m n = (m * n mod 2 ^ 64, m * n / 2 ^ 64).
Proof.
  intros Hm Hn. unfold mul128.
  destruct (dwords m Hm) as (a & b & -> & -> & Em & Ha & Hb).
  destruct (dwords n Hn) as (c & d & -> & -> & En & Hc & Hd).
  assert (m * n = a * c * 2 ^ 64 + (a * d + b * c) * 2 ^ 32 + b * d) as -> by (subst; ring).
  pose proof (dword_product a c Ha Hc). pose proof (dword_product a d Ha Hd).
  pose proof (dword_product b c Hb Hc). pose proof (dword_product b d Hb Hd).
  clear Hm Hn Em En. generalize dependent (a * c). generalize dependent (a * d).
  generalize dependent (b * c). generalize dependent (b * d). intros bd Hbd bc Hbc ad Had ac Hac.
  unfold u64. halves. rewrite !(Z.mod_small ac), !(Z.mod_small ad), !(Z.mod_small bc), !(Z.mod_small bd) by lia.
  repeat match goal with |- context [if ?x <? ?y then _ else _] => destruct (Z.ltb_spec x y) end;
    f_equal; zlia.
Qed.

Lemma div128_64_exact hi lo divisor : word hi -> word lo -> 0 < divisor ->
  let q := (hi * 2 ^ 64 + lo) / divisor in div128_64 hi lo divisor = (q / 2 ^ 64, q mod 2 ^ 64).
Proof.
  intros Hhi Hlo Hd q. unfold div128_64. rewrite lor_shifted by lia. fold q. halves. f_equal.
  apply Z.mod_small. assert (0 <= q < 2 ^ 128) by (unfold q; split; [apply Z.div_pos; lia|];
    apply Z.div_lt_upper_bound; nia). zlia.
Qed.
