(* ===== verification/Difficulty.v ===== *)
(** Proof of work, [cryptonote_basic/difficulty.cpp]: the check of a hash
    against a difficulty and the difficulty of the next block. *)

From stdpp Require Import sorting.
From S2P Require Import Prelude Bytes Word.

Definition DIFFICULTY_TARGET_V2 : Z := 120.
Definition DIFFICULTY_TARGET_V1 : Z := 120.
Definition DIFFICULTY_WINDOW : nat := 720.
Definition DIFFICULTY_LAG : nat := 15.
Definition DIFFICULTY_CUT : nat := 60.
Definition DIFFICULTY_BLOCKS_COUNT : nat := DIFFICULTY_WINDOW + DIFFICULTY_LAG.

(** ** The check of a hash *)

(** The multiplication of machines without a 128-bit product: low, high. *)
Definition mul_portable (a b : Z) : Z * Z :=
  let aLow := Z.land a 0xFFFFFFFF in
  let aHigh := Z.shiftr a 32 in
  let bLow := Z.land b 0xFFFFFFFF in
  let bHigh := Z.shiftr b 32 in
  let res := u64 (aLow * bLow) in
  let lowRes1 := Z.land res 0xFFFFFFFF in
  let carry := Z.shiftr res 32 in
  let res := u64 (u64 (aHigh * bLow) + carry) in
  let highResHigh1 := Z.shiftr res 32 in
  let highResLow1 := Z.land res 0xFFFFFFFF in
  let res := u64 (aLow * bHigh) in
  let lowRes2 := Z.land res 0xFFFFFFFF in
  let carry := Z.shiftr res 32 in
  let res := u64 (u64 (aHigh * bHigh) + carry) in
  let highResHigh2 := Z.shiftr res 32 in
  let highResLow2 := Z.land res 0xFFFFFFFF in
  let r := u64 (highResLow1 + lowRes2) in
  let carry := Z.shiftr r 32 in
  let low := Z.lor (u64 (Z.shiftl r 32)) lowRes1 in
  let r := u64 (u64 (highResHigh1 + highResLow2) + carry) in
  let d3 := Z.land r 0xFFFFFFFF in
  let carry := Z.shiftr r 32 in
  let r := u64 (highResHigh2 + carry) in
  let high := Z.lor d3 (u64 (Z.shiftl r 32)) in
  (low, high).

(** [mul] of an x86-64 build ([true]) and of others. *)
Definition mul (x86_64 : bool) (a b : Z) : Z * Z :=
  if x86_64 then mul128 a b else mul_portable a b.

Definition cadd (a b : Z) : bool := u64 (a + b) <? a.

Definition cadc (a b : Z) (c : bool) : bool :=
  (u64 (a + b) <? a) || (c && (u64 (a + b) =? u64 (-1))).

(** [swap64le(((const uint64_t * ) &hash)[i])] *)
Definition hash_word (hash : bytes) (i : nat) : Z := of_le (take 8 (drop (8 * i) hash)).

Definition check_hash_64 (x86_64 : bool) (hash : bytes) (difficulty : Z) : bool :=
  let '(top, high) := mul x86_64 (hash_word hash 3) difficulty in
  if negb (high =? 0) then false
  else
    let '(_, cur) := mul x86_64 (hash_word hash 0) difficulty in
    let '(low, high) := mul x86_64 (hash_word hash 1) difficulty in
    let carry := cadd cur low in
    let cur := high in
    let '(low, high) := mul x86_64 (hash_word hash 2) difficulty in
    let carry := cadc cur low carry in
    let carry := cadc high top carry in
    negb carry.

Definition max64bit : Z := 2 ^ 64 - 1.
Definition max128bit : Z := 2 ^ 128 - 1.
Definition max256bit : Z := 2 ^ 256 - 1.

(** The loop over the words, from the highest; [hashVal] has 512 bits. *)
Definition check_hash_128 (hash : bytes) (difficulty : Z) : bool :=
  let hashVal := foldl (fun hashVal i => Z.lor ((Z.shiftl hashVal 64) mod 2 ^ 512) (hash_word hash (3 - i)))
    0 (seq 0 4) in
  (hashVal * difficulty) mod 2 ^ 512 <=? max256bit.

Definition check_hash (x86_64 : bool) (hash : bytes) (difficulty : Z) : bool :=
  if difficulty <=? max64bit then check_hash_64 x86_64 hash difficulty
  else check_hash_128 hash difficulty.

(** ** The next difficulty *)

(** [std::vector::resize] to [n] elements. *)
Definition vec_resize (n : nat) (l : list Z) : list Z := take n l ++ replicate (n - length l) 0.

Definition vec_sort (l : list Z) : list Z := merge_sort Z.le l.

(** The part of the window that counts: where it begins and ends. *)
Definition cut (length : nat) : nat * nat :=
  if (length <=? DIFFICULTY_WINDOW - 2 * DIFFICULTY_CUT)%nat then (0%nat, length)
  else
    let cut_begin := ((length - (DIFFICULTY_WINDOW - 2 * DIFFICULTY_CUT) + 1) / 2)%nat in
    (cut_begin, (cut_begin + (DIFFICULTY_WINDOW - 2 * DIFFICULTY_CUT))%nat).

Definition at_index (l : list Z) (i : nat) : outcome Z :=
  match l !! i with Some x => Good x | None => Wild end.

(** The window and what is measured in it: its time span and its work, as the
    numbers of [bits] bits that they are. *)
Definition measure (bits : Z) (timestamps cumulative_difficulties : list Z) : outcome (Z * Z) :=
  let timestamps := vec_sort timestamps in
  let '(cut_begin, cut_end) := cut (length timestamps) in
  last ← at_index timestamps (cut_end - 1);
  first ← at_index timestamps cut_begin;
  let time_span := u64 (last - first) in
  let time_span := if time_span =? 0 then 1 else time_span in
  last ← at_index cumulative_difficulties (cut_end - 1);
  first ← at_index cumulative_difficulties cut_begin;
  Good (time_span, (last - first) mod 2 ^ bits).

Definition truncate (timestamps cumulative_difficulties : list Z) : list Z * list Z :=
  if (DIFFICULTY_WINDOW <? length timestamps)%nat
  then (vec_resize DIFFICULTY_WINDOW timestamps, vec_resize DIFFICULTY_WINDOW cumulative_difficulties)
  else (timestamps, cumulative_difficulties).

Definition next_difficulty_64 (x86_64 : bool) (timestamps cumulative_difficulties : list Z)
  (target_seconds : Z) : outcome Z :=
  let '(timestamps, cumulative_difficulties) := truncate timestamps cumulative_difficulties in
  if (length timestamps <=? 1)%nat then Good 1
  else
    '(time_span, total_work) ← measure 64 timestamps cumulative_difficulties;
    let '(low, high) := mul x86_64 total_work target_seconds in
    if negb (high =? 0) || (u64 (u64 (low + time_span) - 1) <? low) then Good 0
    else Good (u64 (u64 (low + time_span) - 1) / time_span).

Definition next_difficulty (timestamps cumulative_difficulties : list Z) (target_seconds : Z) : outcome Z :=
  let '(timestamps, cumulative_difficulties) := truncate timestamps cumulative_difficulties in
  if (length timestamps <=? 1)%nat then Good 1
  else
    '(time_span, total_work) ← measure 128 timestamps cumulative_difficulties;
    let res := ((total_work * target_seconds + time_span - 1) mod 2 ^ 256) / time_span in
    if max128bit <? res then Good 0 else Good res.
