(* ===== verification/DifficultyProps.v ===== *)
(** What the check of a hash and the next difficulty are, as integers. *)

From stdpp Require Import sorting.
From S2P Require Import Prelude Bytes Word Difficulty.

(** ** Multiplication *)

Lemma mul_portable_exact a b : word a -> word b -> mul_portable a b = (a * b mod 2 ^ 64, a * b / 2 ^ 64).
Proof.
  intros Ha Hb. unfold mul_portable.
  change (Z.land a 0xFFFFFFFF) with (lo_dword a). change (Z.land b 0xFFFFFFFF) with (lo_dword b).
  change (Z.shiftr a 32) with (hi_dword a). change (Z.shiftr b 32) with (hi_dword b).
  destruct (dwords a Ha) as (ah & al & -> & -> & Ea & Hah & Hal).
  destruct (dwords b Hb) as (bh & bl & -> & -> & Eb & Hbh & Hbl).
  assert (a * b = ah * bh * 2 ^ 64 + (ah * bl + al * bh) * 2 ^ 32 + al * bl) as -> by (subst; ring).
  pose proof (dword_product ah bh Hah Hbh). pose proof (dword_product ah bl Hah Hbl).
  pose proof (dword_product al bh Hal Hbh). pose proof (dword_product al bl Hal Hbl).
  clear Ha Hb Ea Eb. generalize dependent (ah * bh). generalize dependent (ah * bl).
  generalize dependent (al * bh). generalize dependent (al * bl). intros ll Hll lh Hlh hl Hhl hh Hhh.
  rewrite (Z.lor_comm (Z.land _ _)), !lor_join, !land_ones_32, !shiftr_div by (rewrite ?land_ones_32; zlia).
  unfold u64.
  rewrite !(Z.mod_small ll), !(Z.mod_small lh), !(Z.mod_small hl), !(Z.mod_small hh) by lia.
  rewrite !(Z.mod_small (hl + _)), !(Z.mod_small (hh + _)) by zlia.
  f_equal; zlia.
Qed.

Lemma mul_exact x86_64 a b : word a -> word b -> mul x86_64 a b = (a * b mod 2 ^ 64, a * b / 2 ^ 64).
Proof. intros Ha Hb. destruct x86_64; [by apply mul128_exact|by apply mul_portable_exact]. Qed.

(** ** The check of a hash *)

Lemma of_le_app s t : of_le (s ++ t) = of_le s + 256 ^ Z.of_nat (length s) * of_le t.
Proof.
  induction s as [|b s IH]; cbn [of_le app length]; [rewrite Z.pow_0_r; lia|].
  rewrite IH, Nat2Z.inj_succ, Z.pow_succ_r by lia. ring.
Qed.

(** The hash is the little-endian number of its words. *)
Lemma hash_words hash : array 32 hash ->
  Forall (fun i => word (hash_word hash i)) [0; 1; 2; 3]%nat /\
  of_le hash = hash_word hash 0 + 2 ^ 64 * (hash_word hash 1 + 2 ^ 64 * (hash_word hash 2 + 2 ^ 64 * hash_word hash 3)).
Proof.
  intros [Hlen Hb]. split.
  - assert (forall i, (i < 4)%nat -> word (hash_word hash i)) as Hw.
    { intros i Hi. unfold hash_word.
      assert (is_bytes (take 8 (drop (8 * i) hash))) as Hs by (by apply Forall_take, Forall_drop).
      pose proof (of_le_range _ Hs) as Hr. rewrite length_take, length_drop, Hlen in Hr.
      replace (8 `min` (32 - 8 * i))%nat with 8%nat in Hr by lia. exact Hr. }
    repeat constructor; apply Hw; lia.
  - unfold hash_word. rewrite <- (take_drop 8 hash) at 1. rewrite of_le_app, length_take, Hlen.
    rewrite <- (take_drop 8 (drop 8 hash)) at 1. rewrite of_le_app, length_take, length_drop, Hlen.
    rewrite drop_drop, <- (take_drop 8 (drop (8 + 8) hash)) at 1.
    rewrite of_le_app, length_take, length_drop, Hlen, drop_drop.
    rewrite (take_ge (drop (8 * 3) hash)) by (rewrite length_drop, Hlen; done). done.
Qed.

Lemma cadd_exact a b : word a -> word b -> cadd a b = (2 ^ 64 <=? a + b).
Proof. intros Ha Hb. unfold cadd, u64. apply eq_true_iff_eq. rewrite Z.ltb_lt, Z.leb_le. zlia. Qed.

Lemma cadc_exact a b c : word a -> word b -> cadc a b c = (2 ^ 64 <=? a + b + Z.b2z c).
Proof.
  intros Ha Hb. unfold cadc, u64. apply eq_true_iff_eq.
  rewrite orb_true_iff, andb_true_iff, Z.ltb_lt, Z.eqb_eq, Z.leb_le. destruct c; cbn [Z.b2z]; zlia.
Qed.

Lemma halves64 p : 0 <= p <= (2 ^ 64 - 1) * (2 ^ 64 - 1) ->
  exists h l, p = 2 ^ 64 * h + l /\ p / 2 ^ 64 = h /\ p mod 2 ^ 64 = l /\ word h /\ word l.
Proof. intros Hp. exists (p / 2 ^ 64), (p mod 2 ^ 64). split_and!; try done; zlia. Qed.

Lemma check_hash_64_exact x86_64 hash d : array 32 hash -> word d ->
  check_hash_64 x86_64 hash d = (of_le hash * d <? 2 ^ 256).
Proof.
  intros Hh Hd. destruct (hash_words hash Hh) as [Hw ->].
  apply Forall_cons_1 in Hw as [H0 Hw]. apply Forall_cons_1 in Hw as [H1 Hw].
  apply Forall_cons_1 in Hw as [H2 Hw]. apply Forall_cons_1 in Hw as [H3 _].
  unfold check_hash_64. rewrite !mul_exact by done. revert H0 H1 H2 H3.
  generalize (hash_word hash 0) (hash_word hash 1) (hash_word hash 2) (hash_word hash 3).
  intros w0 w1 w2 w3 H0 H1 H2 H3.
  replace ((w0 + 2 ^ 64 * (w1 + 2 ^ 64 * (w2 + 2 ^ 64 * w3))) * d)
    with (w0 * d + 2 ^ 64 * (w1 * d) + 2 ^ 128 * (w2 * d) + 2 ^ 192 * (w3 * d)) by ring.
  assert (forall w, word w -> 0 <= w * d <= (2 ^ 64 - 1) * (2 ^ 64 - 1)) as Hp by nia.
  pose proof (Hp _ H0). pose proof (Hp _ H1). pose proof (Hp _ H2). pose proof (Hp _ H3).
  clear Hp H0 H1 H2 H3 Hd. generalize dependent (w0 * d). generalize dependent (w1 * d).
  generalize dependent (w2 * d). generalize dependent (w3 * d). intros p3 B3 p2 B2 p1 B1 p0 B0.
  destruct (Z.eqb_spec (p3 / 2 ^ 64) 0); cbn [negb]; [|symmetry; apply Z.ltb_ge; zlia].
  destruct (halves64 p0 B0) as (h0 & l0 & E0 & -> & _ & Hh0 & Hl0).
  destruct (halves64 p1 B1) as (h1 & l1 & E1 & -> & -> & Hh1 & Hl1).
  destruct (halves64 p2 B2) as (h2 & l2 & E2 & -> & -> & Hh2 & Hl2).
  destruct (halves64 p3 B3) as (h3 & l3 & E3 & Eh3 & -> & Hh3 & Hl3).
  rewrite cadd_exact, !cadc_exact by done. apply eq_true_iff_eq. rewrite negb_true_iff, Z.leb_gt, Z.ltb_lt.
  destruct (Z.leb_spec (2 ^ 64) (h0 + l1)); cbn [Z.b2z];
    match goal with |- context [2 ^ 64 <=? ?x] => destruct (Z.leb_spec (2 ^ 64) x) end; cbn [Z.b2z]; lia.
Qed.

Lemma push_word v w : 0 <= v < 2 ^ 192 -> word w ->
  Z.lor ((Z.shiftl v 64) mod 2 ^ 512) w = v * 2 ^ 64 + w.
Proof.
  intros Hv Hw. rewrite Z.mod_small; [by apply lor_shifted|]. rewrite Z.shiftl_mul_pow2 by done. lia.
Qed.

Lemma check_hash_128_exact hash d : array 32 hash -> 0 <= d < 2 ^ 128 ->
  check_hash_128 hash d = (of_le hash * d <? 2 ^ 256).
Proof.
  intros Hh Hd. destruct (hash_words hash Hh) as [Hw ->]. 
  apply Forall_cons_1 in Hw as [H0 Hw]. apply Forall_cons_1 in Hw as [H1 Hw].
  apply Forall_cons_1 in Hw as [H2 Hw]. apply Forall_cons_1 in Hw as [H3 _].
  unfold check_hash_128. cbn [seq foldl Nat.sub].
  rewrite (push_word 0 (hash_word hash 3)), (push_word _ (hash_word hash 2)),
    (push_word _ (hash_word hash 1)), (push_word _ (hash_word hash 0)) by lia.
  rewrite Z.mod_small by nia.
  unfold max256bit. apply eq_true_iff_eq. rewrite Z.leb_le, Z.ltb_lt. lia.
Qed.

(** C19: [check_hash] accepts a hash exactly if the hash, read as a 256-bit
    little-endian number, times the difficulty is below 2^256: the words, the
    carries and the two multiplications of the code lose nothing, on both kinds
    of machine and for difficulties of any width up to 128 bits. *)
Theorem check_hash_exact x86_64 hash d : array 32 hash -> 0 <= d < 2 ^ 128 ->
  check_hash x86_64 hash d = (of_le hash * d <? 2 ^ 256).
Proof.
  intros Hh Hd. unfold check_hash, max64bit. destruct (Z.leb_spec d (2 ^ 64 - 1)).
  - apply check_hash_64_exact; [done|lia].
  - by apply check_hash_128_exact.
Qed.

(** ** The next difficulty *)

(** Cumulative difficulties as a chain has them: every block adds to them. *)
Record increasing (bits : Z) (l : list Z) : Prop := {
  inc_range : Forall (fun x => 0 <= x < 2 ^ bits) l;
  inc_sorted : StronglySorted Z.lt l;
}.

Lemma sorted_lookup {A} (R : relation A) l i j x y : StronglySorted R l -> (i < j)%nat ->
  l !! i = Some x -> l !! j = Some y -> R x y.
Proof.
  intros Hs Hij Hx Hy. apply (StronglySorted_app_1_elem_of R (take j l) (drop j l) x y).
  - by rewrite take_drop.
  - apply list_elem_of_lookup. exists i. by rewrite lookup_take_lt.
  - apply list_elem_of_lookup. exists 0%nat. by rewrite lookup_drop, Nat.add_0_r.
Qed.

Lemma increasing_lt bits l i j x y : increasing bits l -> (i < j)%nat ->
  l !! i = Some x -> l !! j = Some y -> 0 <= x < y /\ y < 2 ^ bits.
Proof.
  intros [Hr Hs] Hij Hx Hy. pose proof (Forall_lookup_1 _ _ _ _ Hr Hx). pose proof (Forall_lookup_1 _ _ _ _ Hr Hy).
  pose proof (sorted_lookup Z.lt l i j x y Hs Hij Hx Hy). cbv beta in *. lia.
Qed.

Lemma increasing_take bits n l : increasing bits l -> increasing bits (take n l).
Proof.
  intros [Hr Hs]. split; [by apply Forall_take|].
  rewrite <- (take_drop n l) in Hs. by apply StronglySorted_app_1_l in Hs.
Qed.

Lemma cut_spec n : (2 <= n <= DIFFICULTY_WINDOW)%nat ->
  let '(b, e) := cut n in (b + 2 <= e <= n)%nat /\ (e - b = n `min` (DIFFICULTY_WINDOW - 2 * DIFFICULTY_CUT))%nat.
Proof.
  intros Hn. unfold cut, DIFFICULTY_WINDOW, DIFFICULTY_CUT in *. destruct (Nat.leb_spec n (720 - 2 * 60)); [lia|].
  pose proof (Nat.div_mod (n - (720 - 2 * 60) + 1) 2). pose proof (Nat.mod_upper_bound (n - (720 - 2 * 60) + 1) 2). lia.
Qed.

(** What the window of the blocks has: its span and its work. *)
Record measured (ts cd : list Z) (span work : Z) : Prop := {
  measured_span : exists b e first last, cut (length ts) = (b, e) /\
    vec_sort ts !! b = Some first /\ vec_sort ts !! (e - 1)%nat = Some last /\ (b < e)%nat /\ first <= last /\
    span = Z.max 1 (last - first);
  measured_span_range : 1 <= span < 2 ^ 64;
  measured_work : exists b e first last, cut (length ts) = (b, e) /\
    cd !! b = Some first /\ cd !! (e - 1)%nat = Some last /\ work = last - first;
  measured_work_pos : 0 < work;
}.

Lemma measured_unique ts cd span work span' work' : measured ts cd span work -> measured ts cd span' work' ->
  span = span' /\ work = work'.
Proof.
  intros [(b & e & f & l & E & Ef & El & _ & _ & ->) _ (b1 & e1 & f1 & l1 & E1 & Ef1 & El1 & ->) _].
  intros [(b2 & e2 & f2 & l2 & E2 & Ef2 & El2 & _ & _ & ->) _ (b3 & e3 & f3 & l3 & E3 & Ef3 & El3 & ->) _].
  rewrite E in E1, E2, E3. simplify_eq. done.
Qed.

Lemma vec_sort_permutation l : vec_sort l ≡ₚ l.
Proof. apply merge_sort_Permutation. Qed.

Lemma vec_sort_sorted l : StronglySorted Z.le (vec_sort l).
Proof. apply (StronglySorted_merge_sort Z.le); apply _. Qed.

Lemma vec_sort_le l i j x y : (i <= j)%nat -> vec_sort l !! i = Some x -> vec_sort l !! j = Some y -> x <= y.
Proof.
  intros Hij Hx Hy. destruct (decide (i = j)) as [->|Hne]; [simplify_eq; lia|].
  apply (sorted_lookup Z.le (vec_sort l) i j); [apply vec_sort_sorted|lia|done|done].
Qed.

Lemma measure_exact bits ts cd : length ts = length cd -> (2 <= length ts <= DIFFICULTY_WINDOW)%nat ->
  Forall (fun t => word t) ts -> increasing bits cd ->
  exists span work, measure bits ts cd = Good (span, work) /\ measured ts cd span work /\ work < 2 ^ bits.
Proof.
  intros Hlen Hn Hts Hcd. unfold measure.
  rewrite (Permutation_length (vec_sort_permutation ts)).
  pose proof (cut_spec _ Hn) as Hc. destruct (cut (length ts)) as [b e] eqn:Ec. destruct Hc as [Hbe _].
  assert (forall i, (i < length ts)%nat -> exists t, vec_sort ts !! i = Some t /\ word t) as Ht.
  { intros i Hi. destruct (lookup_lt_is_Some_2 (vec_sort ts) i) as [t Ht].
    { by rewrite (Permutation_length (vec_sort_permutation ts)). }
    exists t. split; [done|]. apply list_elem_of_lookup_2 in Ht. rewrite vec_sort_permutation in Ht.
    by apply (proj1 (Forall_forall _ _) Hts t). }
  destruct (Ht (e - 1)%nat) as (tl & Etl & Htl); [lia|]. destruct (Ht b) as (tf & Etf & Htf); [lia|].
  destruct (lookup_lt_is_Some_2 cd (e - 1)) as [wl Ewl]; [lia|].
  destruct (lookup_lt_is_Some_2 cd b) as [wf Ewf]; [lia|].
  pose proof (vec_sort_le ts b (e - 1) tf tl ltac:(lia) Etf Etl) as Hle.
  destruct (increasing_lt bits cd b (e - 1) wf wl Hcd ltac:(lia) Ewf Ewl) as [Hw Hw'].
  unfold at_index. rewrite Etl, Etf, Ewl, Ewf. cbn [mbind outcome_bind].
  rewrite u64_small, (Z.mod_small (wl - wf)) by lia.
  eexists _, _. split; [done|]. split; [|lia]. split; [| |by eexists b, e, wf, wl|lia].
  - eexists b, e, tf, tl. split_and!; try done; [lia|]. destruct (Z.eqb_spec (tl - tf) 0); lia.
  - destruct (Z.eqb_spec (tl - tf) 0); lia.
Qed.

Lemma vec_resize_take n l : (n <= length l)%nat -> vec_resize n l = take n l.
Proof. intros Hn. unfold vec_resize. replace (n - length l)%nat with 0%nat by lia. apply app_nil_r. Qed.

Lemma truncate_take ts cd : length ts = length cd ->
  truncate ts cd = (take DIFFICULTY_WINDOW ts, take DIFFICULTY_WINDOW cd).
Proof.
  intros Hlen. unfold truncate. destruct (Nat.ltb_spec DIFFICULTY_WINDOW (length ts)).
  - rewrite !vec_resize_take by lia. done.
  - rewrite !take_ge by lia. done.
Qed.

Lemma next_difficulty_measured ts cd target : length ts = length cd -> (2 <= length ts)%nat ->
  Forall (fun t => word t) ts -> increasing 128 cd -> word target ->
  exists span work, measured (take DIFFICULTY_WINDOW ts) (take DIFFICULTY_WINDOW cd) span work /\
    let d := (work * target + span - 1) / span in
    next_difficulty ts cd target = Good (if max128bit <? d then 0 else d).
Proof.
  intros Hlen Hn Hts Hcd Htarget. unfold next_difficulty. rewrite truncate_take by done.
  destruct (measure_exact 128 (take DIFFICULTY_WINDOW ts) (take DIFFICULTY_WINDOW cd))
    as (span & work & E & Hm & Hw).
  - by rewrite !length_take, Hlen.
  - rewrite length_take. unfold DIFFICULTY_WINDOW. lia.
  - by apply Forall_take.
  - by apply increasing_take.
  - exists span, work. split; [done|]. rewrite E, bind_of_Good, length_take.
    destruct (Nat.leb_spec (DIFFICULTY_WINDOW `min` length ts) 1); [unfold DIFFICULTY_WINDOW in *; lia|].
    pose proof (measured_span_range _ _ _ _ Hm). pose proof (measured_work_pos _ _ _ _ Hm).
    rewrite (Z.mod_small (_ - 1)) by nia. by case_if.
Qed.

(** How many of a list are before and after a time. *)
Definition before (lo : Z) (l : list Z) : nat := length (filter (fun t => (t < lo)%Z) l).
Definition after (hi : Z) (l : list Z) : nat := length (filter (fun t => (hi < t)%Z) l).

Lemma sorted_before s i x lo : StronglySorted Z.le s -> s !! i = Some x -> x < lo -> (i < before lo s)%nat.
Proof.
  unfold before. revert i. induction s as [|y s IH]; intros i Hs Hx Hlt; [done|].
  apply StronglySorted_inv in Hs as [Hs Hy]. destruct i as [|i]; cbn in Hx.
  - simplify_eq. rewrite filter_cons_True by done. cbn. lia.
  - rewrite filter_cons_True; [cbn; apply IH in Hx; [lia|done..]|].
    apply list_elem_of_lookup_2 in Hx. rewrite Forall_forall in Hy. specialize (Hy _ Hx). lia.
Qed.

Lemma sorted_after s i x hi : StronglySorted Z.le s -> s !! i = Some x -> hi < x ->
  (length s <= i + after hi s)%nat.
Proof.
  unfold after. revert i x. induction s as [|y s IH]; intros i x Hs Hx Hlt; [done|].
  apply StronglySorted_inv in Hs as [Hs Hy]. destruct i as [|i]; cbn in Hx.
  - simplify_eq. rewrite filter_cons_True by done. cbn. destruct s as [|z s]; [cbn; lia|].
    apply Forall_cons_1 in Hy as [Hz _]. specialize (IH 0%nat z Hs eq_refl ltac:(lia)). lia.
  - specialize (IH i x Hs Hx Hlt). rewrite filter_cons. destruct (decide _); cbn in *; lia.
Qed.

(** Timestamps outside the cut do not stretch the span. *)
Lemma span_resists ts cd span work lo hi : measured ts cd span work -> lo <= hi ->
  (before lo ts <= (cut (length ts)).1)%nat -> (after hi ts <= length ts - (cut (length ts)).2)%nat ->
  span <= Z.max 1 (hi - lo).
Proof.
  intros Hm Hle Hlo Hhi. destruct (measured_span _ _ _ _ Hm) as (b & e & first & last & Ec & Ef & El & Hbe & _ & ->).
  rewrite Ec in Hlo, Hhi. cbn [fst snd] in *. pose proof (vec_sort_sorted ts) as Hs.
  assert (before lo (vec_sort ts) = before lo ts /\ after hi (vec_sort ts) = after hi ts) as [Eb Ea].
  { unfold before, after. by rewrite !vec_sort_permutation. }
  destruct (Z.ltb_spec first lo) as [Hf|Hf]; [pose proof (sorted_before _ _ _ _ Hs Ef Hf); lia|].
  destruct (Z.ltb_spec hi last) as [Hl|Hl]; [|lia]. pose proof (sorted_after _ _ _ _ Hs El Hl) as Hlen.
  rewrite (Permutation_length (vec_sort_permutation ts)) in Hlen.
  apply lookup_lt_Some in El as Hlt. rewrite (Permutation_length (vec_sort_permutation ts)) in Hlt.
  lia.
Qed.

(** The next difficulty is the work of the window per target time, rounded
    up, and stays within bounds that a few false timestamps cannot move.  Let at
    most as many of the (first 720) timestamps lie before [lo] and after [hi] as
    the code cuts off (60 each in a full window).  Then the difficulty is at
    least [work * target / (hi - lo)], at most [work * target], and positive; it
    is zero, which means an overflow, only if [work * target] needs more than
    128 bits. *)
Theorem next_difficulty_bounds ts cd target lo hi :
  length ts = length cd -> (2 <= length ts)%nat -> Forall (fun t => word t) ts -> increasing 128 cd ->
  0 < target < 2 ^ 64 -> lo <= hi ->
  let window := take DIFFICULTY_WINDOW ts in
  let '(cut_begin, cut_end) := cut (length window) in
  (before lo window <= cut_begin)%nat -> (after hi window <= length window - cut_end)%nat ->
  exists first last d, cd !! cut_begin = Some first /\ cd !! (cut_end - 1)%nat = Some last /\
    next_difficulty ts cd target = Good d /\
    let work := last - first in
    (2 ^ 128 <= work * target /\ d = 0 \/
     work * target <= d * Z.max 1 (hi - lo) /\ 1 <= d <= work * target /\ d < 2 ^ 128).
Proof.
  intros Hlen Hn Hts Hcd Htarget Hle window.
  destruct (next_difficulty_measured ts cd target Hlen Hn Hts Hcd ltac:(lia)) as (span & work & Hm & E).
  fold window in Hm. pose proof (span_resists _ _ _ _ lo hi Hm Hle) as Hspan.
  destruct (measured_work _ _ _ _ Hm) as (b & e & first & last & Ec & Ef & El & ->).
  pose proof (measured_span_range _ _ _ _ Hm). pose proof (measured_work_pos _ _ _ _ Hm).
  rewrite Ec in *. intros Hlo Hhi. specialize (Hspan Hlo Hhi).
  apply lookup_take_Some in Ef as [Ef _]. apply lookup_take_Some in El as [El _].
  eexists first, last, _. split_and!; [done|done|exact E|]. clear E Hm. cbv zeta. unfold max128bit.
  assert (1 <= (last - first) * target) as Hp by nia. revert Hp. generalize ((last - first) * target). intros p Hp.
  pose proof (Z.div_mod (p + span - 1) span ltac:(lia)) as Hdm.
  pose proof (Z.mod_pos_bound (p + span - 1) span ltac:(lia)) as Hmod.
  revert Hdm. generalize ((p + span - 1) / span). intros q Hdm. destruct (Z.ltb_spec (2 ^ 128 - 1) q).
  - left. split; [nia|done].
  - right. nia.
Qed.

(** The 64-bit routine gives the same result wherever it does not report an
    overflow. *)
Theorem next_difficulty_64_agrees x86_64 ts cd target d :
  length ts = length cd -> Forall (fun t => word t) ts -> increasing 64 cd -> word target ->
  next_difficulty_64 x86_64 ts cd target = Good d -> d <> 0 -> next_difficulty ts cd target = Good d.
Proof.
  intros Hlen Hts Hcd Htarget. unfold next_difficulty_64.
  destruct (decide (length ts <= 1)%nat) as [Hn|Hn].
  { unfold next_difficulty. rewrite truncate_take, length_take by done.
    replace (_ <=? 1)%nat with true by (symmetry; apply Nat.leb_le; lia). done. }
  assert (increasing 128 cd) as Hcd'.
  { destruct Hcd as [Hr Hs]. split; [|done]. apply (Forall_impl _ _ _ Hr). intros x Hx. cbv beta in *. lia. }
  destruct (next_difficulty_measured ts cd target Hlen ltac:(lia) Hts Hcd' Htarget) as (span & work & Hm & ->).
  rewrite truncate_take, length_take by done. destruct (Nat.leb_spec (DIFFICULTY_WINDOW `min` length ts) 1).
  { unfold DIFFICULTY_WINDOW in *. lia. }
  destruct (measure_exact 64 (take DIFFICULTY_WINDOW ts) (take DIFFICULTY_WINDOW cd)) as (span' & work' & E & Hm' & Hw).
  { by rewrite !length_take, Hlen. }
  { rewrite length_take. unfold DIFFICULTY_WINDOW in *. lia. }
  { by apply Forall_take. }
  { by apply increasing_take. }
  rewrite E, bind_of_Good. pose proof (measured_work_pos _ _ _ _ Hm'). pose proof (measured_span_range _ _ _ _ Hm').
  assert (span' = span /\ work' = work) as [-> ->].
  { by apply (measured_unique _ _ _ _ _ _ Hm' Hm). }
  rewrite mul_exact by lia. assert (0 <= work * target < 2 ^ 128) as Hp by nia. revert Hp.
  generalize (work * target). intros p Hp. destruct (Z.eqb_spec (p / 2 ^ 64) 0); cbn [negb orb]; [|by intros [= <-]].
  unfold u64, max128bit. destruct (Z.ltb_spec (((p mod 2 ^ 64 + span) mod 2 ^ 64 - 1) mod 2 ^ 64) (p mod 2 ^ 64));
    [by intros [= <-]|]. intros [= <-] _.
  replace (((p mod 2 ^ 64 + span) mod 2 ^ 64 - 1) mod 2 ^ 64) with (p + span - 1) by zlia.
  assert ((p + span - 1) / span <= p + span - 1) by (apply Z.div_le_upper_bound; nia).
  destruct (Z.ltb_spec (2 ^ 128 - 1) ((p + span - 1) / span)); [zlia|done].
Qed.

(** ** Witnesses *)

(** Of the timestamps of three blocks in the order of the chain, one is false. *)
Lemma next_difficulty_bounds_witness : exists d, next_difficulty [100; 400; 340] [5; 12; 20] 120 = Good d /\
  15 * 120 <= d * 300 /\ 1 <= d.
Proof.
  destruct (next_difficulty_bounds [100; 400; 340] [5; 12; 20] 120 100 400) as (f & l & d & Ef & El & E & Hd);
    [done|vm_compute; lia|repeat constructor; lia|split; repeat constructor; lia|lia|lia|vm_compute; lia|vm_compute; lia|].
  injection Ef as <-. injection El as <-. exists d. split; [done|]. destruct Hd as [[? ?]|Hd]; [lia|]. lia.
Defined.

Lemma check_hash_exact_witness : check_hash true (replicate 24 255 ++ replicate 8 0) 1 = true.
Proof.
  rewrite (check_hash_exact true (replicate 24 255 ++ replicate 8 0) 1); [reflexivity|by apply arrayb_array|lia].
Defined.
