(* ===== verification/DifficultyChain.v ===== *)
(** The difficulty the chain demands of its next block,
    [cryptonote_core/blockchain.cpp]: the window of blocks it is computed from,
    the two caches in front of it, and the computation for a block of an
    alternative chain. *)

From stdpp Require Import relations.
From S2P Require Import Prelude Bytes Word AssetTypes Difficulty.

(** What the database keeps of a block, as far as difficulties go.  [e_rest]
    stands for the rest of the block. *)
Record entry := Entry {
  e_prev_id : bytes;
  e_timestamp : Z;
  e_rest : bytes;
  e_cumulative_difficulty : Z;
}.

#[global] Instance entry_eq_dec : EqDecision entry.
Proof. solve_decision. Defined.

Record difficulty_cache := Cache {
  m_timestamps : list Z;
  m_difficulties : list Z;
  m_timestamps_and_difficulties_height : Z;
  m_reset_timestamps_and_difficulties_height : bool;
  m_difficulty_for_next_block_top_hash : bytes;
  m_difficulty_for_next_block : Z;
}.

(** The constructor of [Blockchain]. *)
Definition empty_cache : difficulty_cache := Cache [] [] 0 true null_hash 1.

(** The cache after the assignments with which blocks are popped and
    alternative blocks are handled. *)
Definition reset_cache (c : difficulty_cache) : difficulty_cache :=
  Cache (m_timestamps c) (m_difficulties c) 0 true
    (m_difficulty_for_next_block_top_hash c) (m_difficulty_for_next_block c).

(** [cleanup_handle_incoming_blocks] after a batch that succeeded. *)
Definition settle_cache (c : difficulty_cache) : difficulty_cache :=
  if m_reset_timestamps_and_difficulties_height c
  then Cache (m_timestamps c) (m_difficulties c) 0 false
    (m_difficulty_for_next_block_top_hash c) (m_difficulty_for_next_block c)
  else c.

(** [while (v.size() > n) v.erase(v.begin());] *)
Definition erase_front (n : nat) (l : list Z) : list Z := drop (length l - n) l.

Definition get_difficulty_target (version : Z) : Z :=
  if version <? 2 then DIFFICULTY_TARGET_V1 else DIFFICULTY_TARGET_V2.

Section Chain.
(** [get_block_hash], of the previous id, the timestamp and the rest of a
    block; [m_fixed_difficulty], zero if it is not set. *)
Context (get_block_hash : bytes -> Z -> bytes -> bytes) (fixed_difficulty : Z).

Definition entry_id (e : entry) : bytes := get_block_hash (e_prev_id e) (e_timestamp e) (e_rest e).

Definition top_block_hash (chain : list entry) : bytes :=
  match last chain with Some e => entry_id e | None => null_hash end.

(** The loop over the heights from [offset]. *)
Definition read_window (chain : list entry) (height : nat) : list Z * list Z :=
  let offset := (height - height `min` DIFFICULTY_BLOCKS_COUNT)%nat in
  let offset := if (offset =? 0)%nat then 1%nat else offset in
  let blocks := drop offset (take height chain) in
  (e_timestamp <$> blocks, e_cumulative_difficulty <$> blocks).

(** The branch that pushes the latest block onto the cached window. *)
Definition push_window (chain : list entry) (height : nat) (c : difficulty_cache) : outcome (list Z * list Z) :=
  match chain !! (height - 1)%nat with
  | Some e => Good (erase_front DIFFICULTY_BLOCKS_COUNT (m_timestamps c ++ [e_timestamp e]),
      erase_front DIFFICULTY_BLOCKS_COUNT (m_difficulties c ++ [e_cumulative_difficulty e]))
  | None => Thrown "block does not exist"
  end.

Definition get_difficulty_for_next_block (version : Z) (chain : list entry) (c : difficulty_cache) :
  outcome (Z * difficulty_cache) :=
  if negb (fixed_difficulty =? 0)
  then Good (if (length chain =? 0)%nat then 1 else fixed_difficulty, c)
  else
    let top_hash := top_block_hash chain in
    if bool_decide (top_hash = m_difficulty_for_next_block_top_hash c)
    then Good (m_difficulty_for_next_block c, c)
    else
      let height := length chain in
      let reset := m_reset_timestamps_and_difficulties_height c in
      let cached_height := if reset then 0 else m_timestamps_and_difficulties_height c in
      '(timestamps, difficulties) ←
        (if negb (cached_height =? 0) && (u64 (Z.of_nat height - cached_height) =? 1)
            && (DIFFICULTY_BLOCKS_COUNT <=? length (m_timestamps c))%nat
         then push_window chain height c
         else Good (read_window chain height));
      diff ← next_difficulty timestamps difficulties (get_difficulty_target version);
      Good (diff, Cache timestamps difficulties (Z.of_nat height) reset top_hash diff).

(** An alternative chain: [split] is the height of its first block, or of the
    new block if there is none before it. *)
Definition get_next_difficulty_for_alternative_chain (version : Z) (chain : list entry) (split : nat)
  (alt_chain : list entry) : outcome Z :=
  if negb (fixed_difficulty =? 0)
  then Good (if (length chain =? 0)%nat then 1 else fixed_difficulty)
  else
    let blocks :=
      if (length alt_chain <? DIFFICULTY_BLOCKS_COUNT)%nat then
        let main_chain_count :=
          (DIFFICULTY_BLOCKS_COUNT - DIFFICULTY_BLOCKS_COUNT `min` length alt_chain)%nat in
        let main_chain_count := (main_chain_count `min` split)%nat in
        let start := (split - main_chain_count)%nat in
        let start := if (start =? 0)%nat then 1%nat else start in
        drop start (take split chain) ++ alt_chain
      else drop (length alt_chain - DIFFICULTY_BLOCKS_COUNT) alt_chain in
    if (length alt_chain <? DIFFICULTY_BLOCKS_COUNT)%nat && negb (length blocks <=? DIFFICULTY_BLOCKS_COUNT)%nat
    then Good 0
    else next_difficulty (e_timestamp <$> blocks) (e_cumulative_difficulty <$> blocks) (get_difficulty_target version).

(** The difficulties in [handle_block_to_main_chain]: the block is checked
    against the next difficulty, stored with the sum of the difficulties, and
    the difficulty of its successor is cached. *)
Definition extend (version : Z) (chain : list entry) (c : difficulty_cache) (timestamp : Z) (rest : bytes) :
  outcome (list entry * difficulty_cache) :=
  '(current_diffic, c) ← get_difficulty_for_next_block version chain c;
  require (negb (current_diffic =? 0)) "!!!!!!!!! difficulty overhead !!!!!!!!!";;
  let cumulative_difficulty :=
    match last chain with
    | Some e => u128 (current_diffic + e_cumulative_difficulty e)
    | None => current_diffic
    end in
  let chain := chain ++ [Entry (top_block_hash chain) timestamp rest cumulative_difficulty] in
  '(_, c) ← get_difficulty_for_next_block version chain c;
  Good (chain, c).

(** ** Runs

    The chain, the chain at the start of the batch, and the cache. *)
Inductive step : list entry * list entry * difficulty_cache -> list entry * list entry * difficulty_cache -> Prop :=
| step_query version chain saved c d c' :
    get_difficulty_for_next_block version chain c = Good (d, c') ->
    step (chain, saved, c) (chain, saved, c')
| step_extend version chain saved c timestamp rest chain' c' :
    Z.of_nat (length chain) + 2 < 2 ^ 64 ->
    extend version chain c timestamp rest = Good (chain', c') ->
    step (chain, saved, c) (chain', saved, c')
| step_pop chain saved c e : chain <> [] ->
    step (chain ++ [e], saved, c) (chain, saved, reset_cache c)
| step_alternative chain saved c :
    step (chain, saved, c) (chain, saved, reset_cache c)
| step_commit chain saved c :
    step (chain, saved, c) (chain, chain, settle_cache c)
| step_abort chain saved c :
    step (chain, saved, c) (saved, saved, c).

Definition reachable (chain saved : list entry) (c : difficulty_cache) : Prop :=
  rtc step ([], [], empty_cache) (chain, saved, c).

End Chain.
