(* ===== verification/DifficultyCache.v ===== *)
(** The caches of the next difficulty are exact, and a block of an alternative
    chain must meet the difficulty the main chain would demand of it. *)

From stdpp Require Import relations.
From S2P Require Import Prelude Bytes Word AssetTypes Difficulty DifficultyProps DifficultyChain.

(** ** Windows *)

(** The last blocks of a chain, without the genesis block. *)
Definition window (chain : list entry) : list entry :=
  drop (1 `max` (length chain - DIFFICULTY_BLOCKS_COUNT)) chain.

Lemma read_window_eq chain :
  read_window chain (length chain) = (e_timestamp <$> window chain, e_cumulative_difficulty <$> window chain).
Proof.
  unfold read_window, window. rewrite take_ge by done.
  replace (length chain - length chain `min` DIFFICULTY_BLOCKS_COUNT)%nat
    with (length chain - DIFFICULTY_BLOCKS_COUNT)%nat by lia.
  destruct (Nat.eqb_spec (length chain - DIFFICULTY_BLOCKS_COUNT) 0) as [->|Hne]; [done|].
  by replace (1 `max` (length chain - DIFFICULTY_BLOCKS_COUNT))%nat with (length chain - DIFFICULTY_BLOCKS_COUNT)%nat by lia.
Qed.

Lemma erase_front_fmap {A} (f : A -> Z) n l : erase_front n (f <$> l) = f <$> drop (length l - n) l.
Proof. unfold erase_front. by rewrite length_fmap, fmap_drop. Qed.

(** A full window slides by one block. *)
Lemma window_slides chain e : (DIFFICULTY_BLOCKS_COUNT <= length (window chain))%nat ->
  window (chain ++ [e]) = drop (length (window chain ++ [e]) - DIFFICULTY_BLOCKS_COUNT) (window chain ++ [e]).
Proof.
  unfold window. rewrite !length_app, !length_drop. intros Hlen. cbn [length] in *.
  assert (0 < DIFFICULTY_BLOCKS_COUNT)%nat by (unfold DIFFICULTY_BLOCKS_COUNT, DIFFICULTY_WINDOW; lia).
  rewrite <- (drop_app_le chain [e]), drop_drop by lia. f_equal. lia.
Qed.

(** A window never reads outside its lists. *)
Lemma next_difficulty_total ts cd target : length ts = length cd -> exists d, next_difficulty ts cd target = Good d.
Proof.
  intros Hlen. unfold next_difficulty. rewrite truncate_take by done.
  set (ts' := take _ ts). set (cd' := take _ cd).
  assert (length ts' = length cd' /\ (length ts' <= DIFFICULTY_WINDOW)%nat) as [Hlen' Hn].
  { unfold ts', cd'. rewrite !length_take, Hlen. lia. }
  destruct (Nat.leb_spec (length ts') 1); [by eexists|]. unfold measure.
  pose proof (Permutation_length (vec_sort_permutation ts')) as Hs. rewrite Hs.
  pose proof (cut_spec (length ts') ltac:(lia)) as Hc. destruct (cut (length ts')) as [b e]. destruct Hc as [Hbe _].
  assert (forall l i, length l = length ts' -> (i < length ts')%nat -> exists x, at_index l i = Good x) as Hat.
  { intros l i Hl Hi. unfold at_index. destruct (lookup_lt_is_Some_2 l i) as [x ->]; [lia|]. by eexists. }
  destruct (Hat (vec_sort ts') (e - 1)%nat Hs) as [? ->]; [lia|]. destruct (Hat (vec_sort ts') b Hs) as [? ->]; [lia|].
  destruct (Hat cd' (e - 1)%nat) as [? ->]; [lia..|]. destruct (Hat cd' b) as [? ->]; [lia..|].
  rewrite !bind_of_Good. case_if; by eexists.
Qed.

Section Exact.
Context (get_block_hash : bytes -> Z -> bytes -> bytes) (fixed_difficulty : Z).

(** Ids of blocks do not collide, and none is zero. *)
Context (ids_distinct : forall p t r p' t' r',
  get_block_hash p t r = get_block_hash p' t' r' -> p = p' /\ t = t' /\ r = r').
Context (ids_nonzero : forall p t r, get_block_hash p t r <> null_hash).

(** ** The difficulty a chain demands *)

Definition demanded (chain : list entry) : outcome Z :=
  if negb (fixed_difficulty =? 0)
  then Good (if (length chain =? 0)%nat then 1 else fixed_difficulty)
  else next_difficulty (e_timestamp <$> window chain) (e_cumulative_difficulty <$> window chain) DIFFICULTY_TARGET_V2.

Lemma demanded_total chain : exists d, demanded chain = Good d.
Proof.
  unfold demanded. case_if; [by eexists|]. apply next_difficulty_total. by rewrite !length_fmap.
Qed.

Lemma target_eq version : get_difficulty_target version = DIFFICULTY_TARGET_V2.
Proof. unfold get_difficulty_target. by case_if. Qed.

(** A chain whose blocks are linked and carry the sums of the difficulties. *)
Inductive chain_wf : list entry -> Prop :=
| wf_genesis : chain_wf []
| wf_block chain e d : chain_wf chain -> demanded chain = Good d ->
    e_prev_id e = top_block_hash get_block_hash chain ->
    e_cumulative_difficulty e =
      match last chain with Some p => u128 (d + e_cumulative_difficulty p) | None => d end ->
    chain_wf (chain ++ [e]).

Lemma top_snoc chain e : top_block_hash get_block_hash (chain ++ [e]) = entry_id get_block_hash e.
Proof. unfold top_block_hash. by rewrite last_snoc. Qed.

(** The id of its last block determines a chain. *)
Lemma chain_unique chain : chain_wf chain -> forall chain', chain_wf chain' ->
  top_block_hash get_block_hash chain = top_block_hash get_block_hash chain' -> chain = chain'.
Proof.
  induction 1 as [|chain e d Hwf IH Hd Hp Hc]; intros chain' Hwf' E.
  - destruct Hwf' as [|chain' e' d' ? ? ? ?]; [done|]. rewrite top_snoc in E. by apply eq_sym, ids_nonzero in E.
  - rewrite top_snoc in E. destruct Hwf' as [|chain' e' d' Hwf' Hd' Hp' Hc']; [by apply ids_nonzero in E|].
    rewrite top_snoc in E. apply ids_distinct in E as (Ep & Et & Er).
    rewrite Hp, Hp' in Ep. specialize (IH _ Hwf' Ep) as <-. rewrite Hd in Hd'. simplify_eq.
    f_equal. f_equal. destruct e, e'; cbn in *. congruence.
Qed.

(** ** The invariant of the caches *)

Record exact (chain saved : list entry) (c : difficulty_cache) : Prop := {
  exact_wf : chain_wf chain;
  exact_saved : chain_wf saved;
  exact_length : Z.of_nat (length chain) + 1 < 2 ^ 64 /\ Z.of_nat (length saved) + 1 < 2 ^ 64;
  exact_batch : m_reset_timestamps_and_difficulties_height c = false -> saved `prefix_of` chain;
  exact_cached : exists cached, chain_wf cached /\ Z.of_nat (length cached) + 1 < 2 ^ 64 /\
    top_block_hash get_block_hash cached = m_difficulty_for_next_block_top_hash c /\
    demanded cached = Good (m_difficulty_for_next_block c) /\
    (m_reset_timestamps_and_difficulties_height c = false -> m_timestamps_and_difficulties_height c <> 0 ->
     fixed_difficulty = 0 /\
     m_timestamps_and_difficulties_height c = Z.of_nat (length cached) /\
     m_timestamps c = e_timestamp <$> window cached /\
     m_difficulties c = e_cumulative_difficulty <$> window cached /\
     (cached `prefix_of` chain \/ chain `prefix_of` cached));
}.

(** The window that a query computes, from the cache or from the chain. *)
Lemma query_window chain saved c : exact chain saved c ->
  let height := length chain in
  let cached_height := if m_reset_timestamps_and_difficulties_height c then 0 else m_timestamps_and_difficulties_height c in
  (if negb (cached_height =? 0) && (u64 (Z.of_nat height - cached_height) =? 1)
      && (DIFFICULTY_BLOCKS_COUNT <=? length (m_timestamps c))%nat
   then push_window chain height c else Good (read_window chain height))
  = Good (e_timestamp <$> window chain, e_cumulative_difficulty <$> window chain).
Proof.
  intros Hex height cached_height. unfold height. rewrite read_window_eq.
  destruct (negb (cached_height =? 0) && _ && _) eqn:E; [|done].
  rewrite !andb_true_iff, negb_true_iff, Z.eqb_eq, Z.eqb_neq, Nat.leb_le in E. destruct E as ((Hne & E1) & Hfull).
  unfold cached_height in *. destruct (m_reset_timestamps_and_difficulties_height c) eqn:Er; [done|].
  destruct (exact_cached _ _ _ Hex) as (cached & _ & Hlen' & _ & _ & Hc). specialize (Hc Er Hne) as (_ & Eh & Et & Ed & Hpre).
  destruct (exact_length _ _ _ Hex) as [Hlen _]. rewrite Eh in E1. unfold height in E1.
  assert (length chain = S (length cached)) as Hl by (unfold u64 in E1; zlia).
  destruct Hpre as [[k ->]|Hpre%prefix_length]; [|lia].
  rewrite length_app in Hl. destruct k as [|e [|]]; cbn in Hl; try lia.
  unfold push_window. rewrite length_app. cbn [length]. rewrite Nat.add_sub, list_lookup_middle by done.
  rewrite Et, Ed. change ([e_timestamp e]) with (e_timestamp <$> [e]).
  change ([e_cumulative_difficulty e]) with (e_cumulative_difficulty <$> [e]).
  rewrite <- !fmap_app, !erase_front_fmap, <- window_slides; [done|]. by rewrite Et, length_fmap in Hfull.
Qed.

(** A query returns what the chain demands and leaves the caches exact, with
    the chain as the cached one. *)
Lemma query_exact version chain saved c : exact chain saved c ->
  exists d c', get_difficulty_for_next_block get_block_hash fixed_difficulty version chain c = Good (d, c') /\
    demanded chain = Good d /\ exact chain saved c' /\
    m_reset_timestamps_and_difficulties_height c' = m_reset_timestamps_and_difficulties_height c /\
    (fixed_difficulty = 0 -> m_difficulty_for_next_block_top_hash c' = top_block_hash get_block_hash chain).
Proof.
  intros Hex. unfold get_difficulty_for_next_block. pose proof (query_window _ _ _ Hex) as Hw. cbv zeta in *.
  destruct (negb (fixed_difficulty =? 0)) eqn:Ef.
  { eexists _, c. unfold demanded. rewrite Ef. split_and!; [done..|]. intros ->. done. }
  destruct (exact_cached _ _ _ Hex) as (cached & Hwf & Hlen & Etop & Hd & Hc).
  case_bool_decide as Eh.
  { rewrite <- Etop in Eh. apply (chain_unique _ (exact_wf _ _ _ Hex) _ Hwf) in Eh as <-.
    eexists _, c. split_and!; done. }
  destruct (demanded_total chain) as [d Ed]. rewrite Hw, bind_of_Good. pose proof Ed as En.
  unfold demanded in En. rewrite Ef in En. rewrite target_eq, En, bind_of_Good.
  eexists d, _. split_and!; [done|done| |done|done].
  split; [apply Hex..|]. exists chain. split_and!; [apply Hex|apply Hex|done|done|]. intros _ _.
  apply negb_false_iff, Z.eqb_eq in Ef. split_and!; [done..|]. by left.
Qed.

Lemma extend_exact version chain saved c timestamp rest chain' c' : exact chain saved c ->
  Z.of_nat (length chain) + 2 < 2 ^ 64 ->
  extend get_block_hash fixed_difficulty version chain c timestamp rest = Good (chain', c') -> exact chain' saved c'.
Proof.
  intros Hex Hlen E. unfold extend in E.
  destruct (query_exact version _ _ _ Hex) as (d & c1 & E1 & Hd & Hex1 & Er & Htop). rewrite E1, bind_of_Good in E.
  apply bind_Good in E as ([] & _ & E).
  set (e := Entry _ _ _ _) in E. assert (chain_wf (chain ++ [e])) as Hwf.
  { eapply wf_block; [apply Hex|done|done|]. cbn. destruct (last chain); done. }
  assert (exact (chain ++ [e]) saved c1) as Hex2.
  { destruct Hex1 as [_ Hs [_ Hls] Hb (cached & Hwfc & Hlenc & Et & Edc & Hc)].
    split; [done|done|split; [rewrite length_app; cbn; lia|done]| |].
    - intros Hr. by apply prefix_app_r, Hb.
    - exists cached. split_and!; [done..|]. intros Hr Hne. specialize (Hc Hr Hne) as (Hf & ? & ? & ? & Hpre).
      split_and!; [done..|]. left. destruct Hpre as [Hpre|Hpre]; [by apply prefix_app_r|].
      specialize (Htop Hf). rewrite <- Et in Htop.
      apply (chain_unique _ Hwfc _ (exact_wf _ _ _ Hex)) in Htop as ->. by apply prefix_app_r. }
  destruct (query_exact version _ _ _ Hex2) as (d2 & c2 & E2 & _ & Hex3 & _). rewrite E2, bind_of_Good in E.
  by injection E as <- <-.
Qed.

Lemma exact_start : exact [] [] empty_cache.
Proof.
  split; [constructor|constructor|cbn; lia|done|]. exists []. split_and!; [constructor|cbn; lia|done| |done].
  unfold demanded. cbn. by destruct (fixed_difficulty =? 0).
Qed.

Lemma exact_reset chain saved chain' c : exact chain saved c -> chain_wf chain' ->
  (length chain' <= length chain)%nat -> exact chain' saved (reset_cache c).
Proof.
  intros [_ Hs Hl _ (cached & ? & ? & ? & ? & _)] Hwf Hle. split; [done|done|lia|done|].
  exists cached. by split_and!.
Qed.

Lemma step_exact st st' : step get_block_hash fixed_difficulty st st' ->
  exact st.1.1 st.1.2 st.2 -> exact st'.1.1 st'.1.2 st'.2.
Proof.
  destruct 1 as [version chain saved c d c' E|version chain saved c t r chain' c' Hlen E|chain saved c e _|
    chain saved c|chain saved c|chain saved c]; cbn [fst snd]; intros Hex.
  - destruct (query_exact version _ _ _ Hex) as (d' & c1 & E' & _ & Hex' & _). congruence.
  - by eapply extend_exact.
  - apply (exact_reset _ _ chain) in Hex as Hex'; [done| |rewrite length_app; lia].
    pose proof (exact_wf _ _ _ Hex) as Hwf. inversion Hwf as [E|chain0 e0 d0 Hwf0 _ _ _ E]; [by destruct chain|].
    by apply app_inj_tail in E as [-> _].
  - apply (exact_reset _ _ chain) in Hex as Hex'; [done|apply Hex|done].
  - destruct Hex as [Hwf Hs Hl Hb (cached & ? & ? & ? & ? & Hc)]. unfold settle_cache.
    destruct (m_reset_timestamps_and_difficulties_height c) eqn:Er;
      (split; [done|done|tauto|done|]); exists cached; (split_and!; [done..|]); intros ? ?;
      first [done|by apply Hc].
  - destruct Hex as [Hwf Hs Hl Hb (cached & ? & ? & ? & ? & Hc)]. split; [done|done|tauto|done|].
    exists cached. split_and!; [done..|]. intros Er Hne. specialize (Hc Er Hne) as (? & ? & ? & ? & Hpre).
    split_and!; [done..|]. specialize (Hb Er). destruct Hpre as [Hpre|Hpre]; [|right; by transitivity chain].
    by destruct (prefix_weak_total _ _ _ Hpre Hb); [left|right].
Qed.

Lemma reachable_exact chain saved c : reachable get_block_hash fixed_difficulty chain saved c -> exact chain saved c.
Proof.
  unfold reachable. intros Hr. apply rtc_ind_r with
    (P := fun st => exact st.1.1 st.1.2 st.2) in Hr; [done|apply exact_start|]. intros st st' _ Hst. by apply step_exact.
Qed.
End Exact.

(** ** Theorems *)

(** C8: whatever sequence of queries, new blocks, pops, alternative blocks,
    committed and aborted batches a node has been through,
    [get_difficulty_for_next_block] returns the next difficulty computed from
    the last 735 blocks of the current chain (without the genesis block): neither
    the sliding window nor the value cached for the last top block is ever
    stale, as long as ids of blocks do not collide. *)
Theorem difficulty_cache_exact get_block_hash fixed_difficulty version chain saved c :
  (forall p t r p' t' r', get_block_hash p t r = get_block_hash p' t' r' -> p = p' /\ t = t' /\ r = r') ->
  (forall p t r, get_block_hash p t r <> null_hash) ->
  reachable get_block_hash fixed_difficulty chain saved c ->
  exists d c', get_difficulty_for_next_block get_block_hash fixed_difficulty version chain c = Good (d, c') /\
    demanded fixed_difficulty chain = Good d.
Proof.
  intros Hinj Hnz Hr. apply reachable_exact in Hr as Hex; [|done..].
  destruct (query_exact _ _ Hinj Hnz version _ _ _ Hex) as (d & c' & E & Hd & _). by exists d, c'.
Qed.

Lemma alternative_window chain split alt : (1 <= split <= length chain)%nat ->
  (if (length alt <? DIFFICULTY_BLOCKS_COUNT)%nat then
     let n := ((DIFFICULTY_BLOCKS_COUNT - DIFFICULTY_BLOCKS_COUNT `min` length alt) `min` split)%nat in
     let start := if (split - n =? 0)%nat then 1%nat else (split - n)%nat in
     drop start (take split chain) ++ alt
   else drop (length alt - DIFFICULTY_BLOCKS_COUNT) alt) = window (take split chain ++ alt).
Proof.
  intros Hs. unfold window. rewrite length_app, length_take, (Nat.min_l split) by lia.
  destruct (Nat.ltb_spec (length alt) DIFFICULTY_BLOCKS_COUNT); cbv zeta.
  - rewrite drop_app_le by (rewrite length_take; lia). f_equal. f_equal.
    destruct (Nat.eqb_spec (split - (DIFFICULTY_BLOCKS_COUNT - DIFFICULTY_BLOCKS_COUNT `min` length alt) `min` split) 0); lia.
  - rewrite drop_app_ge by (rewrite length_take; lia). f_equal. rewrite length_take. lia.
Qed.

Lemma window_short chain : negb (length (window chain) <=? DIFFICULTY_BLOCKS_COUNT)%nat = false.
Proof. unfold window. rewrite length_drop. destruct (Nat.leb_spec (length chain - 1 `max` (length chain - DIFFICULTY_BLOCKS_COUNT)) DIFFICULTY_BLOCKS_COUNT); [done|lia]. Qed.

(** The difficulty a node demands of a block on an alternative chain is the
    one it demands of the same block after it has switched to that chain, from
    any state of the caches: the two computations, over the database and over
    the list of alternative blocks, see the same window. *)
Theorem alternative_difficulty_agrees get_block_hash fixed_difficulty version version' main split alt saved c :
  (forall p t r p' t' r', get_block_hash p t r = get_block_hash p' t' r' -> p = p' /\ t = t' /\ r = r') ->
  (forall p t r, get_block_hash p t r <> null_hash) ->
  (1 <= split <= length main)%nat ->
  reachable get_block_hash fixed_difficulty (take split main ++ alt) saved c ->
  exists d c', get_next_difficulty_for_alternative_chain fixed_difficulty version main split alt = Good d /\
    get_difficulty_for_next_block get_block_hash fixed_difficulty version' (take split main ++ alt) c = Good (d, c').
Proof.
  intros Hinj Hnz Hs Hr. apply reachable_exact in Hr as Hex; [|done..].
  destruct (query_exact _ _ Hinj Hnz version' _ _ _ Hex) as (d & c' & E & Hd & _). exists d, c'. split; [|done].
  rewrite <- Hd. unfold get_next_difficulty_for_alternative_chain, demanded.
  cbv zeta. rewrite alternative_window, target_eq, window_short, andb_false_r by done. case_if; [|done].
  rewrite length_app, length_take.
  destruct (Nat.eqb_spec (length main) 0), (Nat.eqb_spec (split `min` length main + length alt) 0); done || lia.
Qed.

(** ** Witnesses *)

Definition sample_hash (p : bytes) (t : Z) (r : bytes) : bytes := 1 :: Z.of_nat (length p) :: t :: p ++ r.

Lemma sample_hash_distinct p t r p' t' r' :
  sample_hash p t r = sample_hash p' t' r' -> p = p' /\ t = t' /\ r = r'.
Proof.
  unfold sample_hash. intros [= Hl -> E]. apply Nat2Z.inj in Hl. by apply app_inj_1 in E as [-> ->].
Qed.

Lemma sample_hash_nonzero p t r : sample_hash p t r <> null_hash.
Proof. by unfold sample_hash. Qed.

(** A chain that grows by blocks at the given times. *)
Fixpoint grow (times : list Z) (chain : list entry) (c : difficulty_cache) : outcome (list entry * difficulty_cache) :=
  match times with
  | [] => Good (chain, c)
  | t :: times => '(chain, c) ← extend sample_hash 0 16 chain c t []; grow times chain c
  end.

Lemma grow_steps times : forall chain saved c chain' c', Z.of_nat (length chain + length times) + 1 < 2 ^ 64 ->
  grow times chain c = Good (chain', c') ->
  rtc (step sample_hash 0) (chain, saved, c) (chain', saved, c').
Proof.
  induction times as [|t times IH]; intros chain saved c chain' c' Hlen E; cbn [grow length] in *.
  { injection E as <- <-. constructor. }
  apply bind_Good in E as ([chain1 c1] & E1 & E). apply rtc_l with (chain1, saved, c1).
  - eapply (step_extend _ _ 16 _ _ _ t []); [lia|done].
  - apply IH; [|done]. unfold extend in E1. apply bind_Good in E1 as ([d c2] & _ & E1).
    apply bind_Good in E1 as ([] & _ & E1). apply bind_Good in E1 as ([d3 c3] & _ & [= <- _]).
    rewrite length_app. cbn. lia.
Qed.

Definition sample_times : list Z := [0; 120; 200; 390; 400].
Definition sample_run : list entry * difficulty_cache :=
  Eval vm_compute in match grow sample_times [] empty_cache with Good r => r | _ => ([], empty_cache) end.

Lemma difficulty_cache_exact_witness :
  exists d c', get_difficulty_for_next_block sample_hash 0 16 sample_run.1 sample_run.2 = Good (d, c') /\
    demanded 0 sample_run.1 = Good d.
Proof.
  apply (difficulty_cache_exact sample_hash 0 16 sample_run.1 [] sample_run.2).
  - apply sample_hash_distinct.
  - apply sample_hash_nonzero.
  - apply (grow_steps sample_times); [done|vm_compute; reflexivity].
Defined.

(** The main chain and another with the same first two blocks. *)
Lemma alternative_difficulty_agrees_witness :
  exists d c', get_next_difficulty_for_alternative_chain 0 16 (take 3 sample_run.1) 2 (drop 2 sample_run.1) = Good d /\
    get_difficulty_for_next_block sample_hash 0 16 sample_run.1 sample_run.2 = Good (d, c').
Proof.
  apply (alternative_difficulty_agrees sample_hash 0 16 16 (take 3 sample_run.1) 2 (drop 2 sample_run.1) [] sample_run.2).
  - apply sample_hash_distinct.
  - apply sample_hash_nonzero.
  - cbn. lia.
  - apply (grow_steps sample_times); [done|vm_compute; reflexivity].
Defined.
