(* ===== verification/Emission.v ===== *)
(** Block rewards and the emission of coins: [get_block_reward] in
    [cryptonote_basic/cryptonote_basic_impl.cpp], the check of a miner
    transaction and the count of generated coins in
    [cryptonote_core/blockchain.cpp], and the amounts of a new miner transaction
    in [cryptonote_core/cryptonote_tx_utils.cpp]. *)

From S2P Require Import Prelude Bytes Word Difficulty.

Definition MONEY_SUPPLY : Z := 10000000000000000000.
Definition EMISSION_SPEED_FACTOR_PER_MINUTE : Z := 20.
Definition FINAL_SUBSIDY_PER_MINUTE : Z := 163000000000.
Definition CRYPTONOTE_BLOCK_GRANTED_FULL_REWARD_ZONE_V2 : Z := 60000.
Definition CRYPTONOTE_BLOCK_GRANTED_FULL_REWARD_ZONE_V1 : Z := 20000.
Definition CRYPTONOTE_BLOCK_GRANTED_FULL_REWARD_ZONE_V5 : Z := 300000.
Definition DEFAULT_DUST_THRESHOLD : Z := 200000000.
Definition BASE_REWARD_CLAMP_THRESHOLD : Z := 10000000.
Definition HF_VERSION_EFFECTIVE_SHORT_TERM_MEDIAN_IN_PENALTY : Z := 12.
Definition HF_VERSION_EXACT_COINBASE : Z := 13.

(** ** The reward *)

Definition get_min_block_weight (version : Z) : Z :=
  if version <? 2 then CRYPTONOTE_BLOCK_GRANTED_FULL_REWARD_ZONE_V1
  else if version <? 5 then CRYPTONOTE_BLOCK_GRANTED_FULL_REWARD_ZONE_V2
  else CRYPTONOTE_BLOCK_GRANTED_FULL_REWARD_ZONE_V5.

(** The reward before the penalty. *)
Definition get_base_reward (already_generated_coins version : Z) : Z :=
  let target := if version <? 2 then DIFFICULTY_TARGET_V1 else DIFFICULTY_TARGET_V2 in
  let target_minutes := target / 60 in
  let emission_speed_factor := EMISSION_SPEED_FACTOR_PER_MINUTE - (target_minutes - 1) in
  let base_reward := Z.shiftr (u64 (MONEY_SUPPLY - already_generated_coins)) emission_speed_factor in
  if base_reward <? FINAL_SUBSIDY_PER_MINUTE * target_minutes
  then FINAL_SUBSIDY_PER_MINUTE * target_minutes else base_reward.

Definition get_block_reward (median_weight current_block_weight already_generated_coins version : Z) : outcome Z :=
  let base_reward := get_base_reward already_generated_coins version in
  let full_reward_zone := get_min_block_weight version in
  let median_weight := if median_weight <? full_reward_zone then full_reward_zone else median_weight in
  if current_block_weight <=? median_weight then Good base_reward
  else
    require (current_block_weight <=? u64 (2 * median_weight)) "Block cumulative weight is too big";;
    let multiplicand := u64 (u64 (2 * median_weight) - current_block_weight) in
    let multiplicand := u64 (multiplicand * current_block_weight) in
    let '(product_lo, product_hi) := mul128 base_reward multiplicand in
    let '(reward_hi, reward_lo) := div128_64 product_hi product_lo median_weight in
    let '(_, reward_lo) := div128_64 reward_hi reward_lo median_weight in
    Good reward_lo.

(** ** Medians *)

Definition get_mid (a b : Z) : Z :=
  u64 (u64 (a / 2 + b / 2) + u64 ((a - 2 * (a / 2)) + (b - 2 * (b / 2))) / 2).

Definition median (v : list Z) : outcome Z :=
  match v with
  | [] => Good 0
  | [x] => Good x
  | _ =>
      let n := (length v / 2)%nat in
      let v := vec_sort v in
      if Nat.odd (length v) then at_index v n
      else a ← at_index v (n - 1); b ← at_index v n; Good (get_mid a b)
  end.

(** ** Miner transactions *)

Definition valid_decomposed_outputs : list Z :=
  concat ((fun k => (fun d => Z.of_nat d * 10 ^ Z.of_nat k) <$> seq 1 9) <$> seq 0 19) ++ [10 ^ 19].

(** [std::binary_search] in the sorted table. *)
Definition is_valid_decomposed_amount (amount : Z) : bool := bool_decide (amount ∈ valid_decomposed_outputs).

Definition get_outs_money_amount (vout : list Z) : Z := foldl (fun money o => u64 (money + o)) 0 vout.

Fixpoint check_outs_overflow_from (money : Z) (vout : list Z) : bool :=
  match vout with
  | [] => true
  | o :: vout => if u64 (o + money) <? money then false else check_outs_overflow_from (u64 (money + o)) vout
  end.

Definition check_outs_overflow (vout : list Z) : bool := check_outs_overflow_from 0 vout.

(** What the check of a miner transaction reads: the amounts of its outputs,
    the weight and the fees of the block, the median the chain keeps and the
    weights of the last blocks. *)
Record miner_block := MinerBlock {
  mb_vout : list Z;
  mb_weight : Z;
  mb_fee : Z;
  mb_current_median : Z;
  mb_last_weights : list Z;
}.

(** The base reward as the caller sees it afterwards, and
    [partial_block_reward]. *)
Definition validate_miner_transaction (b : miner_block) (already_generated_coins version : Z) :
  outcome (Z * bool) :=
  let money_in_use := get_outs_money_amount (mb_vout b) in
  let fee := mb_fee b in
  require (negb (version =? 3) || forallb is_valid_decomposed_amount (mb_vout b))
    "miner tx output is not a valid decomposed amount";;
  median_weight ←
    (if HF_VERSION_EFFECTIVE_SHORT_TERM_MEDIAN_IN_PENALTY <=? version
     then Good (mb_current_median b) else median (mb_last_weights b));
  base_reward ← relabel (get_block_reward median_weight (mb_weight b) already_generated_coins version)
    "block weight is bigger than allowed for this blockchain";
  require (money_in_use <=? u64 (base_reward + fee)) "coinbase transaction spend too much money";;
  if (version <? 2) || (HF_VERSION_EXACT_COINBASE <=? version) then
    require (u64 (base_reward + fee) =? money_in_use)
      "coinbase transaction doesn't use full amount of block reward";;
    Good (base_reward, false)
  else
    require (u64 (money_in_use - fee) <=? base_reward) "base reward calculation bug";;
    Good (u64 (money_in_use - fee), negb (u64 (base_reward + fee) =? money_in_use)).

(** The count of generated coins after a block of the main chain. *)
Definition update_generated_coins (already_generated_coins base_reward : Z) : Z :=
  if base_reward <? u64 (MONEY_SUPPLY - already_generated_coins)
  then u64 (already_generated_coins + base_reward) else MONEY_SUPPLY.

(** The same for a block of an alternative chain, whose fees are not known. *)
Definition update_alternative_coins (prev_generated_coins : Z) (vout : list Z) : Z :=
  let block_reward := get_outs_money_amount vout in
  if block_reward <? u64 (MONEY_SUPPLY - prev_generated_coins)
  then u64 (prev_generated_coins + block_reward) else MONEY_SUPPLY.

(** What [handle_block_to_main_chain] does with the coins of a block: the
    overflow check of [prevalidate_miner_transaction], the reward, the count. *)
Definition accept_coinbase (b : miner_block) (already_generated_coins version : Z) : outcome Z :=
  require (check_outs_overflow (mb_vout b)) "miner transaction has money overflow";;
  '(base_reward, _) ← validate_miner_transaction b already_generated_coins version;
  Good (update_generated_coins already_generated_coins base_reward).

(** ** New miner transactions *)

(** The loop over the digits, at most twenty of them: what it hands out. *)
Fixpoint decompose_digits (fuel : nat) (amount dust_threshold : Z) (is_dust_handled : bool) (dust order : Z) :
  list Z :=
  match fuel with
  | O => []
  | S fuel =>
      if amount =? 0 then (if negb is_dust_handled && negb (dust =? 0) then [dust] else [])
      else
        let chunk := u64 ((amount mod 10) * order) in
        let amount := amount / 10 in
        let order := u64 (order * 10) in
        if u64 (dust + chunk) <=? dust_threshold
        then decompose_digits fuel amount dust_threshold is_dust_handled (u64 (dust + chunk)) order
        else
          let handle := negb is_dust_handled && negb (dust =? 0) in
          (if handle then [dust] else []) ++ (if negb (chunk =? 0) then [chunk] else [])
          ++ decompose_digits fuel amount dust_threshold (is_dust_handled || handle) dust order
  end.

Definition decompose_amount_into_digits (amount dust_threshold : Z) : list Z :=
  if amount =? 0 then [] else decompose_digits 21 amount dust_threshold false 0 1.

(** [while (max_outs < out_amounts.size())]: the first amount is added to the
    second and dropped. *)
Fixpoint merge_outs (fuel max_outs : nat) (out_amounts : list Z) : outcome (list Z) :=
  if (max_outs <? length out_amounts)%nat then
    match fuel, out_amounts with
    | S fuel, a :: b :: rest => merge_outs fuel max_outs (u64 (b + a) :: rest)
    | _, _ => Wild
    end
  else Good out_amounts.

(** The amounts of the outputs of [construct_miner_tx]. *)
Definition construct_miner_amounts (height median_weight already_generated_coins current_block_weight fee : Z)
  (max_outs : nat) (hard_fork_version : Z) : outcome (list Z) :=
  block_reward ← get_block_reward median_weight current_block_weight already_generated_coins hard_fork_version;
  let block_reward := u64 (block_reward + fee) in
  let block_reward :=
    if (2 <=? hard_fork_version) && (hard_fork_version <? 4)
    then u64 (block_reward - block_reward mod BASE_REWARD_CLAMP_THRESHOLD) else block_reward in
  let out_amounts :=
    decompose_amount_into_digits block_reward (if 2 <=? hard_fork_version then 0 else DEFAULT_DUST_THRESHOLD) in
  require (1 <=? max_outs)%nat "max_out must be non-zero";;
  out_amounts ←
    (if (height =? 0) || (4 <=? hard_fork_version) then merge_outs (length out_amounts) max_outs out_amounts
     else require (length out_amounts <=? max_outs)%nat "max_out exceeded";; Good out_amounts);
  require (get_outs_money_amount out_amounts =? block_reward) "Failed to construct miner tx";;
  Good out_amounts.
