(* ===== verification/EmissionProps.v ===== *)
(** The reward of a block as a formula, the count of generated coins, and the
    agreement of new miner transactions with the check. *)

From S2P Require Import Prelude Bytes Word Difficulty Emission.

(** ** The reward *)

(** 3.26 coins, the reward of the tail. *)
Definition tail_reward : Z := 326000000000.

Abbreviation coins g := (0 <= g <= MONEY_SUPPLY).

Lemma base_reward_exact g version : coins g ->
  get_base_reward g version = Z.max ((MONEY_SUPPLY - g) / 2 ^ 19) tail_reward.
Proof.
  unfold MONEY_SUPPLY. intros Hg. unfold get_base_reward, DIFFICULTY_TARGET_V1, DIFFICULTY_TARGET_V2, tail_reward.
  replace (if version <? 2 then 120 else 120) with 120 by (by case_if).
  unfold EMISSION_SPEED_FACTOR_PER_MINUTE, FINAL_SUBSIDY_PER_MINUTE, MONEY_SUPPLY.
  change (120 / 60) with 2. change (20 - (2 - 1)) with 19. rewrite u64_small, shiftr_div by lia.
  destruct (Z.ltb_spec ((10000000000000000000 - g) / 2 ^ 19) (163000000000 * 2)); lia.
Qed.

Lemma base_reward_range g version : coins g -> tail_reward <= get_base_reward g version < 2 ^ 45.
Proof. intros Hg. rewrite base_reward_exact by done. unfold MONEY_SUPPLY, tail_reward in *. zlia. Qed.

(** The median weight that counts. *)
Definition effective_median (median_weight version : Z) : Z := Z.max median_weight (get_min_block_weight version).

Lemma min_block_weight_range version : 20000 <= get_min_block_weight version <= 300000.
Proof. unfold get_min_block_weight. repeat case_if; done. Qed.

(** The penalty of a block between one and two medians. *)
Lemma penalty base m x : 0 <= base < 2 ^ 45 -> 0 < m < 2 ^ 64 -> word x ->
  (let '(product_lo, product_hi) := mul128 base x in
   let '(reward_hi, reward_lo) := div128_64 product_hi product_lo m in
   let '(_, reward_lo) := div128_64 reward_hi reward_lo m in reward_lo) = base * x / m / m mod 2 ^ 64.
Proof.
  intros Hb Hm Hx. rewrite mul128_exact by lia.
  assert (0 <= base * x < 2 ^ 45 * 2 ^ 64) as Hp by nia.
  pose proof (Z.div_mod (base * x) (2 ^ 64)) as Ep.
  rewrite div128_64_exact by zlia.
  replace (base * x / 2 ^ 64 * 2 ^ 64 + base * x mod 2 ^ 64) with (base * x) by lia.
  assert (0 <= base * x / m <= base * x) as Hq.
  { split; [apply Z.div_pos; lia|]. apply Z.div_le_upper_bound; nia. }
  pose proof (Z.div_mod (base * x / m) (2 ^ 64)) as Eq.
  rewrite div128_64_exact by zlia.
  by replace (base * x / m / 2 ^ 64 * 2 ^ 64 + (base * x / m) mod 2 ^ 64) with (base * x / m) by lia.
Qed.

Lemma block_reward_formula median_weight weight g version : coins g -> word median_weight -> word weight ->
  let base := get_base_reward g version in
  let m := effective_median median_weight version in
  get_block_reward median_weight weight g version =
    if weight <=? m then Good base
    else if weight <=? u64 (2 * m) then Good (base * u64 (u64 (u64 (2 * m) - weight) * weight) / m / m mod 2 ^ 64)
    else Bad "Block cumulative weight is too big".
Proof.
  intros Hg Hmw Hw base m. unfold get_block_reward. fold base.
  replace (if median_weight <? get_min_block_weight version then get_min_block_weight version else median_weight)
    with m by (unfold m, effective_median; destruct (Z.ltb_spec median_weight (get_min_block_weight version)); lia).
  case_if; [done|]. case_if; cbn [require]; [|done]. rewrite bind_of_Good.
  pose proof (base_reward_range g version Hg) as Hb. pose proof (min_block_weight_range version) as Hz.
  rewrite <- penalty; [by repeat case_match|unfold base, tail_reward in *; lia|unfold m, effective_median; lia|apply u64_range].
Qed.

(** C31: the reward of a block.  Up to the median weight (or the minimum, if the
    median is smaller) it is the base reward, the larger of the tail reward and
    the remaining supply divided by 2^19; from there to twice the median [m] it
    is reduced by the square of the excess, [base * (m^2 - (weight - m)^2) / m^2]
    rounded down; beyond that a block has no reward and is refused.  The 64-bit
    and 128-bit arithmetic of the code is exact for medians below 2^32. *)
Theorem block_reward_exact median_weight weight g version :
  0 <= g <= MONEY_SUPPLY -> 0 <= median_weight < 2 ^ 32 -> word weight ->
  let base := Z.max ((MONEY_SUPPLY - g) / 2 ^ 19) tail_reward in
  let m := effective_median median_weight version in
  get_block_reward median_weight weight g version =
    if weight <=? m then Good base
    else if weight <=? 2 * m then Good (base * (m * m - (weight - m) * (weight - m)) / (m * m))
    else Bad "Block cumulative weight is too big".
Proof.
  intros Hg Hmw Hw base m. rewrite block_reward_formula, base_reward_exact by (done || lia). fold base m.
  pose proof (min_block_weight_range version) as Hz.
  assert (0 < m < 2 ^ 32) as Hm by (unfold m, effective_median; lia).
  destruct (Z.leb_spec weight m); [done|]. rewrite (u64_small (2 * m)) by lia.
  destruct (Z.leb_spec weight (2 * m)); [|done]. rewrite (u64_small (2 * m - weight)) by lia.
  replace ((2 * m - weight) * weight) with (m * m - (weight - m) * (weight - m)) by ring.
  assert (0 <= m * m - (weight - m) * (weight - m) <= m * m) as Hx by nia.
  rewrite (u64_small (m * m - _)) by nia. rewrite Z.div_div by lia.
  pose proof (base_reward_range g version Hg) as Hb. rewrite base_reward_exact in Hb by done. fold base in Hb.
  rewrite Z.mod_small; [done|]. unfold tail_reward in Hb. split; [apply Z.div_pos; nia|].
  apply Z.div_lt_upper_bound; nia.
Qed.

(** Whatever the median, a reward is at most the base reward. *)
Lemma block_reward_le median_weight weight g version r : coins g -> word median_weight -> word weight ->
  get_block_reward median_weight weight g version = Good r -> 0 <= r <= get_base_reward g version.
Proof.
  intros Hg Hmw Hw. rewrite block_reward_formula by done. cbv zeta.
  pose proof (base_reward_range g version Hg) as Hb. pose proof (min_block_weight_range version) as Hz.
  set (base := get_base_reward g version) in *. set (m := effective_median median_weight version).
  assert (0 < m < 2 ^ 64) as Hm by (unfold m, effective_median; lia). unfold tail_reward in Hb.
  destruct (Z.leb_spec weight m); [intros [= <-]; lia|]. destruct (Z.leb_spec weight (u64 (2 * m))); [|done].
  intros [= <-]. set (x := u64 (u64 (u64 (2 * m) - weight) * weight)).
  assert (0 <= x <= m * m) as Hx.
  { pose proof (u64_range (u64 (u64 (2 * m) - weight) * weight)). fold x in H1. split; [lia|].
    destruct (decide (m < 2 ^ 32)); [|nia]. unfold x. rewrite (u64_small (2 * m)) in * by lia.
    rewrite (u64_small (2 * m - weight)) by lia. rewrite u64_small by nia. nia. }
  rewrite Z.div_div by lia. assert (0 <= base * x / (m * m) <= base).
  { split; [apply Z.div_pos; nia|]. apply Z.div_le_upper_bound; nia. }
  rewrite Z.mod_small; lia.
Qed.

(** ** Amounts *)

Definition total (l : list Z) : Z := foldr Z.add 0 l.

Lemma coins_nonneg l : Forall (Z.le 0) l -> 0 <= total l.
Proof. unfold total. induction 1; cbn [foldr]; lia. Qed.

Lemma outs_from l : forall money, word money -> Forall (fun o => word o) l ->
  foldl (fun money o => u64 (money + o)) money l = u64 (money + total l).
Proof.
  induction l as [|o l IH]; intros money Hm Hl; cbn [foldl total foldr].
  - by rewrite Z.add_0_r, u64_small.
  - apply Forall_cons_1 in Hl as [Ho Hl]. rewrite IH; [|apply u64_range|done]. fold (total l).
    unfold u64. by rewrite Zplus_mod_idemp_l, Z.add_assoc.
Qed.

Lemma outs_money l : Forall (fun o => word o) l -> get_outs_money_amount l = u64 (total l).
Proof. intros Hl. unfold get_outs_money_amount. by rewrite outs_from. Qed.

Lemma outs_overflow_from l : forall money, word money -> Forall (fun o => word o) l ->
  check_outs_overflow_from money l = (money + total l <? 2 ^ 64).
Proof.
  induction l as [|o l IH]; intros money Hm Hl; cbn [check_outs_overflow_from total foldr].
  - symmetry. apply Z.ltb_lt. lia.
  - apply Forall_cons_1 in Hl as [Ho Hl]. fold (total l). assert (0 <= total l) as Ht.
    { apply coins_nonneg. apply (Forall_impl _ _ _ Hl). intros x Hx. cbv beta in *. lia. }
    destruct (decide (money + o < 2 ^ 64)) as [Hlt|Hge].
    + rewrite !u64_small by lia. destruct (Z.ltb_spec (o + money) money); [lia|].
      rewrite IH by (done || lia). f_equal. lia.
    + replace (u64 (o + money) <? money) with true; [symmetry; apply Z.ltb_ge; lia|].
      symmetry. apply Z.ltb_lt. unfold u64. zlia.
Qed.

(** Amounts that pass the overflow check add up as integers. *)
Lemma outs_exact l : Forall (fun o => word o) l -> check_outs_overflow l = true ->
  get_outs_money_amount l = total l /\ word (total l).
Proof.
  intros Hl. unfold check_outs_overflow. rewrite outs_overflow_from by done. rewrite Z.ltb_lt. intros Ht.
  assert (word (total l)) as Hw.
  { split; [|lia]. apply coins_nonneg. apply (Forall_impl _ _ _ Hl). intros x Hx. cbv beta in *. lia. }
  split; [|done]. by rewrite outs_money, u64_small.
Qed.

(** ** The emission *)

(** The types of a block, and fees that leave room for a reward. *)
Record miner_block_wf (b : miner_block) : Prop := {
  mw_vout : Forall (fun o => word o) (mb_vout b);
  mw_weight : word (mb_weight b);
  mw_fee : 0 <= mb_fee b < 2 ^ 63;
  mw_median : word (mb_current_median b);
  mw_weights : Forall (fun w => word w) (mb_last_weights b);
}.

Lemma median_word l m : Forall (fun w => word w) l -> median l = Good m -> word m.
Proof.
  intros Hl. unfold median. destruct l as [|x [|y l]]; [by intros [= <-]| |].
  { intros [= <-]. by apply Forall_cons_1 in Hl as [? _]. }
  set (v := x :: y :: l) in *.
  assert (forall i a, at_index (vec_sort v) i = Good a -> word a) as Hat.
  { intros i a. unfold at_index. destruct (vec_sort v !! i) eqn:E; [|done]. intros [= <-].
    apply list_elem_of_lookup_2 in E. unfold vec_sort in E.
    rewrite (sorting.merge_sort_Permutation Z.le v) in E. by apply (proj1 (Forall_forall _ _) Hl). }
  case_if; [by apply Hat|]. intros (a & Ha & (b & Hb & [= <-])%bind_Good)%bind_Good. apply u64_range.
Qed.

(** The coins that a block creates. *)
Definition minted (b : miner_block) : Z := total (mb_vout b) - mb_fee b.

Lemma validate_exact b g version base partial : miner_block_wf b -> coins g ->
  check_outs_overflow (mb_vout b) = true ->
  validate_miner_transaction b g version = Good (base, partial) ->
  base = minted b /\ 0 <= base <= get_base_reward g version.
Proof.
  intros Hb Hg Hover E. unfold validate_miner_transaction in E.
  destruct (outs_exact _ (mw_vout _ Hb) Hover) as [Eo Ht]. rewrite Eo in E. clear Eo.
  apply bind_Good in E as ([] & _ & E). apply bind_Good in E as (mw & Em & E).
  apply bind_Good in E as (r & Er%relabel_Good & E). apply bind_Good in E as ([] & Hle%require_Good & E).
  assert (word mw) as Hmw.
  { case_if_in Em; [injection Em as <-; apply Hb|]. by apply median_word in Em; [|apply Hb]. }
  apply block_reward_le in Er as Hr; [|done|done|apply Hb].
  pose proof (base_reward_range g version Hg) as Hbase. pose proof (mw_fee _ Hb) as Hfee. unfold minted.
  rewrite u64_small in * by lia. case_if_in E.
  - apply bind_Good in E as ([] & Heq%require_Good%Z.eqb_eq & [= <- <-]). lia.
  - apply bind_Good in E as ([] & Hle2%require_Good & [= <- _]). unfold u64 in *. zlia.
Qed.

Lemma update_exact g base : coins g -> 0 <= base < 2 ^ 45 ->
  update_generated_coins g base = Z.min MONEY_SUPPLY (g + base).
Proof.
  intros Hg Hb. unfold update_generated_coins, MONEY_SUPPLY in *. rewrite (u64_small (_ - g)) by lia.
  destruct (Z.ltb_spec base (10000000000000000000 - g)); [rewrite u64_small by lia|]; lia.
Qed.

(** A sequence of blocks with their versions. *)
Fixpoint emit (g : Z) (blocks : list (miner_block * Z)) : outcome Z :=
  match blocks with
  | [] => Good g
  | (b, version) :: blocks => g ← accept_coinbase b g version; emit g blocks
  end.

Lemma accept_exact b g version g' : miner_block_wf b -> coins g -> accept_coinbase b g version = Good g' ->
  g' = Z.min MONEY_SUPPLY (g + minted b) /\ 0 <= minted b <= get_base_reward g version.
Proof.
  intros Hb Hg E. unfold accept_coinbase in E. apply bind_Good in E as ([] & Hover%require_Good & E).
  apply bind_Good in E as ([base partial] & Ev & [= <-]).
  apply validate_exact in Ev as [-> Hr]; [|done..]. split; [|done].
  pose proof (base_reward_range g version Hg). apply update_exact; [done|lia].
Qed.

(** C9: the emission.  Along any sequence of accepted blocks, of any versions,
    no block creates more coins (the amounts of its miner transaction minus its
    fees) than its base reward, and the count of generated coins is the sum of
    the coins that were created, capped at the money supply. *)
Theorem emission_exact blocks : forall g g',
  0 <= g <= MONEY_SUPPLY -> Forall (fun b => miner_block_wf b.1) blocks -> emit g blocks = Good g' ->
  g' = Z.min MONEY_SUPPLY (g + total (minted <$> blocks.*1)) /\
  Forall (fun b => 0 <= minted b.1 <= Z.max (MONEY_SUPPLY / 2 ^ 19) tail_reward) blocks.
Proof.
  induction blocks as [|[b version] blocks IH]; intros g g' Hg Hwf E; cbn [emit fmap list_fmap total foldr] in *.
  { injection E as <-. split; [lia|constructor]. }
  apply Forall_cons_1 in Hwf as [Hb Hwf]. apply bind_Good in E as (g1 & E1 & E).
  apply accept_exact in E1 as [-> Hm]; [|done..]. rewrite base_reward_exact in Hm by done.
  apply IH in E as [-> Hall]; [|lia|done]. fold (total (minted <$> blocks.*1)). cbn [fst] in *. split.
  - assert (0 <= total (minted <$> blocks.*1)); [|lia]. apply coins_nonneg, Forall_fmap, Forall_fmap.
    apply (Forall_impl _ _ _ Hall). cbn. lia.
  - constructor; [|done]. cbn [fst] in *. unfold MONEY_SUPPLY, tail_reward in *. zlia.
Qed.

(** ** The tail *)

(** A block of full weight whose miner claims the whole reward. *)
Definition full_block (b : miner_block * Z) : Prop :=
  HF_VERSION_EXACT_COINBASE <= b.2 /\ mb_weight b.1 <= effective_median (mb_current_median b.1) b.2.

Lemma full_reward b g version g' : miner_block_wf b -> coins g -> full_block (b, version) ->
  accept_coinbase b g version = Good g' -> minted b = get_base_reward g version.
Proof.
  intros Hb Hg [Hv Hw] E. cbn [fst snd] in *. unfold accept_coinbase in E.
  apply bind_Good in E as ([] & Hover%require_Good & E). apply bind_Good in E as ([base partial] & Ev & _).
  apply validate_exact in Ev as Hm; [|done..]. destruct Hm as [<- _]. unfold validate_miner_transaction in Ev.
  unfold HF_VERSION_EXACT_COINBASE, HF_VERSION_EFFECTIVE_SHORT_TERM_MEDIAN_IN_PENALTY in *.
  replace (12 <=? version) with true in Ev by lia. replace (13 <=? version) with true in Ev by lia.
  rewrite orb_true_r in Ev. apply bind_Good in Ev as ([] & _ & Ev). rewrite bind_of_Good in Ev.
  apply bind_Good in Ev as (r & Er%relabel_Good & Ev). rewrite block_reward_formula in Er by (done || apply Hb).
  cbv zeta in Er. replace (mb_weight b <=? _) with true in Er by lia. injection Er as <-.
  apply bind_Good in Ev as ([] & _ & Ev). by apply bind_Good in Ev as ([] & _ & [= <- _]).
Qed.

Lemma emit_lower blocks : forall g g', coins g -> Forall (fun b => miner_block_wf b.1) blocks ->
  Forall full_block blocks -> emit g blocks = Good g' ->
  coins g' /\ Z.min MONEY_SUPPLY (g + tail_reward * Z.of_nat (length blocks)) <= g'.
Proof.
  induction blocks as [|[b version] blocks IH]; intros g g' Hg Hwf Hfull E; cbn [emit length] in *.
  { injection E as <-. split; [done|lia]. }
  apply Forall_cons_1 in Hwf as [Hb Hwf]. apply Forall_cons_1 in Hfull as [Hf Hfull].
  apply bind_Good in E as (g1 & E1 & E). apply full_reward in E1 as Hm; [|done..].
  apply accept_exact in E1 as [-> _]; [|done..]. pose proof (base_reward_range g version Hg).
  unfold tail_reward in *. apply IH in E; [lia|lia|done|done].
Qed.

(** The emission reaches its tail and stays there: after [n] full blocks
    (of version 13 or more, not above the median weight) with [n] times 3.26
    coins at least the money supply, the count of generated coins is the money
    supply, and every further full block creates exactly 3.26 coins. *)
Theorem emission_reaches_tail g blocks g' b version g'' :
  0 <= g <= MONEY_SUPPLY -> Forall (fun b => miner_block_wf b.1) ((b, version) :: blocks) ->
  Forall full_block ((b, version) :: blocks) ->
  MONEY_SUPPLY <= g + tail_reward * Z.of_nat (length blocks) ->
  emit g blocks = Good g' -> accept_coinbase b g' version = Good g'' ->
  g' = MONEY_SUPPLY /\ minted b = tail_reward /\ g'' = MONEY_SUPPLY.
Proof.
  intros Hg Hwf Hfull Hn E Eb. apply Forall_cons_1 in Hwf as [Hb Hwf]. apply Forall_cons_1 in Hfull as [Hf Hfull].
  apply emit_lower in E as [Hg' Hle]; [|done..]. assert (g' = MONEY_SUPPLY) as -> by lia.
  apply full_reward in Eb as Hm; [|done..]. rewrite base_reward_exact in Hm by done.
  rewrite Z.sub_diag, Z.div_0_l in Hm by done. apply accept_exact in Eb as [-> _]; [|done..].
  unfold MONEY_SUPPLY, tail_reward in *. lia.
Qed.

(** ** New miner transactions *)

Lemma decompose_exact fuel : forall amount order, 0 <= amount -> 0 < order ->
  amount < 10 ^ Z.of_nat fuel -> amount * order < 2 ^ 64 -> 
  total (decompose_digits (S fuel) amount 0 false 0 order) = amount * order /\
  Forall (fun o => word o) (decompose_digits (S fuel) amount 0 false 0 order).
Proof.
  induction fuel as [|fuel IH]; intros amount order Ha Ho Hf Hlt.
  { cbn in Hf. replace amount with 0 by lia. split; [done|constructor]. }
  destruct (decide (amount = 0)) as [->|Hne]; [split; [done|constructor]|].
  change (decompose_digits (S (S fuel)) amount 0 false 0 order) with
    (if amount =? 0 then [] else
     if u64 (0 + u64 ((amount mod 10) * order)) <=? 0
     then decompose_digits (S fuel) (amount / 10) 0 false (u64 (0 + u64 ((amount mod 10) * order))) (u64 (order * 10))
     else [] ++ (if negb (u64 ((amount mod 10) * order) =? 0) then [u64 ((amount mod 10) * order)] else [])
       ++ decompose_digits (S fuel) (amount / 10) 0 false 0 (u64 (order * 10))).
  replace (amount =? 0) with false by lia.
  assert (0 <= amount mod 10 * order <= amount * order) as Hc by (pose proof (Z.mod_le amount 10);
    pose proof (Z.mod_pos_bound amount 10); nia).
  rewrite !(u64_small (amount mod 10 * order)), Z.add_0_l, !(u64_small (amount mod 10 * order)) by lia.
  assert (total (decompose_digits (S fuel) (amount / 10) 0 false 0 (u64 (order * 10))) = amount / 10 * 10 * order /\
    Forall (fun o => word o) (decompose_digits (S fuel) (amount / 10) 0 false 0 (u64 (order * 10)))) as [Et Hw].
  { destruct (decide (amount / 10 = 0)) as [->|Hd]; [split; [done|constructor]|].
    assert (10 * order <= amount * order) by (apply Z.mul_le_mono_nonneg_r; zlia).
    rewrite u64_small by lia. rewrite Nat2Z.inj_succ, Z.pow_succ_r in Hf by lia.
    destruct (IH (amount / 10) (order * 10)) as [-> ?]; [zlia|lia|zlia| |split; [ring|done]].
    pose proof (Z.div_mod amount 10). nia. }
  pose proof (Z.div_mod amount 10 ltac:(lia)) as Edm.
  destruct (Z.leb_spec (amount mod 10 * order) 0) as [Hz|Hz].
  - replace (amount mod 10 * order) with 0 by lia. rewrite Et. split; [nia|done].
  - replace (amount mod 10 * order =? 0) with false by lia. cbn [negb app total foldr].
    fold (total (decompose_digits (S fuel) (amount / 10) 0 false 0 (u64 (order * 10)))). rewrite Et.
    split; [nia|]. constructor; [lia|done].
Qed.

Lemma merge_exact max_outs : forall fuel l, (1 <= max_outs)%nat -> (length l <= fuel)%nat ->
  Forall (fun o => word o) l -> total l < 2 ^ 64 ->
  exists l', merge_outs fuel max_outs l = Good l' /\ total l' = total l /\ Forall (fun o => word o) l' /\
    (length l' <= max_outs)%nat.
Proof.
  induction fuel as [|fuel IH]; intros l Hm Hlen Hl Ht; cbn [merge_outs].
  { destruct l; [|cbn in Hlen; lia]. exists []. cbn. split_and!; done || lia. }
  destruct (Nat.ltb_spec max_outs (length l)) as [Hlt|Hle]; [|exists l; split_and!; done || lia].
  destruct l as [|a [|b l]]; cbn [length] in *; [lia|lia|].
  apply Forall_cons_1 in Hl as [Ha Hl]. apply Forall_cons_1 in Hl as [Hb Hl].
  assert (0 <= total l) by (apply coins_nonneg; apply (Forall_impl _ _ _ Hl); intros x Hx; cbv beta in *; lia).
  cbn [total foldr] in Ht. fold (total l) in Ht. rewrite u64_small by lia.
  destruct (IH (b + a :: l)) as (l' & E & Et & Hw & Hle); [done|cbn; lia|constructor; [lia|done]|cbn; fold (total l); lia|].
  exists l'. split_and!; try done. rewrite Et. cbn. fold (total l). lia.
Qed.

Lemma construct_exact height median_weight g weight fee max_outs version r : 4 <= version -> (1 <= max_outs)%nat ->
  0 <= r -> 0 <= fee -> r + fee < 2 ^ 64 -> get_block_reward median_weight weight g version = Good r ->
  exists outs, construct_miner_amounts height median_weight g weight fee max_outs version = Good outs /\
    total outs = r + fee /\ Forall (fun o => word o) outs /\ (length outs <= max_outs)%nat.
Proof.
  intros Hv Hm Hr Hfee Hlt Er. unfold construct_miner_amounts. rewrite Er, bind_of_Good.
  replace (version <? 4) with false by lia. replace (4 <=? version) with true by lia.
  replace (2 <=? version) with true by lia. rewrite andb_false_r, orb_true_r, u64_small by lia.
  assert (total (decompose_amount_into_digits (r + fee) 0) = r + fee /\
    Forall (fun o => word o) (decompose_amount_into_digits (r + fee) 0)) as [Et Hw].
  { unfold decompose_amount_into_digits. destruct (Z.eqb_spec (r + fee) 0) as [->|Hne]; [split; [done|constructor]|].
    destruct (decompose_exact 20 (r + fee) 1) as [-> ?]; [lia|lia|lia|lia|]. split; [lia|done]. }
  destruct (merge_exact max_outs _ _ Hm (Nat.le_refl _) Hw) as (outs & E & Et' & Hw' & Hlen); [lia|].
  rewrite E. exists outs. replace (1 <=? max_outs)%nat with true by (symmetry; apply Nat.leb_le; lia).
  cbn [require]. rewrite !bind_of_Good, outs_money, Et', Et, u64_small, Z.eqb_refl by (done || lia). split_and!; done || lia.
Qed.

(** A miner transaction is accepted exactly if it has the full amount. *)
Lemma coinbase_accepted_iff outs median_weight weight fee weights g version r g' :
  HF_VERSION_EXACT_COINBASE <= version -> coins g -> 0 <= fee < 2 ^ 63 -> Forall (fun o => word o) outs ->
  total outs < 2 ^ 64 -> word median_weight -> word weight ->
  get_block_reward median_weight weight g version = Good r ->
  accept_coinbase (MinerBlock outs weight fee median_weight weights) g version = Good g' <->
  total outs = r + fee /\ g' = Z.min MONEY_SUPPLY (g + r).
Proof.
  intros Hv Hg Hfee Hw Ht Hmw Hwt Er. unfold HF_VERSION_EXACT_COINBASE in Hv.
  pose proof (block_reward_le _ _ _ _ _ Hg Hmw Hwt Er) as Hr. pose proof (base_reward_range g version Hg) as Hb.
  assert (check_outs_overflow outs = true) as Hover.
  { unfold check_outs_overflow. rewrite outs_overflow_from by done. apply Z.ltb_lt. lia. }
  destruct (outs_exact _ Hw Hover) as [Eo _].
  unfold accept_coinbase, validate_miner_transaction. cbn [mb_vout mb_weight mb_fee mb_current_median].
  unfold HF_VERSION_EXACT_COINBASE, HF_VERSION_EFFECTIVE_SHORT_TERM_MEDIAN_IN_PENALTY.
  rewrite Hover, Eo. replace (version =? 3) with false by lia. replace (12 <=? version) with true by lia.
  replace (13 <=? version) with true by lia. rewrite orb_true_r. cbn [require negb orb].
  rewrite !bind_of_Good, Er. cbn [relabel]. rewrite bind_of_Good, u64_small by lia. destruct (Z.eqb_spec (r + fee) (total outs)) as [Ee|Ee].
  - replace (total outs <=? r + fee) with true by lia. cbn [require]. rewrite !bind_of_Good, update_exact by (done || lia).
    split; [intros [= <-]; split; [lia|done]|by intros [_ ->]].
  - split; [|lia]. intros ([base partial] & ([] & _ & E)%bind_Good & _)%bind_Good. by cbn in E.
Qed.

(** A new miner transaction is accepted: the amounts [construct_miner_tx]
    chooses for a block (at most [max_outs] of them) pass the check of the same
    block, and the count of generated coins grows by the reward. *)
Theorem constructed_coinbase_accepted height median_weight g weight fee max_outs version weights r :
  HF_VERSION_EXACT_COINBASE <= version -> (1 <= max_outs)%nat -> 0 <= g <= MONEY_SUPPLY -> 0 <= fee < 2 ^ 63 ->
  word median_weight -> word weight -> get_block_reward median_weight weight g version = Good r ->
  exists outs, construct_miner_amounts height median_weight g weight fee max_outs version = Good outs /\
    (length outs <= max_outs)%nat /\
    accept_coinbase (MinerBlock outs weight fee median_weight weights) g version = Good (Z.min MONEY_SUPPLY (g + r)).
Proof.
  intros Hv Hm Hg Hfee Hmw Hw Er.
  pose proof (block_reward_le _ _ _ _ _ Hg Hmw Hw Er) as Hr. pose proof (base_reward_range g version Hg) as Hb.
  destruct (construct_exact height median_weight g weight fee max_outs version r) as (outs & E & Et & Ho & Hlen);
    [unfold HF_VERSION_EXACT_COINBASE in Hv; lia|done|lia|lia|lia|done|].
  exists outs. split; [done|]. split; [done|]. apply (coinbase_accepted_iff outs _ _ _ _ _ _ r); done || lia.
Qed.

(** C39: an alternative block counts its fees as new coins, so a miner
    transaction built on top of it is refused once its chain is the main chain:
    let an accepted block have fees of at least 2^19 atomic units, before the
    tail.  Then the amounts constructed from the count of the alternative chain
    never pass the check with the count of the main chain. *)
Theorem alternative_template_refused b g version g1 height median_weight weight fee max_outs weights outs g2 :
  HF_VERSION_EXACT_COINBASE <= version -> 0 <= g <= MONEY_SUPPLY -> miner_block_wf b -> 2 ^ 19 <= mb_fee b ->
  accept_coinbase b g version = Good g1 -> tail_reward * 2 ^ 19 + total (mb_vout b) <= MONEY_SUPPLY - g ->
  (1 <= max_outs)%nat -> 0 <= fee < 2 ^ 63 -> word median_weight -> 0 <= weight <= effective_median median_weight version ->
  let alternative := update_alternative_coins g (mb_vout b) in
  construct_miner_amounts height median_weight alternative weight fee max_outs version = Good outs ->
  accept_coinbase (MinerBlock outs weight fee median_weight weights) g1 version <> Good g2.
Proof.
  intros Hv Hg Hb Hf Ea Hroom Hm Hfee Hmw Hw alternative Ec.
  assert (alternative = g + total (mb_vout b) /\ coins (g + total (mb_vout b))) as [Ealt Halt].
  { unfold accept_coinbase in Ea. apply bind_Good in Ea as ([] & Hover%require_Good & _).
    destruct (outs_exact _ (mw_vout _ Hb) Hover) as [Eo Ht]. unfold alternative, update_alternative_coins.
    rewrite Eo. unfold MONEY_SUPPLY, tail_reward in *. rewrite (u64_small (_ - g)) by lia.
    destruct (Z.ltb_spec (total (mb_vout b)) (10000000000000000000 - g)); [rewrite u64_small by lia|]; lia. }
  apply accept_exact in Ea as [Eg1 Hmint]; [|done..]. unfold minted in *. pose proof (mw_fee _ Hb).
  assert (g1 = g + total (mb_vout b) - mb_fee b) as -> by (unfold tail_reward in *; lia). clear Eg1.
  rewrite Ealt in Ec. pose proof (min_block_weight_range version). assert (word weight) as Hww.
  { unfold effective_median in Hw. lia. }
  assert (forall g', coins g' -> get_block_reward median_weight weight g' version = Good (get_base_reward g' version)) as Hfull.
  { intros g' Hg'. rewrite block_reward_formula by done. cbv zeta. by replace (weight <=? _) with true by lia. }
  set (ga := g + total (mb_vout b)) in *. assert (coins (ga - mb_fee b)) as Hgm by lia.
  pose proof (base_reward_range ga version Halt). pose proof (base_reward_range (ga - mb_fee b) version Hgm).
  destruct (construct_exact height median_weight ga weight fee max_outs version (get_base_reward ga version))
    as (outs' & Ec' & Et & Ho & _); [unfold HF_VERSION_EXACT_COINBASE in Hv; lia|done|unfold tail_reward in *; lia|lia|lia|by apply Hfull|].
  rewrite Ec in Ec'. injection Ec' as <-. intros E.
  apply (coinbase_accepted_iff outs _ _ _ _ _ _ _ _ Hv Hgm Hfee Ho ltac:(lia) Hmw Hww (Hfull _ Hgm)) in E as [E _].
  rewrite Et, !base_reward_exact in E by done. unfold MONEY_SUPPLY, tail_reward, ga in *. zlia.
Qed.

(** ** Witnesses *)

(** A block of version 16 whose miner claims [reward] and the fees. *)
Definition sample_block (reward fee : Z) : miner_block := MinerBlock [reward + fee] 1000 fee 300000 [].

Lemma sample_block_wf reward fee : 0 <= reward < 2 ^ 45 -> 0 <= fee < 2 ^ 45 -> miner_block_wf (sample_block reward fee).
Proof. intros Hr Hf. split; cbn; [repeat constructor; lia|lia|lia|lia|constructor]. Qed.

Lemma block_reward_exact_witness : get_block_reward 300000 450000 0 16 = Good 14305114746093.
Proof. rewrite (block_reward_exact 300000 450000 0 16); [vm_compute; reflexivity|vm_compute; split; discriminate|lia|lia]. Defined.

Definition first_rewards : list (miner_block * Z) :=
  [(sample_block 19073486328125 7, 16); (sample_block 19073449948336 0, 16)].

Lemma emission_exact_witness : emit 0 first_rewards = Good 38146936276461 /\
  38146936276461 = Z.min MONEY_SUPPLY (0 + total (minted <$> first_rewards.*1)).
Proof.
  assert (emit 0 first_rewards = Good 38146936276461) as E by (vm_compute; reflexivity). split; [exact E|].
  refine (proj1 (emission_exact first_rewards 0 38146936276461 _ _ E)); [vm_compute; split; discriminate|].
  apply Forall_cons_2; [apply sample_block_wf; lia|]. apply Forall_cons_2; [apply sample_block_wf; lia|constructor].
Defined.

Lemma emission_reaches_tail_witness : minted (sample_block tail_reward 0) = tail_reward.
Proof.
  assert (forall b, b = (sample_block tail_reward 0, 16) -> miner_block_wf b.1 /\ full_block b) as Hb.
  { intros b ->. split; [apply sample_block_wf; vm_compute; split; congruence|vm_compute; split; discriminate]. }
  refine (proj1 (proj2 (emission_reaches_tail (MONEY_SUPPLY - 1) [(sample_block tail_reward 0, 16)] MONEY_SUPPLY
    (sample_block tail_reward 0) 16 MONEY_SUPPLY _ _ _ _ _ _))).
  - vm_compute; split; discriminate.
  - apply Forall_cons_2; [|apply Forall_cons_2; [|constructor]]; by apply (Hb (sample_block tail_reward 0, 16)).
  - apply Forall_cons_2; [|apply Forall_cons_2; [|constructor]]; by apply (Hb (sample_block tail_reward 0, 16)).
  - vm_compute. discriminate.
  - vm_compute. reflexivity.
  - vm_compute. reflexivity.
Defined.

Lemma constructed_coinbase_accepted_witness : exists outs,
  construct_miner_amounts 20 300000 0 450000 1234 2 16 = Good outs /\ (length outs <= 2)%nat /\
  accept_coinbase (MinerBlock outs 450000 1234 300000 []) 0 16 = Good 14305114746093.
Proof.
  destruct (constructed_coinbase_accepted 20 300000 0 450000 1234 2 16 [] 14305114746093) as (outs & E & Hl & Ha);
    [vm_compute; discriminate|lia|vm_compute; split; discriminate|lia|lia|lia|vm_compute; reflexivity|].
  exists outs. split; [exact E|]. split; [exact Hl|exact Ha].
Defined.

Lemma alternative_template_refused_witness :
  accept_coinbase (MinerBlock (match construct_miner_amounts 20 300000
      (update_alternative_coins 0 [19073486328125 + 600000]) 1000 0 1 16 with Good outs => outs | _ => [] end)
    1000 0 300000 []) 19073486328125 16 <> Good 38146936275300.
Proof.
  apply (alternative_template_refused (sample_block 19073486328125 600000) 0 16 19073486328125 20 300000 1000 0 1 []).
  - vm_compute. discriminate.
  - vm_compute. split; discriminate.
  - apply sample_block_wf; lia.
  - vm_compute. discriminate.
  - vm_compute. reflexivity.
  - vm_compute. discriminate.
  - lia.
  - lia.
  - lia.
  - vm_compute. split; discriminate.
  - vm_compute. reflexivity.
Defined.
