(* ===== verification/HardFork.v ===== *)
(** Hard forks: the voting state machine of [cryptonote_basic/hardfork.cpp] and
    the schedules of [hardforks/hardforks.cpp]. *)

From stdpp Require Import gmap.
From S2P Require Import Prelude Bytes Word.

Record hardfork_t := Fork { f_version : Z; f_height : Z; f_threshold : Z; f_time : Z }.

#[global] Instance hardfork_eq_dec : EqDecision hardfork_t.
Proof. solve_decision. Defined.

(** What the database keeps for the votes: the major and minor versions of the
    blocks and the table of recorded versions. *)
Record hf_db := HfDb { blocks : list (Z * Z); hf_versions : gmap Z Z }.

Definition db_height (db : hf_db) : Z := Z.of_nat (length (blocks db)).

(** The object; [last_versions] is the array of 256 counters. *)
Record hard_fork := HardFork {
  forked_time : Z;
  update_time : Z;
  window_size : Z;
  default_threshold_percent : Z;
  original_version : Z;
  original_version_till_height : Z;
  heights : list hardfork_t;
  versions : list Z;
  last_versions : gmap Z Z;
  current_fork_index : nat;
}.

Definition DEFAULT_FORKED_TIME : Z := 31557600.
Definition DEFAULT_UPDATE_TIME : Z := 31557600 / 2.
Definition DEFAULT_WINDOW_SIZE : Z := 10080.
Definition DEFAULT_THRESHOLD_PERCENT : Z := 80.

(** The constructor with the default arguments. *)
Definition new_hard_fork (original_version original_version_till_height : Z) : hard_fork :=
  HardFork DEFAULT_FORKED_TIME DEFAULT_UPDATE_TIME DEFAULT_WINDOW_SIZE DEFAULT_THRESHOLD_PERCENT
    original_version original_version_till_height [] [] ∅ 0.

Definition with_heights (h : hard_fork) (l : list hardfork_t) : hard_fork :=
  HardFork (forked_time h) (update_time h) (window_size h) (default_threshold_percent h)
    (original_version h) (original_version_till_height h) l (versions h) (last_versions h) (current_fork_index h).

Definition with_votes (h : hard_fork) (v : list Z) (l : gmap Z Z) : hard_fork :=
  HardFork (forked_time h) (update_time h) (window_size h) (default_threshold_percent h)
    (original_version h) (original_version_till_height h) (heights h) v l (current_fork_index h).

Definition with_index (h : hard_fork) (i : nat) : hard_fork :=
  HardFork (forked_time h) (update_time h) (window_size h) (default_threshold_percent h)
    (original_version h) (original_version_till_height h) (heights h) (versions h) (last_versions h) i.

(** ** The schedule *)

Definition add_fork (h : hard_fork) (version height threshold time : Z) : bool * hard_fork :=
  let in_order := match last (heights h) with
    | Some f => negb ((version <=? f_version f) || (height <=? f_height f) || (time <=? f_time f))
    | None => true
    end in
  if negb (version =? 0) && in_order && (threshold <=? 100)
  then (true, with_heights h (heights h ++ [Fork version height threshold time]))
  else (false, h).

(** [Blockchain::init] adds the forks of a table. *)
Definition add_forks (h : hard_fork) (forks : list hardfork_t) : hard_fork :=
  foldl (fun h f => (add_fork h (f_version f) (f_height f) (f_threshold f) (f_time f)).2) h forks.

Definition mainnet_hard_forks : list hardfork_t :=
  [Fork 1 1 0 1; Fork 2 2 0 2; Fork 3 3 0 3; Fork 4 4 0 4;
   Fork 5 5 0 5; Fork 6 6 0 6; Fork 7 7 0 7; Fork 8 8 0 8;
   Fork 9 9 0 9; Fork 10 10 0 10; Fork 11 11 0 11; Fork 12 12 0 12;
   Fork 13 13 0 13; Fork 14 14 0 14; Fork 15 15 0 15; Fork 16 16 0 16].
Definition mainnet_hard_fork_version_1_till : Z := 1.

Definition testnet_hard_forks : list hardfork_t :=
  [Fork 1 1 0 1; Fork 2 2 0 2; Fork 3 3 0 3; Fork 4 4 0 4;
   Fork 5 5 0 5; Fork 6 6 0 6; Fork 7 7 0 7; Fork 8 8 0 8;
   Fork 9 9 0 9; Fork 10 10 0 10; Fork 11 11 0 11; Fork 12 12 0 12;
   Fork 13 13 0 13; Fork 14 14 0 14; Fork 15 15 0 15; Fork 16 16 0 16].
Definition testnet_hard_fork_version_1_till : Z := 1.

Definition stagenet_hard_forks : list hardfork_t :=
  [Fork 1 1 0 1; Fork 2 2 0 2; Fork 3 3 0 3; Fork 4 4 0 4;
   Fork 5 5 0 5; Fork 6 6 0 6; Fork 7 7 0 7; Fork 8 8 0 8;
   Fork 9 9 0 9; Fork 10 10 0 10; Fork 11 11 0 11; Fork 12 12 0 12;
   Fork 13 13 0 13; Fork 14 14 0 14; Fork 15 15 0 15; Fork 16 16 0 16].

(** ** Votes *)

Definition get_block_vote (b : Z * Z) : Z := if b.2 =? 0 then 1 else b.2.
Definition get_block_version (b : Z * Z) : Z := b.1.

Definition get_effective_version (h : hard_fork) (voting_version : Z) : Z :=
  match last (heights h) with
  | Some f => if f_version f <? voting_version then f_version f else voting_version
  | None => voting_version
  end.

Definition fork_at (h : hard_fork) (i : nat) : outcome hardfork_t :=
  match heights h !! i with Some f => Good f | None => Wild end.

Definition votes_for (l : gmap Z Z) (v : Z) : Z := default 0 (l !! v).
Definition count_up (l : gmap Z Z) (v : Z) : gmap Z Z := <[v := u32 (votes_for l v + 1)]> l.
Definition count_down (l : gmap Z Z) (v : Z) : gmap Z Z := <[v := u32 (votes_for l v - 1)]> l.

Definition do_check (h : hard_fork) (block_version voting_version : Z) : outcome bool :=
  f ← fork_at h (current_fork_index h);
  Good ((block_version =? f_version f) && (f_version f <=? voting_version)).

Definition check (h : hard_fork) (b : Z * Z) : outcome bool := do_check h (get_block_version b) (get_block_vote b).

(** The loop from the last fork; [forks] is what is left of the reversed list. *)
Fixpoint voted_from (h : hard_fork) (height accumulated_votes : Z) (forks : list hardfork_t) : nat :=
  match forks with
  | [] => current_fork_index h
  | f :: forks =>
      let accumulated_votes := u32 (accumulated_votes + votes_for (last_versions h) (f_version f)) in
      let threshold := u32 (u64 (u64 (window_size h * f_threshold f) + 99) / 100) in
      if (f_height f <=? height) && (threshold <=? accumulated_votes) then length forks
      else voted_from h height accumulated_votes forks
  end.

Definition get_voted_fork_index (h : hard_fork) (height : Z) : nat := voted_from h height 0 (reverse (heights h)).

Definition do_check_for_height (h : hard_fork) (block_version voting_version height : Z) : outcome bool :=
  f ← fork_at h (get_voted_fork_index h height);
  Good ((block_version =? f_version f) && (f_version f <=? voting_version)).

Definition check_for_height (h : hard_fork) (b : Z * Z) (height : Z) : outcome bool :=
  do_check_for_height h (get_block_version b) (get_block_vote b) height.

(** [uint8_t voted = get_voted_fork_index(height); if (voted > current) ...] *)
Definition advance (h : hard_fork) (height : Z) : hard_fork :=
  let voted := Z.to_nat (Z.of_nat (get_voted_fork_index h height) mod 256) in
  if (current_fork_index h <? voted)%nat then with_index h voted else h.

(** [while (versions.size() >= window_size)] *)
Fixpoint shrink (window : Z) (v : list Z) (l : gmap Z Z) : list Z * gmap Z Z :=
  match v with
  | old_version :: v' =>
      if window <=? Z.of_nat (length v) then shrink window v' (count_down l old_version) else (v, l)
  | [] => ([], l)
  end.

Definition add (h : hard_fork) (db : hf_db) (block_version voting_version height : Z) :
  outcome (bool * hard_fork * hf_db) :=
  ok ← do_check h block_version voting_version;
  if negb ok then Good (false, h, db)
  else
    f ← fork_at h (current_fork_index h);
    let db := HfDb (blocks db) (<[height := f_version f]> (hf_versions db)) in
    let voting_version := get_effective_version h voting_version in
    let '(v, l) := shrink (window_size h) (versions h) (last_versions h) in
    let h := with_votes h (v ++ [voting_version]) (count_up l voting_version) in
    Good (true, advance h (height + 1), db).

Definition add_block_vote (h : hard_fork) (db : hf_db) (b : Z * Z) (height : Z) :=
  add h db (get_block_version b) (get_block_vote b) height.

(** ** The state after a start, a reorganisation and a pop *)

(** The votes of the blocks, from a state without votes. *)
Definition count_blocks (h : hard_fork) (bs : list (Z * Z)) : hard_fork :=
  let vs := (fun b => get_effective_version h (get_block_vote b)) <$> bs in
  with_votes h vs (foldl count_up ∅ vs).

Definition get_hard_fork_version (db : hf_db) (height : Z) : outcome Z :=
  match hf_versions db !! height with Some v => Good v | None => Thrown "no hard fork version at height" end.

(** [while (index + 1 < heights.size() && heights[index].version != lastv)] *)
Fixpoint find_version (forks : list hardfork_t) (lastv : Z) : nat :=
  match forks with
  | f :: ((_ :: _) as rest) => if f_version f =? lastv then 0 else S (find_version rest lastv)
  | _ => 0
  end.

Definition rescan_from_block_height (h : hard_fork) (db : hf_db) (height : Z) : outcome (bool * hard_fork) :=
  if db_height db <=? height then Good (false, h)
  else
    let h := count_blocks h (drop (Z.to_nat height) (blocks db)) in
    lastv ← get_hard_fork_version db (db_height db - 1);
    let h := with_index h (find_version (heights h) lastv) in
    Good (true, advance h (db_height db)).

Definition rescan_from_chain_height (h : hard_fork) (db : hf_db) (height : Z) : outcome (bool * hard_fork) :=
  if height =? 0 then Good (false, h) else rescan_from_block_height h db (height - 1).

Definition init (h : hard_fork) (db : hf_db) : outcome hard_fork :=
  let h := if (length (heights h) =? 0)%nat then with_heights h [Fork (original_version h) 0 0 0] else h in
  let h := with_index (with_votes h [] ∅) 0 in
  let height := db_height db in
  let height := if window_size h <? height then height - (window_size h - 1) else 1 in
  '(_, h) ← rescan_from_chain_height h db height;
  Good h.

(** [while (index > 0 && heights[index].version > start_version) --index;] *)
Fixpoint step_back (h : hard_fork) (index : nat) (start_version : Z) : outcome nat :=
  match index with
  | O => Good 0%nat
  | S i => f ← fork_at h index; if start_version <? f_version f then step_back h i start_version else Good index
  end.

(** [for (h = height + 1; h < bc_height; ++h) add(db.get_block_from_height(h), h);] *)
Fixpoint add_blocks (h : hard_fork) (db : hf_db) (bs : list (Z * Z)) (height : Z) : outcome (hard_fork * hf_db) :=
  match bs with
  | [] => Good (h, db)
  | b :: bs => '(_, h, db) ← add_block_vote h db b height; add_blocks h db bs (height + 1)
  end.

Definition reorganize_from_block_height (h : hard_fork) (db : hf_db) (height : Z) :
  outcome (bool * hard_fork * hf_db) :=
  if db_height db <=? height then Good (false, h, db)
  else
    let rescan_height := if window_size h - 1 <=? height then height - (window_size h - 1) else 0 in
    start_version ← (if height =? 0 then Good (original_version h) else get_hard_fork_version db height);
    index ← step_back h (current_fork_index h) start_version;
    let h := with_index h index in
    let h := count_blocks h (drop (Z.to_nat rescan_height) (take (Z.to_nat (height + 1)) (blocks db))) in
    let h := advance h (height + 1) in
    '(h, db) ← add_blocks h db (drop (Z.to_nat (height + 1)) (blocks db)) (height + 1);
    Good (true, h, db).

Definition reorganize_from_chain_height (h : hard_fork) (db : hf_db) (height : Z) :
  outcome (bool * hard_fork * hf_db) :=
  if height =? 0 then Good (false, h, db) else reorganize_from_block_height h db (height - 1).

(** The loop over the popped heights, [n] of them, the highest first. *)
Fixpoint pop_votes (n : nat) (new_chain_height : Z) (db : hf_db) (v : list Z) (l : gmap Z Z) :
  outcome (list Z * gmap Z Z) :=
  match n with
  | O => Good (v, l)
  | S n =>
      match last v with
      | None => Wild
      | Some version =>
          let l := count_down l version in
          version ← get_hard_fork_version db (new_chain_height + Z.of_nat n);
          pop_votes n new_chain_height db (version :: removelast v) (count_up l version)
      end
  end.

(** The last fork, from [n] down, that is not above the height. *)
Fixpoint index_for (h : hard_fork) (height : Z) (n : nat) : outcome nat :=
  match n with
  | O => Good 0%nat
  | S m => f ← fork_at h n; if f_height f <=? height then Good n else index_for h height m
  end.

(** After [nblocks] blocks have been removed from [db]. *)
Definition on_block_popped (h : hard_fork) (db : hf_db) (nblocks : nat) : outcome hard_fork :=
  if (nblocks =? 0)%nat then Thrown "nblocks must be greater than 0"
  else
    '(v, l) ← pop_votes nblocks (db_height db) db (versions h) (last_versions h);
    index ← index_for h (db_height db) (length (heights h) - 1);
    Good (with_index (with_votes h v l) index).

(** ** Queries *)

Definition get_current_version (h : hard_fork) : outcome Z :=
  f ← fork_at h (current_fork_index h); Good (f_version f).

Definition get_ideal_version (h : hard_fork) : outcome Z :=
  match last (heights h) with Some f => Good (f_version f) | None => Wild end.

(** The loop over the reversed list, without its last element. *)
Fixpoint ideal_from (height original : Z) (forks : list hardfork_t) : Z :=
  match forks with
  | f :: ((_ :: _) as rest) => if f_height f <=? height then f_version f else ideal_from height original rest
  | _ => original
  end.

Definition get_ideal_version_at (h : hard_fork) (height : Z) : Z :=
  ideal_from height (original_version h) (reverse (heights h)).

Definition get (h : hard_fork) (db : hf_db) (height : Z) : outcome Z :=
  if db_height db <? height then Good 255
  else if height =? db_height db then get_current_version h
  else get_hard_fork_version db height.

Fixpoint earliest_from (version height : Z) (forks : list hardfork_t) : Z :=
  match forks with
  | f :: forks => if version <=? f_version f then earliest_from version (f_height f) forks else height
  | [] => height
  end.

Definition get_earliest_ideal_height_for_version (h : hard_fork) (version : Z) : Z :=
  earliest_from version (2 ^ 64 - 1) (reverse (heights h)).

(** [previous] is the fork after [f], if there is one. *)
Fixpoint next_from (height : Z) (previous : option hardfork_t) (forks : list hardfork_t) : option Z :=
  match forks with
  | f :: forks => if f_height f <=? height then Some (f_version (default f previous))
                  else next_from height (Some f) forks
  | [] => None
  end.

Definition get_next_version (h : hard_fork) (db : hf_db) : Z :=
  default (original_version h) (next_from (db_height db) None (reverse (heights h))).

Inductive fork_state := LikelyForked | UpdateNeeded | Ready.

Definition get_state (h : hard_fork) (t : Z) : fork_state :=
  if (length (heights h) <=? 1)%nat then Ready
  else match last (heights h) with
    | Some f => if f_time f + forked_time h <=? t then LikelyForked
                else if f_time f + update_time h <=? t then UpdateNeeded else Ready
    | None => Ready
    end.

(** Whether the version is enabled, then the window, the votes for the version
    or later ones, the threshold, the earliest height and the last version. *)
Definition get_voting_info (h : hard_fork) (version : Z) : outcome (bool * Z * Z * Z * Z * Z) :=
  f ← fork_at h (current_fork_index h);
  voting ← get_ideal_version h;
  let window := u32 (Z.of_nat (length (versions h))) in
  let votes := foldl (fun votes n => u32 (votes + votes_for (last_versions h) n)) 0
    (seqZ version (256 - version)) in
  let threshold := u32 (u32 (window * f_threshold f) + 99) / 100 in
  Good (version <=? f_version f, window, votes, threshold,
    get_earliest_ideal_height_for_version h version, voting).

(** ** Runs of a node

    Blocks that pass [check] are added with [add], the last block is popped
    together with [on_block_popped], a chain switch ends in
    [reorganize_from_chain_height], and a restart runs [init]. *)
Inductive hf_step (start : hard_fork) : hard_fork * hf_db -> hard_fork * hf_db -> Prop :=
| hf_add h db b r : db_height db + 1 < 2 ^ 64 -> check h b = Good true ->
    add_block_vote h (HfDb (blocks db ++ [b]) (hf_versions db)) b (db_height db) = Good r ->
    hf_step start (h, db) (r.1.2, r.2)
| hf_pop h db b h' : blocks db <> [] ->
    on_block_popped h db 1 = Good h' ->
    hf_step start (h, HfDb (blocks db ++ [b]) (hf_versions db)) (h', db)
| hf_reorganize h db height r : 1 <= height <= db_height db ->
    reorganize_from_chain_height h db height = Good r ->
    hf_step start (h, db) (r.1.2, r.2)
| hf_restart h db h' :
    init start db = Good h' ->
    hf_step start (h, db) (h', db).

(** A node that starts with an empty database. *)
Definition hf_reachable (start h : hard_fork) (db : hf_db) : Prop :=
  exists h0, init start (HfDb [] ∅) = Good h0 /\ rtc (hf_step start) (h0, HfDb [] ∅) (h, db).
