(* ===== verification/HardForkProps.v ===== *)
(** Forks with threshold zero happen on schedule: after any additions, pops,
    reorganisations and restarts the current version is the one the schedule
    has for the height. *)

From stdpp Require Import gmap sorting.
From S2P Require Import Prelude Bytes Word HardFork.

(** ** Schedules *)

(** How many forks after the first one are in effect at a height. *)
Definition reached (fs : list hardfork_t) (height : Z) : nat :=
  length (filter (fun f => (f_height f <= height)%Z) (tail fs)).

(** A schedule: versions and heights increase, no fork needs votes, and the
    first fork has the version of the genesis block. *)
Record scheduled (original : Z) (fs : list hardfork_t) : Prop := {
  sch_first : exists f, head fs = Some f /\ f_version f = original /\ 0 <= f_height f;
  sch_versions : StronglySorted (fun f g => (f_version f < f_version g)%Z) fs;
  sch_heights : StronglySorted (fun f g => (f_height f < f_height g)%Z) fs;
  sch_thresholds : Forall (fun f => f_threshold f = 0) fs;
  sch_length : (length fs <= 256)%nat;
}.

Lemma reached_lt fs height : fs <> [] -> (reached fs height < length fs)%nat.
Proof.
  intros Hne. unfold reached. destruct fs as [|f fs]; [done|]. cbn [tail length].
  pose proof (length_filter (fun f => (f_height f <= height)%Z) fs). lia.
Qed.

Lemma reached_mono fs x y : x <= y -> (reached fs x <= reached fs y)%nat.
Proof.
  intros Hle. unfold reached. induction (tail fs) as [|f l IH]; [done|]. rewrite !filter_cons.
  repeat destruct (decide _); cbn [length]; lia.
Qed.

(** The last fork of a schedule decides first. *)
Lemma reached_snoc fs f height : StronglySorted (fun f g => (f_height f < f_height g)%Z) (fs ++ [f]) ->
  fs <> [] -> reached (fs ++ [f]) height = if decide (f_height f <= height) then length fs else reached fs height.
Proof.
  intros Hs Hne. unfold reached. destruct fs as [|f0 fs]; [done|]. cbn [tail app length].
  rewrite filter_app, length_app, filter_cons. destruct (decide (f_height f <= height)) as [Hle|Hle].
  - rewrite filter_all; [cbn; lia|]. apply Forall_forall. intros x Hx.
    assert (f_height x < f_height f)%Z; [|lia].
    apply (StronglySorted_app_1_elem_of _ (f0 :: fs) [f] x f Hs); set_solver.
  - cbn. lia.
Qed.

Section Scheduled.
Context (h : hard_fork) (fs : list hardfork_t) (Hh : heights h = fs).
Context (Hsch : scheduled (original_version h) fs).

Lemma scheduled_nonempty : fs <> [].
Proof. destruct (sch_first _ _ Hsch) as (f & Hf & _). by destruct fs. Qed.

Lemma reached_start : reached fs 0 = 0%nat.
Proof.
  destruct (sch_first _ _ Hsch) as (f & Hf & _ & Hpos). pose proof (sch_heights _ _ Hsch) as Hs.
  destruct fs as [|f0 l]; [done|]. cbn in Hf. simplify_eq. unfold reached. cbn [tail].
  apply StronglySorted_inv in Hs as [_ Hall]. replace (filter _ l) with (@nil hardfork_t); [done|].
  clear Hsch Hh. symmetry. induction Hall as [|x l Hx _ IH]; [done|]. rewrite filter_cons_False by lia. apply IH.
Qed.

(** No votes are needed: the scan finds the schedule. *)
Lemma voted_from_eq height : forall l acc, StronglySorted (fun f g => (f_height f < f_height g)%Z) l ->
  Forall (fun f => f_threshold f = 0) l -> l <> [] ->
  voted_from h height acc (reverse l) =
    if decide (Exists (fun f => (f_height f <= height)%Z) l) then reached l height else current_fork_index h.
Proof.
  induction l as [|f l IH] using rev_ind; intros acc Hs Ht Hne; [done|]. rewrite reverse_snoc.
  cbn [voted_from]. apply Forall_app in Ht as [Ht Hf]. apply Forall_cons_1 in Hf as [Hf _].
  rewrite Hf, Z.mul_0_r.
  change (u32 (u64 (u64 0 + 99) / 100)) with 0.
  assert (forall x, (0 <=? u32 x) = true) as -> by (intros x; apply Z.leb_le; unfold u32; zlia).
  rewrite andb_true_r, length_reverse. destruct (Z.leb_spec (f_height f) height) as [Hle|Hlt].
  - rewrite decide_True by (apply Exists_app; right; by constructor). destruct l as [|f0 l]; [done|].
    rewrite reached_snoc by done. by rewrite decide_True.
  - assert (Exists (fun f => (f_height f <= height)%Z) (l ++ [f]) <-> Exists (fun f => (f_height f <= height)%Z) l) as Hiff.
    { rewrite Exists_app, Exists_cons, Exists_nil. intuition lia. }
    destruct l as [|f0 l]; [by rewrite decide_False by (rewrite Hiff, Exists_nil; tauto)|].
    rewrite IH; [|by eapply StronglySorted_app_1_l|done|done].
    rewrite (reached_snoc (f0 :: l) f), (decide_False (P := f_height f <= height)) by (done || lia).
    by destruct (decide (Exists _ (f0 :: l))), (decide (Exists _ ((f0 :: l) ++ [f]))); tauto.
Qed.

Lemma advance_index height : (current_fork_index h <= reached fs height)%nat ->
  current_fork_index (advance h height) = reached fs height.
Proof.
  intros Hle. unfold advance, get_voted_fork_index.
  rewrite Hh, voted_from_eq; [|apply Hsch|apply Hsch|apply scheduled_nonempty].
  pose proof (reached_lt fs height scheduled_nonempty) as Hlt. pose proof (sch_length _ _ Hsch).
  assert (forall n, (n < length fs)%nat -> Z.to_nat (Z.of_nat n mod 256) = n) as Hmod.
  { intros n Hn. rewrite Z.mod_small by lia. lia. }
  destruct (decide _) as [He|He].
  - rewrite Hmod by done. destruct (Nat.ltb_spec (current_fork_index h) (reached fs height)); cbn; lia.
  - rewrite Hmod by lia. rewrite Nat.ltb_irrefl. enough (reached fs height = 0%nat) by lia.
    unfold reached. enough (filter (fun f => (f_height f <= height)%Z) (tail fs) = []) as -> by done.
    destruct (filter _ _) as [|x l] eqn:E; [done|]. exfalso. apply He, Exists_exists.
    assert (x ∈ filter (fun f => (f_height f <= height)%Z) (tail fs)) as Hx by (rewrite E; set_solver).
    apply list_elem_of_filter in Hx as [? Hx]. exists x. split; [|done]. destruct fs; [done|]. set_solver.
Qed.

Lemma fork_at_reached height : exists f, fs !! reached fs height = Some f /\ fork_at h (reached fs height) = Good f.
Proof.
  destruct (lookup_lt_is_Some_2 fs (reached fs height)) as [f Hf]; [apply reached_lt, scheduled_nonempty|].
  exists f. split; [done|]. unfold fork_at. by rewrite Hh, Hf.
Qed.

Lemma version_lt i j f g : fs !! i = Some f -> fs !! j = Some g -> (i < j)%nat -> f_version f < f_version g.
Proof.
  intros Hf Hg Hij. pose proof (sch_versions _ _ Hsch) as Hs.
  apply (StronglySorted_app_1_elem_of (fun f g => f_version f < f_version g) (take j fs) (drop j fs)).
  - by rewrite take_drop.
  - apply list_elem_of_lookup. exists i. by rewrite lookup_take_lt.
  - apply list_elem_of_lookup. exists 0%nat. by rewrite lookup_drop, Nat.add_0_r.
Qed.

(** The scan after a pop. *)
Lemma index_for_eq height n : (n < length fs)%nat -> index_for h height n = Good (reached (take (S n) fs) height).
Proof.
  induction n as [|n IH]; intros Hn; cbn [index_for]; [destruct fs; done|].
  destruct (lookup_lt_is_Some_2 fs (S n)) as [f Hf]; [done|]. unfold fork_at. rewrite Hh, Hf, bind_of_Good.
  rewrite (take_S_r _ _ _ Hf). pose proof (sch_heights _ _ Hsch) as Hs.
  rewrite <- (take_drop (S (S n)) fs) in Hs. apply StronglySorted_app_1_l in Hs. rewrite (take_S_r _ _ _ Hf) in Hs.
  rewrite reached_snoc; [|done|]; [|intros E; apply (f_equal length) in E; rewrite length_take in E; cbn [length] in E; lia].
  destruct (Z.leb_spec (f_height f) height), (decide (f_height f <= height)); try lia; [|by rewrite IH by lia].
  rewrite length_take, Nat.min_l by lia. done.
Qed.

(** The steps back before a rescan. *)
Lemma step_back_eq j fj : fs !! j = Some fj -> forall i, (j <= i < length fs)%nat ->
  step_back h i (f_version fj) = Good j.
Proof.
  intros Hj. induction i as [|i IH]; intros Hi; cbn [step_back]; [by replace j with 0%nat by lia|].
  destruct (lookup_lt_is_Some_2 fs (S i)) as [f Hf]; [lia|]. unfold fork_at. rewrite Hh, Hf, bind_of_Good.
  destruct (decide (j = S i)) as [->|Hne].
  - rewrite Hj in Hf. injection Hf as <-. by rewrite Z.ltb_irrefl.
  - pose proof (version_lt j (S i) fj f Hj Hf ltac:(lia)). replace (f_version fj <? f_version f) with true by lia.
    apply IH. lia.
Qed.

Lemma advance_rest height : heights (advance h height) = heights h /\ versions (advance h height) = versions h /\
  last_versions (advance h height) = last_versions h /\ window_size (advance h height) = window_size h /\
  original_version (advance h height) = original_version h.
Proof. unfold advance. by case_if. Qed.
End Scheduled.

(** The search for a recorded version. *)
Lemma find_version_eq fs : forall j f, StronglySorted (fun f g => (f_version f < f_version g)%Z) fs ->
  fs !! j = Some f -> find_version fs (f_version f) = j.
Proof.
  induction fs as [|g fs IH]; intros j f Hs Hj; [done|]. apply StronglySorted_inv in Hs as [Hs Hall].
  destruct j as [|j]; cbn in Hj.
  - simplify_eq. cbn. destruct fs; [done|]. by rewrite Z.eqb_refl.
  - cbn. destruct fs as [|g' fs]; [done|]. apply list_elem_of_lookup_2 in Hj as Hin.
    rewrite Forall_forall in Hall. specialize (Hall _ Hin). replace (f_version g =? f_version f) with false by lia.
    f_equal. by apply IH.
Qed.

(** The schedule the code reads off for a height. *)
Lemma ideal_version_eq h height f : scheduled (original_version h) (heights h) ->
  heights h !! reached (heights h) height = Some f -> get_ideal_version_at h height = f_version f.
Proof.
  intros Hsch. unfold get_ideal_version_at. destruct (sch_first _ _ Hsch) as (f0 & Hf0 & <- & _).
  pose proof (sch_heights _ _ Hsch) as Hs. clear Hsch. revert f0 f Hf0 Hs.
  induction (heights h) as [|g l IH] using rev_ind; intros f0 f Hf0 Hs Hf; [done|].
  rewrite reverse_snoc. destruct l as [|f1 l].
  - cbn in *. by simplify_eq.
  - cbn in Hf0. simplify_eq. rewrite reached_snoc in Hf by done.
    destruct (reverse (f0 :: l)) as [|x k] eqn:Er; [by apply (f_equal length) in Er; rewrite length_reverse in Er|].
    change (ideal_from height (f_version f0) (g :: x :: k)) with
      (if f_height g <=? height then f_version g else ideal_from height (f_version f0) (x :: k)).
    destruct (Z.leb_spec (f_height g) height), (decide (f_height g <= height)); try lia.
    + rewrite list_lookup_middle in Hf by done. by simplify_eq.
    + apply IH; [done|by eapply StronglySorted_app_1_l|].
      rewrite lookup_app_l in Hf; [done|]. by apply reached_lt.
Qed.

(** ** Votes *)

Definition count (v : Z) (l : list Z) : Z := Z.of_nat (length (filter (fun x => x = v) l)).

Lemma count_app v l k : count v (l ++ k) = count v l + count v k.
Proof. unfold count. rewrite filter_app, length_app. lia. Qed.

Lemma count_cons v x l : count v (x :: l) = count v [x] + count v l.
Proof. apply (count_app v [x] l). Qed.

Lemma count_one v x : count v [x] = if decide (x = v) then 1 else 0.
Proof. unfold count. rewrite filter_cons, filter_nil. by destruct (decide (x = v)). Qed.

Lemma count_range v l : 0 <= count v l <= Z.of_nat (length l).
Proof. unfold count. pose proof (length_filter (fun x => x = v) l). lia. Qed.

(** The counters are those of the window. *)
Definition counted (v : list Z) (l : gmap Z Z) : Prop := forall x, votes_for l x = count x v.

Lemma votes_insert l x n z : votes_for (<[x := n]> l) z = if decide (x = z) then n else votes_for l z.
Proof.
  unfold votes_for. destruct (decide (x = z)) as [->|Hne]; [by rewrite lookup_insert_eq|by rewrite lookup_insert_ne].
Qed.

Lemma counted_up v l x y : counted (v ++ y) l -> Z.of_nat (length (v ++ y)) + 1 < 2 ^ 32 ->
  counted (v ++ [x] ++ y) (count_up l x).
Proof.
  intros Hc Hlen z. unfold count_up. rewrite votes_insert, !Hc. pose proof (count_range z (v ++ y)).
  rewrite !count_app, count_one in *. destruct (decide (x = z)) as [->|Hne]; [|lia].
  unfold u32. rewrite Z.mod_small; lia.
Qed.

Lemma counted_down v l x y : counted (v ++ [x] ++ y) l -> Z.of_nat (length (v ++ [x] ++ y)) < 2 ^ 32 ->
  counted (v ++ y) (count_down l x).
Proof.
  intros Hc Hlen z. unfold count_down. rewrite votes_insert, !Hc. pose proof (count_range z v). pose proof (count_range z y).
  rewrite !length_app in Hlen. cbn [length] in Hlen. rewrite !count_app, !count_one.
  destruct (decide (x = z)) as [->|Hne]; [|lia]. rewrite decide_True by done. unfold u32. rewrite Z.mod_small; lia.
Qed.

Lemma counted_fold vs : forall v l, counted v l -> Z.of_nat (length v + length vs) < 2 ^ 32 ->
  counted (v ++ vs) (foldl count_up l vs).
Proof.
  induction vs as [|x vs IH]; intros v l Hc Hlen; cbn [foldl length] in *; [by rewrite app_nil_r|].
  change (x :: vs) with ([x] ++ vs). rewrite app_assoc. apply IH; [|rewrite length_app; cbn [length]; lia].
  pose proof (counted_up v l x []) as Hu. rewrite !app_nil_r in Hu. apply Hu; [done|lia].
Qed.

Lemma counted_empty : counted [] ∅.
Proof. intros x. unfold votes_for. by rewrite lookup_empty. Qed.

Lemma shrink_counted window : forall v l v' l', 1 <= window -> counted v l -> Z.of_nat (length v) < 2 ^ 32 ->
  shrink window v l = (v', l') -> counted v' l' /\ Z.of_nat (length v') < window /\ Z.of_nat (length v') <= Z.of_nat (length v).
Proof.
  induction v as [|x v IH]; intros l v' l' Hw Hc Hlen E; cbn [shrink] in E.
  { injection E as <- <-. cbn. split; [done|lia]. }
  destruct (Z.leb_spec window (Z.of_nat (length (x :: v)))).
  - apply IH in E; [cbn [length]; intuition lia|done|apply (counted_down [] l x v Hc Hlen)|cbn [length] in *; lia].
  - injection E as <- <-. split; [done|lia].
Qed.

(** ** The invariant of a node *)

Section Node.
Context (start : hard_fork) (Hsch : scheduled (original_version start) (heights start)).
Context (Hwindow : 1 <= window_size start < 2 ^ 31).

Abbreviation fs := (heights start).

Lemma fs_nonempty : fs <> [].
Proof. by apply (scheduled_nonempty start). Qed.

Lemma fs_start : reached fs 0 = 0%nat.
Proof. by apply (reached_start start). Qed.

(** The version the schedule has for a height. *)
Definition version_at (height : Z) : Z := get_ideal_version_at start height.

Lemma version_at_fork height f : fs !! reached fs height = Some f -> version_at height = f_version f.
Proof. by apply ideal_version_eq. Qed.

Record config (h : hard_fork) : Prop := {
  cf_heights : heights h = fs;
  cf_window : window_size h = window_size start;
  cf_original : original_version h = original_version start;
}.

(** The blocks and the recorded versions up to a height. *)
Definition recorded (bs : list (Z * Z)) (versions : gmap Z Z) : Prop := forall i b, bs !! i = Some b ->
  get_block_version b = version_at (Z.of_nat i) /\ version_at (Z.of_nat i) <= get_block_vote b /\
  versions !! Z.of_nat i = Some (version_at (Z.of_nat i)).

(** The votes are counted, and there are some if there are blocks. *)
Record voting (h : hard_fork) (some : Prop) : Prop := {
  vt_counted : counted (versions h) (last_versions h);
  vt_window : Z.of_nat (length (versions h)) <= window_size start;
  vt_some : some -> versions h <> [];
}.

Record on_schedule (h : hard_fork) (db : hf_db) : Prop := {
  os_config : config h;
  os_index : current_fork_index h = reached fs (db_height db);
  os_recorded : recorded (blocks db) (hf_versions db);
  os_voting : voting h (blocks db <> []);
}.

Lemma config_scheduled h : config h -> scheduled (original_version h) (heights h).
Proof. intros [-> _ ->]. done. Qed.

(** The check of a block at the index of a height. *)
Lemma do_check_eq h height bv vv : config h -> current_fork_index h = reached fs height ->
  do_check h bv vv = Good ((bv =? version_at height) && (version_at height <=? vv)).
Proof.
  intros Hc Hi. unfold do_check. destruct (fork_at_reached h fs (cf_heights _ Hc)) with height as (f & Hf & E).
  { rewrite (cf_original _ Hc). apply Hsch. }
  rewrite Hi, E, bind_of_Good. by rewrite (version_at_fork _ _ Hf).
Qed.

Lemma advance_eq h height : config h -> (current_fork_index h <= reached fs height)%nat ->
  current_fork_index (advance h height) = reached fs height.
Proof.
  intros Hc Hle. apply advance_index; [apply Hc|by rewrite (cf_original _ Hc)|done].
Qed.

Lemma advance_config h height : config h -> config (advance h height).
Proof. intros [? ? ?]. destruct (advance_rest h height) as (? & ? & ? & ? & ?). split; congruence. Qed.

Lemma advance_voting h height some : voting h some -> voting (advance h height) some.
Proof.
  intros [? ? ?]. destruct (advance_rest h height) as (? & Ev & El & ? & ?). split; rewrite ?Ev, ?El; done.
Qed.

(** One vote is added. *)
Lemma add_eq h db bv vv height some : config h -> voting h some -> 0 <= height ->
  current_fork_index h = reached fs height -> bv = version_at height -> version_at height <= vv ->
  exists h', add h db bv vv height = Good (true, h', HfDb (blocks db) (<[height := version_at height]> (hf_versions db))) /\
    config h' /\ voting h' True /\ current_fork_index h' = reached fs (height + 1).
Proof.
  intros Hc [Hv Hw _] Hpos Hi -> Hvote. unfold add. rewrite (do_check_eq h height) by done.
  rewrite Z.eqb_refl. replace (version_at height <=? vv) with true by lia. cbn [andb negb]. rewrite bind_of_Good.
  destruct (fork_at_reached h fs (cf_heights _ Hc)) with height as (f & Hf & E); [by rewrite (cf_original _ Hc)|].
  rewrite Hi, E, bind_of_Good, <- (version_at_fork _ _ Hf).
  destruct (shrink _ _ _) as [v l] eqn:Es. rewrite (cf_window _ Hc) in Es.
  apply shrink_counted in Es as (Hv' & Hlen & _); [|lia|done|lia].
  set (vote := get_effective_version h vv). set (h1 := with_votes h (v ++ [vote]) (count_up l vote)).
  assert (config h1) as Hc1 by (destruct Hc; by split).
  assert (voting h1 True) as Hv1.
  { split; cbn [versions last_versions h1 with_votes]; [|rewrite length_app; cbn [length]; lia|by destruct v].
    pose proof (counted_up v l vote []) as Hu. rewrite !app_nil_r in Hu. apply Hu; [done|lia]. }
  eexists. split; [reflexivity|]. split; [by apply advance_config|]. split; [by apply advance_voting|].
  apply advance_eq; [done|]. cbn. rewrite Hi. apply reached_mono. lia.
Qed.

Lemma recorded_insert bs versions height b : recorded bs versions -> Z.of_nat (length bs) = height ->
  get_block_version b = version_at height -> version_at height <= get_block_vote b ->
  recorded (bs ++ [b]) (<[height := version_at height]> versions).
Proof.
  intros Hr <- Hv Hvote i b' Hi. apply lookup_app_Some in Hi as [Hi|[Hge Hi]].
  - apply lookup_lt_Some in Hi as Hlt. destruct (Hr _ _ Hi) as (? & ? & ?). split_and!; [done..|].
    rewrite lookup_insert_ne by lia. done.
  - apply list_lookup_singleton_Some in Hi as [Hi <-]. replace i with (length bs) by lia.
    split_and!; [done..|]. by rewrite lookup_insert_eq.
Qed.

Lemma add_on_schedule h db b r : on_schedule h db -> check h b = Good true ->
  add_block_vote h (HfDb (blocks db ++ [b]) (hf_versions db)) b (db_height db) = Good r -> on_schedule r.1.2 r.2.
Proof.
  intros [Hc Hi Hr Hv] Hcheck E. unfold check in Hcheck. rewrite (do_check_eq h (db_height db)) in Hcheck by done.
  injection Hcheck as Hcheck. apply andb_true_iff in Hcheck as [Hbv%Z.eqb_eq Hvv%Z.leb_le].
  destruct (add_eq h (HfDb (blocks db ++ [b]) (hf_versions db)) (get_block_version b) (get_block_vote b) (db_height db) _ Hc Hv)
    as (h' & E' & Hc' & Hv' & Hi'); [unfold db_height; lia|done..|].
  unfold add_block_vote in E. rewrite E in E'. injection E' as ->. cbn [fst snd blocks hf_versions].
  split; [done| |by apply recorded_insert|].
  - rewrite Hi'. unfold db_height. cbn [blocks]. rewrite length_app. f_equal. cbn [length]. lia.
  - destruct Hv'. by split; auto.
Qed.

Lemma recorded_version bs versions i b : recorded bs versions -> bs !! i = Some b ->
  versions !! Z.of_nat i = Some (version_at (Z.of_nat i)).
Proof. intros Hr Hi. by apply (Hr i b Hi). Qed.

Lemma recorded_app bs bs' versions : recorded (bs ++ bs') versions -> recorded bs versions.
Proof. intros Hr i b Hi. apply Hr. by apply lookup_app_l_Some. Qed.

Lemma recorded_reinsert bs versions height : recorded bs versions ->
  recorded bs (<[height := version_at height]> versions).
Proof.
  intros Hr i b Hi. destruct (Hr i b Hi) as (? & ? & Hv). split_and!; [done..|].
  destruct (decide (height = Z.of_nat i)) as [->|Hne]; [by rewrite lookup_insert_eq|by rewrite lookup_insert_ne].
Qed.

Lemma voting_weaken h (some some' : Prop) : voting h some -> (some' -> some) -> voting h some'.
Proof. intros [? ? ?] Himp. split; auto. Qed.

(** A pop never fails, and ends on schedule. *)
Lemma pop_on_schedule h bs b versions : on_schedule h (HfDb (bs ++ [b]) versions) ->
  exists h', on_block_popped h (HfDb bs versions) 1 = Good h' /\ on_schedule h' (HfDb bs versions).
Proof.
  intros [Hc Hi Hr [Hv Hw Hs]]. unfold on_block_popped. cbn [Nat.eqb pop_votes].
  destruct (exists_last (Hs ltac:(by destruct bs))) as (v & x & Ev). rewrite Ev, last_snoc, removelast_last.
  unfold get_hard_fork_version, db_height. cbn [blocks hf_versions] in *. rewrite Z.add_0_r.
  rewrite (recorded_version _ _ (length bs) b Hr) by (by apply list_lookup_middle). rewrite !bind_of_Good.
  rewrite (cf_heights _ Hc). pose proof fs_nonempty as Hne. assert (0 < length fs)%nat by (destruct fs; [done|cbn; lia]).
  rewrite (index_for_eq h fs (cf_heights _ Hc)) by (rewrite ?(cf_original _ Hc); done || lia). rewrite bind_of_Good.
  replace (S (length fs - 1)) with (length fs) by lia. rewrite take_ge by done. eexists. split; [reflexivity|].
  rewrite Ev in Hv, Hw. rewrite length_app in Hw. cbn [length] in Hw.
  split; [destruct Hc; by split|done|by eapply recorded_app|].
  split; cbn [with_index with_votes HardFork.versions last_versions length]; [|lia|done].
  apply (counted_up [] _ _ v); [|cbn [app]; lia]. pose proof (counted_down v (last_versions h) x []) as Hd. rewrite !app_nil_r in Hd.
  apply Hd; [done|rewrite length_app; cbn [length]; lia].
Qed.

Lemma count_blocks_voting h bs : config h -> Z.of_nat (length bs) <= window_size start ->
  config (count_blocks h bs) /\ voting (count_blocks h bs) (bs <> []) /\
  current_fork_index (count_blocks h bs) = current_fork_index h.
Proof.
  intros Hc Hlen. unfold count_blocks. split; [destruct Hc; by split|]. split; [|done].
  set (vs := (fun b => get_effective_version h (get_block_vote b)) <$> bs).
  assert (length vs = length bs) as El by apply length_fmap.
  split; cbn [with_votes HardFork.versions last_versions].
  - apply (counted_fold vs [] ∅); [apply counted_empty|]. cbn [length]. lia.
  - lia.
  - by destruct bs.
Qed.

Lemma add_blocks_eq bs : forall h db height some, config h -> voting h some -> 0 <= height ->
  current_fork_index h = reached fs height ->
  (forall i b, bs !! i = Some b -> get_block_version b = version_at (height + Z.of_nat i) /\
    version_at (height + Z.of_nat i) <= get_block_vote b) ->
  recorded (blocks db) (hf_versions db) ->
  exists h' db', add_blocks h db bs height = Good (h', db') /\ blocks db' = blocks db /\
    recorded (blocks db') (hf_versions db') /\ config h' /\ voting h' some /\
    current_fork_index h' = reached fs (height + Z.of_nat (length bs)).
Proof.
  induction bs as [|b bs IH]; intros h db height some Hc Hv Hpos Hi Hbs Hr; cbn [add_blocks length].
  { exists h, db. rewrite Z.add_0_r. by split_and!. }
  destruct (Hbs 0%nat b eq_refl) as [Hbv Hvv]. rewrite Z.add_0_r in Hbv, Hvv.
  destruct (add_eq h db (get_block_version b) (get_block_vote b) height _ Hc Hv Hpos Hi Hbv Hvv)
    as (h1 & E1 & Hc1 & Hv1 & Hi1). unfold add_block_vote. rewrite E1, bind_of_Good.
  destruct (IH h1 (HfDb (blocks db) (<[height := version_at height]> (hf_versions db))) (height + 1) some)
    as (h' & db' & E & Hb & Hr' & Hc' & Hv' & Hi'); [done|by eapply voting_weaken|lia|done| |by apply recorded_reinsert|].
  - intros i b' Hb'. destruct (Hbs (S i) b' Hb') as [? ?].
    replace (height + 1 + Z.of_nat i) with (height + Z.of_nat (S i)) by lia. done.
  - exists h', db'. split_and!; try done. rewrite Hi'. f_equal. lia.
Qed.

(** A reorganisation never fails, and ends on schedule. *)
Lemma reorganize_on_schedule h db height : on_schedule h db -> 1 <= height <= db_height db ->
  exists h' db', reorganize_from_chain_height h db height = Good (true, h', db') /\
    blocks db' = blocks db /\ on_schedule h' db'.
Proof.
  intros [Hc Hi Hr Hv] Hh. unfold reorganize_from_chain_height, reorganize_from_block_height.
  set (t := height - 1). replace (height =? 0) with false by lia. replace (db_height db <=? t) with false by lia.
  destruct (fork_at_reached start fs eq_refl Hsch t) as (f & Hf & _).
  assert ((if t =? 0 then Good (original_version h) else get_hard_fork_version db t) = Good (f_version f)) as ->.
  { rewrite <- (version_at_fork _ _ Hf). destruct (Z.eqb_spec t 0) as [->|Ht].
    - rewrite (cf_original _ Hc). f_equal. unfold version_at. destruct (sch_first _ _ Hsch) as (f0 & Hf0 & <- & _).
      symmetry. apply ideal_version_eq; [done|]. rewrite fs_start. by rewrite <- head_lookup.
    - destruct (lookup_lt_is_Some_2 (blocks db) (Z.to_nat t)) as [b Hb]; [unfold db_height in *; lia|].
      unfold get_hard_fork_version. pose proof (recorded_version _ _ _ _ Hr Hb) as E.
      rewrite Z2Nat.id in E by lia. by rewrite E. }
  rewrite bind_of_Good, (step_back_eq h fs (cf_heights _ Hc)) with (j := reached fs t);
    [|by rewrite (cf_original _ Hc)|done|rewrite Hi; split; [apply reached_mono; lia|apply reached_lt, fs_nonempty]].
  rewrite bind_of_Good. rewrite (cf_window _ Hc).
  set (rescan := if window_size start - 1 <=? t then t - (window_size start - 1) else 0).
  set (bs := drop (Z.to_nat rescan) (take (Z.to_nat (t + 1)) (blocks db))).
  assert (length bs = Z.to_nat (t + 1 - rescan)) as Hlen.
  { unfold bs. rewrite length_drop, length_take. unfold db_height, rescan in *. case_if; lia. }
  assert (0 <= rescan <= t /\ t + 1 - rescan <= window_size start) as Hrescan by (unfold rescan; case_if; lia).
  destruct (count_blocks_voting (with_index h (reached fs t)) bs) as (Hc1 & Hv1 & Hi1); [destruct Hc; by split|lia|].
  destruct (add_blocks_eq (drop (Z.to_nat (t + 1)) (blocks db)) (advance (count_blocks (with_index h (reached fs t)) bs) (t + 1))
    db (t + 1) (bs <> [])) as (h' & db' & E & Hb & Hr' & Hc' & Hv' & Hi').
  - by apply advance_config.
  - by apply advance_voting.
  - lia.
  - apply advance_eq; [done|]. rewrite Hi1. cbn. apply reached_mono. lia.
  - intros i b Hb. rewrite lookup_drop in Hb. destruct (Hr _ _ Hb) as (? & ? & _).
    replace (t + 1 + Z.of_nat i) with (Z.of_nat (Z.to_nat (t + 1) + i)) by lia. done.
  - done.
  - rewrite E, bind_of_Good. exists h', db'. split_and!; [done|done|]. split; [done| |done|].
    + rewrite Hi'. f_equal. rewrite length_drop. unfold db_height in *. rewrite Hb. lia.
    + eapply voting_weaken; [done|]. intros _ E0. apply (f_equal length) in E0. rewrite Hlen in E0. cbn in E0. lia.
Qed.

(** A start never fails on a recorded chain, and ends on schedule. *)
Lemma init_on_schedule db : recorded (blocks db) (hf_versions db) ->
  exists h', init start db = Good h' /\ on_schedule h' db.
Proof.
  intros Hr. unfold init. pose proof fs_nonempty as Hne.
  replace (length fs =? 0)%nat with false by (by destruct fs).
  set (h := with_index (with_votes start [] ∅) 0). assert (config h) as Hc by (by split).
  change (window_size h) with (window_size start). unfold rescan_from_chain_height.
  set (height := if window_size start <? db_height db then _ else 1).
  assert (1 <= height /\ db_height db - (height - 1) <= window_size start /\ (height - 1 < db_height db \/ db_height db = 0)) as (H1 & H2 & H3).
  { unfold height. pose proof (Nat2Z.is_nonneg (length (blocks db))). unfold db_height in *. case_if; lia. }
  replace (height =? 0) with false by lia. unfold rescan_from_block_height.
  destruct (Z.leb_spec (db_height db) (height - 1)) as [Hle|Hlt].
  - rewrite bind_of_Good. exists h. split; [done|]. assert (blocks db = []) as Eb.
    { unfold db_height in *. destruct (blocks db); [done|]. cbn [length] in *. lia. }
    split; [done| |done|].
    + unfold db_height. rewrite Eb. symmetry. apply fs_start.
    + split; [apply counted_empty|cbn; lia|by rewrite Eb].
  - set (bs := drop (Z.to_nat (height - 1)) (blocks db)).
    assert (length bs = Z.to_nat (db_height db - (height - 1))) as Hlen by (unfold bs, db_height; rewrite length_drop; lia).
    destruct (count_blocks_voting h bs Hc) as (Hc1 & Hv1 & _); [lia|].
    destruct (lookup_lt_is_Some_2 (blocks db) (length (blocks db) - 1)) as [b Hb]; [unfold db_height in *; lia|].
    unfold get_hard_fork_version. replace (db_height db - 1) with (Z.of_nat (length (blocks db) - 1)) by (unfold db_height in *; lia).
    rewrite (recorded_version _ _ _ _ Hr Hb), !bind_of_Good.
    destruct (fork_at_reached start fs eq_refl Hsch (Z.of_nat (length (blocks db) - 1))) as (f & Hf & _).
    rewrite (version_at_fork _ _ Hf), (cf_heights _ Hc1), (find_version_eq fs _ f (sch_versions _ _ Hsch) Hf).
    eexists. split; [reflexivity|]. split; [| |done|].
    + apply advance_config. destruct Hc1. by split.
    + apply advance_eq; [destruct Hc1; by split|]. cbn. apply reached_mono. unfold db_height. lia.
    + apply advance_voting. destruct Hv1 as [? ? Hs]. split; [done|done|]. intros _. apply Hs.
      intros E0. apply (f_equal length) in E0. rewrite Hlen in E0. cbn in E0. lia.
Qed.
End Node.

(** ** Theorems *)

Lemma reachable_on_schedule start h db : scheduled (original_version start) (heights start) ->
  1 <= window_size start < 2 ^ 31 -> hf_reachable start h db -> on_schedule start h db.
Proof.
  intros Hsch Hw (h0 & E0 & Hr).
  assert (on_schedule start h0 (HfDb [] ∅)) as H0.
  { destruct (init_on_schedule start Hsch Hw (HfDb [] ∅)) as (h' & E & Hos); [by intros i b Hi|]. congruence. }
  apply rtc_ind_r with (P := fun st => on_schedule start st.1 st.2) in Hr; [done|done|].
  intros st st' _ Hst Hos. destruct Hst as [h1 db1 b r _ Hc E|h1 db1 b h' _ E|h1 db1 height r Hh E|h1 db1 h' E]; cbn [fst snd] in *.
  - by eapply add_on_schedule.
  - destruct db1 as [bs vs]. destruct (pop_on_schedule start Hsch Hw _ _ _ _ Hos) as (h2 & E2 & Hos2).
    cbn [blocks hf_versions] in *. congruence.
  - destruct (reorganize_on_schedule start Hsch Hw h1 db1 height Hos Hh) as (h2 & db2 & E2 & _ & Hos2).
    rewrite E in E2. by injection E2 as ->.
  - destruct (init_on_schedule start Hsch Hw db1 (os_recorded _ _ _ Hos)) as (h2 & E2 & Hos2). congruence.
Qed.

(** C10: forks without votes happen on schedule.  With the thresholds of the
    tables of this chain (zero), after any additions of checked blocks, pops,
    reorganisations and restarts, the current version is the one
    [get_ideal_version] has for the height of the chain, every block of the chain
    has the version of its height, and [get] finds it; and the counters of votes
    are those of the versions in the window. *)
Theorem fork_schedule_followed start h db :
  scheduled (original_version start) (heights start) -> 1 <= window_size start < 2 ^ 31 ->
  hf_reachable start h db ->
  get_current_version h = Good (get_ideal_version_at start (db_height db)) /\
  (forall i b, blocks db !! i = Some b ->
    get_block_version b = get_ideal_version_at start (Z.of_nat i) /\
    get h db (Z.of_nat i) = Good (get_ideal_version_at start (Z.of_nat i))) /\
  (forall v, votes_for (last_versions h) v = count v (versions h)).
Proof.
  intros Hsch Hw Hr. apply reachable_on_schedule in Hr as [Hc Hi Hrec Hv]; [|done..]. split_and!.
  - unfold get_current_version. destruct (fork_at_reached h (heights start) (cf_heights _ _ Hc)) with (height := db_height db)
      as (f & Hf & E); [by rewrite (cf_original _ _ Hc)|]. rewrite Hi, E, bind_of_Good.
    by rewrite <- (version_at_fork _ Hsch _ _ Hf).
  - intros i b Hb. destruct (Hrec _ _ Hb) as (? & ? & Hv'). split; [done|]. unfold get, db_height.
    apply lookup_lt_Some in Hb. replace (_ <? _) with false by lia. replace (_ =? _) with false by lia.
    unfold get_hard_fork_version. by rewrite Hv'.
  - apply Hv.
Qed.

(** No operation on the state of a reachable node fails or reads outside its
    containers. *)
Theorem fork_operations_total start h db :
  scheduled (original_version start) (heights start) -> 1 <= window_size start < 2 ^ 31 ->
  hf_reachable start h db ->
  (forall bs b, blocks db = bs ++ [b] -> exists h', on_block_popped h (HfDb bs (hf_versions db)) 1 = Good h') /\
  (forall height, 1 <= height <= db_height db -> exists r, reorganize_from_chain_height h db height = Good r) /\
  (exists h', init start db = Good h').
Proof.
  intros Hsch Hw Hr. apply reachable_on_schedule in Hr as Hos; [|done..]. split_and!.
  - intros bs b Hb. destruct db as [bs' vs]. cbn in Hb. subst bs'.
    destruct (pop_on_schedule start Hsch Hw _ _ _ _ Hos) as (h' & E & _). by exists h'.
  - intros height Hh. destruct (reorganize_on_schedule start Hsch Hw h db height Hos Hh) as (h' & db' & E & _). by eexists.
  - destruct (init_on_schedule start Hsch Hw db (os_recorded _ _ _ Hos)) as (h' & E & _). by exists h'.
Qed.

(** ** The tables of this chain *)

(** The nodes of the three networks. *)
Definition mainnet_start : hard_fork := add_forks (new_hard_fork 1 mainnet_hard_fork_version_1_till) mainnet_hard_forks.
Definition testnet_start : hard_fork := add_forks (new_hard_fork 1 testnet_hard_fork_version_1_till) testnet_hard_forks.
Definition stagenet_start : hard_fork := add_forks (new_hard_fork 1 0) stagenet_hard_forks.

Lemma table_scheduled : scheduled 1 mainnet_hard_forks.
Proof.
  split.
  - exists (Fork 1 1 0 1). done.
  - unfold mainnet_hard_forks. repeat constructor.
  - unfold mainnet_hard_forks. repeat constructor.
  - unfold mainnet_hard_forks. repeat constructor.
  - cbn. lia.
Qed.

Lemma starts_scheduled : Forall (fun s => scheduled (original_version s) (heights s) /\ 1 <= window_size s < 2 ^ 31 /\
  heights s = mainnet_hard_forks) [mainnet_start; testnet_start; stagenet_start].
Proof. repeat (constructor; [split_and!; [apply table_scheduled|vm_compute; discriminate|vm_compute; reflexivity|reflexivity]|]). constructor. Qed.

(** ** Witnesses *)

(** Blocks added one after the other. *)
Fixpoint run_blocks (h : hard_fork) (db : hf_db) (bs : list (Z * Z)) : outcome (hard_fork * hf_db) :=
  match bs with
  | [] => Good (h, db)
  | b :: bs =>
      ok ← check h b;
      require ok "wrong version";;
      r ← add_block_vote h (HfDb (blocks db ++ [b]) (hf_versions db)) b (db_height db);
      run_blocks r.1.2 r.2 bs
  end.

Lemma run_blocks_steps start bs : forall h db h' db', Z.of_nat (length (blocks db)) + Z.of_nat (length bs) + 1 < 2 ^ 64 ->
  run_blocks h db bs = Good (h', db') -> rtc (hf_step start) (h, db) (h', db').
Proof.
  induction bs as [|b bs IH]; intros h db h' db' Hlen E; cbn [run_blocks length] in *.
  { injection E as <- <-. constructor. }
  apply bind_Good in E as (ok & Eok & E). apply bind_Good in E as ([] & ->%require_Good & E).
  apply bind_Good in E as (r & Er & E). apply rtc_l with (r.1.2, r.2).
  - eapply hf_add; [unfold db_height; lia|done|done].
  - apply IH; [|done]. unfold add_block_vote, add in Er. unfold check in Eok. rewrite Eok in Er. rewrite bind_of_Good in Er. cbn [negb] in Er.
    apply bind_Good in Er as (f & _ & Er). destruct (shrink _ _ _) as [v l]. injection Er as <-.
    cbn [snd blocks]. rewrite length_app. cbn [length]. lia.
Qed.

(** The first blocks of a chain. *)
Lemma fork_schedule_followed_witness : exists h db, db_height db = 4 /\ get_current_version h = Good 4.
Proof.
  destruct (init mainnet_start (HfDb [] ∅)) as [h0| | |] eqn:E0; [|vm_compute in E0; discriminate..].
  destruct (run_blocks h0 (HfDb [] ∅) [(1, 0); (1, 16); (2, 16); (3, 16)]) as [[h db]| | |] eqn:E;
    [|vm_compute in E0; injection E0 as <-; vm_compute in E; discriminate..].
  exists h, db. assert (db_height db = 4) as Eh.
  { vm_compute in E0. injection E0 as <-. vm_compute in E. by injection E as <- <-. }
  split; [exact Eh|]. destruct (fork_schedule_followed mainnet_start h db) as (Ev & _ & _).
  - apply table_scheduled.
  - vm_compute. split; [discriminate|reflexivity].
  - exists h0. split; [exact E0|]. apply (run_blocks_steps mainnet_start [(1, 0); (1, 16); (2, 16); (3, 16)]); [done|exact E].
  - rewrite Ev, Eh. reflexivity.
Defined.
