(* ===== verification/AssetActivation.v ===== *)
(** The asset subsystem is not active yet: on the fork schedules of the three
    networks no block reaches the version that activates it. *)

From stdpp Require Import gmap.
From S2P Require Import Prelude Bytes Word AssetTypes AssetExamples AssetConfidential AssetOwnership AssetWire AssetDb AssetExtra HardFork HardForkProps.

Section Inactive.
Context `{Crypto, RingCt} {rest : Type} (get_transaction_prefix_hash : transaction_prefix rest -> bytes).

Lemma no_payloads txs version nettype : version < HF_VERSION_MONZERO_ASSETS ->
  asset_payloads get_transaction_prefix_hash txs version nettype = Good (replicate (length txs) None).
Proof.
  intros Hv. induction txs as [|tx txs IH]; [done|]. cbn [asset_payloads].
  replace (HF_VERSION_MONZERO_ASSETS <=? version) with false by lia. by rewrite bind_of_Good, IH.
Qed.

Lemma no_payloads_applied n nettype height db : apply_payloads (replicate n None) nettype height db = Good db.
Proof. induction n; done. Qed.

(** C33: assets are not active.  On a node of any of the three networks, after any
    additions, pops, reorganisations and restarts, the envelopes in the
    transactions of the next block are neither parsed nor applied: whatever the
    transactions, the block leaves all asset tables as they are; and an envelope
    on its own is refused. *)
Theorem assets_inactive start h hdb version txs nettype db payloads :
  start ∈ [mainnet_start; testnet_start; stagenet_start] -> hf_reachable start h hdb ->
  get_current_version h = Good version ->
  asset_payloads get_transaction_prefix_hash txs version nettype = Good payloads ->
  handle_block_to_main_chain nettype payloads db = Good (set_height (AssetDb.db_height db + 1) db) /\
  forall tx payload, parse_native_asset_transaction get_transaction_prefix_hash tx version nettype <> Good (Some payload).
Proof.
  intros Hstart Hr Ev E.
  pose proof (proj1 (Forall_forall _ _) starts_scheduled start Hstart) as (Hsch & Hw & Hfs).
  apply reachable_on_schedule in Hr as Hos; [|done..].
  assert (version < HF_VERSION_MONZERO_ASSETS) as Hv.
  { unfold get_current_version in Ev. apply bind_Good in Ev as (f & Ef & [= <-]). unfold fork_at in Ef.
    rewrite (cf_heights _ _ (os_config _ _ _ Hos)), Hfs in Ef. destruct (mainnet_hard_forks !! _) eqn:El; [|done].
    injection Ef as ->. apply list_elem_of_lookup_2 in El. unfold HF_VERSION_MONZERO_ASSETS.
    enough (Forall (fun f => f_version f < 17) mainnet_hard_forks) as Hall by (by apply (proj1 (Forall_forall _ _) Hall f)).
    unfold mainnet_hard_forks. by repeat constructor. }
  rewrite no_payloads in E by done. injection E as <-. split.
  - unfold handle_block_to_main_chain. by rewrite no_payloads_applied, bind_of_Good.
  - intros tx payload Ep. unfold parse_native_asset_transaction in Ep. apply bind_Good in Ep as ([enc|] & _ & Ep); [|done].
    apply bind_Good in Ep as ([] & Hle%require_Good & _). lia.
Qed.
End Inactive.

(** ** Witness *)

(** A node of the main network that has started, and a block with one
    transaction. *)
Lemma assets_inactive_witness : exists payloads, let tx := Prefix tt (replicate 40 122) in
  asset_payloads (fun _ => fill 3) [tx] 1 MAINNET = Good payloads /\
  handle_block_to_main_chain MAINNET payloads empty_db = Good (set_height (AssetDb.db_height empty_db + 1) empty_db).
Proof.
  exists [None]. split; [reflexivity|].
  destruct (init mainnet_start (HfDb [] ∅)) as [h| | |] eqn:E; [|vm_compute in E; discriminate..].
  refine (proj1 (assets_inactive (fun _ : transaction_prefix unit => fill 3) mainnet_start h (HfDb [] ∅) 1
    [Prefix tt (replicate 40 122)] MAINNET empty_db [None] _ _ _ _)).
  - apply list_elem_of_here.
  - exists h. split; [exact E|constructor].
  - vm_compute in E. injection E as <-. reflexivity.
  - reflexivity.
Defined.
