(* ===== verification/AssetRecipient.v ===== *)
(** What an asset output says to its recipient ([asset_recipient.cpp]): the
    one-time destination, the transaction key and the encrypted opening a sender
    makes, and how a wallet recovers amount and mask from them, with the
    conversions of [rctTypes.cpp] and the amount encryption of [rctOps.cpp]. *)

From S2P Require Import Prelude Bytes AssetTypes AssetCodec AssetConfidential AssetWire AssetExamples.

(** ** Keys and scalars

    The curve operations the senders and the wallets call. [sc_check] is true
    for a reduced scalar, where the C function returns 0; [commit_to] is
    [rct::commit] with a mask. *)
Class KeyExchange := {
  generate_key_derivation : bytes -> bytes -> option bytes;
  derive_public_key : bytes -> Z -> bytes -> option bytes;
  derivation_to_scalar : bytes -> Z -> bytes;
  derive_view_tag : bytes -> Z -> bytes;
  scalarmultKey : bytes -> bytes -> outcome bytes;
  sc_check : bytes -> bool;
  sc_add : bytes -> bytes -> bytes;
  sc_sub : bytes -> bytes -> bytes;
  hash_to_scalar : bytes -> bytes;
  genCommitmentMask : bytes -> bytes;
  commit_to : Z -> bytes -> bytes;
}.

(** The order of the group of the base point. *)
Definition group_order : Z := 2 ^ 252 + 27742317777372353535851937790883648493.

(** What the curve promises: the Diffie-Hellman exchange, over any base for
    subaddresses and over the standard one for main addresses, points of the
    curve as results, and arithmetic modulo the order. *)
Class KeyExchangeLaws `{Crypto, RingCt, KeyExchange} : Prop := {
  derivation_commutes : forall P a b A B, scalarmultKey P a = Good A -> scalarmultKey P b = Good B ->
    generate_key_derivation B a = generate_key_derivation A b;
  base_derivation_commutes : forall a b A B, secret_key_to_public_key a = Some A ->
    secret_key_to_public_key b = Some B -> generate_key_derivation B a = generate_key_derivation A b;
  scalarmult_valid : forall P a A, scalarmultKey P a = Good A -> check_key A = true;
  derived_valid : forall d i P D, derive_public_key d i P = Some D -> check_key D = true;
  commitment_valid : forall amount mask, sc_check mask = true ->
    isInMainSubgroup (commit_to amount mask) = true;
  sc_check_exact : forall s, array 32 s -> sc_check s = (of_le s <? group_order);
  sc_add_exact : forall a b, array 32 a -> array 32 b ->
    array 32 (sc_add a b) /\ of_le (sc_add a b) = (of_le a + of_le b) mod group_order;
  sc_sub_exact : forall a b, array 32 a -> array 32 b ->
    array 32 (sc_sub a b) /\ of_le (sc_sub a b) = (of_le a - of_le b) mod group_order;
  hash_to_scalar_array : forall s, array 32 (hash_to_scalar s);
  mask_reduced : forall s, array 32 (genCommitmentMask s) /\ sc_check (genCommitmentMask s) = true;
}.

(** ** Openings *)

Definition d2h (v : Z) : bytes := append_le 8 0 v ++ replicate 24 0.

(** The loop over the bytes 7 down to 0, in 64 bits. *)
Definition h2d (test : bytes) : Z :=
  foldr (fun b vali => (vali * 256 + b) mod 2 ^ 64) 0 (take 8 test).

Record account_public_address := Address { m_spend_public_key : bytes; m_view_public_key : bytes }.
Record decoded_asset_recipient := Decoded { dec_amount : Z; dec_mask : bytes }.

Section Recipient.
Context `{Crypto, RingCt, KeyExchange}.

(** The branches for [v2 = false], on a mask and an amount. *)
Definition ecdhEncode (mask amount sharedSec : bytes) : bytes * bytes :=
  let sharedSec1 := hash_to_scalar sharedSec in
  let sharedSec2 := hash_to_scalar sharedSec1 in
  (sc_add mask sharedSec1, sc_add amount sharedSec2).

Definition ecdhDecode (mask amount sharedSec : bytes) : bytes * bytes :=
  let sharedSec1 := hash_to_scalar sharedSec in
  let sharedSec2 := hash_to_scalar sharedSec1 in
  (sc_sub mask sharedSec1, sc_sub amount sharedSec2).

Definition make_asset_recipient_data_with_mask (recipient : account_public_address) (is_subaddress : bool)
  (tx_secret_key : bytes) (output_index amount : Z) (mask : bytes) :
  outcome (asset_recipient_data * bytes) :=
  require (sc_check mask) "asset output mask is not a reduced scalar";;
  base_tx_public_key ← expect (secret_key_to_public_key tx_secret_key)
    "invalid asset output transaction secret key";
  tx_public_key ← (if is_subaddress then scalarmultKey (m_spend_public_key recipient) tx_secret_key
    else Good base_tx_public_key);
  derivation ← expect (generate_key_derivation (m_view_public_key recipient) tx_secret_key)
    "failed to derive asset output shared secret";
  destination ← expect (derive_public_key derivation output_index (m_spend_public_key recipient))
    "failed to derive asset output destination";
  let amount_key := derivation_to_scalar derivation output_index in
  let '(encrypted_mask, encrypted_amount) := ecdhEncode mask (d2h amount) amount_key in
  Good (Recipient destination tx_public_key encrypted_mask encrypted_amount
    (derive_view_tag derivation output_index), commit_to amount mask).

Definition make_asset_recipient_data (recipient : account_public_address) (is_subaddress : bool)
  (tx_secret_key : bytes) (output_index amount : Z) : outcome (asset_recipient_data * bytes) :=
  derivation ← expect (generate_key_derivation (m_view_public_key recipient) tx_secret_key)
    "failed to derive asset output shared secret";
  make_asset_recipient_data_with_mask recipient is_subaddress tx_secret_key output_index amount
    (genCommitmentMask (derivation_to_scalar derivation output_index)).

Definition decode_asset_recipient_data (input : asset_recipient_data) (spend_public_key view_secret_key : bytes)
  (output_index : Z) (commitment : bytes) : outcome decoded_asset_recipient :=
  require (check_key (c_tx_public_key input) && check_key (c_destination input) && isInMainSubgroup commitment)
    "asset recipient data contains an invalid point";;
  derivation ← expect (generate_key_derivation (c_tx_public_key input) view_secret_key)
    "failed to derive asset recipient shared secret";
  require (bool_decide (derive_view_tag derivation output_index = c_view_tag input))
    "asset output view tag does not match wallet";;
  expected_destination ← expect (derive_public_key derivation output_index spend_public_key)
    "failed to derive expected asset output destination";
  require (bool_decide (expected_destination = c_destination input))
    "asset output does not belong to wallet";;
  let amount_key := derivation_to_scalar derivation output_index in
  let '(mask, opening) := ecdhDecode (c_encrypted_mask input) (c_encrypted_amount input) amount_key in
  let amount := h2d opening in
  require (bool_decide (commit_to amount mask = commitment))
    "asset output opening does not match commitment";;
  Good (Decoded amount mask).

(** An address of the wallet with view key [view_secret_key]: its main address,
    or the subaddress of a spend key. *)
Definition wallet_address (view_secret_key : bytes) (is_subaddress : bool) (a : account_public_address) : Prop :=
  if is_subaddress then scalarmultKey (m_spend_public_key a) view_secret_key = Good (m_view_public_key a)
  else secret_key_to_public_key view_secret_key = Some (m_view_public_key a).

End Recipient.

(** ** Scalars and amounts *)

Lemma d2h_array v : array 32 (d2h v).
Proof. apply (array_app 8 24); [apply append_le_array|]. by apply arrayb_array. Qed.

Lemma of_le_zeros n s : of_le (s ++ replicate n 0) = of_le s.
Proof.
  induction s as [|b s IH]; cbn [app of_le]; [|by rewrite IH].
  induction n as [|n IH]; cbn [replicate of_le]; lia.
Qed.

Lemma of_d2h v : 0 <= v < 2 ^ 64 -> of_le (d2h v) = v.
Proof. intros Hv. unfold d2h. rewrite of_le_zeros. by apply of_append_le. Qed.

Lemma h2d_of_le s : is_bytes s -> h2d s = of_le (take 8 s).
Proof.
  intros Hs. unfold h2d. apply (Forall_take _ 8) in Hs.
  assert (length (take 8 s) <= 8)%nat as Hl by (rewrite length_take; lia).
  induction Hs as [|b t Hb Ht IH]; [done|]. cbn [foldr of_le length] in *. rewrite IH by lia.
  pose proof (of_le_range t Ht) as Hr.
  assert (256 ^ Z.of_nat (length t) <= 256 ^ 7) by (apply Z.pow_le_mono_r; lia).
  rewrite Z.mod_small; lia.
Qed.

Lemma h2d_d2h v : 0 <= v < 2 ^ 64 -> h2d (d2h v) = v.
Proof.
  intros Hv. rewrite h2d_of_le by apply (d2h_array v). unfold d2h.
  rewrite take_app_length' by (by rewrite length_append_le). by apply of_append_le.
Qed.

Lemma of_le_inj n a b : array n a -> array n b -> of_le a = of_le b -> a = b.
Proof.
  intros [La Ha] [Lb Hb] E. rewrite <- (append_of_le a Ha), <- (append_of_le b Hb), E. congruence.
Qed.

Section Scalars.
Context `{KeyExchangeLaws, !CryptoLaws}.

(** What [sc_add] adds to a reduced scalar, [sc_sub] takes away. *)
Lemma sc_sub_add x y : array 32 x -> array 32 y -> sc_check x = true -> sc_sub (sc_add x y) y = x.
Proof.
  intros Hx Hy Hc. rewrite sc_check_exact in Hc by done.
  destruct (sc_add_exact x y Hx Hy) as [Ha Ea]. destruct (sc_sub_exact _ y Ha Hy) as [Hs Es].
  apply (of_le_inj 32); [done..|]. rewrite Es, Ea, Zminus_mod_idemp_l, Z.add_simpl_r.
  pose proof (of_le_range x (array_bytes _ _ Hx)). apply Z.mod_small. lia.
Qed.

Lemma d2h_reduced v : 0 <= v < 2 ^ 64 -> sc_check (d2h v) = true.
Proof.
  intros Hv. rewrite sc_check_exact by apply d2h_array. rewrite of_d2h by done. unfold group_order. lia.
Qed.

Lemma ecdh_round_trip mask v shared : array 32 mask -> sc_check mask = true -> 0 <= v < 2 ^ 64 ->
  let '(m, a) := ecdhEncode mask (d2h v) shared in ecdhDecode m a shared = (mask, d2h v).
Proof.
  intros Hm Hc Hv. unfold ecdhEncode, ecdhDecode. cbv zeta.
  rewrite !sc_sub_add by (done || apply hash_to_scalar_array || apply d2h_array || by apply d2h_reduced).
  done.
Qed.

(** The shared secret of sender and recipient. *)
Lemma shared_secret view is_sub a r pub R : wallet_address view is_sub a ->
  secret_key_to_public_key r = Some pub ->
  (if is_sub then scalarmultKey (m_spend_public_key a) r else Good pub) = Good R ->
  generate_key_derivation R view = generate_key_derivation (m_view_public_key a) r /\ check_key R = true.
Proof.
  unfold wallet_address. destruct is_sub; intros Hw Hp HR.
  - split; [by eapply derivation_commutes|by eapply scalarmult_valid].
  - injection HR as <-. split; [by eapply base_derivation_commutes|by eapply public_key_valid].
Qed.

End Scalars.

Section RoundTrip.
Context `{KeyExchangeLaws, !CryptoLaws}.

Lemma decode_made view is_sub a r i amount mask data C :
  wallet_address view is_sub a -> 0 <= amount < 2 ^ 64 -> array 32 mask ->
  make_asset_recipient_data_with_mask a is_sub r i amount mask = Good (data, C) ->
  decode_asset_recipient_data data (m_spend_public_key a) view i C = Good (Decoded amount mask).
Proof.
  unfold make_asset_recipient_data_with_mask. intros Hw Hv Hm E.
  apply bind_Good in E as ([] & Hc%require_Good & E). apply bind_Good in E as (pub & Hp%expect_Good & E).
  apply bind_Good in E as (R & HR & E). apply bind_Good in E as (d & Hd%expect_Good & E).
  apply bind_Good in E as (D & HD%expect_Good & E).
  destruct (shared_secret _ _ _ _ _ _ Hw Hp HR) as [Hs HRv].
  pose proof (ecdh_round_trip mask amount (derivation_to_scalar d i) Hm Hc Hv) as He.
  destruct (ecdhEncode mask (d2h amount) (derivation_to_scalar d i)) as [em ea]. injection E as <- <-.
  unfold decode_asset_recipient_data. cbn [c_tx_public_key c_destination c_view_tag c_encrypted_mask c_encrypted_amount].
  rewrite HRv, (derived_valid _ _ _ _ HD), (commitment_valid _ _ Hc). cbn [andb require]. rewrite bind_of_Good.
  rewrite Hs, Hd. cbn [expect]. rewrite bind_of_Good, bool_decide_eq_true_2 by done. cbn [require].
  rewrite bind_of_Good, HD. cbn [expect]. rewrite bind_of_Good, bool_decide_eq_true_2 by done. cbn [require].
  rewrite bind_of_Good, He, h2d_d2h, bool_decide_eq_true_2 by done. done.
Qed.

(** The owner of an address recovers exactly the amount and the mask a
    sender put in an output, for a main address and for a subaddress. *)
Theorem recipient_round_trip view is_sub a r i amount mask data C :
  wallet_address view is_sub a -> 0 <= amount < 2 ^ 64 -> array 32 mask ->
  make_asset_recipient_data_with_mask a is_sub r i amount mask = Good (data, C) ->
  decode_asset_recipient_data data (m_spend_public_key a) view i C = Good (Decoded amount mask).
Proof. apply decode_made. Qed.

End RoundTrip.

(** ** Samples

    A curve whose points are the scalars themselves, so that a product of keys is
    a product of numbers. *)
Definition scalar (x : Z) : bytes := append_le 32 0 (x mod group_order).

Definition point_times (P a : bytes) : bytes := scalar (of_le P * of_le a).

Definition pedersen_of (amount mask : Z) : bytes := scalar (amount * 7919 + mask).

#[global] Instance toy_exchange : KeyExchange := {
  generate_key_derivation P a := Some (point_times P a);
  derive_public_key d i P := Some (scalar (of_le (toy_hash (d ++ u64_le i)) + of_le P));
  derivation_to_scalar d i := toy_hash (d ++ u64_le i);
  derive_view_tag d i := take 1 (toy_hash (d ++ u64_le i));
  scalarmultKey P a := Good (point_times P a);
  sc_check s := arrayb 32 s && (of_le s <? group_order);
  sc_add a b := scalar (of_le a + of_le b);
  sc_sub a b := scalar (of_le a - of_le b);
  hash_to_scalar := toy_hash;
  genCommitmentMask := toy_hash;
  commit_to v m := pedersen_of v (of_le m);
}.

(** The ring confidential transactions over it. Every range proof is accepted; a
    key image is the key itself, and a signature is accepted if its image is a key
    of the ring. *)
Definition scalar_ringct : RingCt := {|
  isInMainSubgroup p := arrayb 32 p && (of_le p <? group_order);
  scalarmult8 p := Good p;
  addKeys l := Good (scalar (foldr (fun p s => of_le p + s) 0 l));
  commit v := pedersen_of v 0;
  bulletproof_plus_VERIFY _ := Good true;
  verRctCLSAGSimple _ g ring _ := Good (existsb (fun m => bool_decide (ct_dest m = cl_I g)) ring);
|}.
#[local] Existing Instance scalar_ringct.

Lemma scalar_array x : array 32 (scalar x).
Proof. apply append_le_array. Qed.

Lemma of_scalar x : of_le (scalar x) = x mod group_order.
Proof.
  pose proof (Z.mod_pos_bound x group_order ltac:(done)). apply of_append_le.
  change (256 ^ Z.of_nat 32) with (2 ^ 256). unfold group_order in *. lia.
Qed.

Lemma array_arrayb n s : array n s -> arrayb n s = true.
Proof.
  intros [Hl Hs]. unfold arrayb. rewrite Hl, Nat.eqb_refl. apply forallb_Forall.
  eapply Forall_impl; [done|]. intros b Hb. unfold byteb. cbv beta in *. lia.
Qed.

Lemma scalar_reduced x : arrayb 32 (scalar x) && (of_le (scalar x) <? group_order) = true.
Proof.
  rewrite (array_arrayb _ _ (scalar_array x)), of_scalar. pose proof (Z.mod_pos_bound x group_order ltac:(done)).
  cbn [andb]. lia.
Qed.

Lemma times_commute P a b : point_times (point_times P b) a = point_times (point_times P a) b.
Proof.
  unfold point_times. rewrite !of_scalar. unfold scalar. f_equal. rewrite !Zmult_mod_idemp_l. f_equal. lia.
Qed.

Lemma toy_hash_reduced s : arrayb 32 (toy_hash s) && (of_le (toy_hash s) <? group_order) = true.
Proof.
  unfold toy_hash. rewrite array_arrayb by apply append_le_array. cbn [andb].
  assert (0 <= foldl (fun acc b => (acc * 31 + b) mod 65521) 7 s < 65521) as Hb.
  { induction s as [|b s IH] using rev_ind; [done|]. rewrite foldl_snoc. by apply Z.mod_pos_bound. }
  rewrite of_append_le by (change (256 ^ Z.of_nat 32) with (2 ^ 256); lia). unfold group_order. lia.
Qed.

#[global] Instance toy_exchange_laws : KeyExchangeLaws.
Proof.
  split.
  - intros P a b A B [= <-] [= <-]. cbn. f_equal. apply times_commute.
  - intros a b A B. cbn -[arrayb]. case_if; [|done]. case_if; [|done].
    intros [= <-] [= <-]. f_equal. unfold point_times. by rewrite Z.mul_comm.
  - intros P a A [= <-]. apply array_arrayb, scalar_array.
  - intros d i P D [= <-]. apply array_arrayb, scalar_array.
  - intros amount mask _. apply scalar_reduced.
  - intros s Hs. cbn. by rewrite array_arrayb.
  - intros a b _ _. split; [apply scalar_array|apply of_scalar].
  - intros a b _ _. split; [apply scalar_array|apply of_scalar].
  - intros s. apply append_le_array.
  - intros s. split; [apply append_le_array|apply toy_hash_reduced].
Qed.

(** A wallet with the view key 5: its main address and a subaddress. *)
Definition sample_view : bytes := scalar 5.
Definition sample_main : account_public_address := Address (scalar 11) (scalar 5).
Definition sample_sub : account_public_address := Address (scalar 13) (point_times (scalar 13) sample_view).

Lemma recipient_round_trip_witness :
  let '(data, C) := value (Recipient [] [] [] [] [], [])
    (make_asset_recipient_data_with_mask sample_sub true (scalar 17) 3 1000 (scalar (-1))) in
  decode_asset_recipient_data data (m_spend_public_key sample_sub) sample_view 3 C
    = Good (Decoded 1000 (scalar (-1))).
Proof.
  apply (recipient_round_trip sample_view true sample_sub (scalar 17)); [done|done|apply scalar_array|].
  vm_compute. reflexivity.
Defined.
