(* ===== verification/AssetBuild.v ===== *)
(** The construction of asset transactions ([asset_wire.cpp]): the payload that
    issues an asset, the payload that transfers and burns it, and their
    attachment to a native transaction. *)

From stdpp Require Import gmap.
From S2P Require Import Prelude Bytes AssetTypes AssetCodec AssetConfidential AssetOwnership AssetWire AssetBalance AssetDb AssetExtra AssetRecipient.

(** The provers, as functions of the random values they draw: [scalarmultBase],
    [bulletproof_plus_PROVE] and [proveRctCLSAGSimple] with the key and mask of
    the spent output, the mask and the commitment of the pseudo input and the
    index of the spent output in the ring. [key_image_of] is the key image of a
    secret key, and [clsag_challenges], of the same arguments as
    [proveRctCLSAGSimple], the hashes [c] of the rounds of the signature. *)
Class Prover := {
  scalarmultBase : bytes -> bytes;
  key_image_of : bytes -> bytes;
  bulletproof_plus_PROVE : bytes -> list Z -> list bytes -> outcome BulletproofPlus;
  proveRctCLSAGSimple : bytes -> bytes -> list ctkey -> ctkey -> bytes -> bytes -> nat -> outcome clsag;
  clsag_challenges : bytes -> bytes -> list ctkey -> ctkey -> bytes -> bytes -> nat -> list bytes;
}.

Record asset_transfer_destination := Destination {
  td_address : account_public_address;
  td_is_subaddress : bool;
  td_amount : Z;
}.

Record asset_transfer_input := Spend {
  ti_ring : list asset_ring_member;
  ti_real_output_index : nat;
  ti_spend_secret : bytes;
  ti_amount : Z;
  ti_mask : bytes;
}.

(** The random values of one construction: the calls of [skGen] for the pseudo
    inputs and for the outputs, those of [generate_keys], and what the provers
    draw. *)
Record draws := Draws {
  draw_pseudo : nat -> bytes;
  draw_mask : nat -> bytes;
  draw_secret : nat -> bytes;
  draw_proof : bytes;
  draw_signature : nat -> bytes;
}.

Definition rct_zero : bytes := replicate 32 0.

(** [try { ... } catch (const std::exception& e) { return fail(error, message + e.what()); }] *)
Definition caught {A} (m : outcome A) (message : string) : outcome A :=
  match m with Thrown e => Bad (message +:+ e) | _ => m end.
Arguments caught {A} m message%_string.

Section Build.
Context `{Crypto, RingCt, KeyExchange, Prover}.

(** The masks of [n] commitments, all but the last drawn, that sum to [total]. *)
Definition output_masks (draw : nat -> bytes) (n : nat) (total : bytes) : list bytes :=
  let masks := draw <$> seq 0 (n - 1) in
  masks ++ [sc_sub total (foldl sc_add rct_zero masks)].

(** The loop over the recipients, from output [index] on. *)
Fixpoint make_outputs (draw : nat -> bytes) (destinations : list asset_transfer_destination)
  (masks : list bytes) (index : nat) : outcome (list (asset_recipient_data * bytes)) :=
  match destinations, masks with
  | [], _ => Good []
  | _ :: _, [] => Wild
  | t :: destinations, mask :: masks =>
      made ← make_asset_recipient_data_with_mask (td_address t) (td_is_subaddress t) (draw index)
        (Z.of_nat index) (td_amount t) mask;
      rest ← make_outputs draw destinations masks (S index);
      Good (made :: rest)
  end.

Definition create_issuance_transaction_payload (dr : draws) (issuance : issuance_payload)
  (recipient : account_public_address) (is_subaddress : bool) (carrier_prefix_hash : bytes) :
  outcome asset_transaction_payload :=
  require (negb (bool_decide (carrier_prefix_hash = null_hash)))
    "issuance transaction requires a non-zero carrier hash";;
  _ ← encode_issuance_payload issuance;
  asset_id ← derive_asset_id (p_descriptor issuance);
  let supply := d_atomic_supply (p_descriptor issuance) in
  let amounts := supply :: replicate (CONFIDENTIAL_ASSET_RING_SIZE - 1) 0 in
  let masks := output_masks (draw_mask dr) CONFIDENTIAL_ASSET_RING_SIZE rct_zero in
  made ← make_outputs (draw_secret dr) (Destination recipient is_subaddress <$> amounts) masks 0;
  range_proof ← caught (bulletproof_plus_PROVE (draw_proof dr) amounts masks)
    "failed to construct issuance range proof: ";
  let balance := Balance asset_id [Pseudo asset_id (commit_to supply rct_zero)] (made.*2) [] [range_proof] in
  let created := Envelope ASSET_TRANSACTION_WIRE_VERSION (d_network (p_descriptor issuance))
    carrier_prefix_hash (Some issuance) [balance] [made.*1] [] in
  verify_asset_transaction_payload created ∅ (w_network created) carrier_prefix_hash;;
  Good created.

(** The loop over the inputs; the result is the sum of their amounts. *)
Fixpoint check_inputs (asset_id : bytes) (inputs : list asset_transfer_input) (input_total : Z) : outcome Z :=
  match inputs with
  | [] => Good input_total
  | i :: inputs =>
      require ((length (ti_ring i) =? CONFIDENTIAL_ASSET_RING_SIZE)%nat
        && (ti_real_output_index i <? length (ti_ring i))%nat)
        "asset transfer requires complete 16-member rings";;
      require (sc_check (ti_spend_secret i) && sc_check (ti_mask i))
        "asset transfer input contains an invalid secret scalar";;
      require (ti_amount i <=? UINT64_MAX - input_total) "asset transfer input amount overflows";;
      real ← match ti_ring i !! ti_real_output_index i with Some m => Good (m_public_output m) | None => Wild end;
      require (bool_decide (ct_mask real = commit_to (ti_amount i) (ti_mask i)))
        "asset transfer opening does not match the real ring member";;
      require (bool_decide (ct_dest real = scalarmultBase (ti_spend_secret i)))
        "asset transfer spend secret does not match the real ring member";;
      require (forallb (fun m => bool_decide (m_asset_id m = asset_id)) (ti_ring i))
        "asset transfer ring crosses asset domains";;
      check_inputs asset_id inputs (input_total + ti_amount i)
  end.

Fixpoint sum_destinations (destinations : list asset_transfer_destination) (destination_total : Z) : outcome Z :=
  match destinations with
  | [] => Good destination_total
  | t :: destinations =>
      require (td_amount t <=? UINT64_MAX - destination_total) "asset transfer destination amount overflows";;
      sum_destinations destinations (destination_total + td_amount t)
  end.

(** The destinations, filled up with empty outputs to the last of them. *)
Definition pad_destinations (destinations : list asset_transfer_destination) (output_count : nat) :
  list asset_transfer_destination :=
  destinations ++
  match last destinations with
  | Some t => replicate (output_count - length destinations) (Destination (td_address t) (td_is_subaddress t) 0)
  | None => []
  end.

(** The loop that signs for the inputs, from input [index] on. *)
Fixpoint sign_inputs (dr : draws) (network : Z) (asset_id carrier_prefix_hash : bytes)
  (inputs : list asset_transfer_input) (index : nat) : outcome (list asset_ownership_proof) :=
  match inputs with
  | [] => Good []
  | i :: inputs =>
      let pseudo_input := commit_to (ti_amount i) (draw_pseudo dr index) in
      let unsigned := Ownership asset_id pseudo_input [] (ti_ring i) (Clsag [] [] [] []) in
      message ← derive_asset_ownership_message unsigned network carrier_prefix_hash;
      signature ← caught (proveRctCLSAGSimple (draw_signature dr index) message (m_public_output <$> ti_ring i)
          (Ctkey (ti_spend_secret i) (ti_mask i)) (draw_pseudo dr index) pseudo_input (ti_real_output_index i))
        "failed to construct asset ownership proof: ";
      rest ← sign_inputs dr network asset_id carrier_prefix_hash inputs (S index);
      Good (Ownership asset_id pseudo_input (cl_I signature) (ti_ring i) signature :: rest)
  end.

Definition create_asset_transfer_transaction_payload (dr : draws) (network : Z) (asset_id : bytes)
  (inputs : list asset_transfer_input) (destinations : list asset_transfer_destination) (burn_amount : Z)
  (carrier_prefix_hash : bytes) : outcome asset_transaction_payload :=
  require (public_network network) "asset transfer requires a public network";;
  require (negb (bool_decide (asset_id = null_hash) || bool_decide (carrier_prefix_hash = null_hash)))
    "asset transfer has a zero asset or carrier id";;
  require (negb (length inputs =? 0)%nat && (length inputs <=? MAX_CONFIDENTIAL_ASSET_INPUTS)%nat)
    "asset transfer has an invalid input count";;
  require (negb (length destinations =? 0)%nat && (length destinations <=? MAX_CONFIDENTIAL_ASSET_OUTPUTS)%nat)
    "asset transfer has an invalid destination count";;
  input_total ← check_inputs asset_id inputs 0;
  destination_total ← sum_destinations destinations 0;
  require ((burn_amount <=? UINT64_MAX - destination_total)
    && (destination_total + burn_amount =? input_total))
    "asset transfer amounts do not consume the inputs exactly";;
  let burn_outputs := if burn_amount =? 0 then 0%nat else 1%nat in
  let output_count := (MAX_CONFIDENTIAL_ASSET_OUTPUTS - burn_outputs)%nat in
  require (length destinations <=? output_count)%nat "asset transfer has too many recipients for its burn";;
  let padded := pad_destinations destinations output_count in
  let pseudo_masks := draw_pseudo dr <$> seq 0 (length inputs) in
  let masks := output_masks (draw_mask dr) (output_count + burn_outputs)
    (foldl sc_add rct_zero pseudo_masks) in
  made ← make_outputs (draw_secret dr) padded masks 0;
  let burns := if burn_amount =? 0 then [] else [commit_to burn_amount (default rct_zero (last masks))] in
  let proof_amounts := (td_amount <$> padded) ++ (if burn_amount =? 0 then [] else [burn_amount]) in
  range_proof ← caught (bulletproof_plus_PROVE (draw_proof dr) proof_amounts masks)
    "failed to construct asset range proof: ";
  let pseudo_inputs := zip_with (fun i m => Pseudo asset_id (commit_to (ti_amount i) m)) inputs pseudo_masks in
  let balance := Balance asset_id pseudo_inputs (made.*2) burns [range_proof] in
  proofs ← sign_inputs dr network asset_id carrier_prefix_hash inputs 0;
  let created := Envelope ASSET_TRANSACTION_WIRE_VERSION network carrier_prefix_hash None
    [balance] [made.*1] proofs in
  verify_asset_transaction_payload created {[ asset_id ]} network carrier_prefix_hash;;
  Good created.

End Build.

(** The attachment changes the transaction even if the last check fails. *)
Section Attach.
Context `{Crypto, RingCt, KeyExchange, Prover} {rest : Type}.
Context (get_transaction_prefix_hash : transaction_prefix rest -> bytes).

Definition attach_issuance_to_native_transaction (dr : draws) (tx : transaction_prefix rest)
  (issuance : issuance_payload) (recipient : account_public_address) (is_subaddress : bool) :
  transaction_prefix rest * outcome asset_transaction_payload :=
  let attempt :=
    found ← get_monzero_asset_tx_extra (t_extra tx);
    require (negb (bool_decide (is_Some found))) "native transaction already contains an asset envelope";;
    carrier ← get_transaction_asset_carrier_hash get_transaction_prefix_hash tx;
    created ← create_issuance_transaction_payload dr issuance recipient is_subaddress carrier;
    encoded ← encode_asset_transaction_payload created;
    extra ← add_monzero_asset_tx_extra (t_extra tx) encoded;
    Good (created, extra) in
  match attempt with
  | Good (created, extra) =>
      let tx := Prefix (t_rest tx) extra in
      (tx, parsed ← relabel (parse_native_asset_transaction get_transaction_prefix_hash tx
             HF_VERSION_MONZERO_ASSETS (d_network (p_descriptor issuance)))
             "attached issuance envelope did not round trip";
           _ ← expect parsed "attached issuance envelope did not round trip";
           Good created)
  | Bad e => (tx, Bad e)
  | Thrown e => (tx, Thrown e)
  | Wild => (tx, Wild)
  end.

End Attach.

(** ** What the provers promise *)

Definition zsum (l : list Z) : Z := foldr Z.add 0 l.

Section Laws.
Context `{Crypto, RingCt, KeyExchange, Prover}.

(** A reduced scalar. *)
Definition reduced (s : bytes) : Prop := array 32 s /\ sc_check s = true.

(** The commitments of amounts to masks. *)
Definition commitments (openings : list (Z * bytes)) : list bytes := uncurry commit_to <$> openings.

(** What the provers promise. A ring signature made with the right secrets is
    verified if all points of the ring can be used, the key image is not the
    identity, the mask of the pseudo input is not that of the spent output (the
    auxiliary key image would be the identity) and no round hashes to zero: the
    verifier refuses these. *)
Class ProverLaws : Prop := {
  zero_commitment : forall v, commit v = commit_to v rct_zero;
  commitments_add : forall l l', zsum l.*1 = zsum l'.*1 ->
    zsum (of_le <$> l.*2) mod group_order = zsum (of_le <$> l'.*2) mod group_order ->
    exists sum, addKeys (commitments l) = Good sum /\ addKeys (commitments l') = Good sum;
  range_complete : forall seed openings, (1 <= length openings <= 16)%nat ->
    Forall (fun o => 0 <= o.1 < 2 ^ 64 /\ reduced o.2) openings ->
    exists p, bulletproof_plus_PROVE seed openings.*1 openings.*2 = Good p /\
      bulletproof_plus_VERIFY p = Good true /\ scale_commitments (bp_V p) = Good (commitments openings);
  clsag_complete : forall seed message ring x m v pm i,
    ring !! i = Some (Ctkey (scalarmultBase x) (commit_to v m)) -> reduced x -> reduced m -> reduced pm ->
    Forall (fun k => isInMainSubgroup (ct_dest k) = true /\ isInMainSubgroup (ct_mask k) = true) ring ->
    key_image_of x <> rct_identity -> pm <> m ->
    rct_zero ∉ clsag_challenges seed message ring (Ctkey x m) pm (commit_to v pm) i ->
    exists g, proveRctCLSAGSimple seed message ring (Ctkey x m) pm (commit_to v pm) i = Good g /\
      verRctCLSAGSimple message g ring (commit_to v pm) = Good true /\
      length (cl_s g) = length ring /\ cl_I g = key_image_of x;
}.

(** The draws are reduced scalars. *)
Record draws_ok (dr : draws) : Prop := {
  pseudo_drawn : forall k, reduced (draw_pseudo dr k);
  mask_drawn : forall k, reduced (draw_mask dr k);
}.

(** Output [index] can be made for a destination with the key drawn for it: the
    derivations succeed and give proper points. *)
Definition payable (draw : nat -> bytes) (index : nat) (t : asset_transfer_destination) : Prop :=
  exists pub R d D, secret_key_to_public_key (draw index) = Some pub /\
    (if td_is_subaddress t then scalarmultKey (m_spend_public_key (td_address t)) (draw index) else Good pub)
      = Good R /\
    generate_key_derivation (m_view_public_key (td_address t)) (draw index) = Some d /\
    derive_public_key d (Z.of_nat index) (m_spend_public_key (td_address t)) = Some D /\
    isInMainSubgroup D = true /\ D <> rct_identity /\ R <> null_pkey.

(** An input the wallet can spend: a ring of distinct outputs of the asset in
    which the real one has the given key and opening. *)
Record spendable (asset_id : bytes) (i : asset_transfer_input) : Prop := {
  spend_ring : length (ti_ring i) = 16%nat;
  spend_real : m_public_output <$> ti_ring i !! ti_real_output_index i
    = Some (Ctkey (scalarmultBase (ti_spend_secret i)) (commit_to (ti_amount i) (ti_mask i)));
  spend_asset : Forall (fun m => m_asset_id m = asset_id /\ m_output_id m <> null_hash /\
    isInMainSubgroup (ct_dest (m_public_output m)) = true /\
    isInMainSubgroup (ct_mask (m_public_output m)) = true) (ti_ring i);
  spend_distinct : NoDup (m_output_id <$> ti_ring i);
  spend_secret : reduced (ti_spend_secret i);
  spend_mask : reduced (ti_mask i);
  spend_amount : 0 <= ti_amount i < 2 ^ 64;
}.

(** The values drawn for input [k] give a signature the verifier does not refuse. *)
Record signable (dr : draws) (network : Z) (asset_id carrier : bytes) (k : nat) (i : asset_transfer_input) : Prop := {
  sign_image : key_image_of (ti_spend_secret i) <> rct_identity;
  sign_blinded : draw_pseudo dr k <> ti_mask i;
  sign_challenges : forall message,
    let pseudo_input := commit_to (ti_amount i) (draw_pseudo dr k) in
    derive_asset_ownership_message (Ownership asset_id pseudo_input [] (ti_ring i) (Clsag [] [] [] [])) network carrier
      = Good message ->
    rct_zero ∉ clsag_challenges (draw_signature dr k) message (m_public_output <$> ti_ring i)
      (Ctkey (ti_spend_secret i) (ti_mask i)) (draw_pseudo dr k) pseudo_input (ti_real_output_index i);
}.

End Laws.
