(* ===== verification/AssetBuildProps.v ===== *)
(** The asset transactions a wallet builds: with keys that can be derived and
    openings that belong to the ring, the construction succeeds, the result is
    accepted by every node that knows the asset, and the recipients recover
    their amounts. *)

From stdpp Require Import gmap.
From S2P Require Import Prelude Bytes AssetTypes AssetExamples AssetCodec AssetConfidential AssetOwnership AssetWire AssetBalance AssetDb AssetExtra AssetRecipient AssetBuild.

(** ** Sums *)

Lemma zsum_app l k : zsum (l ++ k) = zsum l + zsum k.
Proof. induction l as [|x l IH]; unfold zsum in *; cbn [app foldr replicate] in *; lia. Qed.

Lemma zsum_zeros n : zsum (replicate n 0) = 0.
Proof. induction n as [|n IH]; unfold zsum in *; cbn [app foldr replicate] in *; lia. Qed.

Lemma zsum_nonneg l : Forall (fun x => 0 <= x) l -> 0 <= zsum l.
Proof. induction 1; unfold zsum in *; cbn [app foldr replicate] in *; lia. Qed.

Section Masks.
Context `{KeyExchangeLaws}.

Lemma zero_reduced : reduced rct_zero.
Proof. assert (array 32 rct_zero) as Hz by (by apply arrayb_array). split; [done|]. by rewrite sc_check_exact. Qed.

Lemma sum_masks masks : Forall reduced masks -> array 32 (foldl sc_add rct_zero masks) /\
  of_le (foldl sc_add rct_zero masks) mod group_order = zsum (of_le <$> masks) mod group_order.
Proof.
  induction masks as [|m masks IH] using rev_ind; intros Hm; [by split; [apply zero_reduced|]|].
  apply Forall_app in Hm as [Hms [Hm _]%Forall_cons_1]. destruct (IH Hms) as [Ha Hs].
  rewrite foldl_snoc, fmap_app, zsum_app. destruct (sc_add_exact _ m Ha (proj1 Hm)) as [Ha' Hs'].
  split; [done|]. rewrite Hs', Zmod_mod. cbn [fmap list_fmap zsum foldr].
  rewrite Z.add_0_r, <- Zplus_mod_idemp_l, Hs, Zplus_mod_idemp_l. done.
Qed.

Lemma output_masks_ok draw n total : (forall k, reduced (draw k)) -> array 32 total -> (1 <= n)%nat ->
  let masks := output_masks draw n total in
  length masks = n /\ Forall reduced masks /\
  zsum (of_le <$> masks) mod group_order = of_le total mod group_order.
Proof.
  intros Hd Ht Hn. unfold output_masks. cbv zeta. set (ms := draw <$> seq 0 (n - 1)).
  assert (Forall reduced ms) as Hms by (apply Forall_fmap, Forall_forall; intros; apply Hd).
  destruct (sum_masks ms Hms) as [Ha Hs]. destruct (sc_sub_exact _ _ Ht Ha) as [Hl El].
  pose proof (Z.mod_pos_bound (of_le total - of_le (foldl sc_add rct_zero ms)) group_order ltac:(done)).
  split_and!.
  - unfold ms. rewrite length_app, length_fmap, length_seq. cbn. lia.
  - apply Forall_app. split; [done|]. apply Forall_cons. split; [|done]. split; [done|].
    rewrite sc_check_exact by done. lia.
  - rewrite fmap_app, zsum_app. cbn [fmap list_fmap zsum foldr]. rewrite Z.add_0_r, El.
    rewrite Zplus_mod_idemp_r, <- Zplus_mod_idemp_l, <- Hs, Zplus_mod_idemp_l. f_equal. lia.
Qed.

End Masks.

(** ** Outputs *)

Section Outputs.
Context `{KeyExchangeLaws, !CryptoLaws}.

Lemma make_payable draw index t mask : payable draw index t -> reduced mask ->
  exists data, make_asset_recipient_data_with_mask (td_address t) (td_is_subaddress t) (draw index)
    (Z.of_nat index) (td_amount t) mask = Good (data, commit_to (td_amount t) mask) /\
    recipient_valid data = true.
Proof.
  intros (pub & R & d & D & Hp & HR & Hd & HD & Hin & Hid & Hnull) [_ Hm].
  unfold make_asset_recipient_data_with_mask. rewrite Hm. cbn [require]. rewrite bind_of_Good, Hp.
  cbn [expect]. rewrite bind_of_Good, HR, bind_of_Good, Hd. cbn [expect]. rewrite bind_of_Good, HD. cbn [expect].
  rewrite bind_of_Good. unfold ecdhEncode. eexists. split; [reflexivity|].
  unfold recipient_valid. cbn [c_destination c_tx_public_key].
  rewrite Hin, !bool_decide_eq_false_2 by done. cbn.
  destruct (td_is_subaddress t); [by eapply scalarmult_valid|]. injection HR as <-. by eapply public_key_valid.
Qed.

(** What is made of destinations and masks, from output [k] on. *)
Definition made_for (draw : nat -> bytes) (k : nat) (ts : list asset_transfer_destination)
  (masks : list bytes) (made : list (asset_recipient_data * bytes)) : Prop :=
  forall j t mask, ts !! j = Some t -> masks !! j = Some mask -> exists data,
    made !! j = Some (data, commit_to (td_amount t) mask) /\
    make_asset_recipient_data_with_mask (td_address t) (td_is_subaddress t) (draw (k + j)%nat)
      (Z.of_nat (k + j)) (td_amount t) mask = Good (data, commit_to (td_amount t) mask).

Lemma make_outputs_ok draw ts : forall masks k, (length ts <= length masks)%nat ->
  (forall j t, ts !! j = Some t -> payable draw (k + j) t) -> Forall reduced masks ->
  exists made, make_outputs draw ts masks k = Good made /\ length made = length ts /\
    made.*2 = zip_with commit_to (td_amount <$> ts) masks /\
    forallb recipient_valid made.*1 = true /\ made_for draw k ts masks made.
Proof.
  induction ts as [|t ts IH]; intros [|m masks] k Hl Hp Hm; cbn [length] in Hl; [| |lia|].
  1-2: exists []; split_and!; try done; intros j t mask; by rewrite lookup_nil.
  apply Forall_cons in Hm as [Hm Hms]. pose proof (Hp 0%nat t eq_refl) as Hp0. rewrite Nat.add_0_r in Hp0.
  destruct (make_payable _ _ _ _ Hp0 Hm) as (data & Hmake & Hv).
  destruct (IH masks (S k)) as (made & Hmade & Hlen & Hc & Hvs & Hf); [lia| |done|].
  { intros j t' Hj. replace (S k + j)%nat with (k + S j)%nat by lia. by apply Hp. }
  exists ((data, commit_to (td_amount t) m) :: made). cbn [make_outputs]. rewrite Hmake, bind_of_Good, Hmade, bind_of_Good.
  split_and!; [done|cbn; lia|cbn; by rewrite Hc|cbn [fmap list_fmap forallb fst]; by rewrite Hv|].
  intros [|j] t' mask' Hj Hmj.
  - injection Hj as <-. injection Hmj as <-. exists data. by rewrite Nat.add_0_r.
  - destruct (Hf j t' mask' Hj Hmj) as (data' & Hd' & Hm'). exists data'. by rewrite <- Nat.add_succ_comm.
Qed.

(** The owner of a destination recovers its amount. *)
Lemma made_decoded draw ts masks made view j t mask : made_for draw 0 ts masks made -> Forall reduced masks ->
  ts !! j = Some t -> masks !! j = Some mask -> 0 <= td_amount t < 2 ^ 64 ->
  wallet_address view (td_is_subaddress t) (td_address t) ->
  exists data C, made.*1 !! j = Some data /\ made.*2 !! j = Some C /\
    decode_asset_recipient_data data (m_spend_public_key (td_address t)) view (Z.of_nat j) C
      = Good (Decoded (td_amount t) mask).
Proof.
  intros Hf Hm Hj Hmj Ha Hw. destruct (Hf j t mask Hj Hmj) as (data & Hd & Hmake).
  exists data, (commit_to (td_amount t) mask). rewrite !list_lookup_fmap, Hd. split_and!; [done..|].
  apply Forall_lookup_1 with (i := j) (x := mask) in Hm as [Hm _]; [|done]. by eapply decode_made.
Qed.

End Outputs.

(** ** Balances *)

Section Balanced.
Context `{KeyExchangeLaws, !Prover, !ProverLaws}.

Definition opening_ok (o : Z * bytes) : Prop := 0 <= o.1 < 2 ^ 64 /\ reduced o.2.

Lemma commitments_zip amounts masks : zip_with commit_to amounts masks = commitments (zip amounts masks).
Proof. apply zip_with_zip. Qed.

Lemma commitments_points openings : Forall opening_ok openings ->
  Forall (fun p => isInMainSubgroup p = true) (commitments openings).
Proof.
  intros Ho. apply Forall_fmap. eapply Forall_impl; [done|]. intros [v m] [_ [_ Hm]]. by apply commitment_valid.
Qed.

Lemma built_balanced asset_id ins outs outputs burns proof : asset_id <> null_hash ->
  (1 <= length ins <= 16)%nat -> (1 <= length outs <= 16)%nat -> outputs ++ burns = commitments outs ->
  Forall opening_ok ins -> Forall opening_ok outs -> zsum ins.*1 = zsum outs.*1 ->
  zsum (of_le <$> ins.*2) mod group_order = zsum (of_le <$> outs.*2) mod group_order ->
  bulletproof_plus_VERIFY proof = Good true -> scale_commitments (bp_V proof) = Good (commitments outs) ->
  balanced (Balance asset_id (Pseudo asset_id <$> commitments ins) outputs burns [proof]).
Proof.
  intros Hid Hi Ho Hout Hins Houts Hsum Hmasks Hver Hscale.
  assert (i_commitment <$> (Pseudo asset_id <$> commitments ins) = commitments ins) as Hci.
  { rewrite <- list_fmap_compose. apply list_fmap_id. }
  split; cbn [b_asset_id b_pseudo_inputs b_outputs b_burns b_range_proofs]; rewrite ?Hci, ?Hout.
  - done.
  - unfold commitments. by rewrite !length_fmap.
  - unfold commitments. by rewrite length_fmap.
  - apply Forall_fmap, Forall_forall. done.
  - apply Forall_app. split; by apply commitments_points.
  - apply Forall_cons. split; [|done]. split; [|done]. intros Hn. rewrite Hn in Hscale.
    injection Hscale as Hscale. apply (f_equal length) in Hscale. unfold commitments in Hscale.
    rewrite length_fmap in Hscale. cbn in Hscale. lia.
  - unfold proof_V. cbn [fmap list_fmap concat]. by rewrite app_nil_r.
  - by apply commitments_add.
Qed.

End Balanced.

(** ** Ownership *)

Section Matching.
Context `{Crypto, RingCt} (network : Z) (carrier : bytes).

Lemma find_proof_used ps rest flags k input found : find_proof (ps ++ rest) (replicate (length ps) true ++ flags)
  k input found = find_proof rest flags (k + length ps) input found.
Proof.
  revert k. induction ps as [|p ps IH]; intros k; cbn [app length replicate find_proof negb andb].
  - by rewrite Nat.add_0_r.
  - by rewrite IH, Nat.add_succ_comm.
Qed.

Lemma find_proof_none rest input : forall k found, Forall (fun p => o_pseudo_input p <> i_commitment input) rest ->
  find_proof rest (replicate (length rest) false) k input found = Good found.
Proof.
  induction rest as [|p rest IH]; intros k found Hn; [done|]. apply Forall_cons in Hn as [Hp Hn].
  cbn [length replicate find_proof]. rewrite (bool_decide_eq_false_2 (o_pseudo_input p = _)) by done.
  rewrite andb_false_r. by apply IH.
Qed.

Lemma match_inputs_ok inputs rest : Forall2 (owns network carrier) inputs rest -> forall used,
  NoDup (o_pseudo_input <$> rest) -> NoDup (o_key_image <$> (used ++ rest)) ->
  match_inputs (used ++ rest) network carrier inputs
    (replicate (length used) true ++ replicate (length rest) false, o_key_image <$> used)
  = Good (replicate (length (used ++ rest)) true, o_key_image <$> (used ++ rest)).
Proof.
  induction 1 as [|input p inputs rest Ho Hos IH]; intros used Hc Hk.
  { cbn. by rewrite !app_nil_r. }
  cbn [match_inputs fmap list_fmap] in *. apply NoDup_cons in Hc as [Hn Hc].
  unfold match_input. rewrite find_proof_used. cbn [length replicate find_proof negb andb].
  destruct Ho as [Ha Hi Hs]. rewrite !bool_decide_eq_true_2 by done. cbn [andb require is_Some].
  rewrite bool_decide_eq_false_2 by (by intros [? [=]]). cbn [negb require]. rewrite bind_of_Good.
  rewrite find_proof_none, bind_of_Good; [|rewrite <- Hi; apply Forall_forall; intros q Hq E; apply Hn;
    rewrite <- E; by apply list_elem_of_fmap_2].
  cbn [expect Nat.add]. rewrite bind_of_Good, lookup_app_r, Nat.sub_diag by lia. cbn [lookup list_lookup].
  rewrite bind_of_Good, bool_decide_eq_false_2; cycle 1.
  { rewrite fmap_app in Hk. apply NoDup_app in Hk as (_ & Hk & _). intros Hin. apply (Hk _ Hin). left. }
  cbn [negb require]. rewrite bind_of_Good, Hs, !bind_of_Good.
  rewrite insert_app_r_alt, length_replicate, Nat.sub_diag by (by rewrite length_replicate). cbn [insert list_insert].
  specialize (IH (used ++ [p]) Hc). rewrite <- app_assoc in IH. cbn [app] in IH. specialize (IH Hk).
  rewrite length_app, replicate_add, fmap_app, <- app_assoc in IH. cbn [length replicate app fmap list_fmap] in IH. done.
Qed.

End Matching.

(** ** Inputs *)

Section Inputs.
Context `{KeyExchangeLaws, !Prover, !ProverLaws}.

Lemma ring_bytes_ok asset_id ring : forall seen,
  Forall (fun m => m_asset_id m = asset_id /\ m_output_id m <> null_hash /\
    isInMainSubgroup (ct_dest (m_public_output m)) = true /\
    isInMainSubgroup (ct_mask (m_public_output m)) = true) ring ->
  NoDup (m_output_id <$> ring) -> (forall m, m ∈ ring -> m_output_id m ∉ seen) ->
  exists r, ring_bytes asset_id ring seen = Good r.
Proof.
  induction ring as [|m ring IH]; intros seen Hr Hnd Hs; [by exists []|].
  apply Forall_cons in Hr as [(Ha & Hid & Hd & Hm) Hr]. apply NoDup_cons in Hnd as [Hn Hnd].
  destruct (IH ({[ m_output_id m ]} ∪ seen)) as [r Hrb]; [done|done| |].
  { intros m' Hm'. apply not_elem_of_union. split; [|apply Hs; by right].
    intros E%elem_of_singleton. apply Hn. rewrite <- E. by apply list_elem_of_fmap_2. }
  eexists. cbn [ring_bytes]. rewrite (bool_decide_eq_true_2 _ Ha). cbn [require]. rewrite bind_of_Good.
  rewrite (bool_decide_eq_false_2 _ Hid), (bool_decide_eq_false_2 (m_output_id m ∈ seen)) by (apply Hs; left).
  cbn [orb negb require].
  rewrite bind_of_Good, Hd, Hm. cbn [andb require]. by rewrite bind_of_Good, Hrb, bind_of_Good.
Qed.

Lemma message_ok pseudo asset_id i network carrier : spendable asset_id i -> public_network network = true ->
  asset_id <> null_hash -> carrier <> null_hash ->
  exists message, forall key_image signature,
    derive_asset_ownership_message (Ownership asset_id pseudo key_image (ti_ring i) signature)
      network carrier = Good message.
Proof.
  intros [Hlen _ Hr Hnd _ _ _] Hnet Ha Hc. destruct (network_id_public _ Hnet) as (nid & Hn & _).
  destruct (ring_bytes_ok asset_id (ti_ring i) ∅ Hr Hnd) as [r Hrb]; [set_solver|].
  eexists. intros key_image signature. unfold derive_asset_ownership_message.
  cbn [o_asset_id o_ring o_pseudo_input]. rewrite Hnet, !bool_decide_eq_false_2, Hlen by done.
  cbn [require orb negb]. rewrite !bind_of_Good. change (16 =? CONFIDENTIAL_ASSET_RING_SIZE)%nat with true.
  cbn [require]. by rewrite bind_of_Good, Hn, bind_of_Good, Hrb, bind_of_Good.
Qed.

Lemma check_inputs_ok asset_id inputs : Forall (spendable asset_id) inputs -> forall k, 0 <= k ->
  k + zsum (ti_amount <$> inputs) < 2 ^ 64 ->
  check_inputs asset_id inputs k = Good (k + zsum (ti_amount <$> inputs)).
Proof.
  induction 1 as [|i inputs Hi Hins IH]; intros k Hk Hs; cbn [check_inputs fmap list_fmap zsum foldr] in *.
  { f_equal. lia. }
  assert (0 <= zsum (ti_amount <$> inputs)) as Hpos.
  { apply zsum_nonneg, Forall_fmap. eapply Forall_impl; [done|]. intros j Hj. apply (spend_amount _ _ Hj). }
  fold (zsum (ti_amount <$> inputs)) in *.
  destruct Hi as [Hlen Hreal Hr Hnd [_ Hx] [_ Hm] Hv].
  destruct (ti_ring i !! ti_real_output_index i) as [m|] eqn:El; [|done]. injection Hreal as Hreal.
  pose proof (lookup_lt_Some _ _ _ El) as Hlt. unfold UINT64_MAX, CONFIDENTIAL_ASSET_RING_SIZE.
  rewrite (require_true ((_ =? 16)%nat && _)), bind_of_Good by lia. rewrite Hx, Hm. cbn [andb require].
  rewrite bind_of_Good, (require_true (_ <=? _)), !bind_of_Good by lia. rewrite Hreal. cbn [ct_mask ct_dest].
  rewrite !bool_decide_eq_true_2 by done. cbn [require]. rewrite !bind_of_Good.
  rewrite (require_true (forallb _ _)), bind_of_Good; cycle 1.
  { apply forallb_Forall. eapply Forall_impl; [done|]. intros m' (Ha & _). by apply bool_decide_eq_true_2. }
  rewrite IH by lia. f_equal. lia.
Qed.

Lemma sum_destinations_ok ts : Forall (fun t => 0 <= td_amount t) ts -> forall k,
  0 <= k -> k + zsum (td_amount <$> ts) < 2 ^ 64 -> sum_destinations ts k = Good (k + zsum (td_amount <$> ts)).
Proof.
  induction 1 as [|t ts Ht Hts IH]; intros k Hk Hs; cbn [sum_destinations fmap list_fmap zsum foldr] in *.
  { f_equal. lia. }
  assert (0 <= zsum (td_amount <$> ts)) as Hpos by (by apply zsum_nonneg, Forall_fmap).
  fold (zsum (td_amount <$> ts)) in *. unfold UINT64_MAX.
  rewrite require_true, bind_of_Good, IH by lia. f_equal. lia.
Qed.

(** The pseudo inputs, from input [k] on. *)
Definition pseudo_openings (dr : draws) (inputs : list asset_transfer_input) (k : nat) : list (Z * bytes) :=
  zip (ti_amount <$> inputs) (draw_pseudo dr <$> seq k (length inputs)).

Lemma sign_inputs_ok dr network asset_id carrier inputs : draws_ok dr -> public_network network = true ->
  asset_id <> null_hash -> carrier <> null_hash -> Forall (spendable asset_id) inputs -> forall k,
  (forall j i, inputs !! j = Some i -> signable dr network asset_id carrier (k + j) i) ->
  exists proofs, sign_inputs dr network asset_id carrier inputs k = Good proofs /\
    Forall2 (owns network carrier) (Pseudo asset_id <$> commitments (pseudo_openings dr inputs k)) proofs /\
    o_pseudo_input <$> proofs = commitments (pseudo_openings dr inputs k) /\
    o_key_image <$> proofs = (key_image_of ∘ ti_spend_secret <$> inputs) /\ forallb proof_shape proofs = true.
Proof.
  intros Hdr Hnet Ha Hc. induction 1 as [|i inputs Hi Hins IH]; intros k Hsig.
  { exists []. split_and!; done. }
  destruct (IH (S k)) as (proofs & Hp & Ho & Hps & Hk & Hsh).
  { intros j i' Hj. rewrite Nat.add_succ_comm. by apply Hsig. }
  specialize (Hsig 0%nat i eq_refl). rewrite Nat.add_0_r in Hsig. destruct Hsig as [Himg Hblind Hch].
  destruct (message_ok (commit_to (ti_amount i) (draw_pseudo dr k)) asset_id i network carrier Hi Hnet Ha Hc)
    as [msg Hmsg].
  destruct Hi as [Hlen Hreal Hpts _ Hx Hm _].
  destruct (clsag_complete (draw_signature dr k) msg (m_public_output <$> ti_ring i) (ti_spend_secret i) (ti_mask i)
    (ti_amount i) (draw_pseudo dr k) (ti_real_output_index i)) as (g & Hg & Hver & Hs & HI);
    [by rewrite list_lookup_fmap|done|done|by apply pseudo_drawn| |done..|by apply Hch|].
  { apply Forall_fmap. eapply Forall_impl; [exact Hpts|]. by intros m (_ & _ & ?). }
  eexists. cbn [sign_inputs]. rewrite Hmsg, bind_of_Good, Hg. cbn [caught]. rewrite bind_of_Good, Hp, bind_of_Good.
  split; [reflexivity|]. cbn [fmap list_fmap length seq zip zip_with pseudo_openings commitments uncurry].
  unfold pseudo_openings, commitments in Ho, Hps. unfold pseudo_openings, commitments.
  cbn [fmap list_fmap length seq zip_with uncurry]. rewrite length_fmap in Hs. split_and!.
  - apply Forall2_cons. split; [|done]. split; [done..|]. unfold verify_asset_ownership_proof.
    rewrite Hmsg, bind_of_Good. cbn [o_signature o_ring o_key_image o_pseudo_input].
    rewrite Hs, Nat.eqb_refl. cbn [require]. rewrite bind_of_Good. destruct g as [s c1 I D]. cbn [cl_s cl_c1 cl_I cl_D].
    by rewrite Hver.
  - cbn [o_pseudo_input]. by rewrite Hps.
  - cbn [o_key_image compose]. by rewrite HI, Hk.
  - cbn [forallb]. rewrite Hsh. unfold proof_shape. cbn [o_ring o_signature]. by rewrite Hs, Hlen.
Qed.

End Inputs.

(** ** Transfers *)

Lemma zip_with_longer {A B C} (f : A -> B -> C) l : forall k k', length l = length k ->
  zip_with f l (k ++ k') = zip_with f l k.
Proof. induction l as [|x l IH]; intros [|y k] k' E; cbn in *; try done. f_equal. apply IH. lia. Qed.

Lemma zip_with_burn {A B C} (f : A -> B -> C) l k x y : length l = length k ->
  zip_with f l (k ++ [y]) ++ [f x y] = zip_with f (l ++ [x]) (k ++ [y]).
Proof. intros E. by rewrite zip_with_longer, zip_with_app. Qed.

Lemma length_pad ts n : ts <> [] -> (length ts <= n)%nat -> length (pad_destinations ts n) = n.
Proof.
  intros Hne Hl. unfold pad_destinations. destruct (last ts) eqn:E; [|by apply last_None in E].
  rewrite length_app, length_replicate. lia.
Qed.

Lemma pad_amounts ts n : exists k, td_amount <$> pad_destinations ts n = (td_amount <$> ts) ++ replicate k 0.
Proof.
  unfold pad_destinations. rewrite fmap_app. destruct (last ts) as [t|]; [|exists 0%nat; done].
  exists (n - length ts)%nat. by rewrite fmap_replicate.
Qed.

Section Transfers.
Context `{KeyExchangeLaws, !CryptoLaws, !Prover, !ProverLaws}.

(** The number of outputs, which a burn makes one smaller. *)
Definition output_count (burn_amount : Z) : nat := if burn_amount =? 0 then 16 else 15.

(** What a transfer needs: inputs the wallet owns and can sign for with the drawn
    values, destinations that can be paid with the keys drawn for them, amounts
    that add up, and no collision among the pseudo inputs and the key images. *)
Record transfer_ready (dr : draws) (network : Z) (asset_id : bytes) (inputs : list asset_transfer_input)
  (destinations : list asset_transfer_destination) (burn_amount : Z) (carrier : bytes) : Prop := {
  ready_draws : draws_ok dr;
  ready_network : public_network network = true;
  ready_asset : asset_id <> null_hash;
  ready_carrier : carrier <> null_hash;
  ready_inputs : (1 <= length inputs <= 16)%nat;
  ready_spendable : Forall (spendable asset_id) inputs;
  ready_destinations : (1 <= length destinations <= output_count burn_amount)%nat;
  ready_amounts : Forall (fun t => 0 <= td_amount t) destinations;
  ready_burn : 0 <= burn_amount;
  ready_sum : zsum (td_amount <$> destinations) + burn_amount = zsum (ti_amount <$> inputs);
  ready_total : zsum (ti_amount <$> inputs) < 2 ^ 64;
  ready_payable : forall j t, pad_destinations destinations (output_count burn_amount) !! j = Some t ->
    payable (draw_secret dr) j t;
  ready_pseudo : NoDup (commitments (pseudo_openings dr inputs 0));
  ready_images : NoDup (key_image_of ∘ ti_spend_secret <$> inputs);
  ready_signable : forall k i, inputs !! k = Some i -> signable dr network asset_id carrier k i;
}.

(** The masks of the outputs and the burn, and their openings. *)
Definition transfer_masks (dr : draws) (inputs : list asset_transfer_input) : list bytes :=
  output_masks (draw_mask dr) 16 (foldl sc_add rct_zero (draw_pseudo dr <$> seq 0 (length inputs))).

Definition transfer_openings (dr : draws) (inputs : list asset_transfer_input)
  (destinations : list asset_transfer_destination) (burn_amount : Z) : list (Z * bytes) :=
  zip ((td_amount <$> pad_destinations destinations (output_count burn_amount))
        ++ (if burn_amount =? 0 then [] else [burn_amount]))
    (transfer_masks dr inputs).

Lemma forall_zip l k : Forall (fun x => 0 <= x < 2 ^ 64) l -> Forall reduced k -> Forall opening_ok (zip l k).
Proof.
  intros Hl. revert k. induction Hl as [|x l Hx Hl IH]; intros [|y k] Hk; try constructor.
  - by apply Forall_cons in Hk as [? _].
  - apply IH. by apply Forall_cons in Hk as [_ ?].
Qed.

Lemma bounded_amounts l : Forall (fun x => 0 <= x) l -> zsum l < 2 ^ 64 -> Forall (fun x => 0 <= x < 2 ^ 64) l.
Proof.
  induction 1 as [|x l Hx Hl IH]; intros Hs; [done|]. pose proof (zsum_nonneg l Hl) as Hn.
  unfold zsum in *. cbn [foldr] in Hs. constructor; [lia|apply IH; lia].
Qed.

Section Ready.
Context {dr : draws} {network : Z} {asset_id : bytes} {inputs : list asset_transfer_input}.
Context {destinations : list asset_transfer_destination} {burn : Z} {carrier : bytes}.
Context (Hr : transfer_ready dr network asset_id inputs destinations burn carrier).

Lemma pseudo_masks_ok : Forall reduced (draw_pseudo dr <$> seq 0 (length inputs)).
Proof. apply Forall_fmap, Forall_forall. intros k _. apply pseudo_drawn, Hr. Qed.

Lemma pseudo_openings_ok : length (pseudo_openings dr inputs 0) = length inputs /\
  Forall opening_ok (pseudo_openings dr inputs 0) /\
  (pseudo_openings dr inputs 0).*1 = ti_amount <$> inputs /\
  (pseudo_openings dr inputs 0).*2 = draw_pseudo dr <$> seq 0 (length inputs).
Proof.
  unfold pseudo_openings. rewrite fst_zip, snd_zip by (rewrite !length_fmap, length_seq; lia).
  rewrite length_zip_with, !length_fmap, length_seq. split_and!; [lia| |done|done].
  apply forall_zip; [|apply pseudo_masks_ok]. apply Forall_fmap. eapply Forall_impl; [apply Hr|].
  intros i Hi. apply (spend_amount _ _ Hi).
Qed.

Lemma padded_ok : length (pad_destinations destinations (output_count burn)) = output_count burn.
Proof. 
  destruct (ready_destinations _ _ _ _ _ _ _ Hr) as [Hl Hu]. apply length_pad; [|lia].
  intros E. rewrite E in Hl. cbn in Hl. lia.
Qed.

Lemma masks_ok : length (transfer_masks dr inputs) = 16%nat /\ Forall reduced (transfer_masks dr inputs) /\
  zsum (of_le <$> transfer_masks dr inputs) mod group_order
    = zsum (of_le <$> (draw_pseudo dr <$> seq 0 (length inputs))) mod group_order.
Proof.
  destruct (sum_masks _ pseudo_masks_ok) as [Ha Hs]. rewrite <- Hs.
  apply output_masks_ok; [apply Hr|done|lia].
Qed.

Lemma transfer_amounts : let amounts := (td_amount <$> pad_destinations destinations (output_count burn))
    ++ (if burn =? 0 then [] else [burn]) in
  length amounts = 16%nat /\ zsum amounts = zsum (ti_amount <$> inputs) /\ Forall (fun x => 0 <= x < 2 ^ 64) amounts.
Proof.
  cbv zeta. pose proof Hr as [_ _ _ _ _ _ _ Ha Hb Hs Ht _ _ _ _].
  assert (zsum ((td_amount <$> pad_destinations destinations (output_count burn))
    ++ (if burn =? 0 then [] else [burn])) = zsum (ti_amount <$> inputs)) as Hz.
  { destruct (pad_amounts destinations (output_count burn)) as [k ->]. rewrite !zsum_app, zsum_zeros.
    destruct (burn =? 0) eqn:E; cbn; lia. }
  split_and!; [|done|].
  - rewrite length_app, length_fmap, padded_ok. unfold output_count. by destruct (burn =? 0).
  - apply bounded_amounts; [|by rewrite Hz]. destruct (pad_amounts destinations (output_count burn)) as [k ->].
    repeat apply Forall_app_2; [by apply Forall_fmap|by apply Forall_replicate|].
    destruct (burn =? 0); [done|]. by apply Forall_cons.
Qed.

Lemma transfer_openings_ok : let openings := transfer_openings dr inputs destinations burn in
  length openings = 16%nat /\ Forall opening_ok openings /\
  openings.*1 = (td_amount <$> pad_destinations destinations (output_count burn))
    ++ (if burn =? 0 then [] else [burn]) /\
  openings.*2 = transfer_masks dr inputs.
Proof.
  destruct masks_ok as (Hl & Hm & _), transfer_amounts as (La & _ & Ha). unfold transfer_openings. cbv zeta.
  rewrite fst_zip, snd_zip by lia. rewrite length_zip_with, Hl, La.
  split_and!; [done| |done|done]. by apply forall_zip.
Qed.

(** The burn, as the commitment it becomes. *)
Definition transfer_burns (dr : draws) (inputs : list asset_transfer_input) (burn_amount : Z) : list bytes :=
  if burn_amount =? 0 then [] else [commit_to burn_amount (default rct_zero (last (transfer_masks dr inputs)))].

(** The outputs and the burn of a transfer are the commitments to its openings. *)
Lemma transfer_commitments :
  zip_with commit_to (td_amount <$> pad_destinations destinations (output_count burn)) (transfer_masks dr inputs)
    ++ transfer_burns dr inputs burn
  = commitments (transfer_openings dr inputs destinations burn).
Proof.
  unfold transfer_openings, transfer_burns. rewrite <- commitments_zip. pose proof padded_ok as Hl.
  unfold output_count in *. destruct (burn =? 0); [by rewrite !app_nil_r|].
  unfold transfer_masks, output_masks. rewrite last_snoc. apply zip_with_burn. by rewrite !length_fmap, Hl, length_seq.
Qed.

End Ready.

(** A payload with one group passes all checks but those of the group. *)
Lemma one_group_checks network carrier issuance b rs proofs known : public_network network = true ->
  carrier <> null_hash -> (1 <= length (b_pseudo_inputs b) <= 16)%nat ->
  (length (b_outputs b ++ b_burns b) <= 16)%nat -> length (b_range_proofs b) = 1%nat ->
  length rs = length (b_outputs b) -> forallb recipient_valid rs = true -> (length proofs <= 16)%nat ->
  forallb proof_shape proofs = true ->
  from_option (fun i => verify_issuance_authorization (p_descriptor i) (p_issuer_signature i) = Good ()) True issuance ->
  verify_asset_transaction_payload (Envelope ASSET_TRANSACTION_WIRE_VERSION network carrier issuance [b] [rs] proofs)
    known network carrier
  = verify_confidential_asset_transaction_with_ownership [b] proofs known (p_descriptor <$> issuance) network carrier.
Proof.
  rewrite length_app. intros Hnet Hc Hin Hout Hp Hrs Hv Hlen Hsh Hi.
  unfold verify_asset_transaction_payload, validate_asset_transaction_payload_shape.
  cbn [w_version w_network w_carrier_prefix_hash w_balances w_output_recipients w_ownership_proofs w_issuance
    check_group_shapes length].
  rewrite !Z.eqb_refl, Hnet, (bool_decide_eq_false_2 _ Hc), bool_decide_eq_true_2 by done.
  cbn [require negb]. rewrite !bind_of_Good. unfold MAX_ASSET_BALANCE_GROUPS,
    MAX_CONFIDENTIAL_ASSET_INPUTS, MAX_CONFIDENTIAL_ASSET_OUTPUTS, MAX_ASSET_RANGE_PROOFS,
    MAX_ASSET_TOTAL_INPUTS, MAX_ASSET_TOTAL_DESTINATIONS, MAX_ASSET_OWNERSHIP_PROOFS.
  repeat rewrite (require_true (negb _)), bind_of_Good by lia.
  repeat rewrite (require_true (_ =? _)%nat), bind_of_Good by lia.
  rewrite (require_true (_ <=? _)%nat), !bind_of_Good by lia. rewrite Hsh. cbn [require]. rewrite !bind_of_Good.
  assert (match issuance with
    | Some i => verify_issuance_authorization (p_descriptor i) (p_issuer_signature i) | None => Good () end = Good ())
    as -> by (by destruct issuance).
  rewrite bind_of_Good. cbn [forallb]. rewrite Hv. cbn [andb require]. by rewrite bind_of_Good.
Qed.

(** A group of a known asset is accepted if it balances and its inputs are owned. *)
Lemma transfer_accepted network carrier b rs proofs known : public_network network = true -> carrier <> null_hash ->
  balanced b -> b_asset_id b ∈ known -> length (b_range_proofs b) = 1%nat -> length rs = length (b_outputs b) ->
  forallb recipient_valid rs = true -> Forall2 (owns network carrier) (b_pseudo_inputs b) proofs ->
  NoDup (o_pseudo_input <$> proofs) -> NoDup (o_key_image <$> proofs) -> forallb proof_shape proofs = true ->
  verify_asset_transaction_payload (Envelope ASSET_TRANSACTION_WIRE_VERSION network carrier None [b] [rs] proofs)
    known network carrier = Good ().
Proof.
  intros Hnet Hc Hb Hk Hp Hrs Hv Ho Hps Hki Hsh. pose proof (Forall2_length _ _ _ Ho) as Hlen.
  pose proof Hb as [_ Hin Hout _ _ _ _ _]. rewrite one_group_checks by (done || lia). cbn [fmap option_fmap option_map].
  unfold verify_confidential_asset_transaction_with_ownership.
  rewrite (proj2 (transaction_Good _ _ _)), !bind_of_Good; cycle 1.
  { exists None. split_and!; [done|done| |apply NoDup_singleton|done]. apply Forall_cons. split; [|done].
    split; [done|]. by rewrite bool_decide_eq_false_2. }
  cbn [derive_issued_id]. rewrite ?bind_of_Good. cbn [match_groups]. unfold owned_inputs.
  rewrite bool_decide_eq_false_2 by done.
  pose proof (match_inputs_ok network carrier _ _ Ho [] Hps Hki) as Hm. cbn [app length replicate fmap list_fmap] in Hm.
  rewrite Hm, !bind_of_Good. apply require_true, forallb_Forall, Forall_replicate. done.
Qed.

(** The parts of the payload of a transfer. *)
Definition transfer_group (dr : draws) (asset_id : bytes) (inputs : list asset_transfer_input) (burn_amount : Z)
  (outputs : list bytes) (range_proof : BulletproofPlus) : confidential_asset_balance :=
  Balance asset_id (Pseudo asset_id <$> commitments (pseudo_openings dr inputs 0)) outputs
    (transfer_burns dr inputs burn_amount) [range_proof].

Record transfer_parts (dr : draws) (network : Z) (asset_id : bytes) (inputs : list asset_transfer_input)
  (destinations : list asset_transfer_destination) (burn_amount : Z) (carrier : bytes)
  (made : list (asset_recipient_data * bytes)) (range_proof : BulletproofPlus)
  (proofs : list asset_ownership_proof) : Prop := {
  parts_outputs : make_outputs (draw_secret dr) (pad_destinations destinations (output_count burn_amount))
    (transfer_masks dr inputs) 0 = Good made;
  parts_made : made_for (draw_secret dr) 0 (pad_destinations destinations (output_count burn_amount))
    (transfer_masks dr inputs) made;
  parts_range : bulletproof_plus_PROVE (draw_proof dr)
    ((td_amount <$> pad_destinations destinations (output_count burn_amount))
      ++ (if burn_amount =? 0 then [] else [burn_amount])) (transfer_masks dr inputs) = Good range_proof;
  parts_signed : sign_inputs dr network asset_id carrier inputs 0 = Good proofs;
  parts_accepted : forall known, asset_id ∈ known ->
    verify_asset_transaction_payload (Envelope ASSET_TRANSACTION_WIRE_VERSION network carrier None
      [transfer_group dr asset_id inputs burn_amount made.*2 range_proof] [made.*1] proofs)
      known network carrier = Good ();
}.

Lemma transfer_has_parts dr network asset_id inputs destinations burn carrier :
  transfer_ready dr network asset_id inputs destinations burn carrier ->
  exists made rp proofs, transfer_parts dr network asset_id inputs destinations burn carrier made rp proofs.
Proof.
  intros Hr. pose proof Hr as [Hdr Hnet Ha Hc Hin Hsp Hd Ham Hb Hs Ht Hpay Hps Hki Hsg].
  destruct (pseudo_openings_ok Hr) as (Li & Hio & Hi1 & Hi2).
  destruct (transfer_openings_ok Hr) as (Lo & Hoo & Ho1 & Ho2).
  destruct (masks_ok Hr) as (Lm & Hm & Hmz), (transfer_amounts Hr) as (_ & Hz & _).
  pose proof (transfer_commitments Hr) as Hcom.
  destruct (make_outputs_ok (draw_secret dr) (pad_destinations destinations (output_count burn))
    (transfer_masks dr inputs) 0) as (made & Hmade & Lmade & Hm2 & Hval & Hfor);
    [rewrite (padded_ok Hr), Lm; unfold output_count; case_if; lia|done|done|].
  destruct (range_complete (draw_proof dr) (transfer_openings dr inputs destinations burn))
    as (rp & Hrp & Hver & Hscale); [lia|done|].
  destruct (sign_inputs_ok dr network asset_id carrier inputs Hdr Hnet Ha Hc Hsp 0 Hsg)
    as (proofs & Hsign & Howns & Hopi & Hoki & Hsh).
  rewrite <- Hm2 in Hcom. exists made, rp, proofs. split; [done|done|by rewrite <- Ho1, <- Ho2|done|].
  assert (balanced (transfer_group dr asset_id inputs burn made.*2 rp)) as Hbal.
  { eapply built_balanced; [done|lia| |exact Hcom|done..| | |done|done]; [lia|congruence|]. by rewrite Hi2, Ho2. }
  intros known Hk. apply transfer_accepted; try done; [cbn; by rewrite !length_fmap|by rewrite Hopi|by rewrite Hoki].
Qed.

Lemma pseudo_inputs_eq dr asset_id inputs :
  zip_with (fun i m => Pseudo asset_id (commit_to (ti_amount i) m)) inputs (draw_pseudo dr <$> seq 0 (length inputs))
  = Pseudo asset_id <$> commitments (pseudo_openings dr inputs 0).
Proof.
  unfold pseudo_openings. rewrite <- commitments_zip. generalize 0%nat as k.
  induction inputs as [|i inputs IH]; intros k; [done|]. cbn [length seq fmap list_fmap zip_with]. f_equal. apply IH.
Qed.

Lemma transfer_created dr network asset_id inputs destinations burn carrier made rp proofs :
  transfer_ready dr network asset_id inputs destinations burn carrier ->
  transfer_parts dr network asset_id inputs destinations burn carrier made rp proofs ->
  create_asset_transfer_transaction_payload dr network asset_id inputs destinations burn carrier
  = Good (Envelope ASSET_TRANSACTION_WIRE_VERSION network carrier None
      [transfer_group dr asset_id inputs burn made.*2 rp] [made.*1] proofs).
Proof.
  intros Hr [Hmade _ Hrange Hsign Hacc]. pose proof Hr as [Hdr Hnet Ha Hc Hin Hsp Hd Ham Hb Hs Ht Hpay Hps Hki Hsg].
  assert (0 <= zsum (td_amount <$> destinations)) as Hpos by (by apply zsum_nonneg, Forall_fmap).
  unfold create_asset_transfer_transaction_payload.
  rewrite Hnet, !bool_decide_eq_false_2 by done. cbn [require orb negb]. rewrite !bind_of_Good.
  change MAX_CONFIDENTIAL_ASSET_INPUTS with 16%nat. change MAX_CONFIDENTIAL_ASSET_OUTPUTS with 16%nat.
  assert (output_count burn <= 16)%nat by (unfold output_count; case_if; lia).
  do 2 (rewrite (require_true (_ && (length _ <=? _)%nat)), bind_of_Good by lia).
  rewrite (check_inputs_ok _ _ Hsp), bind_of_Good, sum_destinations_ok, bind_of_Good by (done || lia).
  unfold UINT64_MAX. rewrite (require_true (_ && _)), bind_of_Good by lia.
  assert (16 - (if (burn =? 0)%Z then 0 else 1) = output_count burn)%nat as ->
    by (unfold output_count; by destruct (burn =? 0)).
  assert (output_count burn + (if (burn =? 0)%Z then 0 else 1) = 16)%nat as ->
    by (unfold output_count; by destruct (burn =? 0)).
  rewrite require_true, bind_of_Good by lia. fold (transfer_masks dr inputs). rewrite Hmade, bind_of_Good, Hrange.
  cbn [caught]. rewrite bind_of_Good, Hsign, bind_of_Good, pseudo_inputs_eq.
  change (Balance _ _ _ _ _) with (transfer_group dr asset_id inputs burn made.*2 rp).
  rewrite Hacc by set_solver. done.
Qed.


End Transfers.

(** ** Issuance *)

Section Issuance.
Context `{KeyExchangeLaws, !CryptoLaws, !Prover, !ProverLaws}.

(** The group of a new asset is accepted if it balances and its one input is the supply. *)
Lemma issuance_accepted issuance carrier id b rs known :
  public_network (d_network (p_descriptor issuance)) = true -> carrier <> null_hash ->
  verify_issuance_authorization (p_descriptor issuance) (p_issuer_signature issuance) = Good () ->
  derive_asset_id (p_descriptor issuance) = Good id -> balanced b -> b_asset_id b = id -> id ∉ known ->
  b_pseudo_inputs b = [Pseudo id (commit (d_atomic_supply (p_descriptor issuance)))] ->
  length (b_range_proofs b) = 1%nat -> length rs = length (b_outputs b) -> forallb recipient_valid rs = true ->
  verify_asset_transaction_payload (Envelope ASSET_TRANSACTION_WIRE_VERSION (d_network (p_descriptor issuance))
    carrier (Some issuance) [b] [rs] []) known (d_network (p_descriptor issuance)) carrier = Good ().
Proof.
  intros Hnet Hc Hauth Hid Hb <- Hk Hps Hp Hrs Hv. pose proof Hb as [_ Hin Hout _ _ _ _ _].
  rewrite one_group_checks by (done || apply Nat.le_0_l || lia). cbn [fmap option_fmap option_map].
  unfold verify_confidential_asset_transaction_with_ownership.
  assert (derive_issued_id (Some (p_descriptor issuance)) = Good (Some (b_asset_id b))) as Hd.
  { cbn [derive_issued_id]. by rewrite Hid. }
  rewrite (proj2 (transaction_Good _ _ _)), bind_of_Good, Hd, bind_of_Good; cycle 1.
  { exists (Some (b_asset_id b)). split_and!; [done|done| |apply NoDup_singleton|].
    - apply Forall_cons. split; [|done]. split; [done|]. by rewrite bool_decide_eq_true_2.
    - intros id' [= <-]. cbn. left. }
  cbn [match_groups]. unfold owned_inputs. rewrite bool_decide_eq_true_2, Hps by done. done.
Qed.

(** What an issuance needs. *)
Record issuance_ready (dr : draws) (issuance : issuance_payload) (recipient : account_public_address)
  (is_subaddress : bool) (carrier id : bytes) : Prop := {
  issue_draws : draws_ok dr;
  issue_carrier : carrier <> null_hash;
  issue_payload : exists e, encode_issuance_payload issuance = Good e;
  issue_supply : 0 <= d_atomic_supply (p_descriptor issuance) < 2 ^ 64;
  issue_id : derive_asset_id (p_descriptor issuance) = Good id;
  issue_asset : id <> null_hash;
  issue_payable : forall j amount, (j < 16)%nat ->
    payable (draw_secret dr) j (Destination recipient is_subaddress amount);
}.

Definition issuance_amounts (issuance : issuance_payload) : list Z :=
  d_atomic_supply (p_descriptor issuance) :: replicate (CONFIDENTIAL_ASSET_RING_SIZE - 1) 0.

Definition issuance_masks (dr : draws) : list bytes :=
  output_masks (draw_mask dr) CONFIDENTIAL_ASSET_RING_SIZE rct_zero.

Lemma issuance_openings dr issuance : draws_ok dr -> 0 <= d_atomic_supply (p_descriptor issuance) < 2 ^ 64 ->
  let outs := zip (issuance_amounts issuance) (issuance_masks dr) in
  length outs = 16%nat /\ Forall opening_ok outs /\ outs.*1 = issuance_amounts issuance /\
  outs.*2 = issuance_masks dr /\ zsum (of_le <$> outs.*2) mod group_order = 0.
Proof.
  intros Hdr Hs. cbv zeta. destruct (output_masks_ok (draw_mask dr) 16 rct_zero (mask_drawn _ Hdr)
    (proj1 zero_reduced)) as (Lm & Hm & Hz); [lia|].
  change (output_masks (draw_mask dr) 16 rct_zero) with (issuance_masks dr) in *.
  rewrite fst_zip, snd_zip by (by rewrite Lm). rewrite length_zip_with, Lm.
  split_and!; [done| |done|done|by rewrite Hz]. apply forall_zip; [|done].
  constructor; [done|]. by apply Forall_replicate.
Qed.

Lemma issuance_balanced dr issuance id outputs rp : id <> null_hash -> draws_ok dr ->
  0 <= d_atomic_supply (p_descriptor issuance) < 2 ^ 64 ->
  outputs = commitments (zip (issuance_amounts issuance) (issuance_masks dr)) ->
  bulletproof_plus_VERIFY rp = Good true -> scale_commitments (bp_V rp) = Good outputs ->
  balanced (Balance id [Pseudo id (commit_to (d_atomic_supply (p_descriptor issuance)) rct_zero)] outputs [] [rp]).
Proof.
  intros Ha Hdr Hs -> Hver Hscale. destruct (issuance_openings _ _ Hdr Hs) as (Lo & Ho & Ho1 & Ho2 & Hz).
  apply (built_balanced id [(d_atomic_supply (p_descriptor issuance), rct_zero)]
    (zip (issuance_amounts issuance) (issuance_masks dr))); [done|cbn; lia|lia|by rewrite app_nil_r| |done| | |done|done].
  - constructor; [|done]. split; [done|apply zero_reduced].
  - rewrite Ho1. change (zsum (issuance_amounts issuance))
      with (d_atomic_supply (p_descriptor issuance) + zsum (replicate 15 0)). by rewrite zsum_zeros.
  - by rewrite Hz.
Qed.

Lemma issuance_created dr issuance recipient is_sub carrier id :
  issuance_ready dr issuance recipient is_sub carrier id ->
  exists p made, create_issuance_transaction_payload dr issuance recipient is_sub carrier = Good p /\
    w_carrier_prefix_hash p = carrier /\ w_network p = d_network (p_descriptor issuance) /\
    w_issuance p = Some issuance /\ w_ownership_proofs p = [] /\ b_asset_id <$> w_balances p = [id] /\
    (forall known, id ∉ known ->
      verify_asset_transaction_payload p known (d_network (p_descriptor issuance)) carrier = Good ()) /\
    w_output_recipients p = [made.*1] /\ b_outputs <$> w_balances p = [made.*2] /\
    made_for (draw_secret dr) 0 (Destination recipient is_sub <$> issuance_amounts issuance) (issuance_masks dr) made.
Proof.
  intros [Hdr Hc [e He] Hs Hid Ha Hpay].
  pose proof He as (_ & Hauth & _ & db & Hdb & _)%encode_payload_Good.
  apply encode_descriptor_Good in Hdb as [Hnet%validate_public _].
  destruct (issuance_openings _ _ Hdr Hs) as (Lo & Ho & Ho1 & Ho2 & _).
  assert (length (issuance_masks dr) = 16%nat) as Lm by (by rewrite <- Ho2, length_fmap).
  destruct (make_outputs_ok (draw_secret dr) (Destination recipient is_sub <$> issuance_amounts issuance)
    (issuance_masks dr) 0) as (made & Hmade & Lmade & Hm2 & Hval & Hfor); [by rewrite Lm| | |].
  { intros j t Hj. pose proof (lookup_lt_Some _ _ _ Hj) as Hlt. rewrite list_lookup_fmap in Hj.
    destruct (issuance_amounts issuance !! j) as [v|]; [|done]. injection Hj as <-. by apply Hpay. }
  { rewrite <- Ho2. apply Forall_fmap. eapply Forall_impl; [exact Ho|]. by intros o [_ ?]. }
  rewrite <- list_fmap_compose in Hm2. change (td_amount ∘ Destination recipient is_sub) with (fun v : Z => v) in Hm2.
  rewrite list_fmap_id, commitments_zip in Hm2.
  destruct (range_complete (draw_proof dr) _ ltac:(by rewrite Lo; lia) Ho) as (rp & Hrp & Hver & Hscale).
  rewrite Ho1, Ho2 in Hrp. rewrite <- Hm2 in Hscale.
  pose proof (issuance_balanced dr issuance id made.*2 rp Ha Hdr Hs Hm2 Hver Hscale) as Hbal.
  eexists _, made. unfold create_issuance_transaction_payload. fold (issuance_amounts issuance) (issuance_masks dr).
  rewrite (bool_decide_eq_false_2 _ Hc). cbn [negb require]. rewrite bind_of_Good, He, bind_of_Good, Hid, bind_of_Good.
  rewrite Hmade, bind_of_Good, Hrp. cbn [caught]. rewrite bind_of_Good. cbn [w_network].
  assert (forall known, id ∉ known -> verify_asset_transaction_payload (Envelope ASSET_TRANSACTION_WIRE_VERSION
    (d_network (p_descriptor issuance)) carrier (Some issuance) [Balance id [Pseudo id (commit_to
    (d_atomic_supply (p_descriptor issuance)) rct_zero)] made.*2 [] [rp]] [made.*1] []) known
    (d_network (p_descriptor issuance)) carrier = Good ()) as Hacc.
  { intros known Hk. apply (issuance_accepted issuance carrier id); try done; cbn.
    - by rewrite zero_commitment.
    - by rewrite !length_fmap. }
  rewrite Hacc, bind_of_Good by set_solver. split; [reflexivity|]. done.
Qed.

(** C30: an asset whose descriptor is signed can be issued: the construction
    succeeds, every node that does not know the asset yet accepts the payload,
    it has sixteen outputs, and the issuer finds the whole supply in the first
    of them and nothing in the others. *)
Theorem issuance_built dr issuance recipient is_sub carrier id view :
  issuance_ready dr issuance recipient is_sub carrier id -> wallet_address view is_sub recipient ->
  exists p, create_issuance_transaction_payload dr issuance recipient is_sub carrier = Good p /\
    (forall known, id ∉ known ->
      verify_asset_transaction_payload p known (d_network (p_descriptor issuance)) carrier = Good ()) /\
    exists recipients outputs, w_output_recipients p = [recipients] /\ b_outputs <$> w_balances p = [outputs] /\
      forall j, (j < 16)%nat -> exists data C mask, recipients !! j = Some data /\ outputs !! j = Some C /\
        decode_asset_recipient_data data (m_spend_public_key recipient) view (Z.of_nat j) C
          = Good (Decoded (if (j =? 0)%nat then d_atomic_supply (p_descriptor issuance) else 0) mask).
Proof.
  intros Hr Hw. destruct (issuance_created _ _ _ _ _ _ Hr) as (p & made & Hp & _ & _ & _ & _ & _ & Hacc & Hrec & Hout & Hfor).
  exists p. split_and!; [done..|]. exists made.*1, made.*2. split_and!; [done..|]. intros j Hj.
  pose proof Hr as [Hdr _ _ Hs _ _ _]. destruct (issuance_openings _ _ Hdr Hs) as (Lo & Ho & Ho1 & Ho2 & _).
  assert (Forall reduced (issuance_masks dr)) as Hm.
  { rewrite <- Ho2. apply Forall_fmap. eapply Forall_impl; [exact Ho|]. by intros o [_ ?]. }
  assert (length (issuance_masks dr) = 16%nat) as Lm by (by rewrite <- Ho2, length_fmap).
  destruct (lookup_lt_is_Some_2 (issuance_masks dr) j) as [mask Hmj]; [lia|].
  assert (issuance_amounts issuance !! j
    = Some (if (j =? 0)%nat then d_atomic_supply (p_descriptor issuance) else 0)) as Hv.
  { destruct j as [|j]; [done|]. apply lookup_replicate. split; [done|]. unfold CONFIDENTIAL_ASSET_RING_SIZE. lia. }
  destruct (made_decoded _ _ _ _ view j (Destination recipient is_sub
      (if (j =? 0)%nat then d_atomic_supply (p_descriptor issuance) else 0)) mask Hfor Hm)
    as (data & C & HD & HC & Hdec); [by rewrite list_lookup_fmap, Hv|done|cbn; by destruct j|done|].
  by exists data, C, mask.
Qed.

End Issuance.

(** ** Samples *)

#[local] Existing Instance scalar_ringct.

(** Provers for the curve of scalars: a proof is the list of commitments. *)
#[global] Instance toy_prover : Prover := {
  scalarmultBase s := s;
  key_image_of s := s;
  bulletproof_plus_PROVE _ amounts masks := Good (sample_range_proof (zip_with commit_to amounts masks));
  proveRctCLSAGSimple _ _ ring secret _ _ _ :=
    Good (Clsag (replicate (length ring) rct_zero) rct_zero (ct_dest secret) rct_zero);
  clsag_challenges _ _ ring _ _ _ _ := replicate (length ring) rct_identity;
}.

Lemma toy_sum l : foldr (fun p s => of_le p + s) 0 (commitments l) mod group_order
  = (zsum l.*1 * 7919 + zsum (of_le <$> l.*2)) mod group_order.
Proof.
  induction l as [|[v m] l IH]; [done|]. cbn [commitments fmap list_fmap foldr uncurry zsum fst snd].
  change (foldr (fun p s => of_le p + s) 0 (uncurry commit_to <$> l))
    with (foldr (fun p s => of_le p + s) 0 (commitments l)).
  rewrite <- Zplus_mod_idemp_r, IH, Zplus_mod_idemp_r. cbn [commit_to toy_exchange]. unfold pedersen_of.
  rewrite of_scalar, Zplus_mod_idemp_l. f_equal. unfold zsum. lia.
Qed.

#[global] Instance toy_prover_laws : ProverLaws.
Proof.
  split.
  - done.
  - intros l l' H1 H2. exists (scalar (zsum l.*1 * 7919 + zsum (of_le <$> l.*2))). cbn [addKeys scalar_ringct].
    split; f_equal; unfold scalar; f_equal; rewrite toy_sum; [done|].
    by rewrite <- H1, <- Zplus_mod_idemp_r, <- H2, Zplus_mod_idemp_r.
  - intros seed l _ _. eexists. split; [reflexivity|]. split; [done|]. cbn [bp_V sample_range_proof].
    rewrite commitments_zip, zip_fst_snd. induction (commitments l) as [|c cs IH]; [done|]. cbn in *. by rewrite IH.
  - intros seed message ring x m v pm i Hi _ _ _ _ _ _ _. eexists. split; [reflexivity|]. split; [|split; [apply length_replicate|done]].
    apply list_elem_of_lookup_2, list_elem_of_In in Hi. cbn. f_equal. apply existsb_exists. eexists. split; [exact Hi|].
    by apply bool_decide_eq_true.
Qed.

Definition sample_draws : draws :=
  Draws (fun k => scalar (100 + Z.of_nat k)) (fun k => scalar (-7 - Z.of_nat k))
    (fun k => scalar (1000 + Z.of_nat k)) [] (fun _ => []).

Lemma sample_draws_ok : draws_ok sample_draws.
Proof. split; intros k; (split; [apply scalar_array|apply scalar_reduced]). Qed.

(** Whether the output can be made. *)
Definition payable_in (draw : nat -> bytes) (index : nat) (t : asset_transfer_destination) : bool :=
  match generate_key_derivation (m_view_public_key (td_address t)) (draw index) with
  | None => false
  | Some d =>
      match derive_public_key d (Z.of_nat index) (m_spend_public_key (td_address t)),
        secret_key_to_public_key (draw index) with
      | Some D, Some pub =>
          match (if td_is_subaddress t then scalarmultKey (m_spend_public_key (td_address t)) (draw index)
                 else Good pub) with
          | Good R => isInMainSubgroup D && negb (bool_decide (D = rct_identity)) && negb (bool_decide (R = null_pkey))
          | _ => false
          end
      | _, _ => false
      end
  end.

Lemma payable_in_spec draw index t : payable_in draw index t = true -> payable draw index t.
Proof.
  unfold payable_in, payable. intros E.
  destruct (generate_key_derivation _ _) as [d|]; [|done]. destruct (derive_public_key _ _ _) as [D|] eqn:ED; [|done].
  destruct (secret_key_to_public_key _) as [pub|]; [|done].
  destruct (if td_is_subaddress t then _ else _) as [R| | |] eqn:ER; try done. exists pub, R, d, D.
  apply andb_prop in E as [[E1 E2%negb_true_iff%bool_decide_eq_false]%andb_prop E3%negb_true_iff%bool_decide_eq_false].
  by split_and!.
Qed.

Lemma payable_all draw ts : forallb (uncurry (payable_in draw)) (zip (seq 0 (length ts)) ts) = true ->
  forall j t, ts !! j = Some t -> payable draw j t.
Proof.
  intros E j t Hj. apply payable_in_spec. rewrite forallb_Forall in E.
  apply (Forall_lookup_1 _ _ j (j, t)) in E; [done|]. apply lookup_zip_Some. split; [|done].
  apply lookup_seq. split; [done|]. by apply lookup_lt_Some in Hj.
Qed.

(** Two outputs of ten pieces each, in the rings of sixteen outputs each. *)
Definition sample_member (k : nat) : asset_ring_member :=
  Member gold (scalar (50 + Z.of_nat k)) (Ctkey (scalar (2000 + Z.of_nat k)) (commit_to 10 (scalar (Z.of_nat k)))).
Definition sample_spend (k : nat) : asset_transfer_input :=
  Spend (sample_member <$> seq 0 16) k (scalar (2000 + Z.of_nat k)) 10 (scalar (Z.of_nat k)).
Definition sample_payments : list asset_transfer_destination :=
  [Destination sample_sub true 12; Destination sample_main false 5].

Lemma sample_spendable k : (k < 16)%nat -> spendable gold (sample_spend k).
Proof.
  intros Hk. split; cbn [ti_ring ti_real_output_index ti_spend_secret ti_amount ti_mask sample_spend].
  - done.
  - rewrite list_lookup_fmap, lookup_seq_lt by done. done.
  - apply (bool_decide_unpack _). vm_compute. exact I.
  - apply (bool_decide_unpack _). vm_compute. exact I.
  - split; [apply scalar_array|apply scalar_reduced].
  - split; [apply scalar_array|apply scalar_reduced].
  - done.
Qed.

(** Whether the drawn values give signatures that are not refused. *)
Definition signable_in (dr : draws) (k : nat) (i : asset_transfer_input) : bool :=
  negb (bool_decide (key_image_of (ti_spend_secret i) = rct_identity)) && negb (bool_decide (draw_pseudo dr k = ti_mask i)).

Lemma signable_all dr network asset_id carrier inputs :
  forallb (uncurry (signable_in dr)) (zip (seq 0 (length inputs)) inputs) = true ->
  forall k i, inputs !! k = Some i -> signable dr network asset_id carrier k i.
Proof.
  intros E k i Hk. rewrite forallb_Forall in E. apply (Forall_lookup_1 _ _ k (k, i)) in E.
  - apply andb_prop in E as [E1%negb_true_iff%bool_decide_eq_false E2%negb_true_iff%bool_decide_eq_false].
    split; [done..|]. by intros message pseudo _ [=]%elem_of_replicate_inv.
  - apply lookup_zip_Some. split; [|done]. apply lookup_seq. split; [done|]. by apply lookup_lt_Some in Hk.
Qed.


Lemma issuance_built_witness : exists p,
  create_issuance_transaction_payload sample_draws coin sample_main false (fill 6) = Good p /\
  (forall known, id_of coin ∉ known ->
    verify_asset_transaction_payload p known (d_network (p_descriptor coin)) (fill 6) = Good ()) /\
  exists recipients outputs, w_output_recipients p = [recipients] /\ b_outputs <$> w_balances p = [outputs] /\
    forall j, (j < 16)%nat -> exists data C mask, recipients !! j = Some data /\ outputs !! j = Some C /\
      decode_asset_recipient_data data (m_spend_public_key sample_main) sample_view (Z.of_nat j) C
        = Good (Decoded (if (j =? 0)%nat then d_atomic_supply (p_descriptor coin) else 0) mask).
Proof.
  apply (issuance_built sample_draws coin sample_main false (fill 6) (id_of coin) sample_view); [|done]. split.
  - apply sample_draws_ok.
  - done.
  - eexists. vm_compute. reflexivity.
  - vm_compute. split; [discriminate|reflexivity].
  - vm_compute. reflexivity.
  - vm_compute. discriminate.
  - intros j amount Hj. apply (payable_all (draw_secret sample_draws)
      (replicate 16 (Destination sample_main false amount))); [vm_compute; reflexivity|].
    by apply lookup_replicate.
Defined.
