(* ===== verification/AssetBuildWire.v ===== *)
(** What is built can be sent: the payload of an issuance or of a transfer has the
    shapes the envelope is read with, and fits into it. *)

From stdpp Require Import gmap.
From S2P Require Import Prelude Bytes AssetTypes AssetExamples AssetCodec AssetSnapshot AssetConfidential AssetOwnership AssetWire AssetWireCodec AssetRecipient AssetBuild AssetBuildProps.

(** ** Sizes *)

Lemma length_concat_bound {A} (write : A -> bytes) (k n : nat) l : Forall (fun a => (length (write a) <= k)%nat) l ->
  (length l <= n)%nat -> (length (concat (write <$> l)) <= n * k)%nat.
Proof.
  intros Hl Hn. trans (length l * k)%nat; [|nia]. induction Hl as [|a l Ha _ IH]; [done|].
  cbn [fmap list_fmap concat length] in *. rewrite length_app. specialize (IH ltac:(lia)). lia.
Qed.

Lemma length_keys n keys : keys_wf n keys -> (length (write_keys keys) <= 1 + n * 32)%nat.
Proof.
  intros [Hn Hk]. unfold write_keys, write_count. rewrite length_app.
  pose proof (length_concat_bound id 32 n keys) as Hc. rewrite list_fmap_id in Hc. cbn [length]. apply le_n_S, Hc; [|done].
  eapply Forall_impl; [exact Hk|]. intros k Hka. unfold id. by rewrite (array_length _ _ Hka).
Qed.

Lemma length_range_proof p : range_wf p -> (length (write_range_proof p) <= 1731)%nat.
Proof.
  intros [HV (HA & HA1 & HB & Hr & Hs & Hd) HL HR _]. unfold write_range_proof. rewrite !length_app.
  pose proof (length_keys _ _ HV). pose proof (length_keys _ _ HL). pose proof (length_keys _ _ HR). array_lengths. lia.
Qed.

Lemma length_group g : group_wf g -> (length (group_bytes g) <= 16 * 2048)%nat.
Proof.
  intros [Ha [Hi Hiw] [Ho How] [Hr Hrw] Hb [Hp Hpw]]. unfold group_bytes, write_count. rewrite !length_app. cbn [length].
  assert (length (concat (write_pseudo_input <$> b_pseudo_inputs g.1)) <= 16 * 64)%nat.
  { apply length_concat_bound; [|lia]. eapply Forall_impl; [exact Hiw|]. intros i [H1 H2]. unfold write_pseudo_input.
    rewrite length_app. array_lengths. lia. }
  assert (length (concat ((fun o => write_output o.1 o.2) <$> zip (b_outputs g.1) g.2)) <= 16 * 161)%nat.
  { apply length_concat_bound; [|rewrite length_zip_with; lia].
    eapply Forall_impl; [apply (Forall_zip _ _ _ _ How Hrw)|]. intros [o r] [H1 [H2 H3 H4 H5 H6]]. cbn [fst snd] in *.
    unfold write_output. rewrite !length_app. array_lengths. lia. }
  assert (length (concat (write_range_proof <$> b_range_proofs g.1)) <= 16 * 1731)%nat.
  { apply length_concat_bound; [|lia]. eapply Forall_impl; [exact Hpw|]. apply length_range_proof. }
  pose proof (length_keys _ _ Hb). array_lengths. lia.
Qed.

Lemma length_ownership_proof p : proof_wf p -> (length (write_ownership_proof p) <= 2720)%nat.
Proof.
  intros [(Ha & Hp & Hk) [Hl Hr] [Hc HD] [Hsl Hs] _]. unfold write_ownership_proof. rewrite !length_app.
  assert (length (concat (write_member <$> o_ring p)) <= 16 * 128)%nat.
  { apply length_concat_bound; [|lia]. eapply Forall_impl; [exact Hr|]. intros m (H1 & H2 & H3 & H4). unfold write_member.
    rewrite !length_app. array_lengths. lia. }
  assert (length (concat (cl_s (o_signature p))) <= 16 * 32)%nat.
  { rewrite <- (list_fmap_id (cl_s (o_signature p))). apply (length_concat_bound id); [|lia].
    eapply Forall_impl; [exact Hs|]. intros k Hka. unfold id. by rewrite (array_length _ _ Hka). }
  array_lengths. lia.
Qed.

Section Encodes.
Context `{Crypto}.

Lemma length_encoded_issuance p e : payload_wf p -> encode_issuance_payload p = Good e -> (length e <= 2000)%nat.
Proof.
  intros [Hd Hs Hc] (_ & _ & _ & db & Edb & _ & ->)%encode_payload_Good.
  pose proof (length_encoded_descriptor _ _ Hd Edb). unfold payload_bytes, u16_le. rewrite !length_app, length_append_le.
  array_lengths. cbn [length ISSUANCE_PAYLOAD_DOMAIN].
  destruct (p_collection_signature p) as [g|]; cbn [from_option length] in *; array_lengths; lia.
Qed.

(** A well-formed payload with one group and sixteen proofs at most is below the
    limit of 256 KiB. *)
Lemma one_group_encodes p : envelope_wf p -> validate_asset_transaction_payload_shape p = Good () ->
  length (w_balances p) = 1%nat -> (length (w_ownership_proofs p) <= 16)%nat ->
  from_option (fun i => exists e, encode_issuance_payload i = Good e) True (w_issuance p) ->
  exists encoded, encode_asset_transaction_payload p = Good encoded.
Proof.
  intros Hwf Hsh Hb Hp Hi. pose proof Hwf as [Hc Hiw Hg Hpw].
  assert (exists issuance, write_issuance (w_issuance p) = Good issuance /\ (length issuance <= 2003)%nat) as (ib & Eib & Hib).
  { destruct (w_issuance p) as [i|]; cbn [write_issuance from_option] in *; [|exists [0]; split; [done|cbn; lia]].
    destruct Hi as [e He]. pose proof (length_encoded_issuance _ _ Hiw He). eexists.
    rewrite He, bind_of_Good, require_true, bind_of_Good by (unfold UINT16_MAX; lia). split; [done|].
    unfold u16_le. rewrite !length_app, length_append_le. cbn [length]. lia. }
  exists (envelope_bytes ib p). apply encode_envelope_Good; [done|]. split_and!; [done| |by exists ib].
  assert (length (concat (group_bytes <$> groups_of p)) <= 1 * (16 * 2048))%nat.
  { apply length_concat_bound; [|unfold groups_of; rewrite length_zip_with; lia].
    eapply Forall_impl; [exact Hg|]. apply length_group. }
  assert (length (concat (write_ownership_proof <$> w_ownership_proofs p)) <= 16 * 2720)%nat.
  { apply length_concat_bound; [|done]. eapply Forall_impl; [exact Hpw|]. apply length_ownership_proof. }
  unfold envelope_bytes, write_count, MAX_ASSET_WIRE_BYTES. rewrite !length_app. cbn [length]. array_lengths. lia.
Qed.

End Encodes.

(** ** Types *)

Section Types.
Context `{KeyExchangeLaws, !CryptoLaws, !Prover}.

(** What the C++ types of the results guarantee, and the sizes of the proofs: a
    range proof for at most sixteen amounts has at most sixteen commitments and
    at most sixteen pairs of points, and a signature has a response for each
    member of the ring. *)
Class BuildTypes : Prop := {
  commitment_array : forall v m, array 32 (commit_to v m);
  destination_array : forall d i P D, derive_public_key d i P = Some D -> array 32 D;
  product_array : forall P a A, scalarmultKey P a = Good A -> array 32 A;
  view_tag_array : forall d i, array 1 (derive_view_tag d i);
  range_proof_shape : forall seed amounts masks p, (1 <= length amounts <= 16)%nat ->
    length masks = length amounts -> bulletproof_plus_PROVE seed amounts masks = Good p -> range_wf p;
  clsag_shape : forall seed message ring sk pm C i g, array 32 (ct_dest sk) ->
    proveRctCLSAGSimple seed message ring sk pm C i = Good g ->
    length (cl_s g) = length ring /\ Forall (array 32) (cl_s g) /\
    array 32 (cl_c1 g) /\ array 32 (cl_I g) /\ array 32 (cl_D g);
}.
Context `{!BuildTypes}.

Lemma recipient_made a is_sub r i amount mask data C : array 32 mask ->
  make_asset_recipient_data_with_mask a is_sub r i amount mask = Good (data, C) -> recipient_wf data /\ array 32 C.
Proof.
  intros Hm E. unfold make_asset_recipient_data_with_mask in E. apply bind_Good in E as ([] & _ & E).
  apply bind_Good in E as (pub & Hpub%expect_Good & E). apply bind_Good in E as (R & HR & E).
  apply bind_Good in E as (d & _ & E). apply bind_Good in E as (D & HD%expect_Good & E). unfold ecdhEncode in E.
  cbv zeta in E. injection E as <- <-. split; [|apply commitment_array].
  split; cbn [c_destination c_tx_public_key c_encrypted_mask c_encrypted_amount c_view_tag].
  - by eapply destination_array.
  - destruct is_sub; [by eapply product_array|]. injection HR as <-. by eapply public_key_array.
  - apply sc_add_exact; [done|apply hash_to_scalar_array].
  - apply sc_add_exact; [apply d2h_array|apply hash_to_scalar_array].
  - apply view_tag_array.
Qed.

Lemma outputs_made draw ts : forall masks k made, Forall (array 32) masks -> make_outputs draw ts masks k = Good made ->
  length made = length ts /\ Forall recipient_wf made.*1 /\ Forall (array 32) made.*2.
Proof.
  induction ts as [|t ts IH]; intros [|m masks] k made Hm E; cbn [make_outputs] in E; try done;
    try (injection E as <-; split_and!; [done|constructor|constructor]).
  apply Forall_cons in Hm as [Hm Hms]. apply bind_Good in E as ([data C] & E1 & E). apply bind_Good in E as (rest & E2 & [= <-]).
  destruct (recipient_made _ _ _ _ _ _ _ _ Hm E1) as [Hd HC]. destruct (IH _ _ _ Hms E2) as (Hl & Hr & Hc).
  cbn [fmap list_fmap length fst snd]. split_and!; [by rewrite Hl|by constructor|by constructor].
Qed.

Lemma masks_drawn draw n total : (forall k, reduced (draw k)) -> array 32 total -> (1 <= n)%nat ->
  length (output_masks draw n total) = n /\ Forall (array 32) (output_masks draw n total).
Proof.
  intros Hd Ht Hn. destruct (output_masks_ok draw n total Hd Ht Hn) as (Hl & Hm & _). split; [done|].
  eapply Forall_impl; [exact Hm|]. by intros m [? _].
Qed.

Lemma verified_shape p known network carrier : verify_asset_transaction_payload p known network carrier = Good () ->
  validate_asset_transaction_payload_shape p = Good ().
Proof. unfold verify_asset_transaction_payload. intros E. by apply bind_Good in E as ([] & ? & _). Qed.

(** The payload of an issuance can be read back from its encoding. *)
Lemma issuance_encodes dr issuance recipient is_sub carrier p : draws_ok dr -> payload_wf issuance -> array 32 carrier ->
  create_issuance_transaction_payload dr issuance recipient is_sub carrier = Good p ->
  envelope_wf p /\ exists encoded, encode_asset_transaction_payload p = Good encoded.
Proof.
  intros Hdr Hi Hc E. unfold create_issuance_transaction_payload in E. apply bind_Good in E as ([] & _ & E).
  apply bind_Good in E as (ie & Eie & E). apply bind_Good in E as (id & Eid & E). cbv zeta in E.
  apply bind_Good in E as (made & Em & E). apply bind_Good in E as (rp & Erp & E).
  apply bind_Good in E as ([] & Ev%verified_shape & [= <-]).
  destruct (masks_drawn (draw_mask dr) CONFIDENTIAL_ASSET_RING_SIZE rct_zero (mask_drawn _ Hdr) (proj1 zero_reduced))
    as [Lm Hm]; [unfold CONFIDENTIAL_ASSET_RING_SIZE; lia|].
  apply outputs_made in Em as (Lmade & Hr & HC); [|done]. rewrite length_fmap in Lmade.
  assert (range_wf rp) as Hrp.
  { destruct (bulletproof_plus_PROVE _ _ _) eqn:Ep; try done. injection Erp as <-.
    apply range_proof_shape in Ep; [done|cbn; lia|by rewrite Lm]. }
  assert (array 32 id) as Hid by (unfold derive_asset_id in Eid; apply bind_Good in Eid as (? & _ & [= <-]); apply cn_fast_hash_array).
  match goal with |- envelope_wf ?q /\ _ => assert (envelope_wf q) as Hwf end.
  { split; [done|done| |constructor]. apply Forall_singleton.
    split; cbn [fst snd b_asset_id b_pseudo_inputs b_outputs b_burns b_range_proofs]; rewrite ?length_fmap, ?Lmade.
    - done.
    - split; [cbn; lia|]. apply Forall_singleton. split; [done|apply commitment_array].
    - split; [cbn; lia|done].
    - done.
    - split; [cbn; lia|constructor].
    - split; [cbn; lia|]. by apply Forall_singleton. }
  split; [done|]. apply one_group_encodes; cbn; [done|done|done|lia|by exists ie].
Qed.

(** An input whose secret and ring have the types of the code. *)
Definition input_typed (i : asset_transfer_input) : Prop :=
  length (ti_ring i) = 16%nat /\ Forall member_wf (ti_ring i) /\ array 32 (ti_spend_secret i).

Lemma proofs_signed dr network asset_id carrier inputs : array 32 asset_id -> Forall input_typed inputs -> forall k proofs,
  sign_inputs dr network asset_id carrier inputs k = Good proofs ->
  length proofs = length inputs /\ Forall proof_wf proofs.
Proof.
  intros Ha. induction 1 as [|i inputs (Hl & Hr & Hx) _ IH]; intros k proofs E; cbn [sign_inputs] in E.
  { injection E as <-. by split. }
  apply bind_Good in E as (message & _ & E). apply bind_Good in E as (g & Eg & E).
  apply bind_Good in E as (rest & Er & [= <-]). destruct (IH _ _ Er) as [Hlen Hall]. split; [cbn; by rewrite Hlen|].
  constructor; [|done]. destruct (proveRctCLSAGSimple _ _ _ _ _ _ _) as [g'| | |] eqn:Ep; try done. injection Eg as <-.
  apply clsag_shape in Ep as (Hs & Hsa & Hc1 & HI & HD); [|done]. rewrite length_fmap, Hl in Hs.
  split; cbn [o_asset_id o_pseudo_input o_key_image o_ring o_signature]; try done.
  split_and!; [done|apply commitment_array|done].
Qed.

Lemma pseudo_inputs_typed asset_id inputs masks : array 32 asset_id ->
  Forall pseudo_wf (zip_with (fun i m => Pseudo asset_id (commit_to (ti_amount i) m)) inputs masks).
Proof.
  intros Ha. revert masks. induction inputs as [|i inputs IH]; intros [|m masks]; try constructor; [|apply IH].
  split; [done|apply commitment_array].
Qed.

(** The group of a transfer. *)
Lemma transfer_group_wf asset_id inputs pseudo outputs recipients burns rp : array 32 asset_id -> Forall pseudo_wf pseudo ->
  length pseudo = length inputs -> (1 <= length (inputs : list asset_transfer_input) <= 16)%nat ->
  Forall recipient_wf recipients -> Forall (array 32) outputs -> length recipients = length outputs ->
  Forall (array 32) burns -> (length outputs + length burns <= 16)%nat -> range_wf rp ->
  group_wf (Balance asset_id pseudo outputs burns [rp], recipients).
Proof.
  intros Ha Hp Hl Hin Hr Ho Hrl Hb Hob Hrp.
  split; cbn [fst snd b_asset_id b_pseudo_inputs b_outputs b_burns b_range_proofs]; try done.
  - by rewrite Hl.
  - split; [lia|done].
  - split; [lia|done].
  - split; [cbn; lia|]. by apply Forall_singleton.
Qed.

(** The payload of a transfer can be read back from its encoding. *)
Lemma transfer_encodes dr network asset_id inputs destinations burn carrier p : draws_ok dr -> array 32 asset_id ->
  array 32 carrier -> Forall input_typed inputs -> destinations <> [] ->
  create_asset_transfer_transaction_payload dr network asset_id inputs destinations burn carrier = Good p ->
  envelope_wf p /\ exists encoded, encode_asset_transaction_payload p = Good encoded.
Proof.
  intros Hdr Ha Hc Hins Hne E. unfold create_asset_transfer_transaction_payload in E.
  apply bind_Good in E as ([] & _ & E). apply bind_Good in E as ([] & _ & E).
  apply bind_Good in E as ([] & Hin%require_Good & E). apply bind_Good in E as ([] & _ & E).
  apply bind_Good in E as (it & _ & E). apply bind_Good in E as (dt & _ & E). apply bind_Good in E as ([] & _ & E). cbv zeta in E.
  apply bind_Good in E as ([] & Hd%require_Good & E). apply bind_Good in E as (made & Em & E).
  apply bind_Good in E as (rp & Erp & E). apply bind_Good in E as (proofs & Es & E).
  apply bind_Good in E as ([] & Ev%verified_shape & [= <-]).
  set (bo := if burn =? 0 then 0%nat else 1%nat) in *.
  change (MAX_CONFIDENTIAL_ASSET_OUTPUTS) with 16%nat in *. change MAX_CONFIDENTIAL_ASSET_INPUTS with 16%nat in *.
  assert (bo <= 1)%nat as Hbo by (unfold bo; case_if; lia). replace (16 - bo + bo)%nat with 16%nat in * by lia.
  assert (Forall reduced (draw_pseudo dr <$> seq 0 (length inputs))) as Hps.
  { apply Forall_fmap, Forall_forall. intros j _. apply (pseudo_drawn _ Hdr). }
  destruct (masks_drawn (draw_mask dr) 16 _ (mask_drawn _ Hdr) (proj1 (sum_masks _ Hps))) as [Lm Hm]; [lia|].
  apply outputs_made in Em as (Lmade & Hr & HC); [|done]. apply Nat.leb_le in Hd. rewrite length_pad in Lmade by done.
  apply proofs_signed in Es as [Lp Hp]; [|done..].
  assert (range_wf rp) as Hrp.
  { destruct (bulletproof_plus_PROVE _ _ _) eqn:Ep; try done. injection Erp as <-.
    assert (length ((td_amount <$> pad_destinations destinations (16 - bo)) ++ (if burn =? 0 then [] else [burn])) = 16%nat)
      as La by (rewrite length_app, length_fmap, length_pad by done; unfold bo in *; case_if; cbn; lia).
    apply range_proof_shape in Ep; [done|lia|lia]. }
  match goal with |- envelope_wf ?q /\ _ => assert (envelope_wf q) as Hwf end.
  { split; [done|done| |done]. apply Forall_singleton.
    apply (transfer_group_wf _ inputs); try done; [by apply pseudo_inputs_typed| | |by rewrite !length_fmap| |].
    - rewrite length_zip_with, length_fmap, length_seq. lia.
    - lia.
    - case_if; [constructor|]. apply Forall_singleton, commitment_array.
    - rewrite length_fmap, Lmade. unfold bo. case_if; cbn; lia. }
  split; [done|]. apply one_group_encodes; [done|done|done|cbn; lia|done].
Qed.

End Types.

(** The toy provers keep to the types. *)
#[local] Existing Instance scalar_ringct.

#[global] Instance toy_build_types : BuildTypes.
Proof.
  split.
  - intros v m. apply scalar_array.
  - intros d i P D [= <-]. apply scalar_array.
  - intros P a A [= <-]. apply scalar_array.
  - intros d i. apply (append_le_array 1).
  - intros seed amounts masks p Ha Hm [= <-]. split; cbn [bp_V bp_A bp_A1 bp_B bp_r1 bp_s1 bp_d1 bp_L bp_R sample_range_proof].
    + split; [rewrite length_zip_with; lia|]. apply Forall_forall. intros c (v & m & -> & _)%elem_of_zip_with. apply scalar_array.
    + split_and!; by apply arrayb_array.
    + split; [cbn; lia|]. by apply Forall_singleton, arrayb_array.
    + split; [cbn; lia|]. by apply Forall_singleton, arrayb_array.
    + done.
  - intros seed message ring sk pm C i g Hx [= <-]. cbn [cl_s cl_c1 cl_I cl_D]. rewrite length_replicate.
    split_and!; [done|apply Forall_replicate|..]; try done; by apply arrayb_array.
Qed.
