(* ===== verification/AssetWallet.v ===== *)
(** The assets of a wallet ([wallet2.cpp]): the scan of confirmed transactions,
    the detachment of blocks a reorganisation removes, the selection of inputs
    and the rings around them, and the issuance a wallet signs. *)

From stdpp Require Import gmap sorting.
From S2P Require Import Prelude Bytes AssetTypes AssetConfidential AssetWire AssetBalance AssetDb AssetExtra AssetRpc AssetRecipient AssetBuild.

(** The operations of the key device, which is software here. *)
Class WalletKeys := {
  derive_secret_key : bytes -> Z -> bytes -> bytes;
  get_subaddress_secret_key : bytes -> Z * Z -> bytes;
  generate_key_image : bytes -> bytes -> bytes;
}.

Definition null_skey : bytes := replicate 32 0.
Definition null_key_image : bytes := replicate 32 0.

(** What the asset code reads of a wallet. [m_subaddresses] maps spend keys to
    subaddress indices; the list is the order of its iteration. *)
Record wallet := Wallet {
  m_nettype : Z;
  m_view_secret_key : bytes;
  m_spend_secret_key : bytes;
  m_subaddresses : list (bytes * (Z * Z));
  m_watch_only : bool;
  m_multisig : bool;
  m_background_syncing : bool;
  m_is_background_wallet : bool;
  m_key_on_device : bool;
}.

Record asset_transfer_details := Transfer {
  t_asset_id : bytes;
  t_output_id : bytes;
  t_txid : bytes;
  t_block_height : Z;
  t_output_index : Z;
  t_amount : Z;
  t_mask : bytes;
  t_subaddr_index : Z * Z;
  t_destination : bytes;
  t_tx_public_key : bytes;
  t_key_image : bytes;
  t_key_image_known : bool;
  t_spent : bool;
  t_spent_height : Z;
}.

Abbreviation transfers := (list asset_transfer_details).

Definition set_spent (spent : bool) (height : Z) (td : asset_transfer_details) : asset_transfer_details :=
  Transfer (t_asset_id td) (t_output_id td) (t_txid td) (t_block_height td) (t_output_index td) (t_amount td)
    (t_mask td) (t_subaddr_index td) (t_destination td) (t_tx_public_key td) (t_key_image td)
    (t_key_image_known td) spent height.

(** [find_if] on the key images, and the update of what it finds. *)
Fixpoint mark_spent (key_image : bytes) (height : Z) (ts : transfers) : transfers :=
  match ts with
  | [] => []
  | td :: ts =>
      if t_key_image_known td && bool_decide (t_key_image td = key_image) then set_spent true height td :: ts
      else td :: mark_spent key_image height ts
  end.

Definition detach_asset_transfers (height : Z) (ts : transfers) : transfers :=
  filter (fun td => ~ height <= t_block_height td)
    ((fun td => if t_spent td && (height <=? t_spent_height td) then set_spent false 0 td else td) <$> ts).

(** ** The listing

    The totals of an asset as [asset_list] shows them. *)
Record totals := Totals { tot_amount : Z; tot_unspent : nat; tot_spent : nat; tot_overflow : bool }.

Definition add_to_totals (td : asset_transfer_details) (total : totals) : totals :=
  if t_spent td then Totals (tot_amount total) (tot_unspent total) (S (tot_spent total)) (tot_overflow total)
  else
    let overflow := UINT64_MAX - tot_amount total <? t_amount td in
    Totals (if overflow then tot_amount total
            else if tot_overflow total then tot_amount total else tot_amount total + t_amount td)
      (S (tot_unspent total)) (tot_spent total) (overflow || tot_overflow total).

Definition asset_list (ts : transfers) : gmap bytes totals :=
  foldl (fun assets td => partial_alter (fun total =>
    Some (add_to_totals td (default (Totals 0 0 0 false) total))) (t_asset_id td) assets) ∅ ts.

Section Scan.
Context `{Crypto, RingCt, KeyExchange, WalletKeys} {rest : Type}.
Context (get_transaction_prefix_hash : transaction_prefix rest -> bytes).

(** The key of an output and its key image, for a software device and a wallet
    without multisig keys. *)
Definition generate_key_image_helper_precomp (w : wallet) (out_key recv_derivation : bytes)
  (real_output_index : Z) (received_index : Z * Z) : option (bytes * bytes) :=
  if bool_decide (m_spend_secret_key w = null_skey) then Some (null_skey, generate_key_image out_key null_skey)
  else
    let scalar_step1 := derive_secret_key recv_derivation real_output_index (m_spend_secret_key w) in
    let scalar_step2 :=
      if bool_decide (received_index = (0, 0)) then scalar_step1
      else sc_add scalar_step1 (get_subaddress_secret_key (m_view_secret_key w) received_index) in
    pub ← secret_key_to_public_key scalar_step2;
    if bool_decide (pub = out_key) then Some (scalar_step2, generate_key_image pub scalar_step2) else None.

(** The key of an owned output, from its transaction key. *)
Definition output_key (w : wallet) (tx_public_key destination : bytes) (output_index : Z) (index : Z * Z) :
  option (bytes * bytes) :=
  derivation ← generate_key_derivation tx_public_key (m_view_secret_key w);
  generate_key_image_helper_precomp w destination derivation output_index index.

(** The loop over the subaddresses: the first one the output belongs to. *)
Fixpoint find_owner (view_secret_key : bytes) (recipient : asset_recipient_data) (output : bytes)
  (output_index : Z) (subaddresses : list (bytes * (Z * Z))) : outcome (option (decoded_asset_recipient * (Z * Z))) :=
  match subaddresses with
  | [] => Good None
  | (spend_public_key, index) :: subaddresses =>
      match decode_asset_recipient_data recipient spend_public_key view_secret_key output_index output with
      | Good decoded => Good (Some (decoded, index))
      | Bad _ => find_owner view_secret_key recipient output output_index subaddresses
      | Thrown e => Thrown e
      | Wild => Wild
      end
  end.

(** What is recorded of an owned output. *)
Definition details_of (w : wallet) (asset_id output_id txid : bytes) (height output_index : Z)
  (decoded : decoded_asset_recipient) (index : Z * Z) (recipient : asset_recipient_data) : asset_transfer_details :=
  let image :=
    if negb (m_watch_only w) && negb (m_multisig w) && negb (m_background_syncing w)
    then output_key w (c_tx_public_key recipient) (c_destination recipient) output_index index else None in
  Transfer asset_id output_id txid height output_index (dec_amount decoded) (dec_mask decoded) index
    (c_destination recipient) (c_tx_public_key recipient) (from_option snd null_key_image image)
    (bool_decide (is_Some image)) false 0.

(** One output: [break] and [continue] leave the transfers as they are. *)
Definition scan_output (w : wallet) (txid : bytes) (height : Z) (carrier_prefix_hash asset_id : bytes)
  (output_index : Z) (recipient : asset_recipient_data) (output : bytes) (ts : transfers) : outcome transfers :=
  owner ← find_owner (m_view_secret_key w) recipient output output_index (m_subaddresses w);
  match owner with
  | None => Good ts
  | Some (decoded, index) =>
      if dec_amount decoded =? 0 then Good ts
      else
        match derive_asset_output_id (m_nettype w) carrier_prefix_hash asset_id output_index
          (c_destination recipient) output with
        | Good output_id =>
            if existsb (fun td => bool_decide (t_output_id td = output_id)) ts then Good ts
            else Good (ts ++ [details_of w asset_id output_id txid height output_index decoded index recipient])
        | Bad _ => Good ts
        | Thrown e => Thrown e
        | Wild => Wild
        end
  end.

Fixpoint scan_outputs (w : wallet) (txid : bytes) (height : Z) (carrier_prefix_hash asset_id : bytes)
  (index : Z) (outputs : list bytes) (recipients : list asset_recipient_data) (ts : transfers) :
  outcome (Z * transfers) :=
  match outputs, recipients with
  | [], _ => Good (index, ts)
  | _ :: _, [] => Wild
  | output :: outputs, recipient :: recipients =>
      ts ← scan_output w txid height carrier_prefix_hash asset_id index recipient output ts;
      scan_outputs w txid height carrier_prefix_hash asset_id (index + 1) outputs recipients ts
  end.

(** The groups, with [global_output_index]. *)
Fixpoint scan_groups (w : wallet) (txid : bytes) (height : Z) (carrier_prefix_hash : bytes) (index : Z)
  (balances : list confidential_asset_balance) (recipients : list (list asset_recipient_data)) (ts : transfers) :
  outcome transfers :=
  match balances, recipients with
  | [], _ => Good ts
  | _ :: _, [] => Wild
  | b :: balances, rs :: recipients =>
      '(index, ts) ← scan_outputs w txid height carrier_prefix_hash (b_asset_id b) index (b_outputs b) rs ts;
      scan_groups w txid height carrier_prefix_hash index balances recipients ts
  end.

Definition scan_payload (w : wallet) (txid : bytes) (height : Z) (p : asset_transaction_payload) (ts : transfers) :
  outcome transfers :=
  scan_groups w txid height (w_carrier_prefix_hash p) 0 (w_balances p) (w_output_recipients p)
    (foldl (fun ts proof => mark_spent (o_key_image proof) height ts) ts (w_ownership_proofs p)).

Definition scan_asset_outputs (w : wallet) (txid : bytes) (tx : transaction_prefix rest)
  (height block_version : Z) (pool : bool) (ts : transfers) : outcome transfers :=
  if pool || (block_version <? HF_VERSION_MONZERO_ASSETS) then Good ts
  else
    match parse_native_asset_transaction get_transaction_prefix_hash tx block_version (m_nettype w) with
    | Good (Some p) => scan_payload w txid height p ts
    | Good None | Bad _ => Good ts
    | Thrown e => Thrown e
    | Wild => Wild
    end.

(** ** Issuance *)

Definition create_asset_issuance (w : wallet) (fresh k1 k2 : bytes) (d : issuance_descriptor) :
  outcome (issuance_payload * bytes) :=
  require (negb (m_background_syncing w || m_is_background_wallet w))
    "background wallets cannot authorize asset issuance";;
  require (negb (m_watch_only w)) "watch-only wallets cannot authorize asset issuance";;
  require (negb (m_multisig w)) "multisig asset issuance is not implemented";;
  require (negb (m_key_on_device w)) "hardware-wallet asset issuance is not implemented";;
  require (d_network d =? m_nettype w) "asset issuance network does not match the wallet network";;
  create_issuance_payload fresh k1 k2 d (m_spend_secret_key w)
    (if bool_decide (d_collection_id d = null_hash) then None else Some (m_spend_secret_key w)).

(** ** Transfers *)

(** The outputs a transfer may spend. *)
Definition eligible (asset_id : bytes) (subaddr_account : Z) (subaddr_indices : gset Z)
  (td : asset_transfer_details) : bool :=
  bool_decide (t_asset_id td = asset_id) && negb (t_spent td) && t_key_image_known td
  && negb (t_amount td =? 0) && negb (bool_decide (t_tx_public_key td = null_pkey))
  && ((t_subaddr_index td).1 =? subaddr_account)
  && (bool_decide (subaddr_indices = ∅) || bool_decide ((t_subaddr_index td).2 ∈ subaddr_indices)).

(** The comparison of [sort]: large amounts first, then by output id. *)
Definition sorts_before (a b : asset_transfer_details) : Prop :=
  t_amount b < t_amount a \/ t_amount a = t_amount b /\ memcmp_lt (t_output_id b) (t_output_id a) = false.
#[global] Instance sorts_before_dec : RelDecision sorts_before := fun a b => _.

(** The loop over the sorted outputs. *)
Fixpoint select_inputs (w : wallet) (required : Z) (tds : transfers)
  (selected : list (asset_transfer_details * bytes)) (selected_total : Z) :
  outcome (list (asset_transfer_details * bytes) * Z) :=
  match tds with
  | [] => Good (selected, selected_total)
  | td :: tds =>
      if (length selected =? MAX_CONFIDENTIAL_ASSET_INPUTS)%nat then Good (selected, selected_total)
      else
        '(secret, image) ← expect (output_key w (t_tx_public_key td) (t_destination td) (t_output_index td)
          (t_subaddr_index td)) "wallet could not regenerate a selected asset spend key";
        require (bool_decide (image = t_key_image td)) "wallet could not regenerate a selected asset spend key";;
        let selected := selected ++ [(td, secret)] in
        require (t_amount td <=? UINT64_MAX - selected_total) "selected asset input amount overflows";;
        let selected_total := selected_total + t_amount td in
        if required <=? selected_total then Good (selected, selected_total)
        else select_inputs w required tds selected selected_total
  end.

Definition select_asset_inputs (w : wallet) (ts : transfers) (asset_id : bytes) (required : Z)
  (subaddr_account : Z) (subaddr_indices : gset Z) : outcome (list (asset_transfer_details * bytes) * Z) :=
  '(selected, selected_total) ← select_inputs w required
    (merge_sort sorts_before (filter (fun td => eligible asset_id subaddr_account subaddr_indices td = true) ts)) [] 0;
  require (required <=? selected_total)
    "wallet has insufficient spendable asset outputs for this operation";;
  Good (selected, selected_total).

(** The calls of the daemon: the number of outputs of the asset, and the outputs
    at the indices drawn and those selected. *)
Definition total_request (asset_id : bytes) : get_asset_outputs_request :=
  OutputsRequest (pod_to_hex asset_id) 0 1 [] [].

Definition ring_request (asset_id : bytes) (random_indices : list Z)
  (selected : list (asset_transfer_details * bytes)) : get_asset_outputs_request :=
  OutputsRequest (pod_to_hex asset_id) 0 0 random_indices
    ((fun input => pod_to_hex (t_output_id input.1)) <$> selected).

(** An answer counts if its status is OK and assets are active. *)
Definition active_response (answer : option get_asset_outputs_response) : option get_asset_outputs_response :=
  response ← answer;
  if bool_decide (rs_status response = CORE_RPC_STATUS_OK) && rs_active response then Some response else None.

Definition ring_member_of (entry : output_entry) : option asset_ring_member :=
  asset_id ← hex_to_pod 32 (e_asset_id entry);
  output_id ← hex_to_pod 32 (e_output_id entry);
  dest ← hex_to_pod 32 (e_destination entry);
  mask ← hex_to_pod 32 (e_commitment entry);
  Some (Member asset_id output_id (Ctkey dest mask)).

(** The ring members of the daemon's answer, each once. *)
Fixpoint ring_candidates (asset_id : bytes) (entries : list output_entry)
  (candidates : list asset_ring_member) : outcome (list asset_ring_member) :=
  match entries with
  | [] => Good candidates
  | entry :: entries =>
      member ← expect (ring_member_of entry) "daemon returned a malformed asset ring member";
      require (bool_decide (m_asset_id member = asset_id)
        && isInMainSubgroup (ct_dest (m_public_output member))
        && isInMainSubgroup (ct_mask (m_public_output member))) "daemon returned a malformed asset ring member";;
      ring_candidates asset_id entries
        (if existsb (fun c => bool_decide (m_output_id c = m_output_id member)) candidates then candidates
         else candidates ++ [member])
  end.

(** [for (index = ring.size(); index > 1; --index) swap(ring[index - 1], ring[rand_idx(index)]);] *)
Fixpoint shuffle (rand_idx : nat -> nat) (index : nat) (ring : list asset_ring_member) :
  outcome (list asset_ring_member) :=
  match index with
  | O | S O => Good ring
  | S last =>
      match ring !! last, ring !! rand_idx index with
      | Some a, Some b => shuffle rand_idx last (<[last := b]> (<[rand_idx index := a]> ring))
      | _, _ => Wild
      end
  end.

Definition with_id (id : bytes) (m : asset_ring_member) : Prop := m_output_id m = id.
#[global] Instance with_id_dec id m : Decision (with_id id m) := decide (m_output_id m = id).

(** The ring around a selected output; [rand_idx] are the draws of the two shuffles. *)
Definition make_ring (rand_idx : (nat -> nat) * (nat -> nat)) (candidates : list asset_ring_member)
  (selected_input : asset_transfer_details * bytes) : outcome asset_transfer_input :=
  let '(td, spend_secret) := selected_input in
  found ← expect (list_find (with_id (t_output_id td)) candidates)
    "daemon did not return an authentic selected asset output";
  let real := found.2 in
  require (bool_decide (ct_dest (m_public_output real) = t_destination td)
    && bool_decide (ct_mask (m_public_output real) = commit_to (t_amount td) (t_mask td)))
    "daemon did not return an authentic selected asset output";;
  let ring := filter (fun m => ~ with_id (t_output_id td) m) candidates in
  require (CONFIDENTIAL_ASSET_RING_SIZE - 1 <=? length ring)%nat "daemon returned too few distinct asset decoys";;
  ring ← shuffle rand_idx.1 (length ring) ring;
  let ring := take (CONFIDENTIAL_ASSET_RING_SIZE - 1) ring ++ [real] in
  ring ← shuffle rand_idx.2 (length ring) ring;
  let real_index := from_option fst (length ring) (list_find (with_id (t_output_id td)) ring) in
  Good (Spend ring real_index spend_secret (t_amount td) (t_mask td)).

Fixpoint make_rings (rand_idx : nat -> (nat -> nat) * (nat -> nat)) (candidates : list asset_ring_member)
  (selected : list (asset_transfer_details * bytes)) (index : nat) : outcome (list asset_transfer_input) :=
  match selected with
  | [] => Good []
  | s :: selected =>
      input ← make_ring (rand_idx index) candidates s;
      rest ← make_rings rand_idx candidates selected (S index);
      Good (input :: rest)
  end.

(** The destinations: the recipient, the change, or an empty output to oneself. *)
Definition transfer_destinations (recipient : account_public_address) (recipient_is_subaddress : bool)
  (transfer_amount change_amount : Z) (change_address : account_public_address) (subaddr_account : Z) :
  list asset_transfer_destination :=
  let change := Destination change_address (negb (subaddr_account =? 0)) in
  let destinations :=
    (if transfer_amount =? 0 then [] else [Destination recipient recipient_is_subaddress transfer_amount])
    ++ (if change_amount =? 0 then [] else [change change_amount]) in
  if (length destinations =? 0)%nat then [change 0] else destinations.

(** The hard-fork test of both builders; the daemon may fail to answer. *)
Definition fork_rules (use_fork_rules : outcome bool) (message : string) : outcome unit :=
  match use_fork_rules with
  | Good active => require active message
  | Bad what | Thrown what => Bad ("cannot determine asset activation from daemon: " +:+ what)
  | Wild => Wild
  end.
Arguments fork_rules use_fork_rules message%_string.

(** [create_asset_transfer_transaction] up to the construction of the native
    transaction: the selected outputs, and the inputs and the destinations of the
    asset payload. [daemon] answers a call, or not ([None]);
    [random_indices total] is the set that the loop over [rand_idx(total)] fills. *)
Definition plan_asset_transfer (w : wallet) (ts : transfers) (asset_id : bytes)
  (recipient : account_public_address) (recipient_is_subaddress : bool) (transfer_amount burn_amount : Z)
  (subaddr_account : Z) (subaddr_indices : gset Z) (light_wallet : bool) (use_fork_rules : outcome bool)
  (change_address : account_public_address)
  (daemon : get_asset_outputs_request -> option get_asset_outputs_response) (random_indices : Z -> list Z)
  (rand_idx : nat -> (nat -> nat) * (nat -> nat)) :
  outcome (list (asset_transfer_details * bytes) * list asset_transfer_input * list asset_transfer_destination) :=
  require (negb light_wallet) "light wallets cannot verify asset hard-fork activation";;
  require (negb (m_watch_only w || m_multisig w || m_background_syncing w || m_is_background_wallet w))
    "asset transfers require a full, foreground, non-multisig wallet";;
  require (negb (m_key_on_device w)) "asset transfers are not implemented for hardware wallets";;
  require (negb ((transfer_amount =? 0) && (burn_amount =? 0)))
    "asset transfer and burn amounts cannot both be zero";;
  require (transfer_amount <=? UINT64_MAX - burn_amount) "asset transfer amount overflows";;
  fork_rules use_fork_rules "asset transfers are not active at the daemon's current hard fork";;
  let required := transfer_amount + burn_amount in
  '(selected, selected_total) ← select_asset_inputs w ts asset_id required subaddr_account subaddr_indices;
  total_response ← expect (active_response (daemon (total_request asset_id)))
    "daemon could not provide an active asset output set";
  require (Z.of_nat CONFIDENTIAL_ASSET_RING_SIZE <=? rs_total total_response)
    "asset does not yet have the 16 outputs required for a transfer ring";;
  ring_response ← expect (active_response (daemon (ring_request asset_id
    (random_indices (rs_total total_response)) selected))) "daemon could not provide selected asset ring members";
  candidates ← ring_candidates asset_id (rs_outputs ring_response) [];
  inputs ← make_rings rand_idx candidates selected 0;
  Good (selected, inputs, transfer_destinations recipient recipient_is_subaddress transfer_amount
    (selected_total - required) change_address subaddr_account).

End Scan.
