(* ===== verification/AssetWalletProps.v ===== *)
(** The assets of a wallet across reorganisations: detaching the blocks that a
    reorganisation removes gives back what the wallet knew before it scanned
    them, and a one-time key that is used twice is counted twice. *)

From stdpp Require Import gmap.
From S2P Require Import Prelude Bytes AssetTypes AssetExamples AssetCodec AssetConfidential AssetOwnership AssetWire AssetWireCodec AssetBalance AssetDb AssetExtra AssetExtraProps AssetRecipient AssetBuild AssetBuildProps AssetWallet.

Lemma set_spent_twice a h b k td : set_spent a h (set_spent b k td) = set_spent a h td.
Proof. done. Qed.

Lemma set_spent_same td : set_spent (t_spent td) (t_spent_height td) td = td.
Proof. by destruct td. Qed.

Section Rollback.
Context `{Crypto, RingCt, KeyExchange, WalletKeys} {rest : Type}.
Context (prefix_hash : transaction_prefix rest -> bytes) (w : wallet).

(** ** The scan of a chain *)

(** A transaction as a block confirms it. *)
Record confirmed := Confirmed {
  f_txid : bytes;
  f_tx : transaction_prefix rest;
  f_height : Z;
  f_version : Z;
}.

Fixpoint scan_chain (chain : list confirmed) (ts : transfers) : outcome transfers :=
  match chain with
  | [] => Good ts
  | f :: chain =>
      ts ← scan_asset_outputs prefix_hash w (f_txid f) (f_tx f) (f_height f) (f_version f) false ts;
      scan_chain chain ts
  end.

(** The asset key images a transaction spends. *)
Definition spends (f : confirmed) : list bytes :=
  match parse_native_asset_transaction prefix_hash (f_tx f) (f_version f) (m_nettype w) with
  | Good (Some p) => o_key_image <$> w_ownership_proofs p
  | _ => []
  end.

(** What is known of the transfers of a chain below height [h] that spends [images]. *)
Definition settled (h : Z) (images : list bytes) (td : asset_transfer_details) : Prop :=
  t_block_height td < h /\
  if t_spent td then t_spent_height td < h /\ t_key_image td ∈ images else t_spent_height td = 0.

(** [later] is [td], or [td] spent at height [h] or above. *)
Definition later (h : Z) (td td' : asset_transfer_details) : Prop :=
  td' = td \/ t_spent td = false /\ exists k, h <= k /\ td' = set_spent true k td.

Definition evolved (h : Z) (ts ts' : transfers) : Prop :=
  exists old new, ts' = old ++ new /\ Forall2 (later h) ts old /\ Forall (fun td => h <= t_block_height td) new.

Lemma evolved_refl h ts : evolved h ts ts.
Proof. exists ts, []. rewrite app_nil_r. split_and!; [done| |done]. induction ts; constructor; [by left|done]. Qed.

Lemma evolved_snoc h ts ts' td : evolved h ts ts' -> h <= t_block_height td -> evolved h ts (ts' ++ [td]).
Proof.
  intros (old & new & -> & Ho & Hn) Ht. exists old, (new ++ [td]). rewrite app_assoc. split_and!; [done|done|].
  apply Forall_app. split; [done|]. by apply Forall_singleton.
Qed.

Lemma mark_new h image k new : Forall (fun td => h <= t_block_height td) new ->
  Forall (fun td => h <= t_block_height td) (mark_spent image k new).
Proof. induction 1 as [|td new Ht Hn IH]; cbn; [done|]. case_if; by constructor. Qed.

Lemma mark_evolved h ts ts' image k : evolved h ts ts' -> h <= k ->
  Forall (fun td => t_spent td = true -> t_key_image td <> image) ts -> evolved h ts (mark_spent image k ts').
Proof.
  intros (old & new & -> & Ho & Hn) Hk Hi. revert Hi.
  induction Ho as [|td td' ts old Ht Ho IH]; intros Hi; cbn [app mark_spent].
  { exists [], (mark_spent image k new). split_and!; [done|constructor|by apply mark_new]. }
  apply Forall_cons in Hi as [Hi His]. case_if.
  - exists (set_spent true k td' :: old), new. split_and!; [done| |done]. constructor; [|done].
    apply andb_true_iff in Heqb as [_ E%bool_decide_eq_true]. right.
    destruct Ht as [->|(Hs & k' & Hk' & ->)].
    + split; [|by exists k]. destruct (t_spent td); [by destruct (Hi eq_refl)|done].
    + split; [done|]. by exists k.
  - destruct (IH His) as (old' & new' & E & Ho' & Hn'). exists (td' :: old'), new'. cbn. rewrite E.
    split_and!; [done|by constructor|done].
Qed.

Lemma detach_evolved h images ts ts' : evolved h ts ts' -> Forall (settled h images) ts ->
  detach_asset_transfers h ts' = ts.
Proof.
  intros (old & new & -> & Ho & Hn) Hs. unfold detach_asset_transfers. rewrite fmap_app, filter_app.
  assert (filter (fun td => ~ h <= t_block_height td) ((fun td => if t_spent td && (h <=? t_spent_height td)
    then set_spent false 0 td else td) <$> new) = []) as ->.
  { clear Ho Hs. induction Hn as [|td new Ht _ IH]; [done|]. cbn [fmap list_fmap]. rewrite filter_cons_False; [done|].
    case_if; cbn; lia. }
  rewrite app_nil_r. revert Hs. induction Ho as [|td td' ts old Ht Ho IH]; intros Hs; [done|].
  apply Forall_cons in Hs as [[Hb Hsp] Hs]. cbn [fmap list_fmap].
  assert ((if t_spent td' && (h <=? t_spent_height td') then set_spent false 0 td' else td') = td) as ->.
  { destruct Ht as [->|(E & k & Hk & ->)].
    - destruct (t_spent td) eqn:Es; [|done]. cbn. case_if; [lia|done].
    - cbn [t_spent t_spent_height set_spent andb]. rewrite (proj2 (Z.leb_le h k)) by done.
      rewrite E in Hsp. rewrite set_spent_twice, <- Hsp, <- E. apply set_spent_same. }
  rewrite filter_cons_True by lia. f_equal. by apply IH.
Qed.

(** ** What a scan does *)

(** A property of the transfers that marking and recording preserve holds after
    the scan of a transaction. *)
Section Induction.
Context (P : transfers -> Prop) (height : Z).
Context (Hrecord : forall ts td, P ts -> t_block_height td = height -> t_spent td = false ->
  t_spent_height td = 0 -> P (ts ++ [td])).

Lemma scan_output_ind txid carrier asset_id index r output ts ts' : P ts ->
  scan_output w txid height carrier asset_id index r output ts = Good ts' -> P ts'.
Proof.
  unfold scan_output. intros HP E. apply bind_Good in E as ([[d i]|] & _ & E); [|by injection E as <-].
  case_if_in E; [by injection E as <-|].
  destruct (derive_asset_output_id _ _ _ _ _ _) as [id| | |]; try done; [|by injection E as <-].
  case_if_in E; injection E as <-; [done|]. by apply Hrecord.
Qed.

Lemma scan_outputs_ind txid carrier asset_id outputs : forall index rs ts r, P ts ->
  scan_outputs w txid height carrier asset_id index outputs rs ts = Good r -> P r.2.
Proof.
  induction outputs as [|o outputs IH]; intros index [|rc rs] ts r HP E; cbn in E; try done;
    try by injection E as <-.
  apply bind_Good in E as (ts1 & E1 & E). eapply IH; [|done]. by eapply scan_output_ind.
Qed.

Lemma scan_groups_ind txid carrier balances : forall index rs ts ts', P ts ->
  scan_groups w txid height carrier index balances rs ts = Good ts' -> P ts'.
Proof.
  induction balances as [|b balances IH]; intros index [|rc rs] ts ts' HP E; cbn in E; try done;
    try by injection E as <-.
  apply bind_Good in E as ([index' ts1] & E1%scan_outputs_ind & E); [|done]. by eapply IH.
Qed.

Lemma scan_ind f ts ts' : f_height f = height -> P ts ->
  (forall ts image, image ∈ spends f -> P ts -> P (mark_spent image height ts)) ->
  scan_asset_outputs prefix_hash w (f_txid f) (f_tx f) (f_height f) (f_version f) false ts = Good ts' -> P ts'.
Proof.
  intros Hh HP Hmark E. unfold scan_asset_outputs, spends in *. rewrite Hh in E. case_if_in E; [by injection E as <-|].
  destruct (parse_native_asset_transaction _ _ _ _) as [[p|]| | |]; try done; try by injection E as <-.
  eapply scan_groups_ind; [|done]. clear E. revert ts HP.
  induction (w_ownership_proofs p) as [|o os IH]; intros ts HP; [done|]. cbn [foldl fmap list_fmap] in *. apply IH.
  - intros ts1 image Hi. apply Hmark. by right.
  - apply Hmark; [left|done].
Qed.

End Induction.

Lemma scan_settled h images f ts ts' : 0 <= f_height f < h ->
  scan_asset_outputs prefix_hash w (f_txid f) (f_tx f) (f_height f) (f_version f) false ts = Good ts' ->
  Forall (settled h images) ts -> Forall (settled h (images ++ spends f)) ts'.
Proof.
  intros Hh E Hs. eapply (scan_ind (Forall (settled h (images ++ spends f))) (f_height f)); [| | | |exact E].
  - intros l td Hl Hb Hu Hz. apply Forall_app. split; [done|]. apply Forall_singleton. split; [lia|]. by rewrite Hu.
  - done.
  - eapply Forall_impl; [exact Hs|]. intros td [Hb Ht]. split; [done|]. destruct (t_spent td); [|done].
    split; [apply Ht|]. apply elem_of_app. left. apply Ht.
  - intros l image Hi Hl. induction Hl as [|td l Ht Hl IH]; cbn [mark_spent]; [done|]. case_if; constructor; try done.
    apply andb_true_iff in Heqb as [_ <-%bool_decide_eq_true]. split; [apply Ht|]. cbn. split; [lia|].
    apply elem_of_app. by right.
Qed.

Lemma scan_chain_settled h chain : forall images ts ts', Forall (fun f => 0 <= f_height f < h) chain ->
  scan_chain chain ts = Good ts' -> Forall (settled h images) ts ->
  Forall (settled h (images ++ (chain ≫= spends))) ts'.
Proof.
  induction chain as [|f chain IH]; intros images ts ts' Hh E Hs; cbn in E.
  - injection E as <-. cbn. by rewrite app_nil_r.
  - apply Forall_cons in Hh as [Hf Hh]. apply bind_Good in E as (ts1 & E1 & E). cbn. rewrite app_assoc.
    eapply IH; [done|done|]. by eapply scan_settled.
Qed.

Lemma scan_chain_evolved h ts chain : forall ts1 ts2, Forall (fun f => h <= f_height f) chain ->
  Forall (fun td => t_spent td = true -> t_key_image td ∉ chain ≫= spends) ts ->
  evolved h ts ts1 -> scan_chain chain ts1 = Good ts2 -> evolved h ts ts2.
Proof.
  induction chain as [|f chain IH]; intros ts1 ts2 Hh Hi He E; cbn in E; [by injection E as <-|].
  apply Forall_cons in Hh as [Hf Hh]. apply bind_Good in E as (ts3 & E3 & E). cbn in Hi.
  eapply IH; [done| | |exact E].
  { eapply Forall_impl; [exact Hi|]. intros td Hn Hs Hx. apply (Hn Hs), elem_of_app. by right. }
  eapply (scan_ind (evolved h ts) (f_height f)); [| |done| |exact E3]; [|done|].
  - intros l td Hl Hb _ _. apply evolved_snoc; [done|lia].
  - intros l image Him Hl. apply mark_evolved; [done|lia|]. eapply Forall_impl; [exact Hi|].
    intros td Hn Hs <-. apply (Hn Hs). apply elem_of_app. by left.
Qed.

Lemma chain_detached h pre post ts ts' :
  Forall (fun f => 0 <= f_height f < h) pre -> Forall (fun f => h <= f_height f) post ->
  NoDup ((pre ++ post) ≫= spends) -> scan_chain pre [] = Good ts -> scan_chain post ts = Good ts' ->
  detach_asset_transfers h ts' = ts.
Proof.
  intros Hpre Hpost Hnd E1 E2.
  pose proof (scan_chain_settled h pre [] [] ts Hpre E1 (Forall_nil_2 _)) as Hs. cbn [app] in Hs.
  rewrite bind_app in Hnd. apply NoDup_app in Hnd as (_ & Hd & _).
  eapply detach_evolved; [|exact Hs]. eapply scan_chain_evolved; [done| |apply evolved_refl|exact E2].
  eapply Forall_impl; [exact Hs|]. intros td [_ Ht] Hsp. rewrite Hsp in Ht. apply Hd, Ht.
Qed.

(** A wallet that has scanned a chain in which no key image is spent twice
    and then detaches it from a height on has exactly the transfers, with their
    spent marks, that it had after the blocks below. *)
Theorem wallet_rollback_exact h pre post ts ts' :
  Forall (fun f => 0 <= f_height f < h) pre -> Forall (fun f => h <= f_height f) post ->
  NoDup ((pre ++ post) ≫= spends) -> scan_chain pre [] = Good ts -> scan_chain post ts = Good ts' ->
  detach_asset_transfers h ts' = ts.
Proof. apply chain_detached. Qed.

End Rollback.

(** ** One-time keys that are used twice *)

Section Reuse.
Context `{Crypto, RingCt, KeyExchange, WalletKeys} (w : wallet).

Lemma existsb_id_false id ts : Forall (fun td => t_output_id td <> id) ts ->
  existsb (fun td => bool_decide (t_output_id td = id)) ts = false.
Proof. induction 1 as [|td ts Ht _ IH]; cbn; [done|]. by rewrite bool_decide_eq_false_2. Qed.

Lemma scan_output_records txid height carrier asset_id index r C ts decoded sub id :
  find_owner (m_view_secret_key w) r C index (m_subaddresses w) = Good (Some (decoded, sub)) ->
  dec_amount decoded <> 0 ->
  derive_asset_output_id (m_nettype w) carrier asset_id index (c_destination r) C = Good id ->
  Forall (fun td => t_output_id td <> id) ts ->
  scan_output w txid height carrier asset_id index r C ts
    = Good (ts ++ [details_of w asset_id id txid height index decoded sub r]).
Proof.
  intros Ho Ha Hd Hn. unfold scan_output. rewrite Ho, bind_of_Good. apply Z.eqb_neq in Ha as ->.
  by rewrite Hd, existsb_id_false.
Qed.

Lemma mark_spent_app image h ts td rest : Forall (fun td => t_key_image td <> image) ts ->
  t_key_image_known td = true -> t_key_image td = image ->
  mark_spent image h (ts ++ td :: rest) = ts ++ set_spent true h td :: rest.
Proof.
  intros Hn Hk Hi. induction Hn as [|td' ts Ht _ IH]; cbn [app mark_spent].
  - by rewrite Hk, bool_decide_eq_true_2.
  - rewrite (bool_decide_eq_false_2 _ Ht), andb_false_r. by f_equal.
Qed.

(** C36: an output that is paid again to the same one-time key, with the same
    recipient data in a transaction with another carrier hash, is recorded a
    second time with the same key image; when that key image is spent, the
    wallet marks the first of the two and still counts the other, which no node
    will let it spend. *)
Theorem reused_key_counted_twice ts asset_id index r C decoded sub secret image tx1 tx2 h1 h2 c1 c2 id1 id2 :
  find_owner (m_view_secret_key w) r C index (m_subaddresses w) = Good (Some (decoded, sub)) ->
  dec_amount decoded <> 0 ->
  output_key w (c_tx_public_key r) (c_destination r) index sub = Some (secret, image) ->
  m_watch_only w = false -> m_multisig w = false -> m_background_syncing w = false ->
  derive_asset_output_id (m_nettype w) c1 asset_id index (c_destination r) C = Good id1 ->
  derive_asset_output_id (m_nettype w) c2 asset_id index (c_destination r) C = Good id2 -> id1 <> id2 ->
  Forall (fun td => t_output_id td <> id1 /\ t_output_id td <> id2 /\ t_key_image td <> image) ts ->
  exists td1 td2,
    (ts' ← scan_output w tx1 h1 c1 asset_id index r C ts; scan_output w tx2 h2 c2 asset_id index r C ts')
      = Good (ts ++ [td1; td2]) /\
    t_key_image td1 = image /\ t_key_image td2 = image /\
    t_amount td1 = dec_amount decoded /\ t_amount td2 = dec_amount decoded /\
    forall h, mark_spent image h (ts ++ [td1; td2]) = ts ++ [set_spent true h td1; td2] /\ t_spent td2 = false.
Proof.
  intros Ho Ha Hk Hw Hm Hb Hd1 Hd2 Hne Hts.
  assert (forall id txid h, t_key_image (details_of w asset_id id txid h index decoded sub r) = image /\
    t_key_image_known (details_of w asset_id id txid h index decoded sub r) = true) as Himg.
  { intros id txid h. unfold details_of. rewrite Hw, Hm, Hb, Hk. done. }
  exists (details_of w asset_id id1 tx1 h1 index decoded sub r), (details_of w asset_id id2 tx2 h2 index decoded sub r).
  split_and!; try (done || apply Himg).
  - rewrite (scan_output_records _ _ _ _ _ _ _ _ _ _ _ Ho Ha Hd1), bind_of_Good.
    + rewrite (scan_output_records _ _ _ _ _ _ _ _ _ _ _ Ho Ha Hd2), <- app_assoc; [done|].
      apply Forall_app. split; [|by apply Forall_singleton]. eapply Forall_impl; [exact Hts|]. by intros td (? & ? & ?).
    + eapply Forall_impl; [exact Hts|]. by intros td (? & ? & ?).
  - intros h. split; [|done]. apply mark_spent_app; [|apply Himg..]. eapply Forall_impl; [exact Hts|]. by intros td (? & ? & ?).
Qed.

End Reuse.

(** ** The listing *)

Abbreviation unspent_of id ts := (filter (fun td => t_asset_id td = id /\ t_spent td = false) ts).
Abbreviation spent_of id ts := (filter (fun td => t_asset_id td = id /\ t_spent td = true) ts).

Definition totals_ok (unspent spent : transfers) (t : totals) : Prop :=
  tot_unspent t = length unspent /\ tot_spent t = length spent /\
  tot_overflow t = (2 ^ 64 <=? zsum (t_amount <$> unspent)) /\
  (tot_overflow t = false -> tot_amount t = zsum (t_amount <$> unspent)) /\
  0 <= tot_amount t <= zsum (t_amount <$> unspent) /\ tot_amount t < 2 ^ 64.

Lemma asset_list_totals id ts : Forall (fun td => 0 <= t_amount td < 2 ^ 64) ts ->
  totals_ok (unspent_of id ts) (spent_of id ts) (default (Totals 0 0 0 false) (asset_list ts !! id)).
Proof.
  induction ts as [|td ts IH] using rev_ind; intros Ha; [by unfold totals_ok; cbn|].
  apply Forall_app in Ha as [Hts [Ha _]%Forall_cons_1]. specialize (IH Hts).
  unfold asset_list. rewrite foldl_snoc. fold (asset_list ts). rewrite !filter_app, !filter_cons, !filter_nil.
  destruct (decide (t_asset_id td = id)) as [<-|Hne]; cycle 1.
  { rewrite lookup_partial_alter_ne by done. rewrite !decide_False by (by intros [? _]). by rewrite !app_nil_r. }
  rewrite lookup_partial_alter_eq. set (t0 := default (Totals 0 0 0 false) (asset_list ts !! t_asset_id td)) in *.
  cbn [default from_option id]. clearbody t0. destruct IH as (Hu & Hs & Ho & Hv & Hr & Hm). unfold totals_ok, add_to_totals, UINT64_MAX in *.
  destruct (t_spent td).
  - rewrite decide_False by (by intros [_ [=]]). rewrite decide_True by done.
    rewrite app_nil_r, length_app. cbn [tot_unspent tot_spent tot_overflow tot_amount length].
    split_and!; (done || lia).
  - rewrite decide_True by done. rewrite decide_False by (by intros [_ [=]]).
    rewrite app_nil_r, fmap_app, zsum_app, length_app. unfold zsum in *.
    cbn [tot_unspent tot_spent tot_overflow tot_amount length fmap list_fmap foldr].
    destruct (_ <? t_amount td) eqn:E; [|destruct (tot_overflow _)]; cbn [orb]; split_and!; (done || lia).
Qed.

(** The amounts [asset_list] shows are the sums of the unspent outputs, and it
    shows an overflow exactly if the sum does not fit in 64 bits. *)
Theorem asset_list_exact ts id t : Forall (fun td => 0 <= t_amount td < 2 ^ 64) ts ->
  asset_list ts !! id = Some t ->
  tot_unspent t = length (unspent_of id ts) /\ tot_spent t = length (spent_of id ts) /\
  tot_overflow t = (2 ^ 64 <=? zsum (t_amount <$> unspent_of id ts)) /\
  (tot_overflow t = false -> tot_amount t = zsum (t_amount <$> unspent_of id ts)).
Proof.
  intros Ha Ht. pose proof (asset_list_totals id ts Ha) as H. rewrite Ht in H. destruct H as (? & ? & ? & ? & _). done.
Qed.
