(* ===== verification/AssetSelect.v ===== *)
(** The inputs a wallet selects for a transfer: they are as few of the largest
    outputs as are enough, and they are found whenever sixteen outputs are
    enough; the rings made around them are those a node asks for, and the
    transfer that is planned can be built. *)

From stdpp Require Import gmap sorting.
From S2P Require Import Prelude Bytes AssetTypes AssetExamples AssetCodec AssetConfidential AssetOwnership AssetWire AssetBalance AssetDb AssetExtra AssetRpc AssetRecipient AssetBuild AssetBuildProps AssetWallet.

(** ** The largest outputs *)

Lemma zsum_perm l k : l ≡ₚ k -> zsum l = zsum k.
Proof. unfold zsum. induction 1; cbn [foldr]; lia. Qed.

(** No choice of at most [n] numbers sums to more than the first [n] of a
    descending list. *)
Lemma largest_first (l : list Z) : Forall (fun x => 0 <= x) l -> StronglySorted (fun x y => y <= x) l ->
  forall n s, s ⊆+ l -> (length s <= n)%nat -> zsum s <= zsum (take n l).
Proof.
  induction l as [|x l IH]; intros Hp Hs n s Hsub Hn.
  { apply submseteq_nil_r in Hsub as ->. by destruct n. }
  apply Forall_cons in Hp as [Hx Hp]. apply StronglySorted_inv in Hs as [Hs Hmax].
  destruct n as [|n]; [destruct s; [done|cbn in Hn; lia]|]. cbn [take zsum foldr].
  assert (0 <= zsum (take n l)) as Hpos by (by apply zsum_nonneg, Forall_take).
  fold (zsum (take n l)) in *.
  apply submseteq_cons_r in Hsub as [Hsub|(s' & Hperm & Hsub)].
  - destruct s as [|y s]; [cbn; lia|]. cbn [zsum foldr]. fold (zsum s). cbn [length] in Hn.
    assert (y <= x) as Hy.
    { rewrite Forall_forall in Hmax. apply Hmax. eapply elem_of_submseteq; [left|done]. }
    assert (s ⊆+ l) as Hs' by (etrans; [|exact Hsub]; by apply submseteq_cons).
    specialize (IH Hp Hs n s Hs'). lia.
  - assert (zsum s = x + zsum s') as ->.
    { by rewrite (zsum_perm _ _ Hperm). }
    apply Permutation_length in Hperm. cbn in Hperm. specialize (IH Hp Hs n s' Hsub). lia.
Qed.

Lemma id_le_total a b : id_le a b \/ id_le b a.
Proof.
  unfold id_le. destruct (memcmp_lt b a) eqn:E1, (memcmp_lt a b) eqn:E2; auto.
  pose proof (memcmp_trans _ _ _ E1 E2) as E. by rewrite memcmp_irrefl in E.
Qed.

Lemma id_le_trans a b c : id_le a b -> id_le b c -> id_le a c.
Proof.
  unfold id_le. intros E1 E2. destruct (memcmp_lt c a) eqn:E; [|done]. destruct (decide (a = b)) as [->|Hne]; [congruence|].
  destruct (memcmp_total a b Hne) as [E3|E3]; [|congruence]. by rewrite (memcmp_trans _ _ _ E E3) in E2.
Qed.

#[global] Instance sorts_before_total : Total sorts_before.
Proof.
  intros a b. unfold sorts_before. destruct (Z.lt_trichotomy (t_amount a) (t_amount b)) as [?|[E|?]]; [by right; left| |by left; left].
  destruct (id_le_total (t_output_id a) (t_output_id b)); [left|right]; right; done.
Qed.

#[global] Instance sorts_before_trans : Transitive sorts_before.
Proof.
  intros a b c [?|[? ?]] [?|[? ?]]; try (left; lia). right. split; [lia|]. eapply (id_le_trans _ (t_output_id b)); done.
Qed.

Lemma sorted_amounts l : StronglySorted sorts_before l -> StronglySorted (fun x y => y <= x) (t_amount <$> l).
Proof.
  induction 1 as [|td l _ IH Hmax]; cbn; constructor; [done|]. apply Forall_fmap. eapply Forall_impl; [exact Hmax|].
  intros td' [?|[? _]]; cbn; lia.
Qed.

(** The outputs of a wallet that a transfer may spend. *)
Abbreviation spend_candidates asset_id account indices ts :=
  (filter (fun td => eligible asset_id account indices td = true) ts).

Section Selection.
Context `{Crypto, RingCt, KeyExchange, WalletKeys} (w : wallet).

(** The wallet can compute the key of an output again. *)
Definition regenerates (td : asset_transfer_details) : Prop :=
  exists secret, output_key w (t_tx_public_key td) (t_destination td) (t_output_index td) (t_subaddr_index td)
    = Some (secret, t_key_image td).

(** The result of the loop: some first outputs with their keys, as many as are
    enough, or all that may be used. *)
Lemma select_Good required tds : forall selected total selected' total',
  (length selected <= 16)%nat -> total < required ->
  select_inputs w required tds selected total = Good (selected', total') ->
  exists added k, selected' = selected ++ added /\ added.*1 = take k tds /\
    Forall (fun s => output_key w (t_tx_public_key s.1) (t_destination s.1) (t_output_index s.1) (t_subaddr_index s.1)
      = Some (s.2, t_key_image s.1)) added /\
    total' = total + zsum (t_amount <$> take k tds) /\ (length selected' <= 16)%nat /\
    (total' < required -> k = (16 - length selected)%nat) /\ (total < 2 ^ 64 -> total' < 2 ^ 64).
Proof.
  induction tds as [|td tds IH]; intros selected total selected' total' Hlen Htot E; cbn in E.
  { injection E as <- <-. exists [], (16 - length selected)%nat. rewrite app_nil_r, take_nil. cbn. split_and!; try done; lia. }
  case_if_in E.
  { injection E as <- <-. exists [], 0%nat. rewrite app_nil_r. cbn. split_and!; try done; [lia|].
    unfold MAX_CONFIDENTIAL_ASSET_INPUTS in Heqb. lia. }
  unfold MAX_CONFIDENTIAL_ASSET_INPUTS in Heqb.
  apply bind_Good in E as ([secret image] & Ek%expect_Good & E). apply bind_Good in E as ([] & Ei%require_Good & E).
  apply bool_decide_eq_true in Ei as ->. apply bind_Good in E as ([] & Eo%require_Good & E). unfold UINT64_MAX in Eo.
  case_if_in E.
  - injection E as <- <-. exists [(td, secret)], 1%nat. change (take 1 (td :: tds)) with (td :: take 0 tds).
    rewrite take_0, length_app. unfold zsum. cbn [length fmap list_fmap foldr]. split_and!; [done|done|by apply Forall_singleton|lia|lia|lia|lia].
  - apply IH in E as (added & k & -> & Hk & Hkeys & Etot & Hl & Hend & Hmax); [|rewrite length_app; cbn; lia|lia].
    exists ((td, secret) :: added), (S k). rewrite length_app in Hend. cbn [length] in Hend.
    split_and!; [by rewrite <- app_assoc|cbn; by rewrite Hk|by constructor| |done| |].
    + rewrite Etot. unfold zsum. cbn [fmap list_fmap take foldr]. lia.
    + intros Hr. rewrite (Hend Hr). lia.
    + intros _. apply Hmax. lia.
Qed.

(** The loop ends well if the keys are there and the amounts do not overflow. *)
Lemma select_total required tds : forall selected total, Forall regenerates tds ->
  Forall (fun td => 0 <= t_amount td) tds -> 0 <= total -> total + zsum (t_amount <$> tds) < 2 ^ 64 ->
  exists r, select_inputs w required tds selected total = Good r.
Proof.
  induction tds as [|td tds IH]; intros selected total Hr Ha Hz Ht; cbn [select_inputs]; [by eexists|].
  apply Forall_cons in Hr as [[secret Hk] Hr]. apply Forall_cons in Ha as [Htd Ha].
  assert (0 <= zsum (t_amount <$> tds)) as Hpos by (by apply zsum_nonneg, Forall_fmap).
  cbn [fmap list_fmap zsum foldr] in Ht. fold (zsum (t_amount <$> tds)) in Ht.
  case_if; [by eexists|]. rewrite Hk. cbn [expect]. rewrite bind_of_Good, bool_decide_eq_true_2 by done.
  cbn [require]. unfold UINT64_MAX. rewrite bind_of_Good, require_true, bind_of_Good by lia.
  case_if; [by eexists|]. apply IH; try done; lia.
Qed.

(** What a selection is: the first of the sorted outputs, with their keys. *)
Lemma selection_Good ts asset_id required account indices selected total : 0 < required ->
  select_asset_inputs w ts asset_id required account indices = Good (selected, total) ->
  selected.*1 ⊆+ spend_candidates asset_id account indices ts /\
  Forall (fun s => output_key w (t_tx_public_key s.1) (t_destination s.1) (t_output_index s.1) (t_subaddr_index s.1)
    = Some (s.2, t_key_image s.1)) selected /\
  total = zsum (t_amount <$> selected.*1) /\ required <= total < 2 ^ 64 /\ (length selected <= 16)%nat.
Proof.
  unfold select_asset_inputs. intros Hr E. apply bind_Good in E as ([sel tot] & Es & E).
  apply bind_Good in E as ([] & Et%require_Good & [= <- <-]).
  apply select_Good in Es as (added & k & -> & Hk & Hkeys & -> & Hl & _ & Hmax); [|cbn; lia|lia].
  cbn [app] in *. rewrite Hk. split_and!; [|done|lia|lia|by apply Hmax|done].
  etrans; [apply sublist_submseteq, sublist_take|].
  apply Permutation_submseteq, merge_sort_Permutation.
Qed.

Lemma select_complete ts asset_id required account indices : 0 < required ->
  Forall regenerates (spend_candidates asset_id account indices ts) ->
  Forall (fun td => 0 <= t_amount td) (spend_candidates asset_id account indices ts) ->
  zsum (t_amount <$> spend_candidates asset_id account indices ts) < 2 ^ 64 ->
  (exists selected, select_asset_inputs w ts asset_id required account indices
      = Good (selected, zsum (t_amount <$> selected.*1)) /\
    selected.*1 ⊆+ spend_candidates asset_id account indices ts /\ (length selected <= 16)%nat /\
    required <= zsum (t_amount <$> selected.*1)) <->
  (exists choice, choice ⊆+ spend_candidates asset_id account indices ts /\ (length choice <= 16)%nat /\
    required <= zsum (t_amount <$> choice)).
Proof.
  intros Hreq Hregen Hamt Hsum. split.
  { intros (selected & _ & Hs & Hl & Hr). exists selected.*1. by rewrite length_fmap. }
  intros (choice & Hsub & Hlen & Hc). set (l := spend_candidates asset_id account indices ts) in *.
  pose proof (merge_sort_Permutation sorts_before l) as Hp. pose proof (StronglySorted_merge_sort sorts_before l) as Hsort.
  set (sorted := merge_sort sorts_before l) in *. rewrite <- Hp in Hregen, Hamt, Hsub.
  assert (zsum (t_amount <$> sorted) = zsum (t_amount <$> l)) as Hz by (apply zsum_perm; by rewrite Hp).
  destruct (select_total required sorted [] 0 Hregen Hamt) as [[selected total] E]; [done|lia|].
  enough (required <= total) as Henough.
  { assert (select_asset_inputs w ts asset_id required account indices = Good (selected, total)) as Es.
    { unfold select_asset_inputs. fold l sorted. by rewrite E, bind_of_Good, require_true by lia. }
    pose proof Es as (Hs & _ & -> & Hr & Hl)%selection_Good; [|done]. by exists selected. }
  apply select_Good in E as (added & k & -> & Hk & _ & -> & Hl & Hend & _); [|cbn; lia|lia].
  destruct (decide (zsum (t_amount <$> take k sorted) < required)) as [Hlt|?]; [|lia].
  rewrite (Hend Hlt) in *. cbn [length Nat.sub] in *.
  pose proof (largest_first (t_amount <$> sorted) ltac:(by apply Forall_fmap) (sorted_amounts _ Hsort) 16
    (t_amount <$> choice)) as Hbest. rewrite length_fmap, <- fmap_take in Hbest.
  specialize (Hbest (fmap_submseteq _ _ _ Hsub) Hlen). lia.
Qed.

(** C20: with the keys at hand and amounts that fit in 64 bits, the selection
    succeeds exactly if some choice of at most sixteen of the wallet's outputs
    is enough; what it selects is such a choice, with its sum. *)
Theorem selection_complete ts asset_id required account indices : 0 < required ->
  Forall regenerates (spend_candidates asset_id account indices ts) ->
  Forall (fun td => 0 <= t_amount td) (spend_candidates asset_id account indices ts) ->
  zsum (t_amount <$> spend_candidates asset_id account indices ts) < 2 ^ 64 ->
  (exists selected, select_asset_inputs w ts asset_id required account indices
      = Good (selected, zsum (t_amount <$> selected.*1)) /\
    selected.*1 ⊆+ spend_candidates asset_id account indices ts /\ (length selected <= 16)%nat /\
    required <= zsum (t_amount <$> selected.*1)) <->
  (exists choice, choice ⊆+ spend_candidates asset_id account indices ts /\ (length choice <= 16)%nat /\
    required <= zsum (t_amount <$> choice)).
Proof. apply select_complete. Qed.

End Selection.

(** ** Rings *)

Lemma insert_Permutation {A} (l : list A) i x : (i < length l)%nat -> <[i := x]> l ≡ₚ x :: delete i l.
Proof.
  revert i. induction l as [|y l IH]; intros [|i] Hi; cbn in *; try lia; [done|].
  rewrite IH by lia. by constructor.
Qed.

Lemma swap_Permutation {A} (l : list A) i j x y : l !! i = Some x -> l !! j = Some y ->
  <[i := y]> (<[j := x]> l) ≡ₚ l.
Proof.
  intros Hi Hj. pose proof (lookup_lt_Some _ _ _ Hi) as Li. pose proof (lookup_lt_Some _ _ _ Hj) as Lj.
  assert (<[j := x]> l !! i = Some x) as Hx.
  { destruct (decide (i = j)) as [->|?]; [by apply list_lookup_insert_eq|by rewrite list_lookup_insert_ne]. }
  pose proof (delete_Permutation _ _ _ Hx) as P1. rewrite (insert_Permutation l j) in P1 at 1 by done.
  apply Permutation_cons_inv in P1. rewrite insert_Permutation by (by rewrite length_insert).
  rewrite <- P1. symmetry. by apply delete_Permutation.
Qed.

Lemma submseteq_NoDup {A} (l k : list A) : NoDup k -> l ⊆+ k -> NoDup l.
Proof. intros Hk (k' & P)%submseteq_Permutation. rewrite P in Hk. by apply NoDup_app in Hk as [? _]. Qed.

(** [crypto::rand_idx(n)] is below [n]. *)
Definition draws_below (rand_idx : nat -> nat) : Prop := forall n, (0 < n)%nat -> (rand_idx n < n)%nat.

Lemma shuffle_ok rand_idx index : draws_below rand_idx -> forall ring, (index <= length ring)%nat ->
  exists ring', shuffle rand_idx index ring = Good ring' /\ ring' ≡ₚ ring.
Proof.
  intros Hr. induction index as [|[|k] IH]; intros ring Hl; [by exists ring..|].
  cbn [shuffle]. pose proof (Hr (S (S k)) ltac:(lia)) as Hd.
  destruct (lookup_lt_is_Some_2 ring (S k) ltac:(lia)) as [a Ha].
  destruct (lookup_lt_is_Some_2 ring (rand_idx (S (S k))) ltac:(lia)) as [b Hb].
  rewrite Ha, Hb. destruct (IH (<[S k := b]> (<[rand_idx (S (S k)) := a]> ring))) as (ring' & E & P).
  { rewrite !length_insert. lia. }
  exists ring'. split; [exact E|]. rewrite P. by apply swap_Permutation.
Qed.

Section Rings.
Context `{Crypto, RingCt, KeyExchange}.

(** A member as the daemon's answer must have it. *)
Definition candidate_ok (asset_id : bytes) (m : asset_ring_member) : Prop :=
  m_asset_id m = asset_id /\ isInMainSubgroup (ct_dest (m_public_output m)) = true /\
  isInMainSubgroup (ct_mask (m_public_output m)) = true.

Lemma ring_candidates_ok asset_id entries : forall found candidates,
  Forall (candidate_ok asset_id) found -> NoDup (m_output_id <$> found) ->
  ring_candidates asset_id entries found = Good candidates ->
  Forall (candidate_ok asset_id) candidates /\ NoDup (m_output_id <$> candidates) /\
  (forall m, m ∈ candidates -> m ∈ found \/ Some m ∈ ring_member_of <$> entries).
Proof.
  induction entries as [|e entries IH]; intros found candidates Hok Hnd E; cbn in E.
  { injection E as <-. split_and!; [done..|]. by left. }
  apply bind_Good in E as (m & Em%expect_Good & E). apply bind_Good in E as ([] & Ec%require_Good & E).
  cbn [fmap list_fmap]. rewrite Em. apply andb_true_iff in Ec as [[E1%bool_decide_eq_true E2]%andb_true_iff E3].
  case_if_in E.
  - apply IH in E as (? & ? & Hin); [|done..]. split_and!; [done..|]. intros c [?|?]%Hin; [by left|].
    right. by right.
  - apply IH in E as (? & ? & Hin).
    + split_and!; [done..|]. intros c [[?| ->%list_elem_of_singleton]%elem_of_app|?]%Hin; [by left| |].
      * right. left.
      * right. by right.
    + apply Forall_app. split; [done|]. by apply Forall_singleton.
    + rewrite fmap_app. apply NoDup_snoc; [|done]. intros (c & Ec & Hc)%list_elem_of_fmap.
      apply not_true_iff_false in Heqb. apply Heqb, existsb_exists. exists c.
      split; [by apply list_elem_of_In|by apply bool_decide_eq_true].
Qed.

(** Fifteen decoys and the real output. *)
Lemma ring_members decoys ring real id : ring ≡ₚ decoys -> (forall m, m ∈ decoys -> ~ with_id id m) ->
  NoDup (m_output_id <$> decoys) -> (15 <= length decoys)%nat -> with_id id real ->
  let ring2 := take (CONFIDENTIAL_ASSET_RING_SIZE - 1) ring ++ [real] in
  length ring2 = 16%nat /\ NoDup (m_output_id <$> ring2) /\
  forall m, m ∈ ring2 -> m = real \/ m ∈ ring /\ ~ with_id id m.
Proof.
  intros P Hid Hnd Hl Hreal. cbv zeta. unfold CONFIDENTIAL_ASSET_RING_SIZE. cbn [Nat.sub].
  assert (forall m, m ∈ take 15 ring -> m ∈ ring /\ ~ with_id id m) as Htake.
  { intros m Hm. assert (m ∈ ring) as Hr by (by apply (elem_of_submseteq (take 15 ring)); [|apply sublist_submseteq, sublist_take]).
    split; [done|]. apply Hid. by rewrite <- P. }
  split_and!.
  - rewrite length_app, length_take, (Permutation_length P). cbn [length]. lia.
  - rewrite fmap_app. apply NoDup_snoc.
    + intros (m & Em & [_ Hm]%Htake)%list_elem_of_fmap. apply Hm. unfold with_id in *. congruence.
    + rewrite fmap_take. eapply sublist_NoDup; [|apply sublist_take]. by rewrite P.
  - intros m [Hm| ->%list_elem_of_singleton]%elem_of_app; [right; by apply Htake|by left].
Qed.

(** The ring of a selected output. *)
Lemma make_ring_ok rand_idx candidates td secret i : draws_below rand_idx.1 -> draws_below rand_idx.2 ->
  NoDup (m_output_id <$> candidates) -> make_ring rand_idx candidates (td, secret) = Good i ->
  length (ti_ring i) = 16%nat /\ NoDup (m_output_id <$> ti_ring i) /\ (forall m, m ∈ ti_ring i -> m ∈ candidates) /\
  m_public_output <$> ti_ring i !! ti_real_output_index i
    = Some (Ctkey (t_destination td) (commit_to (t_amount td) (t_mask td))) /\
  ti_spend_secret i = secret /\ ti_amount i = t_amount td /\ ti_mask i = t_mask td.
Proof.
  intros Hr1 Hr2 Hnd E. unfold make_ring in E. apply bind_Good in E as ([j real] & Ef%expect_Good & E). cbn [snd] in E.
  apply list_find_Some in Ef as (Hj & Hid & _). apply list_elem_of_lookup_2 in Hj.
  apply bind_Good in E as ([] & Ea%require_Good & E). apply bind_Good in E as ([] & El%require_Good & E).
  apply andb_true_iff in Ea as [Ed%bool_decide_eq_true Em%bool_decide_eq_true].
  set (decoys := filter (fun m => ~ with_id (t_output_id td) m) candidates) in *.
  destruct (shuffle_ok rand_idx.1 (length decoys) Hr1 decoys) as (ring1 & E1 & P1); [done|].
  rewrite E1, bind_of_Good in E.
  destruct (ring_members decoys ring1 real (t_output_id td) P1) as (L2 & Hnd2 & Hin2); try done.
  { intros m [Hm _]%list_elem_of_filter. done. }
  { eapply sublist_NoDup; [exact Hnd|]. apply fmap_sublist, sublist_filter. }
  { unfold CONFIDENTIAL_ASSET_RING_SIZE in El. lia. }
  set (ring2 := take (CONFIDENTIAL_ASSET_RING_SIZE - 1) ring1 ++ [real]) in *.
  destruct (shuffle_ok rand_idx.2 (length ring2) Hr2 ring2) as (ring3 & E3 & P3); [done|].
  rewrite E3, bind_of_Good in E. injection E as <-. cbn [ti_ring ti_real_output_index ti_spend_secret ti_amount ti_mask].
  split_and!; try done.
  - by rewrite P3.
  - by rewrite P3.
  - intros m Hm. rewrite P3 in Hm. apply Hin2 in Hm as [->|[Hm _]]; [done|]. rewrite P1 in Hm.
    by apply list_elem_of_filter in Hm as [_ ?].
  - destruct (list_find_elem_of (with_id (t_output_id td)) ring3 real) as [[k m] Hf]; [|done|].
    { rewrite P3. apply elem_of_app. right. left. }
    rewrite Hf. cbn [from_option fst]. apply list_find_Some in Hf as (Hk & Hm & _). rewrite Hk.
    apply list_elem_of_lookup_2 in Hk. rewrite P3 in Hk. apply Hin2 in Hk as [->|[_ ?]]; [|done].
    cbn. f_equal. destruct (m_public_output real). cbn in *. congruence.
Qed.

End Rings.

(** ** Planned transfers *)

Section Plan.
Context `{KeyExchangeLaws, !CryptoLaws, !Prover, !ProverLaws, !WalletKeys}.

(** A secret key with a public key is a reduced scalar, and the provers and the
    wallet agree on its public key and its key image. *)
Class WalletLaws : Prop := {
  secret_keys : forall s P, secret_key_to_public_key s = Some P ->
    reduced s /\ scalarmultBase s = P /\ key_image_of s = generate_key_image P s;
}.
Context `{!WalletLaws}.

Lemma output_key_ok w R D index sub secret image : m_spend_secret_key w <> null_skey ->
  output_key w R D index sub = Some (secret, image) ->
  reduced secret /\ scalarmultBase secret = D /\ key_image_of secret = image.
Proof.
  unfold output_key, generate_key_image_helper_precomp. intros Hn E.
  destruct (generate_key_derivation _ _) as [d|]; [|done]. cbn [mbind option_bind] in E.
  rewrite (bool_decide_eq_false_2 _ Hn) in E. cbv zeta in E.
  destruct (secret_key_to_public_key _) as [P|] eqn:Ep; [|done]. cbn [mbind option_bind] in E.
  case_if_in E; [|done]. injection E as <- <-. apply bool_decide_eq_true in Heqb as <-. by apply secret_keys.
Qed.

Lemma make_rings_ok rand_idx candidates selected : forall k inputs,
  (forall n, draws_below (rand_idx n).1 /\ draws_below (rand_idx n).2) ->
  make_rings rand_idx candidates selected k = Good inputs ->
  Forall2 (fun s i => exists r, draws_below r.1 /\ draws_below r.2 /\ make_ring r candidates s = Good i) selected inputs.
Proof.
  induction selected as [|s selected IH]; intros k inputs Hr E; cbn in E; [injection E as <-; constructor|].
  apply bind_Good in E as (i & Ei & E). apply bind_Good in E as (rest_inputs & Eis & [= <-]).
  constructor; [exists (rand_idx k); split_and!; try done; apply Hr|by eapply IH].
Qed.

(** The inputs made of a selection. *)
Lemma rings_spendable w asset_id candidates selected inputs : m_spend_secret_key w <> null_skey ->
  Forall (candidate_ok asset_id) candidates -> NoDup (m_output_id <$> candidates) ->
  (forall m, m ∈ candidates -> m_output_id m <> null_hash) ->
  Forall (fun s => output_key w (t_tx_public_key s.1) (t_destination s.1) (t_output_index s.1) (t_subaddr_index s.1)
    = Some (s.2, t_key_image s.1)) selected ->
  Forall (fun s => 0 <= t_amount s.1 < 2 ^ 64 /\ reduced (t_mask s.1)) selected ->
  Forall2 (fun s i => exists r, draws_below r.1 /\ draws_below r.2 /\ make_ring r candidates s = Good i) selected inputs ->
  Forall (spendable asset_id) inputs /\ ti_amount <$> inputs = t_amount <$> selected.*1 /\
  (key_image_of ∘ ti_spend_secret <$> inputs) = t_key_image <$> selected.*1.
Proof.
  intros Hw Hok Hnd Hnull Hkeys Hvals Hrings.
  induction Hrings as [|[td secret] i selected inputs (r & Hr1 & Hr2 & E) _ IH]; [done|].
  apply Forall_cons in Hkeys as [Hk Hkeys]. apply Forall_cons in Hvals as [[Hv Hm] Hvals]. cbn [fst snd] in *.
  destruct (IH Hkeys Hvals) as (Hs & Ha & Hi). apply output_key_ok in Hk as (Hred & Hpub & Himg); [|done].
  apply make_ring_ok in E as (Hl & Hn & Hin & Hreal & E1 & E2 & E3); [|done..].
  cbn [fmap list_fmap fst compose]. rewrite E1, E2, Ha, Hi, Himg. split_and!; [|done|done].
  constructor; [|done]. split; rewrite ?E1, ?E2, ?E3; try done.
  - by rewrite Hreal, Hpub.
  - apply Forall_forall. intros m Hm'%Hin. rewrite Forall_forall in Hok.
    destruct (Hok m Hm') as (? & ? & ?). by split_and!; [|apply Hnull| |].
Qed.

Lemma destinations_ok recipient is_sub transfer change address account :
  0 <= transfer -> 0 <= change ->
  let ts := transfer_destinations recipient is_sub transfer change address account in
  (1 <= length ts <= 2)%nat /\ Forall (fun t => 0 <= td_amount t) ts /\ zsum (td_amount <$> ts) = transfer + change.
Proof.
  intros Ht Hc. unfold transfer_destinations, zsum. cbv zeta.
  destruct (transfer =? 0) eqn:E1, (change =? 0) eqn:E2; cbn; (split_and!; [lia|lia|by repeat constructor|lia]).
Qed.

(** The steps of a plan. *)
Lemma plan_Good w ts asset_id recipient is_sub transfer burn account indices light fork change
  daemon random_indices rand_idx selected inputs destinations :
  plan_asset_transfer w ts asset_id recipient is_sub transfer burn account indices light fork change
    daemon random_indices rand_idx = Good (selected, inputs, destinations) ->
  exists total_response ring_response candidates selected_total,
    negb ((transfer =? 0) && (burn =? 0)) = true /\
    select_asset_inputs w ts asset_id (transfer + burn) account indices = Good (selected, selected_total) /\
    daemon (ring_request asset_id (random_indices (rs_total total_response)) selected) = Some ring_response /\
    ring_candidates asset_id (rs_outputs ring_response) [] = Good candidates /\
    make_rings rand_idx candidates selected 0 = Good inputs /\
    destinations = transfer_destinations recipient is_sub transfer (selected_total - (transfer + burn)) change account.
Proof.
  unfold plan_asset_transfer. intros E. do 3 (apply bind_Good in E as ([] & _ & E)).
  apply bind_Good in E as ([] & Ez%require_Good & E). do 2 (apply bind_Good in E as ([] & _ & E)).
  apply bind_Good in E as ([sel tot] & Es & E). apply bind_Good in E as (tr & _ & E).
  apply bind_Good in E as ([] & _ & E). apply bind_Good in E as (rr & Er%expect_Good & E).
  apply bind_Good in E as (cands & Ecand & E). apply bind_Good in E as (ins & Eins & [= -> -> <-]).
  exists tr, rr, cands, tot. split_and!; try done. unfold active_response in Er.
  destruct (daemon _) as [res|]; [|done]. cbn [mbind option_bind] in Er. case_if_in Er; [|done]. by injection Er as ->.
Qed.

(** A member of a proper answer has an id that is not zero. *)
Lemma members_not_null (entries : list output_entry) : (forall e, e ∈ entries -> hex_to_pod 32 (e_output_id e) <> Some null_hash) ->
  forall m, Some m ∈ ring_member_of <$> entries -> m_output_id m <> null_hash.
Proof.
  intros Hn m (e & Em & He)%list_elem_of_fmap Hm. apply (Hn e He). unfold ring_member_of in Em.
  destruct (hex_to_pod 32 (e_asset_id e)) as [?|]; [|done]. cbn in Em.
  destruct (hex_to_pod 32 (e_output_id e)) as [i|]; [|done]. cbn in Em.
  destruct (hex_to_pod 32 (e_destination e)) as [?|]; [|done]. cbn in Em.
  destruct (hex_to_pod 32 (e_commitment e)) as [?|]; [|done]. injection Em as ->. by rewrite <- Hm.
Qed.
(** What a plan gives, if no two outputs that may be spent have the same key
    image: a transfer that is ready to be built, the inputs in the order of the
    selection, and rings of members the daemon answered with. *)
Lemma plan_ready w ts asset_id recipient is_sub transfer burn account indices light fork change
  daemon random_indices rand_idx selected inputs destinations dr network carrier :
  plan_asset_transfer w ts asset_id recipient is_sub transfer burn account indices light fork change
    daemon random_indices rand_idx = Good (selected, inputs, destinations) ->
  0 <= transfer -> 0 <= burn -> m_spend_secret_key w <> null_skey ->
  Forall (fun td => 0 <= t_amount td < 2 ^ 64 /\ reduced (t_mask td)) ts ->
  NoDup (t_key_image <$> spend_candidates asset_id account indices ts) ->
  (forall req res e, daemon req = Some res -> e ∈ rs_outputs res -> hex_to_pod 32 (e_output_id e) <> Some null_hash) ->
  (forall n, draws_below (rand_idx n).1 /\ draws_below (rand_idx n).2) ->
  draws_ok dr -> public_network network = true -> asset_id <> null_hash -> carrier <> null_hash ->
  (forall j t, pad_destinations destinations (output_count burn) !! j = Some t -> payable (draw_secret dr) j t) ->
  NoDup (commitments (pseudo_openings dr inputs 0)) ->
  (forall k i, inputs !! k = Some i -> signable dr network asset_id carrier k i) ->
  transfer_ready dr network asset_id inputs destinations burn carrier /\
  destinations = transfer_destinations recipient is_sub transfer
    (zsum (ti_amount <$> inputs) - (transfer + burn)) change account /\
  (key_image_of ∘ ti_spend_secret <$> inputs) = t_key_image <$> selected.*1 /\
  selected.*1 ⊆+ spend_candidates asset_id account indices ts.
Proof.
  intros E Htr Hbu Hw Hts Himg Hnull Hrand Hdr Hnet Ha Hc Hpay Hps Hsg.
  apply plan_Good in E as (total & answer & cands & tot & Ez & Es & Ed & Ecand & Eins & ->).
  apply selection_Good in Es as (Hsub & Hkeys & -> & Hreq & Hlen); [|lia].
  apply ring_candidates_ok in Ecand as (Hok & Hnd & Hin); [|constructor..].
  assert (forall m, m ∈ cands -> m_output_id m <> null_hash) as Hnn.
  { intros m [Hm|Hm]%Hin; [by apply not_elem_of_nil in Hm|]. eapply members_not_null; [|exact Hm].
    intros e. by apply (Hnull _ _ e Ed). }
  apply make_rings_ok in Eins; [|done].
  assert (Forall (fun s => 0 <= t_amount s.1 < 2 ^ 64 /\ reduced (t_mask s.1)) selected) as Hvals.
  { apply Forall_forall. intros s Hs. apply (list_elem_of_fmap_2 fst) in Hs. apply (elem_of_submseteq _ _ _ Hs) in Hsub.
    apply list_elem_of_filter in Hsub as [_ ?]. rewrite Forall_forall in Hts. by apply Hts. }
  pose proof (Forall2_length _ _ _ Eins) as Hl.
  apply (rings_spendable w asset_id) in Eins as (Hspend & Hamt & Hki); try done.
  assert (1 <= length inputs)%nat as Hne.
  { destruct inputs; [|cbn; lia]. destruct selected; [cbn in Hreq; lia|done]. }
  destruct (destinations_ok recipient is_sub transfer (zsum (t_amount <$> selected.*1) - (transfer + burn)) change account)
    as (Hdl & Hda & Hdz); [lia|lia|].
  split_and!; [|by rewrite Hamt|done|done].
  split; try done; [lia|unfold output_count; case_if; lia|rewrite Hdz, Hamt; lia|rewrite Hamt; lia|].
  rewrite Hki. eapply submseteq_NoDup; [exact Himg|]. by apply fmap_submseteq.
Qed.

(** A transfer the wallet plans can be built and is accepted: if no two of the
    outputs it may spend have the same key image, then the inputs it selected,
    in the rings it made of the daemon's answer, and the destinations, which are
    the recipient and the change, give a payload that every node that knows the
    asset accepts. *)
Theorem planned_transfer_built w ts asset_id recipient is_sub transfer burn account indices light fork change
  daemon random_indices rand_idx selected inputs destinations dr network carrier :
  plan_asset_transfer w ts asset_id recipient is_sub transfer burn account indices light fork change
    daemon random_indices rand_idx = Good (selected, inputs, destinations) ->
  0 <= transfer -> 0 <= burn -> m_spend_secret_key w <> null_skey ->
  Forall (fun td => 0 <= t_amount td < 2 ^ 64 /\ reduced (t_mask td)) ts ->
  NoDup (t_key_image <$> spend_candidates asset_id account indices ts) ->
  (forall req res e, daemon req = Some res -> e ∈ rs_outputs res -> hex_to_pod 32 (e_output_id e) <> Some null_hash) ->
  (forall n, draws_below (rand_idx n).1 /\ draws_below (rand_idx n).2) ->
  draws_ok dr -> public_network network = true -> asset_id <> null_hash -> carrier <> null_hash ->
  (forall j t, pad_destinations destinations (output_count burn) !! j = Some t -> payable (draw_secret dr) j t) ->
  NoDup (commitments (pseudo_openings dr inputs 0)) ->
  (forall k i, inputs !! k = Some i -> signable dr network asset_id carrier k i) ->
  exists p, create_asset_transfer_transaction_payload dr network asset_id inputs destinations burn carrier = Good p /\
    (forall known, asset_id ∈ known -> verify_asset_transaction_payload p known network carrier = Good ()) /\
    destinations = transfer_destinations recipient is_sub transfer
      (zsum (ti_amount <$> inputs) - (transfer + burn)) change account.
Proof.
  intros E Htr Hbu Hw Hts Himg Hnull Hrand Hdr Hnet Ha Hc Hpay Hps Hsg.
  destruct (plan_ready w ts asset_id recipient is_sub transfer burn account indices light fork change daemon
    random_indices rand_idx selected inputs destinations dr network carrier) as (Hready & Hd & _); try done.
  destruct (transfer_has_parts _ _ _ _ _ _ _ Hready) as (made & rp & proofs & Hparts).
  eexists. split; [by eapply transfer_created|]. split; [apply Hparts|done].
Qed.

End Plan.
