(* ===== verification/AssetWalletRuns.v ===== *)
(** A wallet at work: it receives two outputs, plans a transfer that spends
    them, scans it and detaches it again, and receives one of them twice. *)

From stdpp Require Import gmap sorting.
From S2P Require Import Prelude Bytes AssetTypes AssetExamples AssetCodec AssetConfidential AssetOwnership AssetWire AssetWireCodec AssetBalance AssetDb AssetExtra AssetExtraProps AssetRpc AssetRecipient AssetBuild AssetBuildProps AssetWallet AssetWalletProps AssetSelect.

#[local] Existing Instance scalar_ringct.

#[global] Instance toy_wallet_keys : WalletKeys := {
  derive_secret_key d i s := scalar (of_le (toy_hash (d ++ u64_le i)) + of_le s);
  get_subaddress_secret_key _ index := scalar (2 * (index.1 + index.2));
  generate_key_image _ s := s;
}.

#[global] Instance toy_wallet_laws : WalletLaws.
Proof.
  split. intros s P E. cbn -[arrayb] in E. case_if_in E; [|done]. injection E as <-.
  apply andb_true_iff in Heqb as [Ha Hl]. split_and!; [|done|done]. split; [by apply arrayb_array|].
  cbn -[arrayb group_order]. rewrite Ha. unfold group_order. cbn [andb]. lia.
Qed.

Definition sample_wallet : wallet :=
  Wallet MAINNET sample_view (scalar 11) [(scalar 11, (0, 0)); (scalar 13, (0, 1))] false false false false false.

(** The transaction that pays twelve and five pieces to the wallet. *)
Definition paying_envelope : asset_transaction_payload := Eval vm_compute in
  value native_envelope (create_asset_transfer_transaction_payload sample_draws MAINNET gold
    [sample_spend 3; sample_spend 4] sample_payments 3 (toy_prefix_hash native_tx)).

Definition attached (tx : transaction_prefix unit) (p : asset_transaction_payload) : transaction_prefix unit :=
  Prefix () (value [] (add_monzero_asset_tx_extra (t_extra tx) (value [] (encode_asset_transaction_payload p)))).

Definition paid : confirmed := Confirmed (fill 21) (attached native_tx paying_envelope) 10 17.

Definition received : transfers := Eval vm_compute in value [] (scan_chain toy_prefix_hash sample_wallet [paid] []).

(** The daemon's answer: what was received and fifteen decoys. *)
Definition entry_of (m : asset_ring_member) : output_entry :=
  OutputEntry (pod_to_hex (m_output_id m)) (pod_to_hex (m_asset_id m)) (pod_to_hex (ct_dest (m_public_output m)))
    (pod_to_hex (ct_mask (m_public_output m))) [] [] [] [] 0 10.

Definition sample_answer : get_asset_outputs_response := Eval vm_compute in
  OutputsResponse true 17 (entry_of <$>
    ((fun td => Member (t_asset_id td) (t_output_id td)
      (Ctkey (t_destination td) (commit_to (t_amount td) (t_mask td)))) <$> received)
    ++ (sample_member <$> seq 0 15)) CORE_RPC_STATUS_OK.
Definition sample_daemon (req : get_asset_outputs_request) : option get_asset_outputs_response := Some sample_answer.

Definition no_shuffle : nat -> (nat -> nat) * (nat -> nat) := fun _ => (fun n => (n - 1)%nat, fun _ => 0%nat).

(** Both outputs are needed for a transfer of ten pieces and a burn of four. *)
Definition planned :
  list (asset_transfer_details * bytes) * list asset_transfer_input * list asset_transfer_destination := Eval vm_compute in
  value ([], [], []) (plan_asset_transfer sample_wallet received gold sample_sub true 10 4 0 ∅ false (Good true) sample_main
    sample_daemon (fun _ => []) no_shuffle).

Definition carrier_tx : transaction_prefix unit := Prefix () (TX_EXTRA_TAG_PUBKEY :: fill 10).

Definition spending_envelope : asset_transaction_payload := Eval vm_compute in
  value native_envelope (create_asset_transfer_transaction_payload sample_draws MAINNET gold
    planned.1.2 planned.2 4 (toy_prefix_hash carrier_tx)).

Definition spent : confirmed := Confirmed (fill 22) (attached carrier_tx spending_envelope) 20 17.

Lemma wallet_rollback_exact_witness :
  received <> [] /\
  detach_asset_transfers 20 (value [] (scan_chain toy_prefix_hash sample_wallet [spent] received)) = received.
Proof.
  split; [vm_compute; discriminate|].
  apply (wallet_rollback_exact toy_prefix_hash sample_wallet 20 [paid] [spent]).
  - repeat constructor; vm_compute; discriminate.
  - repeat constructor; vm_compute; discriminate.
  - apply (bool_decide_unpack _). vm_compute. exact I.
  - vm_compute. reflexivity.
  - vm_compute. reflexivity.
Defined.

Definition regenerates_in (w : wallet) (td : asset_transfer_details) : bool :=
  match output_key w (t_tx_public_key td) (t_destination td) (t_output_index td) (t_subaddr_index td) with
  | Some (_, image) => bool_decide (image = t_key_image td)
  | None => false
  end.

Lemma regenerates_all w ts : forallb (regenerates_in w) ts = true -> Forall (regenerates w) ts.
Proof.
  rewrite forallb_Forall. intros E. eapply Forall_impl; [exact E|]. intros td. unfold regenerates_in, regenerates.
  destruct (output_key _ _ _ _ _) as [[secret image]|]; [|done]. intros <-%bool_decide_eq_true. by exists secret.
Qed.

Lemma selection_complete_witness :
  (exists selected, select_asset_inputs sample_wallet received gold 14 0 ∅
      = Good (selected, zsum (t_amount <$> selected.*1)) /\
    selected.*1 ⊆+ spend_candidates gold 0 ∅ received /\ (length selected <= 16)%nat /\
    14 <= zsum (t_amount <$> selected.*1)) <->
  (exists choice, choice ⊆+ spend_candidates gold 0 ∅ received /\ (length choice <= 16)%nat /\
    14 <= zsum (t_amount <$> choice)).
Proof.
  apply (selection_complete sample_wallet received gold 14 0 ∅).
  - done.
  - apply regenerates_all. vm_compute. reflexivity.
  - apply (bool_decide_unpack _). vm_compute. exact I.
  - vm_compute. reflexivity.
Defined.

Lemma planned_transfer_built_witness : exists p,
  create_asset_transfer_transaction_payload sample_draws MAINNET gold planned.1.2 planned.2 4
    (toy_prefix_hash carrier_tx) = Good p /\
  (forall known, gold ∈ known ->
    verify_asset_transaction_payload p known MAINNET (toy_prefix_hash carrier_tx) = Good ()) /\
  planned.2 = transfer_destinations sample_sub true 10 (zsum (ti_amount <$> planned.1.2) - (10 + 4)) sample_main 0.
Proof.
  apply (planned_transfer_built sample_wallet received gold sample_sub true 10 4 0 ∅ false (Good true) sample_main
    sample_daemon (fun _ => []) no_shuffle planned.1.1).
  - vm_compute. reflexivity.
  - done.
  - done.
  - vm_compute. discriminate.
  - apply (bool_decide_unpack _). vm_compute. exact I.
  - apply (bool_decide_unpack _). vm_compute. exact I.
  - intros req res e E He. apply (inj Some) in E as <-.
    assert (Forall (fun e => hex_to_pod 32 (e_output_id e) <> Some null_hash) (rs_outputs sample_answer)) as Hall
      by (apply (bool_decide_unpack _); vm_compute; exact I).
    rewrite Forall_forall in Hall. by apply Hall.
  - intros n. split; intros k Hk; cbn; lia.
  - apply sample_draws_ok.
  - done.
  - done.
  - vm_compute. discriminate.
  - apply payable_all. vm_compute. reflexivity.
  - apply (bool_decide_unpack _). vm_compute. exact I.
  - apply signable_all. vm_compute. reflexivity.
Defined.

(** The first output of [paying_envelope], paid again by a transaction with
    another carrier hash. *)
Definition paid_recipient : asset_recipient_data :=
  default sample_recipient (default [] (head (w_output_recipients paying_envelope)) !! 0%nat).
Definition paid_output : bytes := default [] (default [] (head (b_outputs <$> w_balances paying_envelope)) !! 0%nat).
Definition output_id_in (carrier : bytes) : bytes :=
  value [] (derive_asset_output_id MAINNET carrier gold 0 (c_destination paid_recipient) paid_output).
Definition paid_key : bytes * bytes :=
  default ([], []) (output_key sample_wallet (c_tx_public_key paid_recipient) (c_destination paid_recipient) 0 (0, 1)).
Definition paid_opening : decoded_asset_recipient := Decoded 12 (scalar (-7)).

Lemma reused_key_counted_twice_witness :
  is_good (verify_asset_transaction_payload (value native_envelope (create_asset_transfer_transaction_payload
    sample_draws MAINNET gold [sample_spend 5; sample_spend 6] sample_payments 3 (fill 7))) {[ gold ]} MAINNET (fill 7))
    = true /\
  exists td1 td2,
    (ts ← scan_output sample_wallet (fill 21) 10 (fill 6) gold 0 paid_recipient paid_output [];
     scan_output sample_wallet (fill 22) 11 (fill 7) gold 0 paid_recipient paid_output ts) = Good ([] ++ [td1; td2]) /\
    t_key_image td1 = paid_key.2 /\ t_key_image td2 = paid_key.2 /\
    t_amount td1 = dec_amount paid_opening /\ t_amount td2 = dec_amount paid_opening /\
    forall h, mark_spent paid_key.2 h ([] ++ [td1; td2]) = [] ++ [set_spent true h td1; td2] /\ t_spent td2 = false.
Proof.
  split; [vm_compute; reflexivity|].
  apply (reused_key_counted_twice sample_wallet [] gold 0 paid_recipient paid_output paid_opening (0, 1)
    paid_key.1 paid_key.2 (fill 21) (fill 22) 10 11 (fill 6) (fill 7) (output_id_in (fill 6)) (output_id_in (fill 7))).
  - vm_compute. reflexivity.
  - vm_compute. discriminate.
  - vm_compute. reflexivity.
  - done.
  - done.
  - done.
  - vm_compute. reflexivity.
  - vm_compute. reflexivity.
  - vm_compute. discriminate.
  - constructor.
Defined.
