(* ===== verification/AssetSend.v ===== *)
(** The transactions a wallet sends ([wallet2.cpp]): an issuance and a transfer,
    from the request to the native transaction that carries the payload. The
    construction of native transactions is an argument, which gets the function
    that completes the extra field. *)

From stdpp Require Import gmap.
From S2P Require Import Prelude Bytes AssetTypes AssetCodec AssetConfidential AssetWire AssetBalance AssetDb AssetExtra AssetRpc AssetRecipient AssetBuild AssetWallet.

(** What [create_transactions_2] leaves: transactions, or an exception and the
    message of the last completion that failed. *)
Inductive native_result (rest : Type) :=
| Transactions (txs : list (transaction_prefix rest))
| Raised (what attach_error : string).
Arguments Transactions {rest} txs.
Arguments Raised {rest} what attach_error.

(** The two messages of the [catch] clause. *)
Definition attach_failure (attach construct what attach_error : string) : string :=
  if bool_decide (attach_error = EmptyString) then construct +:+ what else attach +:+ attach_error.
Arguments attach_failure attach%_string construct%_string what attach_error.

Section Send.
Context `{Crypto, RingCt, KeyExchange, Prover, WalletKeys} {rest : Type}.
Context (get_transaction_prefix_hash : transaction_prefix rest -> bytes).
Context (create_transactions_2 : (transaction_prefix rest -> outcome (transaction_prefix rest)) -> native_result rest).

(** [tx_prefix_finalizer] of a transfer. *)
Definition transfer_finalizer (dr : draws) (w : wallet) (asset_id : bytes) (inputs : list asset_transfer_input)
  (destinations : list asset_transfer_destination) (burn_amount : Z) (tx : transaction_prefix rest) :
  outcome (transaction_prefix rest) :=
  carrier ← get_transaction_asset_carrier_hash get_transaction_prefix_hash tx;
  asset_payload ← create_asset_transfer_transaction_payload dr (m_nettype w) asset_id inputs destinations burn_amount
    carrier;
  encoded ← encode_asset_transaction_payload asset_payload;
  extra ← add_monzero_asset_tx_extra (t_extra tx) encoded;
  Good (Prefix (t_rest tx) extra).

(** The checks of the constructed transfer: it has a proof for each selected
    output, and each key image once. *)
Definition check_transfer (w : wallet) (selected : list (asset_transfer_details * bytes))
  (tx : transaction_prefix rest) : outcome (transaction_prefix rest) :=
  match parse_native_asset_transaction get_transaction_prefix_hash tx HF_VERSION_MONZERO_ASSETS (m_nettype w) with
  | Good parsed =>
      payload ← expect parsed "constructed asset transfer failed verification: ";
      require (length (w_ownership_proofs payload) =? length selected)%nat
        "constructed asset transfer failed verification: ";;
      require (forallb (fun input =>
          (length (filter (fun proof => o_key_image proof = t_key_image input.1) (w_ownership_proofs payload)) =? 1)%nat)
        selected) "constructed asset transfer has the wrong asset key images";;
      Good tx
  | Bad parse_error => Bad ("constructed asset transfer failed verification: " +:+ parse_error)
  | Thrown e => Bad ("failed to construct asset transfer transaction: " +:+ e)
  | Wild => Wild
  end.

Definition create_asset_transfer_transaction (w : wallet) (ts : transfers) (asset_id : bytes)
  (recipient : account_public_address) (recipient_is_subaddress : bool) (transfer_amount burn_amount : Z)
  (subaddr_account : Z) (subaddr_indices : gset Z) (light_wallet : bool) (use_fork_rules : outcome bool)
  (change_address : account_public_address)
  (daemon : get_asset_outputs_request -> option get_asset_outputs_response) (random_indices : Z -> list Z)
  (rand_idx : nat -> (nat -> nat) * (nat -> nat)) (dr : draws) : outcome (transaction_prefix rest) :=
  '(selected, asset_inputs, destinations) ← plan_asset_transfer w ts asset_id recipient recipient_is_subaddress
    transfer_amount burn_amount subaddr_account subaddr_indices light_wallet use_fork_rules change_address daemon
    random_indices rand_idx;
  match create_transactions_2 (transfer_finalizer dr w asset_id asset_inputs destinations burn_amount) with
  | Transactions [tx] => check_transfer w selected tx
  | Transactions _ => Bad "asset transfer must fit in exactly one native transaction"
  | Raised what attach_error => Bad (attach_failure "failed to attach asset transfer: "
      "failed to construct asset transfer transaction: " what attach_error)
  end.

(** [tx_prefix_finalizer] of an issuance. *)
Definition issuance_finalizer (dr : draws) (issuance : issuance_payload) (recipient : account_public_address)
  (is_subaddress : bool) (tx : transaction_prefix rest) : outcome (transaction_prefix rest) :=
  let '(tx, attached) := attach_issuance_to_native_transaction get_transaction_prefix_hash dr tx issuance recipient
    is_subaddress in
  _ ← attached; Good tx.

Definition check_issuance (w : wallet) (asset_id : bytes) (tx : transaction_prefix rest) :
  outcome (transaction_prefix rest) :=
  match parse_native_asset_transaction get_transaction_prefix_hash tx HF_VERSION_MONZERO_ASSETS (m_nettype w) with
  | Good parsed =>
      payload ← expect parsed "constructed issuance transaction failed verification: ";
      issuance ← expect (w_issuance payload) "constructed issuance transaction failed verification: ";
      parsed_id ← relabel (derive_asset_id (p_descriptor issuance))
        "constructed issuance transaction has the wrong asset id";
      require (bool_decide (parsed_id = asset_id)) "constructed issuance transaction has the wrong asset id";;
      Good tx
  | Bad parse_error => Bad ("constructed issuance transaction failed verification: " +:+ parse_error)
  | Thrown e => Bad ("failed to construct asset issuance transaction: " +:+ e)
  | Wild => Wild
  end.

Definition create_asset_issuance_transaction (w : wallet) (fresh k1 k2 : bytes) (d : issuance_descriptor)
  (asset_recipient : account_public_address) (asset_recipient_is_subaddress light_wallet : bool)
  (use_fork_rules : outcome bool)
  (dr : draws) : outcome (transaction_prefix rest * bytes) :=
  require (negb light_wallet) "light wallets cannot verify asset hard-fork activation";;
  fork_rules use_fork_rules "asset issuance is not active at the daemon's current hard fork";;
  '(issuance, asset_id) ← create_asset_issuance w fresh k1 k2 d;
  match create_transactions_2 (issuance_finalizer dr issuance asset_recipient asset_recipient_is_subaddress) with
  | Transactions [tx] => tx ← check_issuance w asset_id tx; Good (tx, asset_id)
  | Transactions _ => Bad "asset issuance must fit in exactly one native transaction"
  | Raised what attach_error => Bad (attach_failure "failed to attach asset issuance: "
      "failed to construct asset issuance transaction: " what attach_error)
  end.

End Send.
