(* ===== verification/AssetSync.v ===== *)
(** How a wallet follows the blocks of a node ([wallet2.cpp]): the transactions of
    a block it scans for assets ([process_new_blockchain_entry]), and the
    transactions it takes over from a synchronisation in the background
    ([process_background_cache]). Beside it, what the node takes from the same
    blocks ([handle_block_to_main_chain]). *)

From stdpp Require Import gmap sorting.
From S2P Require Import Prelude Bytes AssetTypes AssetConfidential AssetWire AssetDb AssetExtra AssetRpc AssetRecipient AssetBuild AssetWallet.

(** A block: the miner transaction and the other ones, with their ids. *)
Record native_block (rest : Type) := NativeBlock {
  nb_timestamp : Z;
  nb_major_version : Z;
  nb_miner_tx : bytes * transaction_prefix rest;
  nb_txs : list (bytes * transaction_prefix rest);
}.
Arguments NativeBlock {rest} nb_timestamp nb_major_version nb_miner_tx nb_txs.
Arguments nb_timestamp {rest} n.
Arguments nb_major_version {rest} n.
Arguments nb_miner_tx {rest} n.
Arguments nb_txs {rest} n.

Inductive RefreshType := RefreshFull | RefreshOptimizeCoinbase | RefreshNoCoinbase.
#[global] Instance RefreshType_eq_dec : EqDecision RefreshType.
Proof. solve_decision. Defined.

(** The order of the values of the enumeration. *)
Definition refresh_rank (t : RefreshType) : Z :=
  match t with RefreshFull => 0 | RefreshOptimizeCoinbase => 1 | RefreshNoCoinbase => 2 end.

(** What decides which blocks and transactions are looked at. *)
Record sync_settings := Settings {
  s_createtime : Z;
  s_refresh_from_block_height : Z;
  s_skip_to_height : Z;
  s_refresh_type : RefreshType;
  s_subaddress_lookahead_major : Z;
  s_subaddress_lookahead_minor : Z;
}.

(** A transaction of the background cache. *)
Record background_synced_tx (rest : Type) := BackgroundTx {
  bt_index : Z;
  bt_txid : bytes;
  bt_tx : transaction_prefix rest;
  bt_height : Z;
}.
Arguments BackgroundTx {rest} bt_index bt_txid bt_tx bt_height.
Arguments bt_index {rest} b.
Arguments bt_txid {rest} b.
Arguments bt_tx {rest} b.
Arguments bt_height {rest} b.

Record background_sync_data (rest : Type) := BackgroundData {
  bd_first_refresh_done : bool;
  bd_start_height : Z;
  bd_txs : list (background_synced_tx rest);
  bd_refresh_from_block_height : Z;
  bd_subaddress_lookahead_major : Z;
  bd_subaddress_lookahead_minor : Z;
  bd_refresh_type : RefreshType;
}.
Arguments BackgroundData {rest} _ _ _ _ _ _ _.
Arguments bd_first_refresh_done {rest} b.
Arguments bd_start_height {rest} b.
Arguments bd_txs {rest} b.
Arguments bd_refresh_from_block_height {rest} b.
Arguments bd_subaddress_lookahead_major {rest} b.
Arguments bd_subaddress_lookahead_minor {rest} b.
Arguments bd_refresh_type {rest} b.

(** The ids of the blocks from [m_offset] on. *)
Record hashchain := Hashchain { m_offset : nat; m_ids : list bytes }.

Definition chain_size (c : hashchain) : nat := length (m_ids c) + m_offset c.
Definition is_in_bounds (c : hashchain) (idx : nat) : bool := (m_offset c <=? idx)%nat && (idx <? chain_size c)%nat.
Definition push_back (c : hashchain) (id : bytes) : hashchain := Hashchain (m_offset c) (m_ids c ++ [id]).
Definition crop (c : hashchain) (height : nat) : hashchain :=
  Hashchain (m_offset c) (take (height - m_offset c) (m_ids c)).

Section Sync.
Context `{Crypto, RingCt, KeyExchange, WalletKeys} {rest : Type}.
Context (get_transaction_prefix_hash : transaction_prefix rest -> bytes).

(** ** The node *)

(** What the node takes from a block: the envelopes of its transactions. *)
Definition node_payloads (nettype : Z) (b : native_block rest) : outcome block :=
  asset_payloads get_transaction_prefix_hash (nb_txs b).*2 (nb_major_version b) nettype.

Definition node_block (nettype : Z) (b : native_block rest) (db : asset_db) : outcome asset_db :=
  payloads ← node_payloads nettype b;
  handle_block_to_main_chain nettype payloads db.

(** ** The wallet *)

(** The sum of the time is of 64 bits. *)
Definition should_skip_block (s : sync_settings) (b : native_block rest) (height : Z) : bool :=
  negb ((s_createtime s <? (nb_timestamp b + 60 * 60 * 24) mod 2 ^ 64)
    && (s_refresh_from_block_height s <=? height) && (s_skip_to_height s <=? height)).

(** The calls of [process_new_transaction] for the transactions of a block. *)
Fixpoint scan_transactions (w : wallet) (height version : Z) (txs : list (bytes * transaction_prefix rest))
  (ts : transfers) : outcome transfers :=
  match txs with
  | [] => Good ts
  | (txid, tx) :: txs =>
      ts ← scan_asset_outputs get_transaction_prefix_hash w txid tx height version false ts;
      scan_transactions w height version txs ts
  end.

Definition process_new_blockchain_entry (w : wallet) (s : sync_settings) (height : Z) (b : native_block rest)
  (ts : transfers) : outcome transfers :=
  if should_skip_block s b height then Good ts
  else
    ts ← (if bool_decide (s_refresh_type s = RefreshNoCoinbase) then Good ts
          else scan_transactions w height (nb_major_version b) [nb_miner_tx b] ts);
    scan_transactions w height (nb_major_version b) (nb_txs b) ts.

(** The blocks of a chain, the first at [height]. *)
Fixpoint refresh (w : wallet) (s : sync_settings) (height : Z) (blocks : list (native_block rest))
  (ts : transfers) : outcome transfers :=
  match blocks with
  | [] => Good ts
  | b :: blocks =>
      ts ← process_new_blockchain_entry w s height b ts;
      refresh w s (height + 1) blocks ts
  end.

(** ** Answers of the daemon *)

(** [detach_blockchain] removes the asset transfers and the blocks from [height] on. *)
Definition handle_reorg (height : nat) (m_blockchain : hashchain) (ts : transfers) : outcome (hashchain * transfers) :=
  if (height <? m_offset m_blockchain)%nat && (m_offset m_blockchain <? chain_size m_blockchain)%nat
  then Thrown "Daemon claims reorg below last checkpoint"
  else Good (if (m_offset m_blockchain <=? height)%nat then crop m_blockchain height else m_blockchain,
    detach_asset_transfers (Z.of_nat height) ts).

(** The loop over the blocks of an answer, each with its id. *)
Fixpoint process_blocks (w : wallet) (s : sync_settings) (max_reorg_depth start_height current_index : nat)
  (blocks : list (bytes * native_block rest)) (m_blockchain : hashchain) (ts : transfers) :
  outcome (hashchain * transfers) :=
  match blocks with
  | [] => Good (m_blockchain, ts)
  | (bl_id, bl) :: blocks =>
      '(m_blockchain, ts) ←
        (if (chain_size m_blockchain <=? current_index)%nat then
           ts ← process_new_blockchain_entry w s (Z.of_nat current_index) bl ts;
           Good (push_back m_blockchain bl_id, ts)
         else if bool_decide (m_ids m_blockchain !! (current_index - m_offset m_blockchain)%nat <> Some bl_id) then
           if (current_index =? start_height)%nat
           then Thrown "wrong daemon response: split starts from the first block in response"
           else if (max_reorg_depth <? chain_size m_blockchain - current_index)%nat
           then Thrown "reorg exceeds maximum allowed depth"
           else
             '(m_blockchain, ts) ← handle_reorg current_index m_blockchain ts;
             ts ← process_new_blockchain_entry w s (Z.of_nat current_index) bl ts;
             Good (push_back m_blockchain bl_id, ts)
         else Good (m_blockchain, ts));
      process_blocks w s max_reorg_depth start_height (S current_index) blocks m_blockchain ts
  end.

Definition process_parsed_blocks (w : wallet) (s : sync_settings) (max_reorg_depth start_height : nat)
  (blocks : list (bytes * native_block rest)) (m_blockchain : hashchain) (ts : transfers) :
  outcome (hashchain * transfers) :=
  if negb (is_in_bounds m_blockchain start_height) then Thrown "out_of_hashchain_bounds_error"
  else process_blocks w s max_reorg_depth start_height start_height blocks m_blockchain ts.

(** ** The background cache *)

Definition index_le (l r : background_synced_tx rest) : Prop := bt_index l <= bt_index r.
#[global] Instance index_le_dec : RelDecision index_le := fun l r => decide (bt_index l <= bt_index r).

(** The comparison of [sort] throws for two transactions whose heights are not in
    the order of their indices; a sort compares every two neighbours of its
    result. *)
Fixpoint heights_in_order (txs : list (background_synced_tx rest)) : bool :=
  match txs with
  | a :: (b :: _) as txs => negb ((bt_index a <? bt_index b) && (bt_height b <? bt_height a)) && heights_in_order txs
  | _ => true
  end.

(** The calls of [process_new_transaction] with block version 0. *)
Fixpoint process_background_txs (w : wallet) (txs : list (background_synced_tx rest)) (ts : transfers) :
  outcome transfers :=
  match txs with
  | [] => Good ts
  | t :: txs =>
      ts ← scan_asset_outputs get_transaction_prefix_hash w (bt_txid t) (bt_tx t) (bt_height t) 0 false ts;
      process_background_txs w txs ts
  end.

Definition settings_differ (s : sync_settings) (data : background_sync_data rest) : bool :=
  (s_refresh_from_block_height s <? bd_refresh_from_block_height data)
  || (bd_subaddress_lookahead_major data <? s_subaddress_lookahead_major s)
  || (bd_subaddress_lookahead_minor data <? s_subaddress_lookahead_minor s)
  || (refresh_rank (s_refresh_type s) <? refresh_rank (bd_refresh_type data)).

(** The asset transfers after [process_background_cache]; the heights are those
    of the two chains. *)
Definition process_background_cache (w : wallet) (s : sync_settings) (data : background_sync_data rest)
  (current_height background_height : Z) (ts : transfers) : outcome transfers :=
  if m_background_syncing w || m_multisig w || m_watch_only w || m_key_on_device w then Good ts
  else if negb (bd_first_refresh_done data) then Good ts
  else if background_height <? current_height then Good ts
  else if settings_differ s data then Good ts
  else
    let sorted_bgs_cache := merge_sort index_le (bd_txs data) in
    if negb (heights_in_order sorted_bgs_cache) then Thrown "Unexpected background sync data order"
    else process_background_txs w sorted_bgs_cache (detach_asset_transfers (bd_start_height data) ts).

End Sync.
