(* ===== verification/AssetReorg.v ===== *)
(** A wallet follows the reorganisations of its node: what it knows after an
    answer of the daemon that leaves its chain at some block is what a scan of the
    new chain gives. *)

From stdpp Require Import gmap.
From S2P Require Import Prelude Bytes AssetTypes AssetExamples AssetCodec AssetConfidential AssetOwnership AssetWire AssetWireCodec AssetBalance AssetDb AssetExtra AssetExtraProps AssetRecipient AssetBuild AssetBuildProps AssetWallet AssetWalletProps AssetSync.

Section Reorg.
Context `{Crypto, RingCt, KeyExchange, WalletKeys} {rest : Type}.
Context (prefix_hash : transaction_prefix rest -> bytes) (w : wallet) (s : sync_settings).

Abbreviation refresh := (refresh prefix_hash w s).
Abbreviation scan_chain := (scan_chain prefix_hash w).
Abbreviation spends := (spends prefix_hash w).

(** ** The transactions a scan of blocks confirms *)

Definition block_entries (height : Z) (b : native_block rest) : list confirmed :=
  if should_skip_block s b height then []
  else (fun t => Confirmed t.1 t.2 height (nb_major_version b)) <$>
    (if bool_decide (s_refresh_type s = RefreshNoCoinbase) then [] else [nb_miner_tx b]) ++ nb_txs b.

Fixpoint entries (height : Z) (blocks : list (native_block rest)) : list confirmed :=
  match blocks with [] => [] | b :: blocks => block_entries height b ++ entries (height + 1) blocks end.

Lemma scan_chain_app l k ts : scan_chain (l ++ k) ts = (ts ← scan_chain l ts; scan_chain k ts).
Proof.
  revert ts. induction l as [|f l IH]; intros ts; [done|]. cbn. destruct (scan_asset_outputs _ _ _ _ _ _ _ _); try done.
  rewrite !bind_of_Good. apply IH.
Qed.

Lemma scan_transactions_chain height version txs ts : scan_transactions prefix_hash w height version txs ts
  = scan_chain ((fun t => Confirmed t.1 t.2 height version) <$> txs) ts.
Proof.
  revert ts. induction txs as [|[txid tx] txs IH]; intros ts; [done|]. cbn.
  destruct (scan_asset_outputs _ _ _ _ _ _ _ _); try done. rewrite !bind_of_Good. apply IH.
Qed.

Lemma refresh_chain blocks : forall height ts, refresh height blocks ts = scan_chain (entries height blocks) ts.
Proof.
  induction blocks as [|b blocks IH]; intros height ts; [done|]. cbn [AssetSync.refresh entries]. rewrite scan_chain_app.
  assert (process_new_blockchain_entry prefix_hash w s height b ts = scan_chain (block_entries height b) ts) as ->.
  { unfold process_new_blockchain_entry, block_entries. case_if; [done|]. rewrite fmap_app, scan_chain_app.
    case_bool_decide; [by rewrite bind_of_Good, scan_transactions_chain|]. rewrite scan_transactions_chain.
    destruct (scan_chain _ ts); try done. by rewrite !bind_of_Good, scan_transactions_chain. }
  destruct (scan_chain _ ts); try done. rewrite !bind_of_Good. apply IH.
Qed.

Lemma entries_heights blocks : forall height,
  Forall (fun f => height <= f_height f < height + Z.of_nat (length blocks)) (entries height blocks).
Proof.
  induction blocks as [|b blocks IH]; intros height; cbn [entries length]; [constructor|]. apply Forall_app. split.
  - unfold block_entries. case_if; [constructor|]. apply Forall_fmap, Forall_true. intros t. cbn. lia.
  - eapply Forall_impl; [apply IH|]. cbn. intros f ?. lia.
Qed.

Lemma entries_app l : forall height k, entries height (l ++ k) = entries height l ++ entries (height + Z.of_nat (length l)) k.
Proof.
  induction l as [|b l IH]; intros height k; cbn [app entries length]; [by rewrite Z.add_0_r|]. rewrite IH, app_assoc.
  do 2 f_equal. lia.
Qed.

Lemma refresh_app l k height ts :
  refresh height (l ++ k) ts = (ts ← refresh height l ts; refresh (height + Z.of_nat (length l)) k ts).
Proof. rewrite refresh_chain, entries_app, scan_chain_app, refresh_chain. by destruct (scan_chain _ _); rewrite ?bind_of_Good, ?refresh_chain. Qed.

(** ** The loop *)

Abbreviation process_blocks := (process_blocks prefix_hash w s).

(** Blocks the wallet has are skipped. *)
Lemma known_skipped known blocks max start c ts : forall k, (m_offset c <= k)%nat ->
  (forall j id, known.*1 !! j = Some id -> m_ids c !! (k + j - m_offset c)%nat = Some id) ->
  process_blocks max start k (known ++ blocks) c ts = process_blocks max start (k + length known) blocks c ts.
Proof.
  induction known as [|[id b] known IH]; intros k Hk Hids; cbn [app length]; [by rewrite Nat.add_0_r|].
  cbn [AssetSync.process_blocks]. pose proof (Hids 0%nat id eq_refl) as Hid. rewrite Nat.add_0_r in Hid.
  pose proof (lookup_lt_Some _ _ _ Hid). unfold chain_size. rewrite (proj2 (Nat.leb_gt _ _)) by lia.
  rewrite bool_decide_eq_false_2, bind_of_Good by (rewrite Hid; tauto). rewrite IH; [f_equal; lia|lia|].
  intros j id' Hj. rewrite <- (Hids (S j) id' Hj). f_equal. lia.
Qed.

(** Blocks above the chain are added. *)
Lemma new_added blocks max start : forall k c ts, chain_size c = k ->
  process_blocks max start k blocks c ts
  = (ts' ← refresh (Z.of_nat k) blocks.*2 ts; Good (Hashchain (m_offset c) (m_ids c ++ blocks.*1), ts')).
Proof.
  induction blocks as [|[id b] blocks IH]; intros k c ts Hk; cbn [AssetSync.process_blocks AssetSync.refresh fmap list_fmap fst snd].
  { rewrite bind_of_Good, app_nil_r. by destruct c. }
  rewrite (proj2 (Nat.leb_le _ _)) by lia. destruct (process_new_blockchain_entry _ _ _ _ _ _) as [ts1| | |]; try done.
  rewrite !bind_of_Good, IH by (unfold chain_size, push_back in *; cbn; rewrite length_app; cbn; lia).
  replace (Z.of_nat (S k)) with (Z.of_nat k + 1) by lia. cbn. by rewrite <- app_assoc.
Qed.

(** What is left of a chain that is detached from the fork on. *)
Lemma fork_detached common old c ts0 ts : refresh 0 common.*2 [] = Good ts0 ->
  refresh (Z.of_nat (length common)) old.*2 ts0 = Good ts -> m_ids c = drop (m_offset c) (common ++ old).*1 ->
  (m_offset c <= length common)%nat -> NoDup (entries 0 (common ++ old).*2 ≫= spends) ->
  handle_reorg (length common) c ts = Good (Hashchain (m_offset c) (drop (m_offset c) common.*1), ts0).
Proof.
  intros E0 E1 Hids Ho Hspend. unfold handle_reorg.
  rewrite (proj2 (Nat.ltb_ge (length common) _)), (proj2 (Nat.leb_le _ (length common))) by lia. cbn [andb]. do 2 f_equal.
  - unfold crop. f_equal. rewrite Hids, fmap_app, drop_app_le, take_app_length' by (rewrite ?length_drop, length_fmap; lia). done.
  - apply (chain_detached prefix_hash w _ (entries 0 common.*2) (entries (Z.of_nat (length common)) old.*2)).
    + eapply Forall_impl; [apply entries_heights|]. intros f. cbn. rewrite length_fmap. lia.
    + eapply Forall_impl; [apply entries_heights|]. intros f. cbn. lia.
    + rewrite fmap_app, entries_app, length_fmap in Hspend. exact Hspend.
    + by rewrite <- refresh_chain.
    + by rewrite <- refresh_chain.
Qed.

(** C6: A wallet follows the reorganisations of its node, if no key image is spent
    twice on the chain it scanned (an envelope in a miner transaction may do so):
    a wallet that scanned a chain and gets an answer that begins in the part that
    is kept and continues with other blocks drops the blocks that were replaced,
    and has afterwards the block ids and the asset transfers of a scan of the
    whole new chain, or the error of that scan; if more blocks would have to be
    dropped than the user allows, it stops with an error. *)
Theorem reorganisation_followed common old new max start c ts :
  refresh 0 (common ++ old).*2 [] = Good ts -> m_ids c = drop (m_offset c) (common ++ old).*1 ->
  (m_offset c <= start < length common)%nat ->
  (old <> [] -> new <> [] /\ head new.*1 <> head old.*1) ->
  NoDup (entries 0 (common ++ old).*2 ≫= spends) ->
  process_parsed_blocks prefix_hash w s max start (drop start (common ++ new)) c ts
  = if (max <? length old)%nat then Thrown "reorg exceeds maximum allowed depth"
    else ts' ← refresh 0 (common ++ new).*2 []; Good (Hashchain (m_offset c) (drop (m_offset c) (common ++ new).*1), ts').
Proof.
  intros Hts Hids Hstart Hfork Hspend. rewrite fmap_app, refresh_app in Hts. apply bind_Good in Hts as (ts0 & E0 & E1).
  rewrite length_fmap, Z.add_0_l in E1.
  assert (chain_size c = length common + length old)%nat as Hsize.
  { unfold chain_size. rewrite Hids, length_drop, length_fmap, length_app. lia. }
  unfold process_parsed_blocks, is_in_bounds. rewrite Hsize, (proj2 (Nat.leb_le _ _)), (proj2 (Nat.ltb_lt _ _)) by lia.
  cbn [andb negb]. rewrite drop_app_le by lia. rewrite known_skipped; [|lia|]; cycle 1.
  { intros j id Hj. rewrite Hids, lookup_drop. rewrite list_lookup_fmap, lookup_drop in Hj. rewrite fmap_app.
    replace (m_offset c + (start + j - m_offset c))%nat with (start + j)%nat by lia.
    apply lookup_app_l_Some. by rewrite list_lookup_fmap. }
  rewrite length_drop. replace (start + (length common - start))%nat with (length common) by lia.
  rewrite !fmap_app, refresh_app, E0, bind_of_Good, length_fmap, Z.add_0_l, drop_app_le by (rewrite length_fmap; lia).
  destruct old as [|[oid o] old].
  { injection E1 as <-. rewrite new_added by (cbn in Hsize; lia). rewrite Hids, app_nil_r. done. }
  destruct (Hfork ltac:(done)) as [Hnew Hid]. destruct new as [|[nid b] new]; [done|]. cbn [AssetSync.process_blocks].
  rewrite Hsize, (proj2 (Nat.leb_gt _ _)) by (cbn; lia). rewrite bool_decide_eq_true_2; cycle 1.
  { rewrite Hids, lookup_drop, fmap_app, lookup_app_r by (rewrite length_fmap; lia). rewrite length_fmap.
    replace (m_offset c + (length common - m_offset c) - length common)%nat with 0%nat by lia. cbn in Hid |- *. congruence. }
  rewrite (proj2 (Nat.eqb_neq _ _)) by lia.
  replace (length common + length ((oid, o) :: old) - length common)%nat with (length ((oid, o) :: old)) by lia.
  destruct (max <? length ((oid, o) :: old))%nat; [done|].
  rewrite (fork_detached common ((oid, o) :: old) c ts0 ts), bind_of_Good by (done || lia).
  cbn [fmap list_fmap fst snd AssetSync.refresh].
  destruct (process_new_blockchain_entry _ _ _ _ _ _) as [ts1| | |]; try done. rewrite !bind_of_Good.
  rewrite new_added by (unfold chain_size, push_back; cbn [m_ids m_offset]; rewrite length_app, length_drop, length_fmap; cbn; lia).
  unfold push_back. cbn [m_ids m_offset]. rewrite <- app_assoc.
  by replace (Z.of_nat (S (length common))) with (Z.of_nat (length common) + 1) by lia.
Qed.

End Reorg.
