(* ===== verification/AssetSyncProps.v ===== *)
(** A wallet that scans the blocks of a node has exactly the node's outputs that
    belong to it, with the spent marks of the node; but it also believes the
    envelopes of miner transactions, which the node ignores, and forgets what it
    took over from the background. *)

From stdpp Require Import gmap sorting.
From S2P Require Import Prelude Bytes AssetTypes AssetExamples AssetCodec AssetRegistry AssetConfidential AssetOwnership AssetWire AssetWireCodec AssetBalance AssetDb AssetDbTables AssetDbLoad AssetDbLedger AssetExtra AssetRpc AssetRecipient AssetBuild AssetBuildProps AssetWallet AssetWalletProps AssetSelect AssetSync.

(** ** The outputs of a transaction *)

Section Outputs.
Context `{Crypto, RingCt}.

(** The one-time keys a transaction pays to. *)
Definition dests (p : asset_transaction_payload) : list bytes :=
  match payload_outputs (w_balances p) (w_output_recipients p) with
  | Good outputs => (fun o => c_destination o.2) <$> outputs
  | _ => []
  end.

Lemma creates_dests p a d c : creates p a d c -> d ∈ dests p.
Proof.
  intros (outputs & r & E & Hin & <-). unfold dests. rewrite E. apply list_elem_of_fmap. by exists (a, c, r).
Qed.

(** The ids of the outputs are those that were derived, output by output. *)
Lemma candidate_ids_lookup db net carrier outputs : forall k ids,
  candidate_output_ids db net carrier k outputs = Good ids -> length ids = length outputs /\
  forall j a c r, outputs !! j = Some (a, c, r) -> exists id, ids !! j = Some id /\
    derive_asset_output_id net carrier a (k + Z.of_nat j) (c_destination r) c = Good id.
Proof.
  induction outputs as [|[[a c] r] outputs IH]; intros k ids E; cbn [candidate_output_ids] in E.
  { injection E as <-. done. }
  apply bind_Good in E as (id & E1 & E). apply bind_Good in E as ([] & _ & E).
  apply bind_Good in E as (ids' & E2 & [= <-]). apply IH in E2 as [Hl Hj]. split; [cbn; lia|].
  intros [|j] a' c' r' Ho; cbn in Ho.
  - injection Ho as <- <- <-. exists id. rewrite Z.add_0_r. done.
  - destruct (Hj j a' c' r' Ho) as (id' & ? & Hd). exists id'. split; [done|]. rewrite <- Hd. f_equal. lia.
Qed.

Lemma add_outputs_lookup n outputs : forall ids k db db', add_outputs outputs ids n k db = Good db' ->
  asset_outputs db ⊆ asset_outputs db' /\
  (forall j o id, outputs !! j = Some o -> ids !! j = Some id ->
    asset_outputs db' !! id = Some (output_data o n (k + Z.of_nat j))) /\
  forall id o, asset_outputs db' !! id = Some o -> asset_outputs db !! id = Some o \/
    exists j o', outputs !! j = Some o' /\ ids !! j = Some id /\ o = output_data o' n (k + Z.of_nat j).
Proof.
  induction outputs as [|o outputs IH]; intros ids k db db' E; [injection E as <-; split_and!; [done|done|by left]|].
  destruct ids as [|i ids]; [done|]. cbn [add_outputs] in E.
  apply bind_Good in E as (db1 & E1 & E). apply IH in E as (Hsub & Hj & Hback).
  unfold add_asset_output in E1. apply bind_Good in E1 as ([t h] & (Hn & _ & [= -> ->])%put_Good & [= <-]).
  cbn [asset_outputs set_outputs] in *. split_and!.
  - etrans; [|exact Hsub]. by apply insert_subseteq.
  - intros [|j] o' id Ho Hid; cbn in Ho, Hid.
    + injection Ho as <-. injection Hid as <-. rewrite Z.add_0_r.
      eapply lookup_weaken; [|exact Hsub]. by rewrite lookup_insert_eq.
    + rewrite (Hj j o' id Ho Hid). f_equal. f_equal. lia.
  - intros id o' [[[<- <-]|[_ ?]]%lookup_insert_Some|(j & o1 & Ho & Hid & ->)]%Hback; [right|by left|right].
    + exists 0%nat, o. rewrite Z.add_0_r. done.
    + exists (S j), o1. split_and!; [done|done|]. f_equal. lia.
Qed.

(** The outputs of an applied transaction are stored, each under its id, and
    nothing else is. *)
Lemma applied_outputs_stored db p net n db' ids :
  apply_asset_transaction_to_db db p net (w_carrier_prefix_hash p) n = Good (db', ids) ->
  exists outputs, payload_outputs (w_balances p) (w_output_recipients p) = Good outputs /\
    asset_outputs db ⊆ asset_outputs db' /\
    (forall j a c r, outputs !! j = Some (a, c, r) -> exists id,
      derive_asset_output_id net (w_carrier_prefix_hash p) a (Z.of_nat j) (c_destination r) c = Good id /\
      asset_outputs db' !! id = Some (output_data (a, c, r) n (Z.of_nat j))) /\
    forall id o, asset_outputs db' !! id = Some o -> asset_outputs db !! id = Some o \/
      exists j a c r, outputs !! j = Some (a, c, r) /\ o = output_data (a, c, r) n (Z.of_nat j) /\
        derive_asset_output_id net (w_carrier_prefix_hash p) a (Z.of_nat j) (c_destination r) c = Good id.
Proof.
  intros (reg & i & outputs & db1 & db2 & [_ _ _ _ E5 E6 E7 E8 E9])%apply_Good. exists outputs. split; [done|].
  apply add_issued_Good in E7 as (Ho1 & _). apply add_key_images_Good in E8 as (_ & Ho2 & _).
  apply add_outputs_lookup in E9 as (Hsub & Hj & Hback). rewrite Ho2, Ho1 in Hsub.
  apply candidate_ids_lookup in E6 as [Hlen Hid]. split_and!; [done| |].
  - intros j a c r Ho. destruct (Hid j a c r Ho) as (id & Hi & Hd). exists id. split; [done|]. by apply Hj.
  - intros id o Hlook. destruct (Hback id o Hlook) as [Hold|(j & [[a c] r] & Ho & Hi & ->)]; [left; by rewrite <- Ho1, <- Ho2|right].
    exists j, a, c, r. destruct (Hid j a c r Ho) as (id' & Hi' & Hd). assert (id' = id) as -> by congruence. done.
Qed.

End Outputs.

(** ** The scan of a transaction *)

Section Scan.
Context `{Crypto, RingCt, KeyExchange, WalletKeys} (w : wallet).

(** The loops over groups and outputs as one loop. *)
Fixpoint scan_flat (txid : bytes) (height : Z) (carrier : bytes) (k : Z) (outputs : list payload_output)
  (ts : transfers) : outcome transfers :=
  match outputs with
  | [] => Good ts
  | (a, c, r) :: outputs =>
      ts ← scan_output w txid height carrier a k r c ts;
      scan_flat txid height carrier (k + 1) outputs ts
  end.

Lemma scan_flat_app txid h carrier l1 l2 : forall k ts, scan_flat txid h carrier k (l1 ++ l2) ts
  = (ts1 ← scan_flat txid h carrier k l1 ts; scan_flat txid h carrier (k + Z.of_nat (length l1)) l2 ts1).
Proof.
  induction l1 as [|[[a c] r] l1 IH]; intros k ts; cbn [app scan_flat length]; [by rewrite Z.add_0_r|].
  destruct (scan_output _ _ _ _ _ _ _ _ _) as [ts1| | |]; try done. cbn [mbind outcome_bind]. rewrite IH.
  by replace (k + 1 + Z.of_nat (length l1)) with (k + Z.of_nat (S (length l1))) by lia.
Qed.

Lemma scan_outputs_flat txid h carrier a outputs : forall k rs group ts, group_outputs a outputs rs = Good group ->
  scan_outputs w txid h carrier a k outputs rs ts
  = (ts1 ← scan_flat txid h carrier k group ts; Good (k + Z.of_nat (length group), ts1)).
Proof.
  induction outputs as [|o outputs IH]; intros k rs group ts E; cbn [group_outputs] in E.
  { injection E as <-. cbn. by rewrite Z.add_0_r. }
  destruct rs as [|r rs]; [done|]. apply bind_Good in E as (rest & E & [= <-]). cbn [scan_outputs scan_flat length].
  destruct (scan_output _ _ _ _ _ _ _ _ _) as [ts1| | |]; try done. cbn [mbind outcome_bind]. rewrite (IH _ _ rest) by done.
  by replace (k + 1 + Z.of_nat (length rest)) with (k + Z.of_nat (S (length rest))) by lia.
Qed.

Lemma scan_groups_flat txid h carrier balances : forall k rss outputs ts,
  payload_outputs balances rss = Good outputs ->
  scan_groups w txid h carrier k balances rss ts = scan_flat txid h carrier k outputs ts.
Proof.
  induction balances as [|b balances IH]; intros k rss outputs ts E; cbn [payload_outputs] in E.
  { by injection E as <-. }
  destruct rss as [|rs rss]; [done|]. apply bind_Good in E as (group & Eg & E).
  apply bind_Good in E as (rest & Er & [= <-]). cbn [scan_groups].
  rewrite (scan_outputs_flat _ _ _ _ _ _ _ group), scan_flat_app by done.
  destruct (scan_flat _ _ _ _ group _) as [ts1| | |]; try done. cbn [mbind outcome_bind]. by apply IH.
Qed.

(** What an output of a transaction is recorded as, if it is the wallet's. *)
Definition received_as (txid : bytes) (height : Z) (carrier : bytes) (k : Z) (o : payload_output) :
  option asset_transfer_details :=
  let '(a, c, r) := o in
  match find_owner (m_view_secret_key w) r c k (m_subaddresses w),
    derive_asset_output_id (m_nettype w) carrier a k (c_destination r) c with
  | Good (Some (decoded, index)), Good id =>
      if dec_amount decoded =? 0 then None else Some (details_of w a id txid height k decoded index r)
  | _, _ => None
  end.

Fixpoint receive (txid : bytes) (height : Z) (carrier : bytes) (k : Z) (outputs : list payload_output) : transfers :=
  match outputs with
  | [] => []
  | o :: outputs => option_list (received_as txid height carrier k o) ++ receive txid height carrier (k + 1) outputs
  end.

Lemma find_owner_total view r c k subs : exists o, find_owner view r c k subs = Good o.
Proof.
  induction subs as [|[K i] subs IH]; cbn [find_owner]; [by eexists|].
  assert (tame (decode_asset_recipient_data r K view k c)) as Ht.
  { unfold decode_asset_recipient_data. repeat (apply tame_bind; [auto with monzero|intros ? _]).
    done. }
  destruct (decode_asset_recipient_data r K view k c); [by eexists|done|done|done].
Qed.

Lemma received_as_details txid h carrier k a c r td : received_as txid h carrier k (a, c, r) = Some td ->
  t_destination td = c_destination r /\ t_asset_id td = a /\
  derive_asset_output_id (m_nettype w) carrier a k (c_destination r) c = Good (t_output_id td) /\
  exists decoded index, find_owner (m_view_secret_key w) r c k (m_subaddresses w) = Good (Some (decoded, index)) /\
    dec_amount decoded <> 0 /\ td = details_of w a (t_output_id td) txid h k decoded index r.
Proof.
  unfold received_as. destruct (find_owner _ _ _ _ _) as [[[d i]|]| | |] eqn:Ef; try done.
  destruct (derive_asset_output_id _ _ _ _ _ _) as [id| | |] eqn:Ed; try done. case_if; [done|].
  intros [= <-]. split_and!; try done. exists d, i. split_and!; [done|lia|done].
Qed.

(** An output whose id is not yet recorded is scanned to what it is received as. *)
Lemma scan_output_received txid h carrier a k r c ts id :
  derive_asset_output_id (m_nettype w) carrier a k (c_destination r) c = Good id ->
  Forall (fun td => t_output_id td <> id) ts ->
  scan_output w txid h carrier a k r c ts = Good (ts ++ option_list (received_as txid h carrier k (a, c, r))).
Proof.
  intros Hd Hn. unfold scan_output, received_as. rewrite Hd.
  destruct (find_owner_total (m_view_secret_key w) r c k (m_subaddresses w)) as [[[d i]|] ->]; rewrite bind_of_Good.
  - case_if; [by rewrite app_nil_r|]. by rewrite existsb_id_false.
  - by rewrite app_nil_r.
Qed.

(** The stored outputs tell apart the outputs a wallet has and those it scans. *)
Lemma scan_flat_received (txid : bytes) (h : Z) (carrier : bytes) (table : gmap bytes asset_output_data_t)
  (outputs : list payload_output) : forall k ts,
  (forall j a c r, outputs !! j = Some (a, c, r) -> exists id o,
    derive_asset_output_id (m_nettype w) carrier a (k + Z.of_nat j) (c_destination r) c = Good id /\
    table !! id = Some o /\ out_destination o = c_destination r) ->
  Forall (fun td => exists o, table !! t_output_id td = Some o /\ out_destination o = t_destination td) ts ->
  NoDup ((t_destination <$> ts) ++ ((fun o => c_destination o.2) <$> outputs)) ->
  scan_flat txid h carrier k outputs ts = Good (ts ++ receive txid h carrier k outputs).
Proof.
  induction outputs as [|[[a c] r] outputs IH]; intros k ts Hdb Hts Hnd; cbn [scan_flat receive]; [by rewrite app_nil_r|].
  destruct (Hdb 0%nat a c r eq_refl) as (id & o & Hd & Ho & Hdest). rewrite Z.add_0_r in Hd.
  cbn [fmap list_fmap snd] in Hnd.
  assert (c_destination r ∉ t_destination <$> ts) as Hnew.
  { apply NoDup_app in Hnd as (_ & Hx & _). intros Hin. apply (Hx _ Hin). left. }
  rewrite (scan_output_received _ _ _ _ _ _ _ _ id), bind_of_Good, app_assoc; [|done|].
  - apply IH.
    + intros j a' c' r' Hj. destruct (Hdb (S j) a' c' r' Hj) as (id' & o' & ? & ?). exists id', o'.
      by replace (k + 1 + Z.of_nat j) with (k + Z.of_nat (S j)) by lia.
    + apply Forall_app. split; [done|]. destruct (received_as _ _ _ _ _) as [td|] eqn:E; [|constructor].
      apply received_as_details in E as (E1 & _ & E2 & _). apply Forall_singleton. exists o.
      rewrite E1. split; [|done]. congruence.
    + destruct (received_as _ _ _ _ _) as [td|] eqn:E; cbn [option_list].
      * apply received_as_details in E as (E1 & _). rewrite fmap_app, <- app_assoc. cbn. by rewrite E1.
      * rewrite app_nil_r. eapply submseteq_NoDup; [exact Hnd|]. apply submseteq_skips_l. by apply submseteq_cons.
  - rewrite Forall_forall in Hts |- *. intros td Htd Eid. destruct (Hts td Htd) as (o' & Ho' & Hd'). apply Hnew.
    rewrite Eid, Ho in Ho'. injection Ho' as <-. rewrite <- Hdest, Hd'. by apply list_elem_of_fmap_2.
Qed.

End Scan.

(** ** Spent marks *)

Abbreviation known_images ts := (t_key_image <$> filter (fun td => t_key_image_known td = true) ts).

Definition marked (images : list bytes) (height : Z) (td : asset_transfer_details) : asset_transfer_details :=
  if t_key_image_known td && bool_decide (t_key_image td ∈ images) then set_spent true height td else td.

Lemma marked_keeps images h td : t_key_image (marked images h td) = t_key_image td /\
  t_key_image_known (marked images h td) = t_key_image_known td /\ t_destination (marked images h td) = t_destination td.
Proof. unfold marked. by case_if. Qed.

Lemma known_images_marked images h (ts : transfers) : known_images (marked images h <$> ts) = known_images ts.
Proof.
  induction ts as [|td ts IH]; [done|]. cbn [fmap list_fmap]. rewrite !filter_cons.
  destruct (marked_keeps images h td) as (E1 & E2 & _). rewrite E2. destruct (decide _); cbn; [by rewrite E1, IH|done].
Qed.

(** With distinct key images, the first output that is found is the only one. *)
Lemma mark_spent_once image h (ts : transfers) : NoDup (known_images ts) -> mark_spent image h ts = marked [image] h <$> ts.
Proof.
  induction ts as [|td ts IH]; intros Hnd; cbn [mark_spent fmap list_fmap]; [done|]. rewrite filter_cons in Hnd.
  unfold marked at 1. rewrite (bool_decide_ext (t_key_image td ∈ [image]) (t_key_image td = image)) by set_solver.
  destruct (t_key_image_known td) eqn:Ek; cbn [andb].
  - rewrite decide_True in Hnd by done. cbn [fmap list_fmap] in Hnd. apply NoDup_cons in Hnd as [Hni Hnd].
    case_if; [|by rewrite IH]. apply bool_decide_eq_true in Heqb as <-. f_equal. rewrite <- (list_fmap_id ts) at 1.
    apply list_fmap_ext. intros i td' Hi. unfold marked.
    case_if; [|done]. apply andb_true_iff in Heqb as [Hk E%bool_decide_eq_true%list_elem_of_singleton].
    destruct Hni. apply list_elem_of_fmap. exists td'. split; [done|]. apply list_elem_of_filter.
    split; [done|]. by eapply list_elem_of_lookup_2.
  - rewrite decide_False in Hnd by done. by rewrite IH.
Qed.

Lemma mark_all_once proofs h : forall ts, NoDup (known_images ts) ->
  foldl (fun ts proof => mark_spent (o_key_image proof) h ts) ts proofs = marked (o_key_image <$> proofs) h <$> ts.
Proof.
  induction proofs as [|p proofs IH]; intros ts Hnd; cbn [foldl fmap list_fmap].
  - rewrite <- (list_fmap_id ts) at 1. apply list_fmap_ext. intros i td _. unfold marked.
    rewrite (bool_decide_eq_false_2 (_ ∈ [])) by apply not_elem_of_nil. by rewrite andb_false_r.
  - rewrite mark_spent_once, IH by (by rewrite ?known_images_marked). rewrite <- list_fmap_compose.
    apply list_fmap_ext. intros i td _. cbn [compose]. unfold marked at 1 2 3.
    destruct (t_key_image_known td) eqn:Ek; cbn [andb]; [|by rewrite Ek].
    destruct (decide (t_key_image td = o_key_image p)) as [E|Hne].
    + rewrite (bool_decide_eq_true_2 (t_key_image td ∈ [o_key_image p])) by set_solver.
      rewrite (bool_decide_eq_true_2 (t_key_image td ∈ _ :: _)) by set_solver. by case_if.
    + rewrite (bool_decide_eq_false_2 (t_key_image td ∈ [o_key_image p])) by set_solver. rewrite Ek. cbn [andb].
      by rewrite (bool_decide_ext (t_key_image td ∈ o_key_image p :: (o_key_image <$> proofs))
        (t_key_image td ∈ o_key_image <$> proofs)) by set_solver.
Qed.

(** ** Keys *)

Section Keys.
Context `{Crypto, RingCt, Prover}.

(** A ledger whose key images belong to its keys: every proof of ownership was
    made with the key of a member of its ring, and its key image is the image of
    that key; and no two keys that are paid share an image. The node leaves the
    first to the ring signatures, which do not show it for a key image outside
    the main subgroup, and does not check that it is inside. *)
Record linkable (ledger : list asset_transaction_payload) : Prop := {
  link_members : forall p proof, p ∈ ledger -> proof ∈ w_ownership_proofs p ->
    exists m x, m ∈ o_ring proof /\ ct_dest (m_public_output m) = scalarmultBase x /\ o_key_image proof = key_image_of x;
  link_images : forall x y, scalarmultBase x ∈ ledger ≫= dests -> scalarmultBase y ∈ ledger ≫= dests ->
    key_image_of x = key_image_of y -> scalarmultBase x = scalarmultBase y;
}.

Lemma linkable_before ledger ledger' : linkable (ledger ++ ledger') -> linkable ledger.
Proof.
  intros [Hm Hi]. split.
  - intros p proof Hp. apply Hm. by apply elem_of_app; left.
  - intros x y Hx Hy. rewrite bind_app in Hi. apply Hi; apply elem_of_app; by left.
Qed.

(** A key image that is spent is that of a key the ledger paid to before. *)
Lemma follow_keys net ledger p image : may_follow net ledger p -> linkable (ledger ++ [p]) -> image ∈ AssetDbLedger.spends p ->
  exists x, image = key_image_of x /\ scalarmultBase x ∈ ledger ≫= dests.
Proof.
  intros [_ _ _ _ _ _ Hrings] [Hlink _] (proof & -> & Hin)%list_elem_of_fmap.
  destruct (Hlink p proof) as (m & x & Hm & Hd & ->); [set_solver|done|]. exists x. split; [done|].
  destruct (Hrings _ _ Hin Hm) as (_ & q & Hq & Hc%creates_dests). rewrite Hd in Hc.
  apply list_elem_of_bind. by exists q.
Qed.

Lemma spent_keys net ledger image : valid_ledger net ledger -> linkable ledger -> image ∈ spent ledger ->
  exists x, image = key_image_of x /\ scalarmultBase x ∈ ledger ≫= dests.
Proof.
  induction 1 as [|ledger p _ IH Hf]; intros Hl; [by intros ?%not_elem_of_nil|]. unfold spent. rewrite !bind_app.
  intros [Hin|Hin]%elem_of_app.
  - destruct (IH (linkable_before _ _ Hl) Hin) as (x & ? & ?). exists x. set_solver.
  - cbn in Hin. rewrite app_nil_r in Hin. destruct (follow_keys _ _ _ _ Hf Hl Hin) as (x & ? & ?). exists x. set_solver.
Qed.

End Keys.

(** ** What is recorded *)

Section Recorded.
Context `{KeyExchangeLaws, !CryptoLaws, !WalletKeys} (w : wallet).

Lemma decode_values r K view k c d : recipient_wf r -> decode_asset_recipient_data r K view k c = Good d ->
  0 <= dec_amount d < 2 ^ 64 /\ reduced (dec_mask d) /\ commit_to (dec_amount d) (dec_mask d) = c.
Proof.
  intros [_ _ Hm Ha _] E. unfold decode_asset_recipient_data in E. apply bind_Good in E as ([] & _ & E).
  apply bind_Good in E as (dv & _ & E). apply bind_Good in E as ([] & _ & E). apply bind_Good in E as (D & _ & E).
  apply bind_Good in E as ([] & _ & E). unfold ecdhDecode in E. cbv zeta in E.
  apply bind_Good in E as ([] & Ec%require_Good & [= <-]). apply bool_decide_eq_true in Ec. cbn [dec_amount dec_mask].
  destruct (sc_sub_exact (c_encrypted_mask r) (hash_to_scalar (derivation_to_scalar dv k)) Hm
    (hash_to_scalar_array _)) as [Hs Es].
  split_and!; [| |split; [done|rewrite sc_check_exact, Es by done]|done].
  1,2: unfold h2d; destruct (take 8 _) as [|b l]; cbn [foldr]; [lia|apply Z.mod_pos_bound; lia].
  pose proof (Z.mod_pos_bound (of_le (c_encrypted_mask r) - of_le (hash_to_scalar (derivation_to_scalar dv k)))
    group_order ltac:(done)). lia.
Qed.

Lemma find_owner_decodes view r c k subs d i : find_owner view r c k subs = Good (Some (d, i)) ->
  exists K, decode_asset_recipient_data r K view k c = Good d.
Proof.
  induction subs as [|[K j] subs IH]; cbn [find_owner]; [done|].
  destruct (decode_asset_recipient_data r K view k c) eqn:E; try done. intros [= -> ->]. by exists K.
Qed.

(** The values of an output that was received, and its key. *)
Lemma received_as_ok txid h carrier k a c r td : recipient_wf r -> received_as w txid h carrier k (a, c, r) = Some td ->
  0 < t_amount td < 2 ^ 64 /\ reduced (t_mask td) /\ commit_to (t_amount td) (t_mask td) = c /\
  t_spent td = false /\ (t_key_image_known td = true -> regenerates w td).
Proof.
  intros Hwf (_ & _ & _ & d & i & Hf & Hd & ->)%received_as_details.
  apply find_owner_decodes in Hf as [K Hf]. destruct (decode_values _ _ _ _ _ _ Hwf Hf) as (Hr & Hm & Hc).
  unfold details_of. cbn [t_amount t_mask t_spent t_key_image_known]. split_and!; try done; [lia|lia|].
  intros Hk%bool_decide_eq_true. unfold regenerates. cbn [t_tx_public_key t_destination t_output_index t_subaddr_index t_key_image].
  case_if; [|by destruct Hk]. destruct Hk as [[s image] Hk]. rewrite Hk. by exists s.
Qed.

Lemma group_outputs_wf a outputs : forall rs group, group_outputs a outputs rs = Good group -> array 32 a ->
  Forall (array 32) outputs -> Forall recipient_wf rs ->
  Forall (fun o => array 32 o.1.1 /\ array 32 o.1.2 /\ recipient_wf o.2) group /\ length group = length outputs.
Proof.
  induction outputs as [|o outputs IH]; intros [|r rs] group E Ha Ho Hr; cbn in E; try done; try by injection E as <-.
  apply bind_Good in E as (rest & E & [= <-]). apply Forall_cons in Ho as [Ho Hos]. apply Forall_cons in Hr as [Hr Hrs].
  destruct (IH rs rest E Ha Hos Hrs) as [Hall Hl]. split; [by constructor|]. cbn. by rewrite Hl.
Qed.

Lemma payload_outputs_wf balances : forall rss outputs, payload_outputs balances rss = Good outputs ->
  Forall group_wf (zip balances rss) ->
  Forall (fun o => array 32 o.1.1 /\ array 32 o.1.2 /\ recipient_wf o.2) outputs /\
  (length outputs <= 16 * length balances)%nat.
Proof.
  induction balances as [|b balances IH]; intros [|rs rss] outputs E Hwf; cbn in E; try done;
    try (injection E as <-; split; [constructor|cbn; lia]).
  apply bind_Good in E as (group & Eg & E). apply bind_Good in E as (rest & Er & [= <-]).
  apply Forall_cons in Hwf as [[Ha _ [Hn Ho] [_ Hr] _ _] Hwf]. cbn [fst snd] in *.
  destruct (group_outputs_wf _ _ _ _ Eg Ha Ho Hr) as [Hg Hl]. destruct (IH _ _ Er Hwf) as [Hall Hlr].
  split; [by apply Forall_app|]. rewrite length_app. cbn [length]. lia.
Qed.

End Recorded.

(** ** Stored outputs *)

Section Sound.
Context `{Crypto, RingCt, !CryptoLaws}.

(** An output as the database has it: hashes and keys of 32 bytes, and points of
    the main subgroup. *)
Record output_sound (id : bytes) (o : asset_output_data_t) : Prop := {
  sound_output_id : array 32 id;
  sound_asset : array 32 (out_asset_id o);
  sound_destination : array 32 (out_destination o) /\ isInMainSubgroup (out_destination o) = true;
  sound_commitment : array 32 (out_commitment o) /\ isInMainSubgroup (out_commitment o) = true;
}.

Lemma derive_output_id_Good net carrier a k D c id : derive_asset_output_id net carrier a k D c = Good id ->
  array 32 id /\ isInMainSubgroup D = true /\ isInMainSubgroup c = true.
Proof.
  unfold derive_asset_output_id. intros E. apply bind_Good in E as ([] & _ & E). apply bind_Good in E as ([] & _ & E).
  apply bind_Good in E as ([] & Ep%require_Good & E). apply bind_Good in E as (i & _ & [= <-]).
  apply andb_true_iff in Ep as [? ?]. split_and!; [apply cn_fast_hash_array|done|done].
Qed.

Lemma applied_sound db p net n db' ids : (forall id o, asset_outputs db !! id = Some o -> output_sound id o) ->
  envelope_wf p -> apply_asset_transaction_to_db db p net (w_carrier_prefix_hash p) n = Good (db', ids) ->
  forall id o, asset_outputs db' !! id = Some o -> output_sound id o.
Proof.
  intros Hs Hwf (outputs & Eo & _ & _ & Hback)%applied_outputs_stored id o Ho.
  destruct (Hback id o Ho) as [?|(j & a & c & r & Hj & -> & (Hid & HD & Hc)%derive_output_id_Good)]; [by apply Hs|].
  destruct (payload_outputs_wf _ _ _ Eo (wf_env_groups _ Hwf)) as [Hall _]. rewrite Forall_lookup in Hall.
  destruct (Hall j _ Hj) as (Ha & Hca & [Hd _ _ _ _]). by split.
Qed.

End Sound.

(** ** The simulation *)

Lemma elem_of_option_list {A} (x : A) (o : option A) : x ∈ option_list o <-> o = Some x.
Proof. destruct o as [y|]; cbn; [rewrite list_elem_of_singleton|rewrite elem_of_nil]; split; (done || congruence). Qed.

(** What a stored output says to its recipient. *)
Definition recipient_of (o : asset_output_data_t) : asset_recipient_data :=
  Recipient (out_destination o) (out_tx_public_key o) (out_encrypted_mask o) (out_encrypted_amount o) (out_view_tag o).

Section Follow.
Context `{KeyExchangeLaws, !CryptoLaws, !Prover, !ProverLaws, !WalletKeys, !WalletLaws}.
Context (w : wallet).

(** A recorded output is the one the node stores under its id, with its opening. *)
Definition authentic (db : asset_db) (td : asset_transfer_details) : Prop :=
  exists o, asset_outputs db !! t_output_id td = Some o /\ out_asset_id o = t_asset_id td /\
    out_destination o = t_destination td /\ out_commitment o = commit_to (t_amount td) (t_mask td).

(** The wallet has recorded every output of the node that one of its addresses
    can open to an amount that is not zero. *)
Definition has_all (db : asset_db) (ts : transfers) : Prop :=
  forall id o decoded index, asset_outputs db !! id = Some o ->
    find_owner (m_view_secret_key w) (recipient_of o) (out_commitment o) (out_output_index o) (m_subaddresses w)
      = Good (Some (decoded, index)) -> dec_amount decoded <> 0 ->
    exists td, td ∈ ts /\ t_output_id td = id /\ t_amount td = dec_amount decoded.

Record follows (ledger : list asset_transaction_payload) (db : asset_db) (ts : transfers) : Prop := {
  fo_authentic : Forall (authentic db) ts;
  fo_values : Forall (fun td => 0 < t_amount td < 2 ^ 64 /\ reduced (t_mask td)) ts;
  fo_keys : Forall (fun td => t_key_image_known td = true -> regenerates w td) ts;
  fo_once : NoDup (t_destination <$> ts);
  fo_paid : Forall (fun td => t_destination td ∈ ledger ≫= dests) ts;
  fo_spent : Forall (fun td => t_key_image_known td = true ->
    (t_spent td = true <-> t_key_image td ∈ spent ledger)) ts;
  fo_all : has_all db ts;
}.

Lemma follows_nil : follows [] empty_db [].
Proof. split; try constructor. by intros id o d i E. Qed.

Lemma regenerates_key td : m_spend_secret_key w <> null_skey -> regenerates w td ->
  exists x, t_key_image td = key_image_of x /\ scalarmultBase x = t_destination td.
Proof. intros Hw [s Hs]. apply output_key_ok in Hs as (_ & Hd & Hi); [|done]. by exists s. Qed.

(** Distinct one-time keys have distinct key images. *)
Lemma images_once ledger ts : linkable ledger -> m_spend_secret_key w <> null_skey ->
  Forall (fun td => t_destination td ∈ ledger ≫= dests) ts ->
  Forall (fun td => t_key_image_known td = true -> regenerates w td) ts -> NoDup (t_destination <$> ts) ->
  NoDup (known_images ts).
Proof.
  intros Hl Hw Hp. induction 1 as [|td ts Hk Hks IH]; intros Hnd; [constructor|].
  apply Forall_cons in Hp as [Hpd Hp].
  cbn [fmap list_fmap] in Hnd. apply NoDup_cons in Hnd as [Hni Hnd]. rewrite filter_cons. case_decide; [|by apply IH].
  cbn. apply NoDup_cons. split; [|by apply IH]. intros (td' & Ei & [Hk' Hin]%list_elem_of_filter)%list_elem_of_fmap.
  apply Hni. rewrite Forall_forall in Hks, Hp. specialize (Hp td' Hin).
  destruct (regenerates_key td Hw (Hk ltac:(done))) as (x & Ex & Hx).
  destruct (regenerates_key td' Hw (Hks td' Hin Hk')) as (y & Ey & Hy). rewrite <- Hx in Hpd |- *. rewrite <- Hy in Hp.
  rewrite (link_images _ Hl x y), Hy by (done || congruence). by apply list_elem_of_fmap_2.
Qed.

Lemma receive_elem txid h carrier outputs : forall k td,
  td ∈ receive w txid h carrier k outputs <-> exists j o, outputs !! j = Some o /\
    received_as w txid h carrier (k + Z.of_nat j) o = Some td.
Proof.
  induction outputs as [|o outputs IH]; intros k td; cbn [receive].
  { split; [by intros ?%not_elem_of_nil|]. intros (j & o & Hj & _). by rewrite lookup_nil in Hj. }
  rewrite elem_of_app, IH, elem_of_option_list. split.
  - intros [E|(j & o' & Hj & E)]; [exists 0%nat, o; by rewrite Z.add_0_r|]. exists (S j), o'. split; [done|].
    by replace (k + Z.of_nat (S j)) with (k + 1 + Z.of_nat j) by lia.
  - intros ([|j] & o' & Hj & E); cbn in Hj.
    + injection Hj as ->. rewrite Z.add_0_r in E. by left.
    + right. exists j, o'. split; [done|]. by replace (k + 1 + Z.of_nat j) with (k + Z.of_nat (S j)) by lia.
Qed.

Lemma receive_dests txid h carrier outputs : forall k,
  t_destination <$> receive w txid h carrier k outputs ⊆+ (fun o => c_destination o.2) <$> outputs.
Proof.
  induction outputs as [|[[a c] r] outputs IH]; intros k; cbn [receive fmap list_fmap]; [done|].
  destruct (received_as _ _ _ _ _ _) as [td|] eqn:E; rewrite fmap_app.
  - apply received_as_details in E as (Ed & _). change (t_destination <$> option_list (Some td)) with [t_destination td].
    rewrite Ed. apply submseteq_skip, IH.
  - apply submseteq_cons, IH.
Qed.

(** The outputs of [p] are received: they are stored, new and complete. *)
Section Step.
Context {net n : Z} {ledger : list asset_transaction_payload} {p : asset_transaction_payload} {db db' : asset_db}.
Context {ids : list bytes} {ts : transfers} {txid : bytes} {h : Z}.
Context (Hspend : m_spend_secret_key w <> null_skey) (Hnet : m_nettype w = net).
Context (Hvalid : valid_ledger net ledger) (Hfollow : may_follow net ledger p) (Hwf : envelope_wf p).
Context (Happly : apply_asset_transaction_to_db db p net (w_carrier_prefix_hash p) n = Good (db', ids)).
Context (Hkeys : NoDup ((ledger ++ [p]) ≫= dests)) (Hlink : linkable (ledger ++ [p])) (Hts : follows ledger db ts).

Lemma scanned_step outputs : payload_outputs (w_balances p) (w_output_recipients p) = Good outputs ->
  asset_outputs db ⊆ asset_outputs db' ->
  (forall j a c r, outputs !! j = Some (a, c, r) -> exists id,
      derive_asset_output_id net (w_carrier_prefix_hash p) a (Z.of_nat j) (c_destination r) c = Good id /\
      asset_outputs db' !! id = Some (output_data (a, c, r) n (Z.of_nat j))) ->
  scan_payload w txid h p ts = Good ((marked (AssetDbLedger.spends p) h <$> ts)
    ++ receive w txid h (w_carrier_prefix_hash p) 0 outputs).
Proof.
  intros Eo Hsub Hout. destruct Hts as [Ha _ Hk Ho Hp _ _]. unfold scan_payload.
  rewrite mark_all_once by (by apply (images_once ledger); [by eapply linkable_before|..]). rewrite (scan_groups_flat _ _ _ _ _ _ _ outputs _ Eo).
  apply (scan_flat_received w txid h _ (asset_outputs db')).
  - intros j a c r Hj. destruct (Hout j a c r Hj) as (id & Hd & Hl). rewrite Hnet. by exists id, (output_data (a, c, r) n (Z.of_nat j)).
  - apply Forall_fmap. eapply Forall_impl; [exact Ha|]. intros td (o & Hl & _ & Hd & _). exists o.
    cbn [compose]. unfold marked. case_if; cbn [t_output_id t_destination set_spent]; (split; [|done]);
      by eapply lookup_weaken.
  - rewrite <- list_fmap_compose, (list_fmap_ext _ t_destination) by (intros i td _; apply marked_keeps).
    rewrite bind_app in Hkeys. apply NoDup_app in Hkeys as (_ & Hdis & Hnew). cbn in Hnew, Hdis.
    rewrite app_nil_r in Hnew, Hdis. unfold dests at 1 in Hnew. unfold dests at 2 in Hdis. rewrite Eo in Hnew, Hdis.
    apply NoDup_app. split_and!; [done| |done].
    intros d (td & -> & Hin)%list_elem_of_fmap. apply Hdis. rewrite Forall_forall in Hp. by apply Hp.
Qed.

Lemma received_elem outputs td : payload_outputs (w_balances p) (w_output_recipients p) = Good outputs ->
  td ∈ receive w txid h (w_carrier_prefix_hash p) 0 outputs ->
  exists j a c r, outputs !! j = Some (a, c, r) /\ recipient_wf r /\
    received_as w txid h (w_carrier_prefix_hash p) (Z.of_nat j) (a, c, r) = Some td.
Proof.
  intros Eo (j & [[a c] r] & Hj & E)%receive_elem. exists j, a, c, r. split_and!; [done| |done].
  destruct (payload_outputs_wf _ _ _ Eo (wf_env_groups _ Hwf)) as [Hall _]. rewrite Forall_lookup in Hall.
  by destruct (Hall j _ Hj) as (_ & _ & ?).
Qed.

(** The key image of a new output was not spent before. *)
Lemma received_unspent outputs td : payload_outputs (w_balances p) (w_output_recipients p) = Good outputs ->
  td ∈ receive w txid h (w_carrier_prefix_hash p) 0 outputs -> t_key_image_known td = true ->
  t_spent td = false /\ t_key_image td ∉ spent (ledger ++ [p]).
Proof.
  intros Eo (j & a & c & r & Hj & Hr & E)%(received_elem _ _ Eo) Hk.
  pose proof E as (_ & _ & _ & Hs & Hreg)%received_as_ok; [|done]. split; [done|]. intros Hsp.
  destruct (regenerates_key td Hspend (Hreg Hk)) as (x & Ex & Hx).
  assert (exists y, t_key_image td = key_image_of y /\ scalarmultBase y ∈ ledger ≫= dests) as (y & Ey & Hy).
  { unfold spent in Hsp. rewrite bind_app in Hsp. cbn in Hsp. rewrite app_nil_r in Hsp.
    apply elem_of_app in Hsp as [?|?]; [eapply spent_keys; [done|by eapply linkable_before|done]|by eapply follow_keys]. }
  apply received_as_details in E as (Ed & _).
  assert (scalarmultBase x ∈ [p] ≫= dests) as Hnew.
  { rewrite Hx, Ed. cbn. rewrite app_nil_r. unfold dests. rewrite Eo. apply list_elem_of_fmap. exists (a, c, r).
    split; [done|]. by eapply list_elem_of_lookup_2. }
  rewrite (link_images _ Hlink y x) in Hy by (rewrite ?bind_app, ?elem_of_app; auto || congruence).
  rewrite bind_app in Hkeys. apply NoDup_app in Hkeys as (_ & Hdis & _). by apply (Hdis _ Hy).
Qed.

(** What was recorded stays as it was, but for the spent marks. *)
Lemma old_kept : asset_outputs db ⊆ asset_outputs db' -> let old := marked (AssetDbLedger.spends p) h <$> ts in
  Forall (authentic db') old /\ Forall (fun td => 0 < t_amount td < 2 ^ 64 /\ reduced (t_mask td)) old /\
  Forall (fun td => t_key_image_known td = true -> regenerates w td) old /\
  Forall (fun td => t_destination td ∈ (ledger ++ [p]) ≫= dests) old /\
  Forall (fun td => t_key_image_known td = true -> (t_spent td = true <-> t_key_image td ∈ spent (ledger ++ [p]))) old.
Proof.
  intros Hsub old. destruct Hts as [Ha Hv Hk _ Hp Hs _]. unfold old. rewrite !Forall_fmap. split_and!.
  - eapply Forall_impl; [exact Ha|]. intros td (o & Hl & ?). exists o.
    split; [eapply lookup_weaken; [|exact Hsub]|]; cbn [compose]; unfold marked; by case_if.
  - eapply Forall_impl; [exact Hv|]. intros td ?. cbn [compose]. unfold marked. by case_if.
  - eapply Forall_impl; [exact Hk|]. intros td Htd. cbn [compose]. unfold marked. by case_if.
  - eapply Forall_impl; [exact Hp|]. intros td Htd. cbn [compose]. destruct (marked_keeps (AssetDbLedger.spends p) h td) as (_ & _ & ->).
    rewrite bind_app. apply elem_of_app. by left.
  - eapply Forall_impl; [exact Hs|]. intros td Htd. cbn [compose]. unfold marked, spent. rewrite bind_app.
    cbn [mbind list_bind]. rewrite app_nil_r, elem_of_app. intros Hkn. case_if.
    + cbn [t_spent t_key_image set_spent]. apply andb_true_iff in Heqb as [_ ?%bool_decide_eq_true]. tauto.
    + rewrite Hkn in Heqb. cbn [andb] in Heqb. apply bool_decide_eq_false in Heqb. specialize (Htd Hkn). unfold spent in Htd. tauto.
Qed.

Lemma new_recorded outputs : payload_outputs (w_balances p) (w_output_recipients p) = Good outputs ->
  (forall j a c r, outputs !! j = Some (a, c, r) -> exists id,
      derive_asset_output_id net (w_carrier_prefix_hash p) a (Z.of_nat j) (c_destination r) c = Good id /\
      asset_outputs db' !! id = Some (output_data (a, c, r) n (Z.of_nat j))) ->
  let new := receive w txid h (w_carrier_prefix_hash p) 0 outputs in
  Forall (authentic db') new /\ Forall (fun td => 0 < t_amount td < 2 ^ 64 /\ reduced (t_mask td)) new /\
  Forall (fun td => t_key_image_known td = true -> regenerates w td) new /\
  Forall (fun td => t_destination td ∈ (ledger ++ [p]) ≫= dests) new /\
  Forall (fun td => t_key_image_known td = true -> (t_spent td = true <-> t_key_image td ∈ spent (ledger ++ [p]))) new.
Proof.
  intros Eo Hout new. rewrite !Forall_forall. split_and!; intros td Htd; try intros Hkn;
    pose proof (received_elem _ _ Eo Htd) as (j & a & c & r & Hj & Hr & E);
    pose proof E as (Hv & Hm & Hc & Hs & Hreg)%received_as_ok; try done;
    pose proof E as (Ed & Ea & Ei & _)%received_as_details.
  - destruct (Hout j a c r Hj) as (id & Hd & Hl). rewrite Hnet in Ei. assert (id = t_output_id td) as -> by congruence.
    exists (output_data (a, c, r) n (Z.of_nat j)). by rewrite Ed, Ea, Hc.
  - by apply Hreg.
  - rewrite Ed, bind_app. apply elem_of_app. right. cbn. rewrite app_nil_r. unfold dests. rewrite Eo.
    apply list_elem_of_fmap. exists (a, c, r). split; [done|]. by eapply list_elem_of_lookup_2.
  - destruct (received_unspent _ _ Eo Htd Hkn) as [-> Hn]. split; [done|]. by intros ?%Hn.
Qed.

(** Nothing that belongs to the wallet is missing. *)
Lemma all_recorded outputs : payload_outputs (w_balances p) (w_output_recipients p) = Good outputs ->
  (forall id o, asset_outputs db' !! id = Some o -> asset_outputs db !! id = Some o \/
      exists j a c r, outputs !! j = Some (a, c, r) /\ o = output_data (a, c, r) n (Z.of_nat j) /\
        derive_asset_output_id net (w_carrier_prefix_hash p) a (Z.of_nat j) (c_destination r) c = Good id) ->
  has_all db' ((marked (AssetDbLedger.spends p) h <$> ts) ++ receive w txid h (w_carrier_prefix_hash p) 0 outputs).
Proof.
  pose proof (fo_all _ _ _ Hts) as Hall.
  intros Eo Hback id o d i Hl Hf Hne. destruct (Hback id o Hl) as [Hold|(j & a & c & r & Hj & -> & Hd)].
  - destruct (Hall id o d i Hold Hf Hne) as (td & Htd & Ei & Ea).
    exists (marked (AssetDbLedger.spends p) h td). split; [|unfold marked; by case_if].
    apply elem_of_app. left. by apply list_elem_of_fmap_2.
  - destruct (payload_outputs_wf _ _ _ Eo (wf_env_groups _ Hwf)) as [_ Hlen].
    assert (length (w_balances p) <= 8)%nat as Hgroups.
    { apply apply_Good in Happly as (reg & iss & outs & db1 & db2 & [_ Hver _ _ _ _ _ _ _]).
      unfold verify_asset_transaction_payload in Hver. apply bind_Good in Hver as ([] & Hsh & _).
      apply shape_Good in Hsh. lia. }
    apply lookup_lt_Some in Hj as Hjl. cbn [output_data out_commitment out_output_index] in Hf.
    rewrite Z.mod_small in Hf by lia. destruct r as [rD rR rm ra rt].
    change (recipient_of _) with (Recipient rD rR rm ra rt) in Hf.
    exists (details_of w a id txid h (Z.of_nat j) d i (Recipient rD rR rm ra rt)). split; [|done].
    apply elem_of_app. right. apply receive_elem. exists j, (a, c, Recipient rD rR rm ra rt). split; [done|].
    unfold received_as. change (0 + Z.of_nat j) with (Z.of_nat j). rewrite Hf, Hnet, Hd. by rewrite (proj2 (Z.eqb_neq _ _) Hne).
Qed.

Lemma follow_step : exists ts', scan_payload w txid h p ts = Good ts' /\ follows (ledger ++ [p]) db' ts'.
Proof.
  destruct (applied_outputs_stored _ _ _ _ _ _ Happly) as (outputs & Eo & Hsub & Hout & Hback).
  eexists. split; [by apply scanned_step|].
  destruct (old_kept Hsub) as (O1 & O2 & O3 & O4 & O5). destruct (new_recorded outputs Eo Hout) as (N1 & N2 & N3 & N4 & N5).
  pose proof Hts as [_ _ _ Honce Hpaid _ _].
  split; try (by apply Forall_app).
  - rewrite fmap_app, <- list_fmap_compose, (list_fmap_ext _ t_destination) by (intros i td _; apply marked_keeps).
    pose proof Hkeys as Hk. rewrite bind_app in Hk. apply NoDup_app in Hk as (_ & Hdis & Hnew). cbn in Hnew, Hdis.
    rewrite app_nil_r in Hnew, Hdis. unfold dests at 1 in Hnew. unfold dests at 2 in Hdis. rewrite Eo in Hnew, Hdis.
    pose proof (receive_dests txid h (w_carrier_prefix_hash p) outputs 0) as Hsm.
    apply NoDup_app. split_and!; [done| |by eapply submseteq_NoDup].
    intros d (td & -> & Hin)%list_elem_of_fmap Hd. rewrite Forall_forall in Hpaid.
    apply (Hdis _ (Hpaid td Hin)). by eapply elem_of_submseteq.
  - by apply all_recorded.
Qed.

End Step.

(** *** Blocks *)

Section Chain.
Context {rest : Type} (prefix_hash : transaction_prefix rest -> bytes).
Context (nettype : Z) (Hspend : m_spend_secret_key w <> null_skey) (Hnet : m_nettype w = asset_network nettype).

(** The state of node and wallet after the transactions of [ledger]. *)
Record in_step (ledger : list asset_transaction_payload) (db : asset_db) (ts : transfers) : Prop := {
  is_follows : follows ledger db ts;
  is_represents : represents db ledger;
  is_valid : valid_ledger (asset_network nettype) ledger;
  is_sound : forall id o, asset_outputs db !! id = Some o -> output_sound id o;
}.

Lemma in_step_nil : in_step [] empty_db [].
Proof. split; [apply follows_nil|apply empty_represents|constructor|by intros id o]. Qed.

Lemma scan_in_step version n txs : forall payloads ledger db db' ts,
  asset_payloads prefix_hash txs.*2 version nettype = Good payloads ->
  apply_payloads payloads nettype n db = Good db' -> in_step ledger db ts ->
  Forall envelope_wf (omap id payloads) -> NoDup ((ledger ++ omap id payloads) ≫= dests) ->
  linkable (ledger ++ omap id payloads) ->
  exists ts', scan_transactions prefix_hash w n version txs ts = Good ts' /\
    in_step (ledger ++ omap id payloads) db' ts'.
Proof.
  induction txs as [|[txid tx] txs IH]; intros payloads ledger db db' ts Ep Ea Hst Hwf Hnd Hlk; cbn [asset_payloads fmap list_fmap] in Ep.
  { injection Ep as <-. injection Ea as <-. exists ts. cbn. by rewrite app_nil_r. }
  apply bind_Good in Ep as (payload & E1 & Ep). apply bind_Good in Ep as (payloads' & E2 & [= <-]).
  cbn [scan_transactions snd] in *. unfold scan_asset_outputs. rewrite orb_false_l, Hnet.
  assert (forall q, payload = Some q -> (version <? HF_VERSION_MONZERO_ASSETS) = false /\
    parse_native_asset_transaction prefix_hash tx version (asset_network nettype) = Good (Some q)) as Hparse.
  { intros q ->. case_if_in E1; [|done]. split; [lia|done]. }
  destruct payload as [q|]; cycle 1.
  - cbn [omap list_omap id] in *. destruct (IH payloads' ledger db db' ts) as (ts' & Es & Hst'); try done.
    exists ts'. split; [|done].
    replace (if version <? HF_VERSION_MONZERO_ASSETS then Good ts else _) with (Good ts); [by rewrite bind_of_Good|].
    case_if; [done|]. case_if_in E1; [by rewrite E1|lia].
  - destruct (Hparse q eq_refl) as [-> ->]. apply apply_payloads_cons in Ea as (db1 & ids & Ea1 & Ea).
    cbn [omap list_omap id] in *. apply Forall_cons in Hwf as [Hq Hwf].
    destruct Hst as [Hf Hr Hv Hsd]. destruct (apply_represents _ _ _ _ _ _ _ Hr Ea1) as [Hmay Hr'].
    assert (NoDup ((ledger ++ [q]) ≫= dests)) as Hnd1.
    { replace (ledger ++ q :: omap id payloads') with ((ledger ++ [q]) ++ omap id payloads') in Hnd by (by rewrite <- app_assoc).
      rewrite bind_app in Hnd. by apply NoDup_app in Hnd as [? _]. }
    assert (linkable (ledger ++ [q])) as Hlk1
      by (apply (linkable_before _ (omap id payloads')); by rewrite <- app_assoc).
    destruct (@follow_step (asset_network nettype) n ledger q db db1 ids ts txid n) as (ts1 & -> & Hf1); try done.
    rewrite bind_of_Good. destruct (IH payloads' (ledger ++ [q]) db1 db' ts1) as (ts' & Es & Hst'); try done.
    + split; [done|done|by constructor|]. by eapply applied_sound.
    + by rewrite <- app_assoc.
    + by rewrite <- app_assoc.
    + exists ts'. split; [done|]. by rewrite <- app_assoc in Hst'.
Qed.

(** A transaction without an asset envelope, or whose extra field cannot be read. *)
Definition carries_no_asset (tx : transaction_prefix rest) : Prop :=
  forall data, get_monzero_asset_tx_extra (t_extra tx) <> Good (Some data).

Lemma find_envelope_tame fields : forall found, tame (find_envelope fields found).
Proof.
  induction fields as [|[] fields IH]; intros found; cbn [find_envelope]; try done.
  apply tame_bind; [auto with monzero|by intros ? _].
Qed.

Lemma no_asset_scanned txid tx n version ts : carries_no_asset tx ->
  scan_transactions prefix_hash w n version [(txid, tx)] ts = Good ts.
Proof.
  intros Hno. cbn [scan_transactions]. unfold scan_asset_outputs. case_if; [done|].
  unfold parse_native_asset_transaction.
  assert (tame (get_monzero_asset_tx_extra (t_extra tx))) as Ht.
  { apply tame_bind; [auto with monzero|]. intros fields _. apply find_envelope_tame. }
  destruct (get_monzero_asset_tx_extra (t_extra tx)) as [[data|]| | |] eqn:E; try done. by destruct (Hno data).
Qed.

Lemma refresh_in_step settings blocks chain :
  Forall2 (fun b payloads => node_payloads prefix_hash nettype b = Good payloads) blocks chain ->
  forall ledger db db' ts, replay nettype chain db = Good db' -> in_step ledger db ts ->
  (forall k b, blocks !! k = Some b -> should_skip_block settings b (db_height db + Z.of_nat k) = false) ->
  s_refresh_type settings = RefreshNoCoinbase \/ Forall (fun b => carries_no_asset (nb_miner_tx b).2) blocks ->
  Forall envelope_wf (chain_ledger chain) -> NoDup ((ledger ++ chain_ledger chain) ≫= dests) ->
  linkable (ledger ++ chain_ledger chain) ->
  exists ts', refresh prefix_hash w settings (db_height db) blocks ts = Good ts' /\
    in_step (ledger ++ chain_ledger chain) db' ts'.
Proof.
  induction 1 as [|b payloads blocks chain Hp _ IH]; intros ledger db db' ts Er Hst Hskip Hminer Hwf Hnd Hlk; cbn [replay] in Er.
  { injection Er as <-. exists ts. cbn. by rewrite app_nil_r. }
  apply bind_Good in Er as (db1 & (db2 & Ea & ->)%handle_block_Good & Er).
  unfold chain_ledger in Hwf, Hnd, Hlk |- *. cbn [mbind list_bind] in Hwf, Hnd, Hlk |- *. rewrite app_assoc in Hnd, Hlk |- *.
  apply Forall_app in Hwf as [Hwf1 Hwf2]. unfold node_payloads in Hp.
  destruct (scan_in_step (nb_major_version b) (db_height db) (nb_txs b) payloads ledger db db2 ts) as (ts1 & Es & [Hf Hr Hv Hsd]); try done.
  { rewrite bind_app in Hnd. by apply NoDup_app in Hnd as [? _]. }
  { by eapply linkable_before. }
  destruct (IH (ledger ++ omap id payloads) (set_height (db_height db + 1) db2) db' ts1) as (ts' & E' & Hst'); try done.
  - split; [|by apply set_height_represents|done|done]. destruct Hf. by split.
  - intros k b' Hk. cbn [db_height set_height]. rewrite <- (Hskip (S k) b' Hk). f_equal. lia.
  - destruct Hminer as [?|Hm]; [by left|right]. by apply Forall_cons in Hm as [_ ?].
  - exists ts'. split; [|done]. cbn [refresh db_height set_height] in E' |- *. unfold process_new_blockchain_entry.
    pose proof (Hskip 0%nat b eq_refl) as Hs0. rewrite Z.add_0_r in Hs0. rewrite Hs0.
    replace (if bool_decide (s_refresh_type settings = RefreshNoCoinbase) then Good ts else _) with (Good ts).
    + by rewrite bind_of_Good, Es, bind_of_Good.
    + case_bool_decide as Hc; [done|]. destruct Hminer as [?|[Hm _]%Forall_cons]; [done|].
      destruct (nb_miner_tx b) as [mid mtx]. by rewrite no_asset_scanned.
Qed.

End Chain.

(** C4: A wallet follows its node, on a chain of proper envelopes on which no
    one-time key is paid twice, whose key images belong to keys of their rings
    and differ for different keys, and whose miner transactions carry no
    envelopes or are not scanned. After any history of blocks and
    reorganisations of the node, a wallet with a spend key that skips no block
    of the current chain scans it without an error; it has recorded every output
    of the node's database that one of its addresses opens to an amount, and
    only outputs that are there, with their openings; the ones whose key image
    it knows are marked as spent exactly if the database has that key image. *)
Theorem wallet_follows_node {rest} (prefix_hash : transaction_prefix rest -> bytes) nettype chain db blocks settings :
  run nettype chain db ->
  Forall2 (fun b payloads => node_payloads prefix_hash nettype b = Good payloads) blocks chain ->
  m_nettype w = asset_network nettype -> m_spend_secret_key w <> null_skey ->
  (forall k b, blocks !! k = Some b -> should_skip_block settings b (Z.of_nat k) = false) ->
  s_refresh_type settings = RefreshNoCoinbase \/ Forall (fun b => carries_no_asset (nb_miner_tx b).2) blocks ->
  Forall envelope_wf (chain_ledger chain) -> NoDup (chain_ledger chain ≫= dests) -> linkable (chain_ledger chain) ->
  exists ts, refresh prefix_hash w settings 0 blocks [] = Good ts /\
    Forall (authentic db) ts /\ has_all db ts /\ NoDup (t_destination <$> ts) /\
    Forall (fun td => t_key_image_known td = true ->
      (t_spent td = true <-> is_Some (asset_key_images db !! t_key_image td))) ts.
Proof.
  intros Hrun Hblocks Hnet Hspend Hskip Hminer Hwf Hnd Hlk. apply run_replay in Hrun.
  destruct (refresh_in_step prefix_hash nettype Hspend Hnet settings blocks chain Hblocks [] empty_db db [])
    as (ts & Es & [Hf Hr _ _]); try done.
  { by apply in_step_nil. }
  exists ts. destruct Hf as [Ha _ _ Ho _ Hs Hall]. split_and!; try done.
  eapply Forall_impl; [exact Hs|]. intros td Htd Hk. rewrite (Htd Hk), <- elem_of_dom, (rep_key_images _ _ Hr).
  by rewrite elem_of_list_to_set.
Qed.

End Follow.

(** ** What the node does not check *)

Lemma ids_marked id h proofs : forall ts, Forall (fun td => t_output_id td <> id) ts ->
  Forall (fun td => t_output_id td <> id) (foldl (fun ts proof => mark_spent (o_key_image proof) h ts) ts proofs).
Proof.
  induction proofs as [|p proofs IH]; intros ts Hts; [done|]. cbn [foldl]. apply IH. clear IH.
  induction Hts as [|td ts Ht Hts IH]; cbn [mark_spent]; [done|]. case_if; by constructor.
Qed.

Section Unchecked.
Context `{Crypto, RingCt, KeyExchange, WalletKeys} {rest : Type}.
Context (prefix_hash : transaction_prefix rest -> bytes) (w : wallet).

(** C34: The envelope of a miner transaction is believed by wallets although no
    node checks it: for a block with nothing but a miner transaction the node
    changes no asset table, whatever the envelope says, but a wallet that can
    open the output of the envelope records its amount of any asset, and marks
    as spent whatever the envelope claims to spend. *)
Theorem miner_envelope_credited nettype settings b p a c r decoded index id db ts :
  nb_txs b = [] -> HF_VERSION_MONZERO_ASSETS <= nb_major_version b ->
  parse_native_asset_transaction prefix_hash (nb_miner_tx b).2 (nb_major_version b) (m_nettype w) = Good (Some p) ->
  should_skip_block settings b (db_height db) = false -> s_refresh_type settings <> RefreshNoCoinbase ->
  payload_outputs (w_balances p) (w_output_recipients p) = Good [(a, c, r)] ->
  find_owner (m_view_secret_key w) r c 0 (m_subaddresses w) = Good (Some (decoded, index)) ->
  dec_amount decoded <> 0 ->
  derive_asset_output_id (m_nettype w) (w_carrier_prefix_hash p) a 0 (c_destination r) c = Good id ->
  Forall (fun td => t_output_id td <> id) ts ->
  node_block prefix_hash nettype b db = Good (set_height (db_height db + 1) db) /\
  exists td, process_new_blockchain_entry prefix_hash w settings (db_height db) b ts
      = Good (foldl (fun ts proof => mark_spent (o_key_image proof) (db_height db) ts) ts (w_ownership_proofs p) ++ [td]) /\
    t_asset_id td = a /\ t_amount td = dec_amount decoded /\ t_spent td = false.
Proof.
  intros Htxs Hv Hp Hskip Hrt Ho Hf Hne Hd Hts. split.
  { unfold node_block, node_payloads. by rewrite Htxs. }
  exists (details_of w a id (nb_miner_tx b).1 (db_height db) 0 decoded index r). split; [|done].
  unfold process_new_blockchain_entry. rewrite Hskip, bool_decide_eq_false_2, Htxs by done.
  destruct (nb_miner_tx b) as [mid mtx]. cbn [scan_transactions fst snd] in *. unfold scan_asset_outputs.
  replace (false || (nb_major_version b <? HF_VERSION_MONZERO_ASSETS)) with false by lia. rewrite Hp.
  unfold scan_payload. rewrite (scan_groups_flat _ _ _ _ _ _ _ _ _ Ho). cbn [scan_flat].
  rewrite (scan_output_records w _ _ _ _ _ _ _ _ decoded index id) by (done || by apply ids_marked). done.
Qed.

(** C35: What a wallet learned while it synchronised in the background is lost when
    it takes over the background cache: the transactions are processed with
    block version 0, for which assets are not scanned, after the wallet has
    detached everything from the start height on. *)
Theorem background_sync_forgets settings data current_height background_height ts :
  m_background_syncing w = false -> m_multisig w = false -> m_watch_only w = false -> m_key_on_device w = false ->
  bd_first_refresh_done data = true -> current_height <= background_height -> settings_differ settings data = false ->
  heights_in_order (merge_sort index_le (bd_txs data)) = true ->
  process_background_cache prefix_hash w settings data current_height background_height ts
    = Good (detach_asset_transfers (bd_start_height data) ts) /\
  Forall (fun td => t_block_height td < bd_start_height data /\
    (t_spent td = true -> t_spent_height td < bd_start_height data)) (detach_asset_transfers (bd_start_height data) ts).
Proof.
  intros H1' H2' H3' H4' Hd Hh Hs Ho. split.
  - unfold process_background_cache. rewrite H1', H2', H3', H4', Hd, Hs. cbn [orb negb].
    replace (background_height <? current_height) with false by lia. cbv zeta. rewrite Ho. cbn [negb].
    induction (merge_sort index_le (bd_txs data)) as [|t txs IH]; [done|]. cbn [process_background_txs].
    unfold scan_asset_outputs. cbn [orb]. change (0 <? HF_VERSION_MONZERO_ASSETS) with true. cbn iota.
    rewrite bind_of_Good. apply IH. cbn [heights_in_order] in Ho. destruct txs; [done|]. by apply andb_true_iff in Ho as [_ ?].
  - apply Forall_forall. intros td [Hb (td' & -> & Hin)%list_elem_of_fmap]%list_elem_of_filter.
    split; [lia|]. case_if; [done|]. intros Hsp. rewrite Hsp in Heqb. cbn in Heqb. lia.
Qed.

End Unchecked.
