(* ===== verification/AssetSpend.v ===== *)
(** From a wallet's balance to the pool of its node: a wallet that follows a node
    and asks it for ring members can plan every transfer its outputs suffice
    for, and the node accepts the payload that is built. *)

From stdpp Require Import gmap sorting.
From S2P Require Import Prelude Bytes AssetTypes AssetExamples AssetCodec AssetRegistry AssetConfidential AssetOwnership AssetWire AssetWireCodec AssetBalance AssetDb AssetDbTables AssetDbLoad AssetDbLedger AssetPool AssetExtra AssetRpc AssetRpcProps AssetRecipient AssetBuild AssetBuildProps AssetBuildWire AssetWallet AssetWalletProps AssetSelect AssetSync AssetSyncProps.

(** What the wallet's client gets from the server of a node: no answer if the
    call fails. *)
Definition rpc_client (db : asset_db) (version : Z) (req : get_asset_outputs_request) :
  option get_asset_outputs_response :=
  match on_get_asset_outputs db version req with Answer res => Some res | _ => None end.

(** ** The answers of a node *)

Definition member_of (r : stored_output) : asset_ring_member :=
  Member (out_asset_id r.2) r.1 (Ctkey (out_destination r.2) (out_commitment r.2)).

Section Answers.
Context `{Crypto, RingCt}.

Lemma entry_member r : output_sound r.1 r.2 -> ring_member_of (output_entry_of r) = Some (member_of r).
Proof.
  intros [Hid Ha [Hd _] [Hc _]]. unfold ring_member_of, output_entry_of. cbn [e_asset_id e_output_id e_destination e_commitment].
  rewrite (hex_round_trip 32 _ Ha), (hex_round_trip 32 _ Hid), (hex_round_trip 32 _ Hd), (hex_round_trip 32 _ Hc). done.
Qed.

(** All outputs of an answer become candidates. *)
Lemma answer_candidates asset_id chosen : Forall (fun r => output_sound r.1 r.2 /\ out_asset_id r.2 = asset_id) chosen ->
  forall found, NoDup ((m_output_id <$> found) ++ chosen.*1) ->
  ring_candidates asset_id (output_entry_of <$> chosen) found = Good (found ++ (member_of <$> chosen)).
Proof.
  induction 1 as [|r chosen [Hs Ha] _ IH]; intros found Hnd; cbn [fmap list_fmap ring_candidates].
  { by rewrite app_nil_r. }
  rewrite (entry_member r Hs). cbn [expect]. rewrite bind_of_Good. destruct Hs as [_ _ [_ Hd] [_ Hc]].
  cbn [member_of m_asset_id m_public_output ct_dest ct_mask]. rewrite Ha, bool_decide_eq_true_2, Hd, Hc by done.
  cbn [andb require]. rewrite bind_of_Good.
  replace (existsb _ found) with false.
  - rewrite IH; [by rewrite <- app_assoc|]. rewrite fmap_app, <- app_assoc. exact Hnd.
  - symmetry. apply not_true_iff_false. intros (m & Hm%list_elem_of_In & E%bool_decide_eq_true)%existsb_exists.
    cbn [m_output_id] in E. apply NoDup_app in Hnd as (_ & Hx & _). apply (Hx (m_output_id m)); [by apply list_elem_of_fmap_2|].
    rewrite E. cbn. left.
Qed.

(** A request for the outputs of an asset passes the filter. *)
Lemma filter_hex req asset_id : array 32 asset_id -> rq_asset_id req = pod_to_hex asset_id ->
  filter_ok req /\ filter_of req = Some asset_id.
Proof.
  intros Ha Hr. pose proof (hex_round_trip 32 asset_id Ha) as E. rewrite <- Hr in E. split; [right; by rewrite E|].
  unfold filter_of. rewrite E, Hr. unfold pod_to_hex. rewrite length_write_hex, (array_length _ _ Ha). done.
Qed.

End Answers.

(** ** Rings *)

Lemma length_filter_all {A} (P : A -> Prop) `{!forall x, Decision (P x)} l : Forall P l -> length (filter P l) = length l.
Proof. induction 1 as [|x l Hx _ IH]; [done|]. rewrite filter_cons_True by done. cbn. by rewrite IH. Qed.

Section Rings.
Context `{Crypto, RingCt, KeyExchange}.

Lemma decoys_left id candidates : NoDup (m_output_id <$> candidates) ->
  (length candidates <= S (length (filter (fun m => ~ with_id id m) candidates)))%nat.
Proof.
  induction candidates as [|m candidates IH]; intros Hnd; [cbn; lia|]. cbn [fmap list_fmap] in Hnd.
  apply NoDup_cons in Hnd as [Hni Hnd]. rewrite filter_cons. case_decide as Hm.
  - cbn [length]. specialize (IH Hnd). lia.
  - rewrite length_filter_all; [cbn; lia|]. apply Forall_forall. intros m' Hin Hid.
    apply Hni. unfold with_id in *. rewrite Hm, <- Hid. by apply list_elem_of_fmap_2.
Qed.

(** The ring around an output that is among sixteen candidates. *)
Lemma make_ring_total rand_idx candidates td secret real : draws_below rand_idx.1 -> draws_below rand_idx.2 ->
  NoDup (m_output_id <$> candidates) -> (16 <= length candidates)%nat -> real ∈ candidates ->
  m_output_id real = t_output_id td -> ct_dest (m_public_output real) = t_destination td ->
  ct_mask (m_public_output real) = commit_to (t_amount td) (t_mask td) ->
  exists i, make_ring rand_idx candidates (td, secret) = Good i.
Proof.
  intros Hr1 Hr2 Hnd Hlen Hreal Hid Hd Hm. unfold make_ring.
  destruct (list_find_elem_of (with_id (t_output_id td)) candidates real Hreal Hid) as [[j m] Hf]. rewrite Hf.
  cbn [expect]. rewrite bind_of_Good. cbn [snd]. apply list_find_Some in Hf as (Hj & Hmid & _).
  assert (m = real) as ->.
  { apply list_elem_of_lookup in Hreal as [k Hk].
    assert (j = k) as -> by (apply (NoDup_lookup (m_output_id <$> candidates) _ _ (t_output_id td) Hnd);
      rewrite list_lookup_fmap; [rewrite Hj; cbn; by rewrite Hmid|rewrite Hk; cbn; by rewrite Hid]).
    congruence. }
  rewrite Hd, Hm, !bool_decide_eq_true_2 by done. cbn [andb require]. rewrite bind_of_Good.
  pose proof (decoys_left (t_output_id td) candidates Hnd) as Hdec.
  rewrite require_true, bind_of_Good by (unfold CONFIDENTIAL_ASSET_RING_SIZE; lia).
  destruct (shuffle_ok rand_idx.1 _ Hr1 (filter (fun m => ~ with_id (t_output_id td) m) candidates) (le_n _)) as (ring1 & -> & P1).
  rewrite bind_of_Good. set (ring2 := take _ ring1 ++ [real]).
  destruct (shuffle_ok rand_idx.2 _ Hr2 ring2 (le_n _)) as (ring3 & -> & P3). rewrite bind_of_Good. by eexists.
Qed.

Lemma make_rings_total rand_idx candidates selected :
  (forall n, draws_below (rand_idx n).1 /\ draws_below (rand_idx n).2) ->
  NoDup (m_output_id <$> candidates) -> (16 <= length candidates)%nat ->
  Forall (fun td => exists real, real ∈ candidates /\ m_output_id real = t_output_id td /\
    ct_dest (m_public_output real) = t_destination td /\
    ct_mask (m_public_output real) = commit_to (t_amount td) (t_mask td)) selected.*1 ->
  forall k, exists inputs, make_rings rand_idx candidates selected k = Good inputs.
Proof.
  intros Hr Hnd Hl. induction selected as [|[td secret] selected IH]; intros Hall k; cbn [make_rings]; [by eexists|].
  cbn in Hall. apply Forall_cons in Hall as [(real & ? & ? & ? & ?) Hall].
  destruct (make_ring_total (rand_idx k) candidates td secret real) as [i ->]; try done; [apply Hr..|].
  rewrite bind_of_Good. destruct (IH Hall (S k)) as [inputs ->]. by eexists.
Qed.

End Rings.

(** ** Plans *)

Section Plans.
Context `{KeyExchangeLaws, !CryptoLaws, !Prover, !ProverLaws, !WalletKeys, !WalletLaws} (w : wallet).

(** [random_indices] draws sixteen different indices. *)
Definition draws_indices (random_indices : Z -> list Z) : Prop := forall total, 16 <= total ->
  NoDup (random_indices total) /\ length (random_indices total) = 16%nat /\
  Forall (fun i => 0 <= i < total) (random_indices total).

(** The outputs of an asset in the database. *)
Definition outputs_of (asset_id : bytes) (db : asset_db) : list stored_output :=
  filter (of_asset (Some asset_id)) (map_to_list (asset_outputs db)).

Lemma total_answered db version asset_id records : matching_outputs db (Some asset_id) = Good records ->
  array 32 asset_id -> HF_VERSION_MONZERO_ASSETS <= version -> Z.of_nat (length records) < 2 ^ 64 ->
  exists entries, active_response (rpc_client db version (total_request asset_id))
    = Some (OutputsResponse true (Z.of_nat (length records)) entries CORE_RPC_STATUS_OK).
Proof.
  intros E Ha Hv Hl. destruct (filter_hex (total_request asset_id) asset_id Ha eq_refl) as [Hf Ef].
  rewrite <- Ef in E. eexists. unfold rpc_client. rewrite (outputs_page _ _ _ records E Hf); try done.
  replace (HF_VERSION_MONZERO_ASSETS <=? version) with true by lia. done.
Qed.

(** The ring request of a selection: every output is known, and the answer has
    the selected outputs and at least sixteen outputs. *)
Lemma ring_answered db version asset_id records selected indices : matching_outputs db (Some asset_id) = Good records ->
  array 32 asset_id -> HF_VERSION_MONZERO_ASSETS <= version -> NoDup records.*1 ->
  NoDup indices -> length indices = 16%nat -> Forall (fun i => 0 <= i < Z.of_nat (length records)) indices ->
  (length selected <= 16)%nat ->
  Forall (fun s : asset_transfer_details * bytes => array 32 (t_output_id s.1) /\ t_output_id s.1 ∈ records.*1) selected ->
  exists chosen, active_response (rpc_client db version (ring_request asset_id indices selected))
      = Some (OutputsResponse true (Z.of_nat (length records)) (output_entry_of <$> chosen) CORE_RPC_STATUS_OK) /\
    NoDup chosen.*1 /\ (forall r, r ∈ chosen -> r ∈ records) /\ (16 <= length chosen)%nat /\
    forall s r, s ∈ selected -> r ∈ records -> r.1 = t_output_id s.1 -> r ∈ chosen.
Proof.
  intros E Ha Hv Hnd Hin Hli Hi Hls Hsel. set (req := ring_request asset_id indices selected).
  destruct (filter_hex req asset_id Ha eq_refl) as [Hf Ef]. rewrite <- Ef in E.
  destruct (outputs_chosen db version req records E Hf Hnd) as (chosen & Ec & Hndc & Hc).
  { split_and!; cbn [rq_indices rq_output_ids req ring_request]; [done| |rewrite length_fmap; lia..].
    apply Forall_fmap. eapply Forall_impl; [exact Hsel|]. intros s [Hs1 Hs2]. exists (t_output_id s.1).
    by rewrite (hex_round_trip 32 _ Hs1). }
  exists chosen. split_and!; [|done| | |].
  - unfold rpc_client. rewrite Ec. cbn [active_response mbind option_bind].
    replace (HF_VERSION_MONZERO_ASSETS <=? version) with true by lia. done.
  - intros r [(i & _ & Hr%list_elem_of_lookup_2)|[Hr _]]%Hc; done.
  - destruct (pick_all (fun r => r) records indices Hi) as (picked & _ & Hp).
    pose proof (picked_NoDup fst records indices picked Hnd Hin) as Hnp.
    rewrite <- Hli, (Forall2_length _ _ _ Hp). apply submseteq_length, NoDup_submseteq.
    + eapply NoDup_fmap_1. apply Hnp; [|done]. eapply Forall_impl; [exact Hi|]. cbv beta. lia.
    + intros r [j Hj]%list_elem_of_lookup. destruct (Forall2_lookup_r _ _ _ _ _ Hp Hj) as (i & Hii & Hir).
      apply Hc. left. exists i. split; [by eapply list_elem_of_lookup_2|done].
  - intros s r Hs Hr Hid. apply Hc. right. split; [done|]. exists (pod_to_hex (t_output_id s.1)).
    split; [by apply (list_elem_of_fmap_2 (fun s => pod_to_hex (t_output_id s.1)))|].
    rewrite Forall_forall in Hsel. destruct (Hsel s Hs) as [Hs1 _]. by rewrite (hex_round_trip 32 _ Hs1), Hid.
Qed.

(** A wallet that may spend assets. *)
Definition full_wallet : Prop := m_watch_only w = false /\ m_multisig w = false /\ m_background_syncing w = false /\
  m_is_background_wallet w = false /\ m_key_on_device w = false.

(** Some sixteen outputs that may be spent are enough. *)
Definition enough (asset_id : bytes) (account : Z) (indices : gset Z) (ts : transfers) (required : Z) : Prop :=
  zsum (t_amount <$> spend_candidates asset_id account indices ts) < 2 ^ 64 /\
  exists choice, choice ⊆+ spend_candidates asset_id account indices ts /\ (length choice <= 16)%nat /\
    required <= zsum (t_amount <$> choice).

Section Step.
Context {nettype : Z} {ledger : list asset_transaction_payload} {db : asset_db} {ts : transfers}.
Context (Hst : in_step w nettype ledger db ts).

(** What is selected is spendable: it is in the database under its id, with its
    key and opening, and its key image is not. *)
Lemma candidate_facts asset_id account indices td : td ∈ spend_candidates asset_id account indices ts ->
  authentic db td /\ t_asset_id td = asset_id /\ regenerates w td /\ 0 < t_amount td < 2 ^ 64 /\ reduced (t_mask td) /\
  has_asset_key_image (t_key_image td) db = false.
Proof.
  intros [He Hin]%list_elem_of_filter. unfold eligible in He. rewrite !andb_true_iff in He.
  destruct He as ((((((Ha%bool_decide_eq_true & Hs%negb_true_iff) & Hk) & _) & _) & _) & _).
  destruct Hst as [[Fa Fv Fk _ _ Fs _] Hr _ _]. rewrite Forall_forall in Fa, Fv, Fk, Fs.
  destruct (Fv td Hin) as [? ?]. split; [by apply Fa|]. split; [done|]. split; [by apply Fk|]. split; [done|]. split; [done|].
  unfold has_asset_key_image. apply bool_decide_eq_false. rewrite <- elem_of_dom, (rep_key_images _ _ Hr), elem_of_list_to_set.
  rewrite <- (Fs td Hin Hk). by rewrite Hs.
Qed.

Lemma selected_facts asset_id required account indices selected total : 0 < required ->
  select_asset_inputs w ts asset_id required account indices = Good (selected, total) ->
  (length selected <= 16)%nat /\ Forall (fun td => td ∈ spend_candidates asset_id account indices ts) selected.*1.
Proof.
  intros Hr (Hsub & _ & _ & _ & Hl)%selection_Good; [|done]. split; [done|]. apply Forall_forall. intros td Htd.
  by eapply elem_of_submseteq.
Qed.

Lemma selection_exists asset_id required account indices : 0 < required -> enough asset_id account indices ts required ->
  exists selected total, select_asset_inputs w ts asset_id required account indices = Good (selected, total).
Proof.
  intros Hr [Hsum Hch].
  destruct (proj2 (select_complete w ts asset_id required account indices Hr ltac:(apply Forall_forall; intros td Htd; apply (candidate_facts _ _ _ _ Htd))
    ltac:(apply Forall_forall; intros td Htd; pose proof (candidate_facts _ _ _ _ Htd); lia) Hsum) Hch) as (selected & Es & _).
  by exists selected, (zsum (t_amount <$> selected.*1)).
Qed.

(** The wallet's plan with the answers of its node. *)
Lemma plan_exists version asset_id recipient is_sub transfer burn account indices change random_indices rand_idx :
  full_wallet -> HF_VERSION_MONZERO_ASSETS <= version -> array 32 asset_id ->
  0 <= transfer -> 0 <= burn -> 0 < transfer + burn < 2 ^ 64 -> enough asset_id account indices ts (transfer + burn) ->
  16 <= Z.of_nat (length (outputs_of asset_id db)) < 2 ^ 64 -> draws_indices random_indices ->
  (forall n, draws_below (rand_idx n).1 /\ draws_below (rand_idx n).2) ->
  exists selected inputs destinations,
    plan_asset_transfer w ts asset_id recipient is_sub transfer burn account indices false (Good true) change
      (rpc_client db version) random_indices rand_idx = Good (selected, inputs, destinations) /\
    Forall (fun i => forall m, m ∈ ti_ring i -> exists r, m = member_of r /\ asset_outputs db !! r.1 = Some r.2 /\
      out_asset_id r.2 = asset_id) inputs.
Proof.
  intros (F1 & F2 & F3 & F4 & F5) Hv Ha Ht Hb Hreq Hen Hout Hidx Hrand.
  pose proof (is_sound _ _ _ _ _ Hst) as Hsound.
  destruct (matching_Good db (Some asset_id)) as (records & Er & _ & Hnd & Hin).
  { intros id [o Ho]. by destruct (Hsound id o Ho) as [[? _] _ _ _]. }
  assert (length records = length (outputs_of asset_id db)) as Hlen.
  { unfold matching_outputs in Er. apply bind_Good in Er as (all & ->%all_outputs_Good & [= <-]).
    by rewrite merge_sort_Permutation. }
  destruct (selection_exists asset_id (transfer + burn) account indices) as (selected & total & Es); [lia|done|].
  pose proof Es as [Hls Hsel]%selected_facts; [|lia].
  rewrite <- Hlen in Hout.   destruct (total_answered db version asset_id records Er Ha Hv) as (entries & Et); [lia|].
  destruct (Hidx (Z.of_nat (length records))) as (Hi1 & Hi2 & Hi3); [lia|].
  assert (Forall (fun td => exists r, r ∈ records /\ r.1 = t_output_id td /\ array 32 (t_output_id td) /\
    out_destination r.2 = t_destination td /\ out_commitment r.2 = commit_to (t_amount td) (t_mask td)) selected.*1) as Hreal.
  { eapply Forall_impl; [exact Hsel|]. intros td ((o & Ho & Hao & Hdo & Hco) & Hat & _)%candidate_facts.
    exists (t_output_id td, o). split_and!; try done; [apply Hin; cbn; split; [done|congruence]|by apply Hsound in Ho as []]. }
  destruct (ring_answered db version asset_id records selected (random_indices (Z.of_nat (length records))))
    as (chosen & Ec & Hndc & Hsubc & Hlc & Hselc); try done.
  { rewrite Forall_fmap in Hreal. eapply Forall_impl; [exact Hreal|]. intros s (r & Hr & Hid & Har & _). split; [done|].
    cbn [compose] in *. rewrite <- Hid. by apply list_elem_of_fmap_2. }
  assert (Forall (fun r => output_sound r.1 r.2 /\ out_asset_id r.2 = asset_id) chosen) as Hok.
  { apply Forall_forall. intros [id o] [Ho Hao]%Hsubc%Hin. split; [by apply Hsound|done]. }
  pose proof (answer_candidates asset_id chosen Hok [] Hndc) as Ecand. cbn [app] in Ecand.
  assert (NoDup (m_output_id <$> (member_of <$> chosen))) as Hndm.
  { rewrite <- list_fmap_compose. by rewrite (list_fmap_ext _ fst) by done. }
  destruct (make_rings_total rand_idx (member_of <$> chosen) selected Hrand Hndm) with (k := 0%nat) as (inputs & Ei).
  { by rewrite length_fmap. }
  { rewrite Forall_fmap in Hreal |- *. rewrite Forall_forall in Hreal |- *. intros s Hs. destruct (Hreal s Hs) as (r & Hr & Hid & _ & Hd & Hc).
    exists (member_of r). split_and!; try done. apply list_elem_of_fmap_2. by apply (Hselc s). }
  eexists selected, inputs, _. split.
  - unfold plan_asset_transfer. rewrite F1, F2, F3, F4, F5. cbn [negb orb require]. rewrite !bind_of_Good.
    rewrite (require_true (negb _)), bind_of_Good by lia. unfold UINT64_MAX. rewrite require_true, bind_of_Good by lia.
    rewrite Es, bind_of_Good, Et. cbn [expect]. rewrite bind_of_Good. cbn [rs_total].
    rewrite require_true, bind_of_Good by (unfold CONFIDENTIAL_ASSET_RING_SIZE; lia). rewrite Ec. cbn [expect].
    rewrite bind_of_Good. cbn [rs_outputs]. rewrite Ecand, bind_of_Good, Ei, bind_of_Good. reflexivity.
  - apply (make_rings_ok _ _ _ _ _ Hrand) in Ei. clear -Ei Hndm Hin Hsubc.
    induction Ei as [|[td secret] i selected inputs (rnd & R1 & R2 & E) _ IH]; constructor; [|done].
    apply make_ring_ok in E as (_ & _ & Hm & _); [|done..]. intros m (r & -> & Hr)%Hm%list_elem_of_fmap. exists r.
    destruct r as [id o]. apply Hsubc, Hin in Hr as [? ?]. done.
Qed.

End Step.
End Plans.

(** ** What the node checks *)

Section Checks.
Context `{Crypto, RingCt}.

(** A ring member that is an output of the database. *)
Lemma member_checked db r : asset_outputs db !! r.1 = Some r.2 ->
  check_ring_member db (out_asset_id r.2) (member_of r) = Good ().
Proof.
  intros E. unfold check_ring_member, get_asset_output. cbn [member_of m_output_id m_asset_id m_public_output ct_dest ct_mask].
  rewrite E. cbn [expect]. by rewrite bind_of_Good, !bool_decide_eq_true_2.
Qed.

Lemma ring_checked db asset_id ring : (forall m, m ∈ ring -> exists r, m = member_of r /\
    asset_outputs db !! r.1 = Some r.2 /\ out_asset_id r.2 = asset_id) -> check_ring db asset_id ring = Good ().
Proof.
  induction ring as [|m ring IH]; intros Hr; cbn [check_ring]; [done|].
  destruct (Hr m ltac:(left)) as (r & -> & Ho & <-). rewrite (member_checked db r Ho), bind_of_Good.
  apply IH. intros m Hm. apply Hr. by right.
Qed.

Lemma ownerships_checked db net carrier proofs :
  Forall (fun proof => has_asset_key_image (o_key_image proof) db = false /\
    check_ring db (o_asset_id proof) (o_ring proof) = Good () /\
    verify_asset_ownership_proof proof net carrier = Good ()) proofs ->
  verify_ownerships db proofs net carrier = Good ().
Proof.
  induction 1 as [|proof proofs (Hi & Hr & Hv) _ IH]; cbn [verify_ownerships]; [done|].
  unfold verify_asset_ownership_against_db. by rewrite Hi, Hr, Hv.
Qed.

Lemma output_id_exists net carrier a k D c : public_network net = true -> carrier <> null_hash -> a <> null_hash ->
  isInMainSubgroup D = true -> isInMainSubgroup c = true -> exists id, derive_asset_output_id net carrier a k D c = Good id.
Proof.
  intros Hn Hc Ha Hd Hp. unfold derive_asset_output_id. rewrite Hn, !bool_decide_eq_false_2, Hd, Hp by done.
  cbn [orb negb andb require]. rewrite !bind_of_Good.
  assert (exists i, network_id net = Good i) as [i ->]; [|by eexists].
  unfold network_id, public_network in *. destruct (net =? MAINNET); [by eexists|]. destruct (net =? TESTNET); [by eexists|].
  destruct (net =? STAGENET); [by eexists|done].
Qed.

(** No output of a list has the id of a stored one. *)
Fixpoint unused_ids (db : asset_db) (net : Z) (carrier : bytes) (k : Z)
  (outputs : list (bytes * bytes * asset_recipient_data)) : bool :=
  match outputs with
  | [] => true
  | (a, c, r) :: outputs =>
      match derive_asset_output_id net carrier a k (c_destination r) c with
      | Good id => bool_decide (asset_outputs db !! id = None)
      | _ => true
      end && unused_ids db net carrier (k + 1) outputs
  end.

Definition outputs_unused (db : asset_db) (net : Z) (p : asset_transaction_payload) : bool :=
  match payload_outputs (w_balances p) (w_output_recipients p) with
  | Good outputs => unused_ids db net (w_carrier_prefix_hash p) 0 outputs
  | _ => true
  end.

(** The ids of new outputs, if none of them is stored. *)
Lemma output_ids_derived db net carrier outputs : public_network net = true -> carrier <> null_hash ->
  Forall (fun o => o.1.1 <> null_hash /\ isInMainSubgroup (c_destination o.2) = true /\
    isInMainSubgroup o.1.2 = true) outputs ->
  forall k, unused_ids db net carrier k outputs = true -> exists ids, candidate_output_ids db net carrier k outputs = Good ids.
Proof.
  intros Hn Hc. induction 1 as [|[[a c] r] outputs (Ha & Hd & Hp) _ IH]; intros k Hfresh; [by exists []|].
  cbn [fst snd unused_ids] in *. destruct (output_id_exists net carrier a k (c_destination r) c) as [id Ed]; try done.
  rewrite Ed in Hfresh. apply andb_true_iff in Hfresh as [Hid%bool_decide_eq_true Hfresh].
  destruct (IH (k + 1) Hfresh) as [ids E].
  exists (id :: ids). cbn [candidate_output_ids]. rewrite Ed, bind_of_Good. unfold get_asset_output.
  rewrite Hid. cbn. by rewrite E.
Qed.

Lemma group_outputs_paired a outputs : forall rs, length rs = length outputs ->
  exists group, group_outputs a outputs rs = Good group /\
    Forall (fun o => o.1.1 = a /\ o.1.2 ∈ outputs /\ o.2 ∈ rs) group.
Proof.
  induction outputs as [|c outputs IH]; intros [|r rs] Hl; cbn in Hl; try lia; [by exists []|].
  destruct (IH rs ltac:(lia)) as (group & E & Hg). exists ((a, c, r) :: group). cbn [group_outputs]. rewrite E. split; [done|].
  constructor; [split_and!; [done|left|left]|]. eapply Forall_impl; [exact Hg|]. intros o (? & ? & ?). split_and!; [done|by right|by right].
Qed.

(** The asset of an output was issued. *)
Lemma created_issued net ledger q a D c : valid_ledger net ledger -> q ∈ ledger -> creates q a D c -> a ∈ issued ledger.
Proof.
  intros Hv Hq (outputs & r & Eo & Hin & _). induction Hv as [|ledger p Hv IH [_ Hg _ _ _ _ _]]; [by apply not_elem_of_nil in Hq|].
  unfold issued in *. rewrite omap_app. apply elem_of_app in Hq as [Hq| ->%list_elem_of_singleton].
  { apply elem_of_app. left. by apply IH. }
  assert (a ∈ b_asset_id <$> w_balances p) as (b & -> & Hb)%list_elem_of_fmap.
  { clear -Eo Hin. revert outputs Eo Hin. generalize (w_output_recipients p) as rss.
    induction (w_balances p) as [|b balances IHb]; intros [|rs rss] outputs Eo Hin; cbn in Eo; try done;
      try (injection Eo as <-; by apply not_elem_of_nil in Hin).
    apply bind_Good in Eo as (group & Eg & Eo). apply bind_Good in Eo as (rest & Er & [= <-]).
    cbn. apply elem_of_app in Hin as [Hin|Hin]; [|right; by apply (IHb rss rest)].
    assert (a = b_asset_id b) as ->; [|left].
    revert rs group Eg Hin. induction (b_outputs b) as [|o outs IHo]; intros [|r' rs] group Eg Hin; cbn in Eg; try done;
      try (injection Eg as <-; by apply not_elem_of_nil in Hin).
    apply bind_Good in Eg as (g & Eg & [= <-]). apply elem_of_cons in Hin as [[= -> _ _]|Hin]; [done|]. by apply (IHo rs g). }
  rewrite Forall_forall in Hg. destruct (Hg b Hb) as [_ Hk]. apply elem_of_app. case_bool_decide as Hi; [right|left; by apply elem_of_list_to_set in Hk].
  cbn. rewrite Hi. left.
Qed.

End Checks.

Lemma pick_elem {A B} (f : A -> B) items indices : forall l e, pick f items indices = Good l -> e ∈ l ->
  exists x, x ∈ items /\ e = f x.
Proof.
  induction indices as [|i indices IH]; intros l e E He; cbn [pick] in E; [injection E as <-; by apply not_elem_of_nil in He|].
  apply bind_Good in E as (x & Ex & E). apply bind_Good in E as (l' & El & [= <-]).
  apply elem_of_cons in He as [->|He]; [|by eapply IH]. exists x. split; [|done].
  destruct (items !! Z.to_nat i) eqn:Ei; [|done]. injection Ex as <-. by eapply list_elem_of_lookup_2.
Qed.

(** Every output of an answer is an output of the database. *)
Lemma answered_from_db db version req res e : rpc_client db version req = Some res -> e ∈ rs_outputs res ->
  exists r, e = output_entry_of r /\ asset_outputs db !! r.1 = Some r.2.
Proof.
  unfold rpc_client, on_get_asset_outputs. intros E He. case_if_in E; [done|]. cbv zeta in E. case_if_in E; [done|].
  match type of E with context [rpc_try ?m _] => destruct m as [a| | |] eqn:Em; try done end.
  cbn [rpc_try] in E. injection E as ->. apply bind_Good in Em as (records & Er & Em).
  apply bind_Good in Em as (s & _ & Em). apply bind_Good in Em as (outs & Eo & [= <-]). cbn [rs_outputs] in He.
  destruct (pick_elem _ _ _ _ _ Eo He) as ([id o] & Hin & ->). exists (id, o). split; [done|].
  unfold matching_outputs in Er. apply bind_Good in Er as (all & ->%all_outputs_Good & [= <-]).
  rewrite merge_sort_Permutation in Hin. apply list_elem_of_filter in Hin as [_ Hin]. by apply elem_of_map_to_list.
Qed.

(** ** From the balance to the pool *)

Section Accepted.
Context `{KeyExchangeLaws, !CryptoLaws, !Prover, !ProverLaws, !BuildTypes, !WalletKeys, !WalletLaws} (w : wallet).

Lemma sign_inputs_rings dr net asset_id carrier inputs : forall k proofs,
  sign_inputs dr net asset_id carrier inputs k = Good proofs ->
  Forall2 (fun i proof => o_ring proof = ti_ring i /\ o_asset_id proof = asset_id) inputs proofs.
Proof.
  induction inputs as [|i inputs IH]; intros k proofs E; cbn [sign_inputs] in E; [injection E as <-; constructor|].
  apply bind_Good in E as (m & _ & E). apply bind_Good in E as (g & _ & E). apply bind_Good in E as (rest & Er & [= <-]).
  constructor; [done|by eapply IH].
Qed.

Lemma proofs_checked dr net asset_id carrier inputs db proofs pseudo :
  sign_inputs dr net asset_id carrier inputs 0 = Good proofs -> Forall2 (owns net carrier) pseudo proofs ->
  o_key_image <$> proofs = (key_image_of ∘ ti_spend_secret <$> inputs) ->
  Forall (fun i => check_ring db asset_id (ti_ring i) = Good () /\
    has_asset_key_image (key_image_of (ti_spend_secret i)) db = false) inputs ->
  verify_ownerships db proofs net carrier = Good ().
Proof.
  intros Hsign%sign_inputs_rings Howns Himg Hins. apply ownerships_checked.
  apply Forall_lookup. intros j proof Hj. destruct (Forall2_lookup_r _ _ _ _ _ Hsign Hj) as (i & Hi & Er & Ea).
  rewrite Forall_lookup in Hins. destruct (Hins j i Hi) as [Hring Hki]. rewrite Er, Ea.
  assert (o_key_image proof = key_image_of (ti_spend_secret i)) as ->.
  { apply (f_equal (lookup j)) in Himg. rewrite !list_lookup_fmap, Hj, Hi in Himg. by injection Himg. }
  split_and!; [done|done|]. destruct (Forall2_lookup_r _ _ _ _ _ Howns Hj) as (? & _ & []). done.
Qed.

(** The outputs of an accepted payload with one group get their ids. *)
Lemma new_outputs_derived db net p b rs known :
  w_balances p = [b] -> w_output_recipients p = [rs] -> length rs = length (b_outputs b) -> b_asset_id b <> null_hash ->
  public_network net = true -> w_carrier_prefix_hash p <> null_hash ->
  verify_asset_transaction_payload p known net (w_carrier_prefix_hash p) = Good () -> outputs_unused db net p = true ->
  exists outputs ids, payload_outputs (w_balances p) (w_output_recipients p) = Good outputs /\
    candidate_output_ids db net (w_carrier_prefix_hash p) 0 outputs = Good ids.
Proof.
  intros Hb Hrs Hl Ha Hnet Hc Hacc Hfresh. pose proof Hacc as Hrec. unfold verify_asset_transaction_payload in Hrec.
  good_inv Hrec. rewrite Hrs in *. cbn [forallb] in *. rewrite andb_true_r in *.
  match goal with E : forallb recipient_valid _ = true |- _ => rename E into Hval end.
  apply payload_Good in Hacc as HO. apply ownership_Good in HO as [(iss & _ & _ & Hgrp & _)%transaction_Good _].
  rewrite Hb in Hgrp. apply Forall_singleton in Hgrp as [[_ _ _ _ Hpts _ _ _] _].
  apply Forall_app in Hpts as [_ [Hpts _]%Forall_app].
  destruct (group_outputs_paired (b_asset_id b) (b_outputs b) rs) as (group & Eg & Hg); [done|].
  assert (Forall (fun o => o.1.1 <> null_hash /\ isInMainSubgroup (c_destination o.2) = true /\
    isInMainSubgroup o.1.2 = true) group) as Hok.
  { eapply Forall_impl; [exact Hg|]. intros o (-> & H1' & H2'). apply forallb_Forall in Hval. rewrite Forall_forall in Hval.
    rewrite Forall_forall in Hpts. split_and!; [done| |by apply Hpts]. specialize (Hval _ H2').
    unfold recipient_valid in Hval. by apply andb_true_iff in Hval as [[[? _]%andb_true_iff _]%andb_true_iff _]. }
  assert (payload_outputs (w_balances p) (w_output_recipients p) = Good group) as Eout.
  { rewrite Hb, Hrs. cbn [payload_outputs]. rewrite Eg. cbn. by rewrite app_nil_r. }
  unfold outputs_unused in Hfresh. rewrite Eout in Hfresh.
  destruct (output_ids_derived db net _ group Hnet Hc Hok 0 Hfresh) as [ids Eids].
  exists group, ids. by rewrite <- Hrs.
Qed.

(** A transfer that is ready and whose rings and key images are those of the
    database passes the checks of the node. *)
Lemma ready_accepted dr net asset_id inputs destinations burn carrier db reg :
  transfer_ready dr net asset_id inputs destinations burn carrier ->
  load_registry_from_db db net = Good reg -> asset_id ∈ known_assets reg ->
  Forall (fun i => check_ring db asset_id (ti_ring i) = Good () /\
    has_asset_key_image (key_image_of (ti_spend_secret i)) db = false) inputs ->
  (forall p, create_asset_transfer_transaction_payload dr net asset_id inputs destinations burn carrier = Good p ->
    outputs_unused db net p = true) ->
  exists p, create_asset_transfer_transaction_payload dr net asset_id inputs destinations burn carrier = Good p /\
    verify_asset_transaction_against_db db p net carrier = Good () /\
    w_network p = net /\ w_carrier_prefix_hash p = carrier /\ w_issuance p = None /\
    o_key_image <$> w_ownership_proofs p = (key_image_of ∘ ti_spend_secret <$> inputs).
Proof.
  intros Hready Hload Hknown Hins Hfresh.
  destruct (transfer_has_parts _ _ _ _ _ _ _ Hready) as (made & rp & proofs & Hparts).
  pose proof (transfer_created _ _ _ _ _ _ _ _ _ _ Hready Hparts) as Hcreated. specialize (Hfresh _ Hcreated).
  eexists. split; [exact Hcreated|]. destruct Hparts as [_ _ _ Hsign Hacc].
  pose proof Hready as [Hdr Hnet Ha Hc _ Hsp _ _ _ _ _ _ _ _ Hsg]. specialize (Hacc _ Hknown).
  match type of Hacc with verify_asset_transaction_payload ?p _ _ _ = _ =>
    destruct (new_outputs_derived db net p (transfer_group dr asset_id inputs burn made.*2 rp) made.*1 (known_assets reg))
      as (group & ids & Eout & Eids); try done end; [cbn; by rewrite !length_fmap|].
  destruct (sign_inputs_ok dr net asset_id carrier inputs Hdr Hnet Ha Hc Hsp 0 Hsg) as (proofs' & Hs' & Howns & _ & Himg & _).
  assert (proofs' = proofs) as -> by congruence. split_and!; try done.
  apply verify_Good. exists reg, group, ids. split_and!; try done.
  cbn [w_ownership_proofs]. by eapply proofs_checked.
Qed.

Lemma filter_sublist_weaken {A} (P Q : A -> Prop) `{!forall x, Decision (P x), !forall x, Decision (Q x)} l :
  (forall x, P x -> Q x) -> filter P l `sublist_of` filter Q l.
Proof.
  intros HPQ. induction l as [|x l IH]; [done|]. rewrite !filter_cons. case_decide as HP.
  - rewrite decide_True by auto. by apply sublist_skip.
  - case_decide; [by apply sublist_cons|done].
Qed.

(** The outputs that may be spent have different key images. *)
Lemma candidates_once nettype ledger db ts asset_id account indices : m_spend_secret_key w <> null_skey ->
  linkable ledger -> in_step w nettype ledger db ts -> NoDup (t_key_image <$> spend_candidates asset_id account indices ts).
Proof.
  intros Hspend Hl [[_ _ Hk Ho Hp _ _] _ _ _]. eapply sublist_NoDup; [by apply (images_once w ledger)|].
  apply fmap_sublist, filter_sublist_weaken. intros td He. unfold eligible in He. rewrite !andb_true_iff in He. tauto.
Qed.

(** Rings of stored outputs have the types of the code. *)
Lemma rings_typed db asset_id inputs : (forall id o, asset_outputs db !! id = Some o -> output_sound id o) ->
  Forall (spendable asset_id) inputs ->
  Forall (fun i => forall m, m ∈ ti_ring i -> exists r, m = member_of r /\ asset_outputs db !! r.1 = Some r.2 /\
    out_asset_id r.2 = asset_id) inputs -> Forall input_typed inputs.
Proof.
  intros Hs Hsp Hr. rewrite Forall_forall in Hsp, Hr |- *. intros i Hi. destruct (Hsp i Hi) as [Hl _ _ _ [Hx _] _ _].
  split_and!; [done| |done]. apply Forall_forall. intros m (r & -> & Ho & _)%(Hr i Hi).
  apply Hs in Ho as [Hid Ha [Hd _] [Hc _]]. by split_and!.
Qed.

(** The transfer of a wallet in step with a node. *)
Lemma in_step_transfer nettype ledger db reg ts version asset_id recipient is_sub transfer burn account indices change
  random_indices rand_idx :
  in_step w nettype ledger db ts -> linkable ledger -> m_spend_secret_key w <> null_skey ->
  load_registry_from_db db (asset_network nettype) = Good reg -> public_network (asset_network nettype) = true ->
  full_wallet w -> HF_VERSION_MONZERO_ASSETS <= version -> array 32 asset_id -> asset_id <> null_hash ->
  0 <= transfer -> 0 <= burn -> 0 < transfer + burn < 2 ^ 64 -> enough asset_id account indices ts (transfer + burn) ->
  16 <= Z.of_nat (length (outputs_of asset_id db)) < 2 ^ 64 -> asset_outputs db !! null_hash = None ->
  draws_indices random_indices -> (forall n, draws_below (rand_idx n).1 /\ draws_below (rand_idx n).2) ->
  exists selected inputs destinations,
    plan_asset_transfer w ts asset_id recipient is_sub transfer burn account indices false (Good true) change
      (rpc_client db version) random_indices rand_idx = Good (selected, inputs, destinations) /\
    forall dr carrier, draws_ok dr -> array 32 carrier -> carrier <> null_hash ->
      (forall j t, pad_destinations destinations (output_count burn) !! j = Some t -> payable (draw_secret dr) j t) ->
      NoDup (commitments (pseudo_openings dr inputs 0)) ->
      (forall k i, inputs !! k = Some i -> signable dr (asset_network nettype) asset_id carrier k i) ->
      (forall p, create_asset_transfer_transaction_payload dr (asset_network nettype) asset_id inputs destinations burn
        carrier = Good p -> outputs_unused db (asset_network nettype) p = true) ->
      exists p, create_asset_transfer_transaction_payload dr (asset_network nettype) asset_id inputs destinations burn
          carrier = Good p /\
        envelope_wf p /\ (exists encoded, encode_asset_transaction_payload p = Good encoded) /\
        verify_asset_transaction_against_db db p (asset_network nettype) carrier = Good () /\
        w_network p = asset_network nettype /\ w_carrier_prefix_hash p = carrier /\ w_issuance p = None /\
        o_key_image <$> w_ownership_proofs p = t_key_image <$> selected.*1 /\
        NoDup (t_key_image <$> selected.*1) /\ selected.*1 ⊆+ spend_candidates asset_id account indices ts.
Proof.
  intros Hst Hl Hspend Hload Hpub Hfull Hv Ha Hnz Ht Hb Hreq Hen Hout Hnull Hidx Hrand.
  destruct (plan_exists w Hst version asset_id recipient is_sub transfer burn account indices change random_indices rand_idx)
    as (selected & inputs & destinations & Eplan & Hrings); try done.
  exists selected, inputs, destinations. split; [done|]. intros dr carrier Hdr Hca Hc Hpay Hps Hsg Hfresh.
  destruct (plan_ready w ts asset_id recipient is_sub transfer burn account indices false (Good true) change (rpc_client db version)
    random_indices rand_idx selected inputs destinations dr (asset_network nettype) carrier)
    as (Hready & _ & Himg & Hsel); try done.
  - destruct Hst as [[_ Fv _ _ _ _ _] _ _ _]. eapply Forall_impl; [exact Fv|]. intros td [? ?]. split; [lia|done].
  - by eapply candidates_once.
  - intros req res e Hres (r & -> & Hr)%(answered_from_db _ _ _ _ _ Hres). cbn [output_entry_of e_output_id].
    destruct (is_sound _ _ _ _ _ Hst _ _ Hr) as [Hid _ _ _]. rewrite (hex_round_trip 32 _ Hid). intros [= E]. congruence.
  - rewrite <- Himg. destruct (ready_accepted dr (asset_network nettype) asset_id inputs destinations burn carrier db reg)
      as (p & Ep & ? & ? & ? & ? & ?); [done..| | |done|].
    3: { exists p. assert (Forall input_typed inputs) as Hty by (apply (rings_typed db asset_id); [apply (is_sound _ _ _ _ _ Hst)|apply Hready|done]).
      destruct (transfer_encodes dr (asset_network nettype) asset_id inputs destinations burn carrier p) as [? ?]; try done.
      - intros ->. destruct (ready_destinations _ _ _ _ _ _ _ Hready). cbn in *. lia.
      - split_and!; try done. by destruct Hready. }
    + rewrite (load_registry_dom _ _ _ Hload). destruct Hst as [_ Hr Hval _]. rewrite (rep_records _ _ Hr), elem_of_list_to_set.
      destruct (outputs_of asset_id db) as [|[id o] l] eqn:Eo; [cbn in Hout; lia|].
      assert ((id, o) ∈ outputs_of asset_id db) as [Hoa Hin]%list_elem_of_filter by (rewrite Eo; left).
      apply elem_of_map_to_list in Hin. destruct (rep_outputs _ _ Hr id o Hin) as (q & Hq & Hcr).
      cbn in Hoa. rewrite Hoa in Hcr. by eapply created_issued.
    + apply Forall_lookup. intros j i Hj. rewrite Forall_lookup in Hrings.
      split; [apply ring_checked; by apply (Hrings j)|].
      apply (f_equal (lookup j)) in Himg. rewrite !list_lookup_fmap, Hj in Himg. cbn [fmap option_fmap option_map compose] in Himg.
      destruct (selected !! j) as [sj|] eqn:Ej; [|done]. cbn [fmap option_fmap option_map] in Himg. injection Himg as ->.
      apply list_elem_of_lookup_2, (list_elem_of_fmap_2 fst) in Ej. apply (elem_of_submseteq _ _ _ Ej) in Hsel.
      by apply (candidate_facts w Hst) in Hsel as (_ & _ & _ & _ & _ & ?).
Qed.

End Accepted.
