(* ===== verification/AssetSendProps.v ===== *)
(** What a wallet sends arrives: a wallet that has scanned the chain of a node and
    whose outputs are enough makes a native transaction that carries the transfer
    and that the pool of the node takes. *)

From stdpp Require Import gmap sorting.
From S2P Require Import Prelude Bytes AssetTypes AssetCodec AssetRegistry AssetRegistryProps AssetConfidential AssetOwnership AssetWire AssetWireCodec AssetBalance AssetDb AssetDbTables AssetDbLoad AssetDbLedger AssetPool AssetExtra AssetExtraProps NativeExtra NativeExtraProps AssetRpc AssetRecipient AssetBuild AssetBuildProps AssetBuildWire AssetWallet AssetWalletProps AssetSelect AssetSend AssetSync AssetSyncProps AssetSpend.

Section Sent.
Context `{KeyExchangeLaws, !CryptoLaws, !Prover, !ProverLaws, !BuildTypes, !WalletKeys, !WalletLaws} (w : wallet).
Context {rest : Type} (prefix_hash : transaction_prefix rest -> bytes).
Context (create_transactions_2 : (transaction_prefix rest -> outcome (transaction_prefix rest)) -> native_result rest).

(** The native part of the wallet makes one transaction of [tx] by completing and
    checking it. *)
Definition completes (tx : transaction_prefix rest) : Prop := forall finalizer tx',
  finalize_and_check_prefix finalizer tx = Good tx' -> create_transactions_2 finalizer = Transactions [tx'].

Lemma parsed_checked finalizer tx tx' version net p : finalizer tx = Good tx' ->
  parse_native_asset_transaction prefix_hash tx' version net = Good (Some p) ->
  finalize_and_check_prefix finalizer tx = Good tx'.
Proof.
  unfold parse_native_asset_transaction, finalize_and_check_prefix. intros -> E. rewrite bind_of_Good.
  apply bind_Good in E as ([data|] & _ & E); [|done]. apply bind_Good in E as ([] & _ & E).
  apply bind_Good in E as (n & -> & E). apply bind_Good in E as ([] & Hn%require_Good & _).
  by rewrite bind_of_Good, Hn.
Qed.

Lemma clean_kinds fields e : clean fields e ->
  Forall (fun f => is_asset f = false /\ forall size, f <> tx_extra_padding size) fields.
Proof. intros [_ Hp _]. eapply Forall_impl; [exact Hp|]. intros f [? ?]. by destruct f. Qed.

(** What the drawn randomness has to give: keys for the recipients, different
    pseudo inputs, signatures that are not refused, and outputs whose ids, which
    are hashes, are not the ids of stored outputs. *)
Record sendable (dr : draws) (net : Z) (asset_id : bytes) (burn : Z) (db : asset_db) (carrier : bytes)
  (inputs : list asset_transfer_input) (destinations : list asset_transfer_destination) : Prop := {
  send_payable : forall j t, pad_destinations destinations (output_count burn) !! j = Some t -> payable (draw_secret dr) j t;
  send_pseudo : NoDup (commitments (pseudo_openings dr inputs 0));
  send_signable : forall k i, inputs !! k = Some i -> signable dr net asset_id carrier k i;
  send_unused : forall p,
    create_asset_transfer_transaction_payload dr net asset_id inputs destinations burn carrier = Good p ->
    outputs_unused db net p = true;
}.

(** A pool whose envelopes can be read and spend none of the wallet's outputs. *)
Definition no_rival (ts : transfers) (t : pooled_tx) : Prop :=
  exists payload, pooled_payload t = Some payload /\
    forall q td, payload = Some q -> td ∈ ts -> t_key_image td ∉ o_key_image <$> w_ownership_proofs q.

Lemma once_filtered {A} (f : A -> bytes) l k : NoDup (f <$> l) -> k ∈ f <$> l ->
  length (filter (fun x => f x = k) l) = 1%nat.
Proof.
  induction l as [|x l IH]; intros Hnd Hk; [by apply not_elem_of_nil in Hk|]. cbn [fmap list_fmap] in Hnd, Hk.
  apply NoDup_cons in Hnd as [Hx Hnd]. rewrite filter_cons. case_decide as E.
  - cbn. f_equal. rewrite length_zero_iff_nil. apply elem_of_nil_inv. intros y [E' Hy]%list_elem_of_filter. apply Hx.
    rewrite E, <- E'. by apply list_elem_of_fmap_2.
  - apply IH; [done|]. apply elem_of_cons in Hk as [->|?]; done.
Qed.

Lemma transfer_checked selected tx p :
  parse_native_asset_transaction prefix_hash tx HF_VERSION_MONZERO_ASSETS (m_nettype w) = Good (Some p) ->
  o_key_image <$> w_ownership_proofs p = t_key_image <$> selected.*1 -> NoDup (t_key_image <$> selected.*1) ->
  check_transfer prefix_hash w selected tx = Good tx.
Proof.
  intros Hp Hi Hnd. unfold check_transfer. rewrite Hp. cbn [expect]. rewrite bind_of_Good.
  apply (f_equal length) in Hi as Hl. rewrite !length_fmap in Hl.
  rewrite (require_true (length (w_ownership_proofs p) =? _)%nat), bind_of_Good by (by apply Nat.eqb_eq).
  rewrite require_true; [done|]. apply forallb_Forall, Forall_forall. intros s Hs.
  apply Nat.eqb_eq, (once_filtered o_key_image); rewrite Hi; [done|].
  by apply (list_elem_of_fmap_2 t_key_image), list_elem_of_fmap_2.
Qed.

Lemma no_conflict ts pool id images : Forall (no_rival ts) pool ->
  (forall k, k ∈ images -> exists td, td ∈ ts /\ k = t_key_image td) ->
  existsb (pool_conflict id None (list_to_set images)) pool = false.
Proof.
  induction 1 as [|t pool (payload & Et & Ht) _ IH]; intros Hi; [done|]. cbn [existsb]. rewrite IH by done.
  rewrite orb_false_r. unfold pool_conflict. case_if; [done|]. rewrite Et. destruct payload as [q|]; [|done].
  cbn [orb]. apply not_true_iff_false. intros (proof & Hp & E%bool_decide_eq_true)%existsb_exists.
  apply elem_of_list_to_set, Hi in E as (td & Htd & E). apply (Ht q td eq_refl Htd). rewrite <- E.
  by apply list_elem_of_fmap_2, list_elem_of_In.
Qed.

(** The transfer in its native transaction. *)
Lemma transfer_finalized dr asset_id inputs destinations burn tx fields p :
  clean fields (t_extra tx) -> (length (t_extra tx) <= MAX_TX_EXTRA_SIZE)%nat ->
  create_asset_transfer_transaction_payload dr (m_nettype w) asset_id inputs destinations burn (prefix_hash tx) = Good p ->
  envelope_wf p -> (exists encoded, encode_asset_transaction_payload p = Good encoded) ->
  w_network p = m_nettype w -> w_carrier_prefix_hash p = prefix_hash tx ->
  exists tx', transfer_finalizer prefix_hash dr w asset_id inputs destinations burn tx = Good tx' /\
    forall version, HF_VERSION_MONZERO_ASSETS <= version ->
      parse_native_asset_transaction prefix_hash tx' version (m_nettype w) = Good (Some p).
Proof.
  intros Hcl Hsz Hp Hpw [encoded He] Hn Hc. pose proof (clean_kinds _ _ Hcl) as Hno. pose proof (clean_fields_wf _ _ Hcl) as Hwf.
  pose proof (clean_written _ _ Hcl) as Hw. pose proof Hno as [Ha _]%Forall_and.
  destruct (envelope_attached prefix_hash tx fields p encoded HF_VERSION_MONZERO_ASSETS (m_nettype w))
    as (extra & Ee & _); try done.
  exists (Prefix (t_rest tx) extra). split.
  - unfold transfer_finalizer. by rewrite (carrier_of_written _ _ fields), bind_of_Good, Hp, bind_of_Good, He, bind_of_Good, Ee.
  - intros version Hv. destruct (envelope_attached prefix_hash tx fields p encoded version (m_nettype w))
      as (extra' & Ee' & ?); try done. rewrite Ee in Ee'. by injection Ee' as ->.
Qed.

(** C3: What a wallet can pay, it pays. The node is in any state it can reach in
    which its registry loads, on a chain as in [wallet_follows_node]; the wallet
    is a full one that scanned this chain, and some sixteen of its outputs of the
    asset are enough; the node has sixteen outputs of the asset at least, and none
    with the null id; the drawn values are as [sendable] says, and the native part
    of the wallet completes the transaction. Then the wallet gets a transaction
    for the transfer, with ring members from the server of that node. Any node
    reads the envelope in it, and the node accepts it into its pool, if every
    envelope in the pool can be read and none spends an output of the wallet. *)
Theorem transfer_reaches_pool nettype chain db blocks settings ts reg asset_id recipient is_sub transfer burn account
  indices change version random_indices rand_idx dr view_key_pub encrypt n txkey_pub additional e r :
  (* The wallet has scanned the node's chain. *)
  run nettype chain db ->
  Forall2 (fun b payloads => node_payloads prefix_hash nettype b = Good payloads) blocks chain ->
  m_nettype w = asset_network nettype -> m_spend_secret_key w <> null_skey -> full_wallet w ->
  (forall k b, blocks !! k = Some b -> should_skip_block settings b (Z.of_nat k) = false) ->
  s_refresh_type settings = RefreshNoCoinbase \/ Forall (fun b => carries_no_asset (nb_miner_tx b).2) blocks ->
  Forall envelope_wf (chain_ledger chain) -> NoDup (chain_ledger chain ≫= dests) -> linkable (chain_ledger chain) ->
  refresh prefix_hash w settings 0 blocks [] = Good ts ->
  (* The node has assets, and enough outputs of this one for a ring. *)
  load_registry_from_db db (asset_network nettype) = Good reg -> public_network (asset_network nettype) = true ->
  HF_VERSION_MONZERO_ASSETS <= version -> 16 <= Z.of_nat (length (outputs_of asset_id db)) < 2 ^ 64 ->
  asset_outputs db !! null_hash = None ->
  (* The request can be paid. *)
  array 32 asset_id -> asset_id <> null_hash -> 0 <= transfer -> 0 <= burn -> 0 < transfer + burn < 2 ^ 64 ->
  enough asset_id account indices ts (transfer + burn) ->
  (* The randomness and the native transaction. *)
  draws_indices random_indices -> (forall n, draws_below (rand_idx n).1 /\ draws_below (rand_idx n).2) -> draws_ok dr ->
  keys_ok txkey_pub additional -> (length (default [] additional) <= 16)%nat ->
  construct_extra view_key_pub encrypt [] n txkey_pub additional = Some e -> completes (Prefix r e) ->
  array 32 (prefix_hash (Prefix r e)) -> prefix_hash (Prefix r e) <> null_hash ->
  (forall selected inputs destinations,
    plan_asset_transfer w ts asset_id recipient is_sub transfer burn account indices false (Good true) change
      (rpc_client db version) random_indices rand_idx = Good (selected, inputs, destinations) ->
    sendable dr (m_nettype w) asset_id burn db (prefix_hash (Prefix r e)) inputs destinations) ->
  exists tx' p, create_asset_transfer_transaction prefix_hash create_transactions_2 w ts asset_id recipient is_sub transfer
      burn account indices false (Good true) change (rpc_client db version) random_indices rand_idx dr = Good tx' /\
    (forall version, HF_VERSION_MONZERO_ASSETS <= version ->
      parse_native_asset_transaction prefix_hash tx' version (m_nettype w) = Good (Some p)) /\
    forall pool id, Forall (no_rival ts) pool -> pool_accepts nettype db pool id p = Good ().
Proof.
  intros Hrun Hblocks Hnet Hspend Hfull Hskip Hminer Hwf Hnd Hlk Hts Hload Hpub Hv Hout Hnull Ha Hnz Ht Hb Hreq Hen
    Hidx Hrand Hdr Hk Hadd Hextra Hnat Hca Hc Hsend. apply run_replay in Hrun.
  destruct (construct_empty view_key_pub encrypt n txkey_pub additional Hk Hadd) as (e' & fields & Ee & Hcl & Hsz).
  rewrite Hextra in Ee. injection Ee as <-. set (tx := Prefix r e) in *.
  destruct (refresh_in_step w prefix_hash nettype Hspend Hnet settings blocks chain Hblocks [] empty_db db [])
    as (ts' & Es & Hst); try done; [by apply in_step_nil|].
  change (db_height empty_db) with 0 in Es. rewrite Hts in Es. injection Es as <-.
  destruct (in_step_transfer w nettype _ db reg ts version asset_id recipient is_sub transfer burn account indices change
    random_indices rand_idx Hst) as (selected & inputs & destinations & Eplan & Hacc); try done.
  destruct (Hsend _ _ _ Eplan) as [Hpay Hps Hsg Hun]. rewrite Hnet in Hsg, Hun.
  destruct (Hacc dr (prefix_hash tx)) as (p & Ep & Hpw & Henc & Hver & Hpn & Hpc & Hpi & Himg & Honce & Hsel); try done.
  rewrite <- Hnet in Ep, Hpn.
  destruct (transfer_finalized dr asset_id inputs destinations burn tx fields p) as (tx' & Etx & Hparse); try done.
  exists tx', p. split_and!; [|done|].
  - unfold create_asset_transfer_transaction. rewrite Eplan, bind_of_Good.
    rewrite (Hnat _ _ (parsed_checked _ _ _ _ _ _ Etx (Hparse HF_VERSION_MONZERO_ASSETS ltac:(done)))).
    apply (transfer_checked selected tx' p); [by apply Hparse|done..].
  - intros pool id Hpool. unfold pool_accepts. rewrite Hpc, Hver, bind_of_Good, Hpi, bind_of_Good.
    rewrite require_true; [done|]. rewrite Himg, (no_conflict ts); [done..|].
    intros k (td & -> & Htd)%list_elem_of_fmap. exists td. split; [|done].
    apply (elem_of_submseteq _ _ _ Htd), list_elem_of_filter in Hsel. tauto.
Qed.

(** ** Issuance *)

Lemma issuance_network fresh k1 k2 d issuance id : create_asset_issuance w fresh k1 k2 d = Good (issuance, id) ->
  d_network (p_descriptor issuance) = m_nettype w.
Proof.
  unfold create_asset_issuance. intros E. do 4 (apply bind_Good in E as ([] & _ & E)).
  apply bind_Good in E as ([] & <-%require_Good%Z.eqb_eq & E). unfold create_issuance_payload in E.
  apply bind_Good in E as (pub & _ & E). cbv zeta in E. apply bind_Good in E as ([] & _ & E).
  apply bind_Good in E as (id' & _ & E). apply bind_Good in E as ([] & _ & E). apply bind_Good in E as (m & _ & E).
  apply bind_Good in E as (cs & _ & E). apply bind_Good in E as (e & _ & [= <- _]). cbn [p_descriptor]. by case_bool_decide.
Qed.

(** What the wallet authorised has the types of the code and can be written. *)
Lemma issuance_typed fresh k1 k2 d issuance id : create_asset_issuance w fresh k1 k2 d = Good (issuance, id) ->
  descriptor_wf d -> array 32 fresh ->
  payload_wf issuance /\ (exists e, encode_issuance_payload issuance = Good e) /\
  derive_asset_id (p_descriptor issuance) = Good id.
Proof.
  unfold create_asset_issuance. intros E [Hik Hno Hsu Hde Hmh Hci Hre] Hf. do 5 (apply bind_Good in E as ([] & _ & E)).
  unfold create_issuance_payload in E. apply bind_Good in E as (pub & Hpub%expect_Good & E). cbv zeta in E.
  apply bind_Good in E as ([] & _ & E). apply bind_Good in E as (id' & Hid & E). apply bind_Good in E as ([] & _ & E).
  apply bind_Good in E as (m & _ & E). apply bind_Good in E as (cs & Hcs & E). apply bind_Good in E as (e & He & [= <- <-]).
  split_and!; [|by exists e|done]. split; cbn [p_descriptor p_issuer_signature p_collection_signature].
  - apply public_key_array in Hpub. clear -Hpub Hik Hno Hsu Hde Hmh Hci Hre Hf. case_bool_decide; by split.
  - apply signature_array.
  - clear Hid He. case_bool_decide; [by injection Hcs as <-|]. apply bind_Good in Hcs as (c & _ & Hcs).
    apply bind_Good in Hcs as (mm & _ & [= <-]). apply signature_array.
Qed.

(** The issuance in its native transaction. *)
Lemma issuance_finalized dr issuance recipient is_sub tx fields p :
  clean fields (t_extra tx) -> (length (t_extra tx) <= MAX_TX_EXTRA_SIZE)%nat ->
  create_issuance_transaction_payload dr issuance recipient is_sub (prefix_hash tx) = Good p ->
  envelope_wf p -> (exists encoded, encode_asset_transaction_payload p = Good encoded) ->
  w_network p = d_network (p_descriptor issuance) -> w_carrier_prefix_hash p = prefix_hash tx ->
  exists tx', issuance_finalizer prefix_hash dr issuance recipient is_sub tx = Good tx' /\
    forall version, HF_VERSION_MONZERO_ASSETS <= version ->
      parse_native_asset_transaction prefix_hash tx' version (d_network (p_descriptor issuance)) = Good (Some p).
Proof.
  intros Hcl Hsz Hp Hpw [encoded He] Hn Hc. pose proof (clean_kinds _ _ Hcl) as Hno. pose proof (clean_fields_wf _ _ Hcl) as Hwf.
  pose proof (clean_written _ _ Hcl) as Hw. pose proof Hno as [Ha _]%Forall_and.
  assert (forall version, HF_VERSION_MONZERO_ASSETS <= version -> exists extra,
    add_monzero_asset_tx_extra (t_extra tx) encoded = Good extra /\ parse_native_asset_transaction prefix_hash
      (Prefix (t_rest tx) extra) version (d_network (p_descriptor issuance)) = Good (Some p)) as Hadd.
  { intros version Hv. by apply (envelope_attached prefix_hash tx fields). }
  destruct (Hadd HF_VERSION_MONZERO_ASSETS ltac:(done)) as (extra & Ee & Ep).
  exists (Prefix (t_rest tx) extra). split.
  - unfold issuance_finalizer, attach_issuance_to_native_transaction, get_monzero_asset_tx_extra.
    rewrite (parse_written _ _ Hwf Hw). cbn [expect]. rewrite bind_of_Good, find_envelope_none, bind_of_Good by done.
    cbn [require negb]. rewrite bool_decide_eq_false_2 by (by intros [? ?]). cbn [negb require]. rewrite bind_of_Good.
    rewrite (carrier_of_written _ _ fields), bind_of_Good, Hp, bind_of_Good, He, bind_of_Good, Ee, bind_of_Good by done.
    cbv zeta. cbn [fst snd]. rewrite Ep. done.
  - intros version Hv. destruct (Hadd version Hv) as (extra' & Ee' & ?). rewrite Ee in Ee'. by injection Ee' as ->.
Qed.

(** A pool whose envelopes can be read and that issues no such asset. *)
Definition no_claim (id : bytes) (t : pooled_tx) : Prop :=
  exists payload, pooled_payload t = Some payload /\
    forall q i, payload = Some q -> w_issuance q = Some i ->
      exists id', derive_asset_id (p_descriptor i) = Good id' /\ id' <> id.

Lemma no_claim_conflict id pool txid : Forall (no_claim id) pool ->
  existsb (pool_conflict txid (Some id) (list_to_set [])) pool = false.
Proof.
  induction 1 as [|t pool (payload & Et & Ht) _ IH]; [done|]. cbn [existsb]. rewrite IH, orb_false_r.
  unfold pool_conflict. case_if; [done|]. rewrite Et. destruct payload as [q|]; [|done].
  replace (existsb _ (w_ownership_proofs q)) with false
    by (clear; induction (w_ownership_proofs q) as [|proof proofs IH]; [done|]; cbn [existsb]; rewrite <- IH;
        rewrite bool_decide_eq_false_2; [done|]; set_solver).
  rewrite orb_false_r. destruct (w_issuance q) as [i|] eqn:Ei; [|done].
  destruct (Ht q i eq_refl Ei) as (id' & -> & Hne). by apply bool_decide_eq_false_2.
Qed.


End Sent.
