(* ===== verification/AssetSpendRuns.v ===== *)
(** A wallet and its node at work: an issuance is mined and scanned, the node
    answers for the ring, and the transfer that is built enters its pool; and
    what the wallet makes of an envelope in a miner transaction and of a
    background cache. *)

From stdpp Require Import gmap sorting.
From S2P Require Import Prelude Bytes AssetTypes AssetExamples AssetCodec AssetConfidential AssetOwnership AssetWire AssetWireCodec AssetBalance AssetDb AssetDbTables AssetDbLoad AssetDbLedger AssetDbLive AssetExtra AssetExtraProps NativeExtra NativeExtraProps AssetRpc AssetRpcProps AssetRecipient AssetBuild AssetBuildProps AssetBuildWire AssetWallet AssetWalletProps AssetSelect AssetWalletRuns AssetSend AssetSync AssetReorg AssetSyncProps AssetSpend AssetSendProps.

#[local] Existing Instance scalar_ringct.

(** A key image is the key itself: it has to be a key of the ring. *)
Lemma toy_linkable ledger : Forall (fun p => Forall (fun proof =>
    o_key_image proof ∈ (fun m => ct_dest (m_public_output m)) <$> o_ring proof) (w_ownership_proofs p)) ledger ->
  linkable ledger.
Proof.
  intros Hl. split; [|done]. intros p proof Hp Hproof. rewrite Forall_forall in Hl. specialize (Hl p Hp).
  rewrite Forall_forall in Hl. apply Hl, list_elem_of_fmap in Hproof as (m & Ei & Hm).
  exists m, (o_key_image proof). by split_and!.
Qed.

(** ** The chain *)

Definition minted : asset_transaction_payload := Eval vm_compute in
  value native_envelope (create_issuance_transaction_payload sample_draws coin sample_main false
    (toy_prefix_hash native_tx)).
Definition minted_bytes : bytes := Eval vm_compute in value [] (encode_asset_transaction_payload minted).
Definition mint_block : native_block unit := Eval vm_compute in
  NativeBlock 1000 17 (fill 30, carrier_tx) [(fill 21, attached native_tx minted)].
Definition minted_db : asset_db := Eval vm_compute in value empty_db (node_block toy_prefix_hash MAINNET mint_block empty_db).
Definition sample_settings : sync_settings := Settings 0 0 0 RefreshOptimizeCoinbase 1 1.
Definition minted_transfers : transfers := Eval vm_compute in
  value [] (refresh toy_prefix_hash sample_wallet sample_settings 0 [mint_block] []).

Lemma minted_run : run MAINNET [[Some minted]] minted_db.
Proof. apply (run_add _ [] _ empty_db); [constructor|]. vm_compute. reflexivity. Qed.

Lemma decoded_wf e p : arrayb (length e) e = true -> decode_asset_transaction_payload e = Good p -> envelope_wf p.
Proof. intros Ha E. by apply encode_decode_envelope in E as [? _]; [|apply (array_bytes (length e)), arrayb_array]. Qed.

Lemma minted_wf : Forall envelope_wf (chain_ledger [[Some minted]]).
Proof. apply Forall_singleton, (decoded_wf minted_bytes); vm_compute; reflexivity. Qed.

Lemma mint_block_read :
  Forall2 (fun b payloads => node_payloads toy_prefix_hash MAINNET b = Good payloads) [mint_block] [[Some minted]].
Proof. apply Forall2_cons. split; [vm_compute; reflexivity|constructor]. Qed.

Lemma mint_block_scanned k b : [mint_block] !! k = Some b -> should_skip_block sample_settings b (Z.of_nat k) = false.
Proof. intros E%list_elem_of_lookup_2%list_elem_of_singleton. subst b. unfold should_skip_block, mint_block, sample_settings.
  cbn [s_createtime s_refresh_from_block_height s_skip_to_height nb_timestamp].
  change (0 <? (1000 + 60 * 60 * 24) mod 2 ^ 64) with true. lia.
Qed.

Lemma mint_block_miner : Forall (fun b => carries_no_asset (nb_miner_tx b).2) [mint_block].
Proof. apply Forall_singleton. intros data. vm_compute. discriminate. Qed.

(** ** The server *)

Lemma assets_paged_witness : exists records : list _,
  on_get_assets minted_db 17 0 10 = Answer (AssetsResponse true (Z.of_nat (length records))
    (page 0 10 (asset_entry_of <$> records)) CORE_RPC_STATUS_OK) /\
  forall id height p, stored (asset_records minted_db) id height p <-> exists e, (Stored id height e, p) ∈ records.
Proof.
  destruct (assets_paged MAINNET [[Some minted]] minted_db 17 minted_run) as (records & _ & _ & Hin & Hpage & _).
  - done.
  - eapply Forall_impl; [exact minted_wf|]. intros p. apply wf_env_issuance.
  - vm_compute. reflexivity.
  - exists records. split; [by apply Hpage|done].
Defined.

(** The request of the wallet for its own output and two others. *)
Definition ring_of_three : get_asset_outputs_request :=
  ring_request (id_of coin) [0; 3] ((fun td => (td, [])) <$> minted_transfers).

Lemma minted_ids_sound : ids_sound minted_db.
Proof.
  intros id [o E]. apply elem_of_map_to_list, (list_elem_of_fmap_2 fst) in E.
  assert (Forall (fun i : bytes => length i = 32%nat) (map_to_list (asset_outputs minted_db)).*1) as Hall
    by (apply (bool_decide_unpack _); vm_compute; exact I).
  rewrite Forall_forall in Hall. by apply (Hall id).
Qed.

Lemma outputs_answered_witness : exists records : list stored_output,
  forall id o, (id, o) ∈ records <->
    asset_outputs minted_db !! id = Some o /\ of_asset (filter_of ring_of_three) (id, o).
Proof.
  destruct (outputs_answered minted_db 17 ring_of_three minted_ids_sound) as (records & _ & _ & Hin & _).
  - right. apply (bool_decide_unpack _). vm_compute. exact I.
  - by exists records.
Defined.

(** ** A transfer *)

Definition first_sixteen (total : Z) : list Z := Z.of_nat <$> seq 0 16.

Definition second_draws : draws :=
  Draws (fun k => scalar (200 + Z.of_nat k)) (fun k => scalar (-7 - Z.of_nat k))
    (fun k => scalar (3000 + Z.of_nat k)) [] (fun _ => []).

(** A native part that always makes one transaction, to two destinations. *)
Definition sent_tx : transaction_prefix unit := Eval vm_compute in
  Prefix () (default [] (construct_extra (fill 5) Some [] 2 (fill 10) None)).
Definition sample_native (finalizer : transaction_prefix unit -> outcome (transaction_prefix unit)) : native_result unit :=
  match finalize_and_check_prefix finalizer sent_tx with
  | Good tx => Transactions [tx]
  | Bad attach_error => Raised "transaction was not constructed" attach_error
  | _ => Raised "transaction was not constructed" EmptyString
  end.

Definition spend_plan :
  list (asset_transfer_details * bytes) * list asset_transfer_input * list asset_transfer_destination := Eval vm_compute in
  value ([], [], []) (plan_asset_transfer sample_wallet minted_transfers (id_of coin) sample_sub true 10 4 0 ∅ false
    (Good true) sample_main (rpc_client minted_db 17) first_sixteen no_shuffle).
Definition spend_payload : asset_transaction_payload := Eval vm_compute in
  value native_envelope (create_asset_transfer_transaction_payload second_draws MAINNET (id_of coin)
    spend_plan.1.2 spend_plan.2 4 (toy_prefix_hash sent_tx)).
Definition spend_bytes : bytes := Eval vm_compute in value [] (encode_asset_transaction_payload spend_payload).

Lemma second_draws_ok : draws_ok second_draws.
Proof. split; intros k; (split; [apply scalar_array|apply scalar_reduced]). Qed.

Lemma sample_completes : completes sample_native sent_tx.
Proof. intros finalizer tx E. unfold sample_native. by rewrite E. Qed.

Lemma first_sixteen_drawn : draws_indices first_sixteen.
Proof.
  intros total Ht. split_and!; [apply (bool_decide_unpack _); vm_compute; exact I|done|].
  apply Forall_fmap, Forall_forall. intros k Hk%elem_of_seq. cbn. lia.
Qed.

Lemma spend_sendable : sendable second_draws MAINNET (id_of coin) 4 minted_db (toy_prefix_hash sent_tx)
  spend_plan.1.2 spend_plan.2.
Proof.
  split.
  - apply payable_all. vm_compute. reflexivity.
  - apply (bool_decide_unpack _). vm_compute. exact I.
  - apply signable_all. vm_compute. reflexivity.
  - assert (create_asset_transfer_transaction_payload second_draws MAINNET (id_of coin) spend_plan.1.2 spend_plan.2 4
      (toy_prefix_hash sent_tx) = Good spend_payload) as E by (vm_compute; reflexivity).
    intros p Ep. rewrite E in Ep. apply (inj Good) in Ep as <-. vm_compute. reflexivity.
Qed.

Lemma minted_enough : enough (id_of coin) 0 ∅ minted_transfers (10 + 4).
Proof.
  split; [vm_compute; reflexivity|]. exists (spend_candidates (id_of coin) 0 ∅ minted_transfers).
  split_and!; [done|vm_compute; lia|vm_compute; discriminate].
Qed.

Lemma transfer_reaches_pool_witness : exists tx p,
  create_asset_transfer_transaction toy_prefix_hash sample_native sample_wallet minted_transfers (id_of coin) sample_sub
    true 10 4 0 ∅ false (Good true) sample_main (rpc_client minted_db 17) first_sixteen no_shuffle second_draws = Good tx /\
  (forall version, HF_VERSION_MONZERO_ASSETS <= version ->
    parse_native_asset_transaction toy_prefix_hash tx version (m_nettype sample_wallet) = Good (Some p)) /\
  forall pool id, Forall (no_rival minted_transfers) pool -> pool_accepts MAINNET minted_db pool id p = Good ().
Proof.
  apply (transfer_reaches_pool sample_wallet toy_prefix_hash sample_native MAINNET [[Some minted]] minted_db [mint_block]
    sample_settings minted_transfers (value ∅ (load_registry_from_db minted_db MAINNET)) (id_of coin) sample_sub true 10 4
    0 ∅ sample_main 17 first_sixteen no_shuffle second_draws (fill 5) Some 2 (fill 10) None (t_extra sent_tx) ()).
  - apply minted_run.
  - apply mint_block_read.
  - done.
  - vm_compute. discriminate.
  - done.
  - apply mint_block_scanned.
  - right. apply mint_block_miner.
  - apply minted_wf.
  - apply (bool_decide_unpack _). vm_compute. exact I.
  - by apply toy_linkable, Forall_singleton.
  - vm_compute. reflexivity.
  - vm_compute. reflexivity.
  - done.
  - done.
  - vm_compute. split; [discriminate|reflexivity].
  - vm_compute. reflexivity.
  - apply arrayb_array. vm_compute. reflexivity.
  - vm_compute. discriminate.
  - done.
  - done.
  - done.
  - apply minted_enough.
  - apply first_sixteen_drawn.
  - intros n. split; intros k Hk; cbn; lia.
  - apply second_draws_ok.
  - done.
  - cbn; lia.
  - vm_compute. reflexivity.
  - apply sample_completes.
  - apply arrayb_array. vm_compute. reflexivity.
  - vm_compute. discriminate.
  - assert (plan_asset_transfer sample_wallet minted_transfers (id_of coin) sample_sub true 10 4 0 ∅ false (Good true)
      sample_main (rpc_client minted_db 17) first_sixteen no_shuffle = Good spend_plan) as E by (vm_compute; reflexivity).
    intros selected inputs destinations Ep. rewrite E in Ep. apply (inj Good) in Ep.
    pose proof spend_sendable as Hs. by rewrite Ep in Hs.
Defined.

(** ** The transfer is mined *)

Definition spend_block : native_block unit := Eval vm_compute in
  NativeBlock 1000 17 (fill 30, carrier_tx) [(fill 22, attached sent_tx spend_payload)].
Definition spent_db : asset_db := Eval vm_compute in value empty_db (node_block toy_prefix_hash MAINNET spend_block minted_db).

Lemma spent_run : run MAINNET [[Some minted]; [Some spend_payload]] spent_db.
Proof. apply (run_add _ [[Some minted]] _ minted_db); [apply minted_run|]. vm_compute. reflexivity. Qed.

Lemma wallet_follows_node_witness :
  exists ts, refresh toy_prefix_hash sample_wallet sample_settings 0 [mint_block; spend_block] [] = Good ts /\
    Forall (authentic spent_db) ts /\ has_all sample_wallet spent_db ts /\ NoDup (t_destination <$> ts) /\
    Forall (fun td => t_key_image_known td = true ->
      (t_spent td = true <-> is_Some (asset_key_images spent_db !! t_key_image td))) ts.
Proof.
  apply (wallet_follows_node sample_wallet toy_prefix_hash MAINNET [[Some minted]; [Some spend_payload]]).
  - apply spent_run.
  - repeat (apply Forall2_cons; split; [vm_compute; reflexivity|]). constructor.
  - done.
  - vm_compute. discriminate.
  - intros [|[|k]] b [= <-]; done.
  - right. repeat (apply Forall_cons; split; [intros data; vm_compute; discriminate|]). constructor.
  - apply Forall_cons. split; [apply (decoded_wf minted_bytes); vm_compute; reflexivity|].
    apply Forall_singleton, (decoded_wf spend_bytes); vm_compute; reflexivity.
  - apply (bool_decide_unpack _). vm_compute. exact I.
  - apply toy_linkable, (bool_decide_unpack _). vm_compute. exact I.
Defined.

(** ** A reorganisation *)

Definition quiet_block : native_block unit := NativeBlock 1000 17 (fill 30, carrier_tx) [].
Definition kept_blocks : list (bytes * native_block unit) := [(fill 40, quiet_block); (fill 41, mint_block)].
Definition old_transfers : transfers := Eval vm_compute in
  value [] (refresh toy_prefix_hash sample_wallet sample_settings 0 [quiet_block; mint_block; spend_block] []).

(** The block with the transfer is replaced by one without it. *)
Lemma reorganisation_followed_witness : t_spent <$> old_transfers = [true; false; false] /\
  process_parsed_blocks toy_prefix_hash sample_wallet sample_settings 100 1 [(fill 41, mint_block); (fill 43, quiet_block)]
    (Hashchain 0 [fill 40; fill 41; fill 42]) old_transfers
  = (ts ← refresh toy_prefix_hash sample_wallet sample_settings 0 [quiet_block; mint_block; quiet_block] [];
     Good (Hashchain 0 [fill 40; fill 41; fill 43], ts)).
Proof.
  split; [vm_compute; reflexivity|].
  apply (reorganisation_followed toy_prefix_hash sample_wallet sample_settings kept_blocks [(fill 42, spend_block)]
    [(fill 43, quiet_block)] 100 1 (Hashchain 0 [fill 40; fill 41; fill 42]) old_transfers).
  - vm_compute. reflexivity.
  - done.
  - cbn. lia.
  - intros _. split; [done|]. vm_compute. discriminate.
  - apply (bool_decide_unpack _). vm_compute. exact I.
Defined.

(** ** An issuance *)

(** A second coin, issued by the wallet. *)
Definition second_coin : issuance_payload * bytes := Eval vm_compute in
  value (coin, []) (create_asset_issuance sample_wallet (fill 1) (fill 2) (fill 3) (p_descriptor coin)).
Definition second_payload : asset_transaction_payload := Eval vm_compute in
  value native_envelope (create_issuance_transaction_payload second_draws second_coin.1 sample_sub true
    (toy_prefix_hash sent_tx)).

(** ** What nobody checked *)

(** The first output of [paying_envelope] alone: its commitments do not balance. *)
Definition forged : asset_transaction_payload :=
  Envelope ASSET_TRANSACTION_WIRE_VERSION MAINNET (toy_prefix_hash native_tx) None
    ((fun b => Balance (b_asset_id b) (b_pseudo_inputs b) (take 1 (b_outputs b)) (b_burns b) (b_range_proofs b))
      <$> w_balances paying_envelope)
    [[paid_recipient]] (w_ownership_proofs paying_envelope).
Definition forged_block : native_block unit := NativeBlock 1000 17 (fill 31, attached native_tx forged) [].

Lemma miner_envelope_credited_witness :
  is_good (verify_asset_transaction_payload forged {[ gold ]} MAINNET (toy_prefix_hash native_tx)) = false /\
  node_block toy_prefix_hash MAINNET forged_block empty_db = Good (set_height 1 empty_db) /\
  exists td, process_new_blockchain_entry toy_prefix_hash sample_wallet sample_settings 0 forged_block []
      = Good (foldl (fun ts proof => mark_spent (o_key_image proof) 0 ts) [] (w_ownership_proofs forged) ++ [td]) /\
    t_asset_id td = gold /\ t_amount td = dec_amount paid_opening /\ t_spent td = false.
Proof.
  split; [vm_compute; reflexivity|].
  apply (miner_envelope_credited toy_prefix_hash sample_wallet MAINNET sample_settings forged_block forged gold paid_output
    paid_recipient paid_opening (0, 1) (output_id_in (toy_prefix_hash native_tx)) empty_db []).
  - done.
  - done.
  - vm_compute. reflexivity.
  - done.
  - done.
  - vm_compute. reflexivity.
  - vm_compute. reflexivity.
  - done.
  - vm_compute. reflexivity.
  - constructor.
Defined.

(** The block of the issuance, seen by a wallet in the background. *)
Definition mint_cache : background_sync_data unit :=
  BackgroundData true 0 [BackgroundTx 0 (fill 21) (attached native_tx minted) 0] 0 1 1 RefreshOptimizeCoinbase.

Lemma background_sync_forgets_witness : minted_transfers <> [] /\
  process_background_cache toy_prefix_hash sample_wallet sample_settings mint_cache 0 1 minted_transfers
    = Good (detach_asset_transfers 0 minted_transfers) /\
  Forall (fun td => t_block_height td < 0 /\ (t_spent td = true -> t_spent_height td < 0))
    (detach_asset_transfers 0 minted_transfers).
Proof.
  split; [vm_compute; discriminate|].
  apply (background_sync_forgets toy_prefix_hash sample_wallet sample_settings mint_cache 0 1 minted_transfers);
    first [done|vm_compute; reflexivity].
Defined.
