(* ===== verification/JsExact.v ===== *)
(** Integers below 2^53 are binary64 numbers: reading their digits is exact. *)

From Stdlib Require Import SpecFloat.
From S2P Require Import Prelude JsNumber JsValue JsText.

Lemma digits2_size p : digits2_pos p = Pos.size p.
Proof. induction p as [p IH|p IH|]; cbn; by rewrite ?IH. Qed.

Lemma Zdigits2_bound n k : 0 <= k -> 2 ^ k <= n < 2 ^ (k + 1) -> Zdigits2 n = k + 1.
Proof.
  intros Hk Hn. assert (0 < 2 ^ k) by lia. destruct n as [|p|]; [lia| |lia]. cbn. rewrite digits2_size.
  pose proof (Pos.size_gt p) as H1. pose proof (Pos.size_le p) as H2.
  apply Pos2Z.pos_lt_pos in H1. rewrite Pos2Z.inj_pow in H1. apply Pos2Z.pos_le_pos in H2.
  rewrite Pos2Z.inj_pow in H2. change (Zpos p~0) with (2 * Zpos p) in H2.
  assert (k < Z.pos (Pos.size p)) by (apply (Z.pow_lt_mono_r_iff 2); lia).
  assert (Z.pos (Pos.size p) < k + 2); [|lia]. apply (Z.pow_lt_mono_r_iff 2); [lia..|].
  replace (k + 2) with (k + 1 + 1) by lia. rewrite (Z.pow_add_r 2 (k + 1) 1) by lia. lia.
Qed.

Lemma round_exact neg k p : 0 <= k <= 52 -> 2 ^ 52 <= Zpos p < 2 ^ 53 ->
  binary_round_aux 53 1024 neg (Zpos p~0) (k - 53) loc_Exact = S754_finite neg p (k - 52).
Proof.
  intros Hk Hp. unfold binary_round_aux, shr_fexp. rewrite (Zdigits2_bound (Zpos p~0) 53) by lia.
  replace (fexp 53 1024 (53 + 1 + (k - 53)) - (k - 53)) with 1 by (unfold fexp, emin; lia).
  cbn [shr_record_of_loc shr].
  change (SpecFloat.iter_pos shr_1 1 _) with (Build_shr_record (Zpos p) false false).
  cbn [loc_of_shr_record round_nearest_even shr_m].
  rewrite (Zdigits2_bound (Zpos p) 52) by lia.
  replace (fexp 53 1024 (52 + 1 + (k - 53 + 1)) - (k - 53 + 1)) with 0 by (unfold fexp, emin; lia).
  cbn [shr_record_of_loc shr shr_m]. rewrite (proj2 (Z.leb_le _ _)) by lia. f_equal. lia.
Qed.

Lemma ratio_exact neg n : 0 < n < 2 ^ 53 ->
  num_of_ratio neg n 1 = S754_finite neg (Z.to_pos (n * 2 ^ (52 - Z.log2 n))) (Z.log2 n - 52).
Proof.
  intros Hn. pose proof (Z.log2_spec n) as Hl. pose proof (Z.log2_nonneg n) as Hz.
  assert (Z.log2 n < 53) by (apply Z.log2_lt_pow2; lia). set (k := Z.log2 n) in *.
  unfold num_of_ratio, SFdiv_core_binary. rewrite (proj2 (Z.eqb_neq _ _)) by lia.
  rewrite (Zdigits2_bound n k), (Zdigits2_bound 1 0) by lia.
  replace (0 - 0 - Z.min _ _) with (53 - k) by (unfold fexp, emin; lia).
  replace (Z.min _ _) with (k - 53) by (unfold fexp, emin; lia).
  destruct (53 - k) as [|s|] eqn:E; [lia| |lia]. rewrite <- E, Z.shiftl_mul_pow2 by lia.
  pose proof (Z.div_1_r (n * 2 ^ (53 - k))) as Hd. pose proof (Z.mod_1_r (n * 2 ^ (53 - k))) as Hr.
  unfold Z.div, Z.modulo in Hd, Hr. destruct (Z.div_eucl _ _) as [q r]. subst q r. cbn [new_location].
  replace (53 - k) with (52 - k + 1) by lia. rewrite Z.pow_add_r, Z.mul_assoc by lia.
  assert (2 ^ 52 <= n * 2 ^ (52 - k) < 2 ^ 53) as Hm.
  { replace 52 with (k + (52 - k)) at 1 by lia. replace 53 with (k + 1 + (52 - k)) by lia.
    rewrite !(Z.pow_add_r 2 _ (52 - k)) by lia. split; [apply Z.mul_le_mono_nonneg_r|apply Z.mul_lt_mono_pos_r]; lia. }
  destruct (n * 2 ^ (52 - k)) as [|p|]; [lia| |lia]. change (Zpos p * 2 ^ 1) with (Zpos (p * 2)).
  replace (Zpos (p * 2)) with (Zpos p~0) by lia. apply round_exact; lia.
Qed.

Lemma ratio_to_Z n : 0 <= n < 2 ^ 53 -> num_to_Z (num_of_ratio false n 1) = Some n.
Proof.
  intros Hn. destruct (Z.eq_dec n 0) as [->|]; [done|]. rewrite ratio_exact by lia.
  pose proof (Z.log2_nonneg n). assert (Z.log2 n < 53) by (apply Z.log2_lt_pow2; lia).
  assert (0 < n * 2 ^ (52 - Z.log2 n)) as Hm by (apply Z.mul_pos_pos; lia).
  unfold num_to_Z, abs_ratio. destruct (Z.log2 n - 52) as [|e|e] eqn:E; [|lia|].
  - replace (52 - Z.log2 n) with 0 by lia. rewrite Z2Pos.id by lia. rewrite !Z.mul_1_r.
    by rewrite Z.mod_1_r, Z.div_1_r.
  - rewrite Z2Pos.id, Pos2Z.inj_pow by lia. replace (52 - Z.log2 n) with (Zpos e) by lia.
    by rewrite Z.mod_mul, Z.div_mul by lia.
Qed.

(** ** Whole numbers *)

Lemma iter_double z d : Zpos (Pos.iter xO z d) = Zpos z * 2 ^ Zpos d.
Proof.
  induction d as [|d IH] using Pos.peano_ind; [cbn; lia|]. rewrite Pos.iter_succ, Pos2Z.inj_xO, IH.
  rewrite Pos2Z.inj_succ, Z.pow_succ_r by lia. lia.
Qed.

Lemma normalize_exact neg z m k : 0 <= k <= 52 -> 2 ^ 52 <= Zpos m < 2 ^ 53 -> Zpos z * 2 ^ k = Zpos m ->
  binary_round 53 1024 neg z 0 = S754_finite neg m (- k).
Proof.
  intros Hk Hm E. unfold binary_round.
  assert (2 ^ (52 - k) <= Zpos z < 2 ^ (52 - k + 1)) as Hz.
  { assert (2 ^ (52 - k) * 2 ^ k = 2 ^ 52) as H1 by (rewrite <- Z.pow_add_r by lia; f_equal; lia).
    assert (2 ^ (52 - k + 1) * 2 ^ k = 2 ^ 53) as H2 by (rewrite <- Z.pow_add_r by lia; f_equal; lia). nia. }
  pose proof (Zdigits2_bound (Zpos z) (52 - k) ltac:(lia) Hz) as Hd. cbn [Zdigits2] in Hd. rewrite Hd.
  replace (fexp 53 1024 (52 - k + 1 + 0)) with (- k) by (unfold fexp, emin; lia).
  assert (shl_align z 0 (- k) = (m, - k)) as ->.
  { unfold shl_align. rewrite Z.sub_0_r. destruct k as [|k|]; [|cbn [Z.opp]|lia].
    - cbn [Z.opp]. f_equal. lia.
    - f_equal. apply (inj Zpos). by rewrite iter_double. }
  unfold binary_round_aux, shr_fexp. rewrite (Zdigits2_bound (Zpos m) 52) by lia.
  replace (fexp 53 1024 (52 + 1 + - k) - - k) with 0 by (unfold fexp, emin; lia).
  cbn [shr_record_of_loc shr loc_of_shr_record round_nearest_even shr_m].
  rewrite (Zdigits2_bound (Zpos m) 52) by lia.
  replace (fexp 53 1024 (52 + 1 + - k) - - k) with 0 by (unfold fexp, emin; lia).
  cbn [shr_record_of_loc shr shr_m]. by rewrite (proj2 (Z.leb_le _ _)) by lia.
Qed.

(** The exponent of a whole number below 2^53. *)
Lemma whole_exponent m e n d : bounded 53 1024 m e = true -> abs_ratio (S754_finite false m e) = (n, d) ->
  n mod Zpos d = 0 -> n / Zpos d < 2 ^ 53 ->
  exists k, 0 <= k <= 52 /\ e = - k /\ 2 ^ 52 <= Zpos m < 2 ^ 53 /\ n / Zpos d * 2 ^ k = Zpos m.
Proof.
  unfold bounded, canonical_mantissa, fexp, emin. intros Hv Ea Hn Hb. apply andb_true_iff in Hv as [Hc%Z.eqb_eq _].
  pose proof (Z.log2_spec (Zpos m) ltac:(lia)) as Hl. pose proof (Z.log2_nonneg (Zpos m)) as Hl0.
  pose proof (Zdigits2_bound (Zpos m) (Z.log2 (Zpos m)) Hl0 ltac:(lia)) as Hd. cbn [Zdigits2] in Hd. rewrite Hd in Hc. clear Hd.
  assert (Z.log2 (Zpos m) = 52 -> 2 ^ 52 <= Zpos m < 2 ^ 53) as Hm by (intros E; by rewrite E in Hl).
  destruct e as [|e|e]; cbn [abs_ratio] in Ea; injection Ea as <- <-.
  - exists 0. rewrite Z.div_1_r in *. specialize (Hm ltac:(lia)). lia.
  - specialize (Hm ltac:(lia)). rewrite Z.div_1_r in Hb. assert (2 ^ 1 <= 2 ^ Zpos e) by (apply Z.pow_le_mono_r; lia). nia.
  - rewrite Pos2Z.inj_pow in *. apply Z.div_exact in Hn; [|lia]. rewrite Z.mul_comm in Hn.
    assert (Zpos e <= Z.log2 (Zpos m)) as He.
    { apply Z.log2_le_pow2; [lia|]. assert (0 < 2 ^ Zpos e) by lia. assert (0 < Zpos m / 2 ^ Zpos e) by nia. nia. }
    exists (Zpos e). specialize (Hm ltac:(lia)). split_and!; lia || done.
Qed.

(** A binary64 number that is a whole number below 2^53, but for the negative
    zero, is the number of that integer. *)
Lemma whole_exact x z : valid_binary 53 1024 x = true -> x <> S754_zero true -> num_to_Z x = Some z ->
  Z.abs z < 2 ^ 53 -> num_of_Z z = x.
Proof.
  intros Hv Hnz Hz Hb. destruct x as [[]|[]| |neg m e]; try done; [by injection Hz as <-|]. unfold num_to_Z in Hz.
  destruct (abs_ratio (S754_finite neg m e)) as [n d] eqn:Ea. case_if_in Hz; [|done]. apply Z.eqb_eq in Heqb.
  assert (0 <= n) as Hn by (destruct e; cbn in Ea; injection Ea as <- _; lia).
  pose proof (Z.div_pos n (Zpos d) Hn ltac:(lia)) as Hq.
  destruct (whole_exponent m e n d) as (k & Hk & -> & Hm & E); [done|done|done|destruct neg; injection Hz as <-; lia|].
  destruct (n / Zpos d) as [|p|]; [lia| |lia]. injection Hz as <-.
  destruct neg; cbn [Z.opp]; unfold num_of_Z, binary_normalize; by apply normalize_exact.
Qed.

Lemma digit_string s : re_digits s = true ->
  exists d ds, s = 48 + d :: digit_str ds /\ Forall digit_ok (d :: ds).
Proof.
  unfold re_digits. intros [Hs Hd]%andb_true_iff. apply Is_true_true_2, forallb_True in Hd.
  assert (exists ds, s = digit_str ds /\ Forall digit_ok ds) as ([|d ds] & -> & H); [|done|by exists d, ds].
  clear Hs. induction Hd as [|c s Hc _ (ds & -> & IH)]; [by exists []|].
  exists (c - 48 :: ds). csimpl. split; [f_equal; lia|]. constructor; [|done].
  apply Is_true_true in Hc. unfold is_digit in Hc. unfold digit_ok. lia.
Qed.

Lemma digit_not_ws d : digit_ok d -> is_ws (48 + d) = false.
Proof. unfold digit_ok, is_ws. lia. Qed.

Lemma trim_digits ds : Forall digit_ok ds -> trim (digit_str ds) = digit_str ds.
Proof.
  assert (forall l, Forall digit_ok l -> drop_while is_ws (digit_str l) = digit_str l) as H.
  { intros l [|d l' Hd _]; [done|]. cbn. by rewrite digit_not_ws. }
  intros Hd. unfold trim. rewrite H by done. rewrite <- fmap_reverse, H by (by apply Forall_reverse).
  by rewrite <- fmap_reverse, reverse_involutive.
Qed.

Lemma digits_numeric d ds : Forall digit_ok (d :: ds) ->
  string_numeric (digit_str (d :: ds)) = XDec false (digits_value (d :: ds)) 0.
Proof.
  intros H. assert (0 <= d < 10) as Hd by (by inversion H).
  unfold string_numeric. rewrite trim_digits by done.
  assert (radix_prefix (digit_str (d :: ds)) = None) as E.
  { cbn. destruct ds as [|e ds]; [done|]. cbn. assert (0 <= e < 10) by (by inversion H as [|? ? ? H']; inversion H').
    destruct (negb _); [done|].
    repeat match goal with |- context [?a =? ?b] => rewrite (proj2 (Z.eqb_neq a b)) by lia end. done. }
  assert (sign_prefix (digit_str (d :: ds)) = (false, digit_str (d :: ds))) as E'.
  { cbn [sign_prefix fmap list_fmap]. by rewrite (proj2 (Z.eqb_neq _ 45)), (proj2 (Z.eqb_neq _ 43)) by lia. }
  destruct (digit_str (d :: ds)) as [|c s] eqn:Es; [done|]. rewrite E, E', <- Es. unfold unsigned_decimal, str_eqb.
  case_bool_decide as Hi; [exfalso; apply (f_equal head) in Hi; cbn in Hi; injection Hi; lia|].
  rewrite <- (app_nil_r (_ <$> _)), span_digits_all by done. cbn [fraction_part app exponent_part].
  by rewrite app_nil_r.
Qed.

(** [Number(v)] of a string of digits. *)
Lemma digits_number v : re_digits v = true -> digits_value (span_digits v).1 < 2 ^ 53 ->
  num_to_Z (string_to_number v) = Some (digits_value (span_digits v).1).
Proof.
  intros (d & ds & -> & H)%digit_string.
  change (48 + d :: digit_str ds) with (digit_str (d :: ds)).
  rewrite <- (app_nil_r (_ <$> _)), span_digits_all, app_nil_r by done. cbn [fst]. intros Hn.
  unfold string_to_number. rewrite digits_numeric by done. pose proof (digits_value_nonneg _ H) as Hz.
  set (n := digits_value (d :: ds)) in *. cbn [exact_num]. destruct (Z.eqb_spec n 0) as [->|]; [done|].
  pose proof (length_digits 16 n) as Hl. rewrite !(proj2 (Z.ltb_ge _ _)) by lia. cbn [Z.leb Z.compare].
  rewrite Z.pow_0_r, Z.mul_1_r. apply ratio_to_Z. lia.
Qed.
