(* ===== verification/Php.v ===== *)
(** PHP 8 as the proxies of the web site use it: values, casts and comparisons,
    the texts of numbers, [json_encode] and [json_decode] seen from the pages,
    and scripts that ask the node and answer a request. *)

From Stdlib Require Import SpecFloat.
From S2P Require Import Prelude JsNumber JsValue.

(** ** Values

    A string that [json_decode] returns is valid UTF-8; it is modelled by its
    code points.  Arrays are ordered, with integers and other strings as keys. *)

Abbreviation text := (list Z).

Inductive key := KInt (z : Z) | KStr (s : text).

#[global] Instance key_eq_dec : EqDecision key.
Proof. solve_decision. Defined.

#[warnings="-register-all"]
Inductive php :=
| PNull
| PBool (b : bool)
| PInt (z : Z)
| PFloat (x : num)
| PStr (s : text)
| PArr (l : list (key * php)).

Abbreviation arr := (list (key * php)).

Fixpoint find_key (k : key) (l : arr) : option php :=
  match l with
  | [] => None
  | (k', v) :: l => if bool_decide (k' = k) then Some v else find_key k l
  end.

(** [$v['k']] under [??], [isset] or [empty], for a key that is not a number;
    only arrays have such members. *)
Definition at_key (v : php) (k : text) : php :=
  match v with PArr l => default PNull (find_key (KStr k) l) | _ => PNull end.

(** [a ?? b] *)
Definition coalesce (a b : php) : php := match a with PNull => b | _ => a end.

(** [$l['k'] = $v] *)
Fixpoint set_key (k : key) (v : php) (l : arr) : arr :=
  match l with
  | [] => [(k, v)]
  | (k', w) :: l => if bool_decide (k' = k) then (k', v) :: l else (k', w) :: set_key k v l
  end.

(** [$a + $b] *)
Definition array_union (a b : arr) : arr := a ++ filter (fun m => find_key m.1 a = None) b.

(** [array_reverse]: integer keys are renumbered. *)
Fixpoint renumber (n : Z) (l : arr) : arr :=
  match l with
  | [] => []
  | (KInt _, v) :: l => (KInt n, v) :: renumber (n + 1) l
  | m :: l => m :: renumber n l
  end.
Definition array_reverse (l : arr) : arr := renumber 0 (reverse l).

(** An array literal without keys. *)
Definition php_list (l : list php) : arr := imap (fun i v => (KInt (Z.of_nat i), v)) l.

(** An array literal with string keys. *)
Definition fields (l : list (text * php)) : arr := (fun m => (KStr m.1, m.2)) <$> l.

(** ** Integers *)

Definition PHP_INT_MIN : Z := - 2 ^ 63.
Definition PHP_INT_MAX : Z := 2 ^ 63 - 1.
Definition is_int64 (z : Z) : bool := (PHP_INT_MIN <=? z) && (z <=? PHP_INT_MAX).
Definition wrap64 (z : Z) : Z := (z + 2 ^ 63) mod 2 ^ 64 - 2 ^ 63.
Definition clamp64 (z : Z) : Z := Z.max PHP_INT_MIN (Z.min PHP_INT_MAX z).

(** The integer part of a finite number. *)
Definition trunc (x : num) : Z :=
  let '(n, d) := abs_ratio x in if is_neg x then - (n / Zpos d) else n / Zpos d.

(** [$a + $b] and [$a - $b] on integers: a float if the result does not fit. *)
Definition int_add (a b : Z) : php :=
  if is_int64 (a + b) then PInt (a + b) else PFloat (nadd (num_of_Z a) (num_of_Z b)).
Definition int_sub (a b : Z) : php :=
  if is_int64 (a - b) then PInt (a - b) else PFloat (nsub (num_of_Z a) (num_of_Z b)).

(** ** Numbers in strings *)

Definition php_ws (c : Z) : bool :=
  (c =? 32) || (c =? 9) || (c =? 10) || (c =? 13) || (c =? 11) || (c =? 12).

(** An exponent, if digits follow the [e]. *)
Definition scan_exponent (s : text) : option (Z * text) :=
  match s with
  | c :: s' =>
      if (c =? 101) || (c =? 69) then
        let '(neg, t) := sign_prefix s' in
        match span_digits t with
        | (d :: ds, r) =>
            Some (if neg : bool then - digits_value (d :: ds) else digits_value (d :: ds), r)
        | ([], _) => None
        end
      else None
  | [] => None
  end.

(** The number a string starts with, after white space: its exact value,
    whether it is written as a float, and the rest. *)
Definition scan_number (s : text) : option (exact * bool * text) :=
  let '(neg, t) := sign_prefix (drop_while php_ws s) in
  let '(ip, r) := span_digits t in
  let point := match r with c :: _ => c =? 46 | [] => false end in
  let '(fp, r) := fraction_part r in
  match ip ++ fp with
  | [] => None
  | ds =>
      let m := digits_value ds in
      let e := - Z.of_nat (length fp) in
      match scan_exponent r with
      | Some (e', r) => Some (XDec neg m (e + e'), true, r)
      | None => Some (XDec neg m e, point, r)
      end
  end.

(** [is_numeric] on a string. *)
Definition numeric_string (s : text) : bool :=
  match scan_number s with Some (_, _, r) => forallb php_ws r | None => false end.

(** A float in a string as an integer: the nearest one in range. *)
Definition float_cap (x : num) : Z :=
  match x with
  | S754_nan => 0
  | S754_infinity s => if s then PHP_INT_MIN else PHP_INT_MAX
  | _ => clamp64 (trunc x)
  end.

Definition string_to_int (s : text) : Z :=
  match scan_number s with
  | Some (x, true, _) => float_cap (exact_num x)
  | Some (XDec neg m _, false, _) => clamp64 (if neg : bool then - m else m)
  | _ => 0
  end.

(** ** Casts *)

(** [(int)]: floats out of range are taken modulo 2^64. *)
Definition to_int (v : php) : Z :=
  match v with
  | PNull => 0
  | PBool b => if b then 1 else 0
  | PInt z => z
  | PFloat x => if is_finite x then wrap64 (trunc x) else 0
  | PStr s => string_to_int s
  | PArr l => match l with [] => 0 | _ => 1 end
  end.

(** [(bool)] *)
Definition to_bool (v : php) : bool :=
  match v with
  | PNull => false
  | PBool b => b
  | PInt z => negb (z =? 0)
  | PFloat x => match x with S754_zero _ => false | _ => true end
  | PStr s => negb (bool_decide (s = []) || bool_decide (s = u "0"))
  | PArr l => match l with [] => false | _ => true end
  end.

(** The [k] significant digits nearest to [p / q], ties to even, for
    [10^(n-1) <= p / q < 10^n]: the digits [s] and the place [n] of the point. *)
Definition round_digits (k n p : Z) (q : positive) : Z * Z :=
  let '(p, q) := if 0 <=? n - k then (p, Zpos q * 10 ^ (n - k)) else (p * 10 ^ (k - n), Zpos q) in
  let s := p / q in
  let twice := 2 * (p mod q) in
  let s := if (q <? twice) || ((q =? twice) && Z.odd s) then s + 1 else s in
  if s =? 10 ^ k then (1, n + 1) else (s, n).

(** [(string)] of a float, with the default [precision] of 14 digits. *)
Definition float_to_string (x : num) : text :=
  match x with
  | S754_nan => u "NAN"
  | S754_infinity s => (if s then u "-" else []) ++ u "INF"
  | S754_zero s => (if s then u "-" else []) ++ u "0"
  | S754_finite s _ _ =>
      let '(p, q) := abs_ratio x in
      let n := exp10 6 ((Z.log2 p - Z.log2 (Zpos q)) * 30103 / 100000 + 2) p q in
      let '(sd, n) := round_digits 14 n p q in
      let ds := strip_zeros (dec_nonneg sd) in
      let k := Z.of_nat (length ds) in
      (if s then u "-" else []) ++
      (if (14 <? n) || (n <? -3) then
         take 1 ds ++ u "." ++ (if k =? 1 then u "0" else drop 1 ds) ++ u "E" ++
         (if n - 1 <? 0 then u "-" else u "+") ++ dec_nonneg (Z.abs (n - 1))
       else if n <=? 0 then u "0." ++ zeros (- n) ++ ds
       else if k <=? n then ds ++ zeros (n - k)
       else take (Z.to_nat n) ds ++ u "." ++ drop (Z.to_nat n) ds)
  end.

(** [(string)] *)
Definition to_text (v : php) : text :=
  match v with
  | PNull => []
  | PBool b => if b then u "1" else []
  | PInt z => dec z
  | PFloat x => float_to_string x
  | PStr s => s
  | PArr _ => u "Array"
  end.

(** [strtolower] *)
Definition lower (c : Z) : Z := if (65 <=? c) && (c <=? 90) then c + 32 else c.
Definition strtolower (s : text) : text := lower <$> s.

(** ** JSON *)

(** A text in UTF-16. *)
Definition code_units (c : Z) : jsstr :=
  if c <? 65536 then [c] else [55296 + (c - 65536) / 1024; 56320 + (c - 65536) mod 1024].
Definition units (s : text) : jsstr := s ≫= code_units.

(** The code points of a string, unless it has a surrogate on its own. *)
Fixpoint scalars (s : jsstr) : option text :=
  match s with
  | [] => Some []
  | c :: s' =>
      if is_lead c then
        match s' with
        | d :: s'' =>
            if is_trail d then cons (65536 + (c - 55296) * 1024 + (d - 56320)) <$> scalars s'' else None
        | [] => None
        end
      else if is_trail c then None
      else cons c <$> scalars s'
  end.

Definition key_text (k : key) : jsstr := match k with KInt z => dec z | KStr s => units s end.

(** Decimal integers in range are integer keys. *)
Definition text_key (s : text) : key :=
  let z := string_to_int s in if bool_decide (dec z = s) then KInt z else KStr s.

Fixpoint is_list_from (n : Z) (l : arr) : bool :=
  match l with
  | [] => true
  | (KInt z, _) :: l => (z =? n) && is_list_from (n + 1) l
  | (KStr _, _) :: _ => false
  end.

(** [json_encode] with the value a page reads from the text; infinities, NaN and
    arrays nested more than [depth] deep cannot be encoded. *)
Fixpoint encode (depth : nat) (v : php) {struct v} : option value :=
  match v with
  | PNull => Some VNull
  | PBool b => Some (VBool b)
  | PInt z => Some (VNum (num_of_Z z))
  | PFloat x => if is_finite x then Some (VNum x) else None
  | PStr s => Some (VStr (units s))
  | PArr [] => Some (VArr [])
  | PArr l =>
      match depth with
      | O => None
      | S depth =>
          ms ← mapM (fun m => x ← encode depth m.2; Some (key_text m.1, x)) l;
          Some (if is_list_from 0 l then VArr ms.*2
                else VObj (foldl (fun ms m => set_member ms m.1 m.2) [] ms))
      end
  end.

(** [json_decode] of the text [JSON.stringify] writes for a value: integers
    that fit are integers, members that are not data are left out. *)
Fixpoint decode (depth : nat) (v : value) {struct v} : option php :=
  match v with
  | VUndef | VNative _ | VNull => Some PNull
  | VBool b => Some (PBool b)
  | VNum x =>
      Some (match num_to_Z x with
            | Some z => if is_int64 z then PInt z else PFloat x
            | None => if is_finite x then PFloat x else PNull
            end)
  | VStr s => PStr <$> scalars s
  | VArr l =>
      match depth with
      | O => None
      | S depth => l ← mapM (decode depth) l; Some (PArr (php_list l))
      end
  | VObj ms =>
      match depth with
      | O => None
      | S depth =>
          l ← mapM (fun m => match m.2 with
                     | VUndef | VNative _ => Some None
                     | _ => k ← scalars m.1; x ← decode depth m.2; Some (Some (text_key k, x))
                     end) ms;
          Some (PArr (omap id l))
      end
  end.

Definition JSON_DEPTH : nat := 512.

(** [json_decode] of the text [json_encode] writes for a float, without
    [JSON_PRESERVE_ZERO_FRACTION] and with the default [serialize_precision] of
    -1: the shortest digits that read back.  A whole number below 10^17 is written
    without a point and an exponent, and read back as an integer; below 2^53 its
    digits are exact.  The text of the negative zero is read as a float. *)
Definition reread_float (x : num) : php :=
  match x, num_to_Z x with
  | S754_zero true, _ => PFloat x
  | _, Some z =>
      if Z.abs z <? 2 ^ 53 then PInt z
      else
        let '(p, q) := abs_ratio x in
        let n := exp10 6 ((Z.log2 p - Z.log2 (Zpos q)) * 30103 / 100000 + 2) p q in
        let '(sd, k, n) := shortest 20 1 n (SFabs x) p q in
        if (k <=? n) && (n <=? 17) then PInt (Z.sgn z * (sd * 10 ^ (n - k))) else PFloat x
  | _, None => PFloat x
  end.

(** [json_decode] of the text [json_encode] writes for a value that it can encode.
    The keys of arrays are read back as they were. *)
Fixpoint reread (v : php) : php :=
  match v with
  | PFloat x => reread_float x
  | PArr l => PArr ((fun m => (m.1, reread m.2)) <$> l)
  | _ => v
  end.

(** ** Scripts

    What a script does until it has answered: [Call] sends a request to the node
    and waits, [Exit] answers with a status and data, [Raise] throws. *)

Inductive sent := EmptyObject | Encoded (l : arr).

(** No answer, or a status with what [json_decode] makes of the body, if it is
    JSON. *)
Inductive node_reply := NoReply | Reply (status : Z) (body : option php).

Inductive script (A : Type) :=
| Done (a : A)
| Raise
| Exit (status : Z) (data : arr)
| Call (path : text) (body : sent) (k : node_reply -> script A).
Arguments Done {A} _.
Arguments Raise {A}.
Arguments Exit {A} _ _.
Arguments Call {A} _ _ _.

Fixpoint bind_script {A B} (f : A -> script B) (m : script A) : script B :=
  match m with
  | Done a => f a
  | Raise => Raise
  | Exit status data => Exit status data
  | Call path body k => Call path body (fun r => bind_script f (k r))
  end.

#[global] Instance script_bind : MBind script := @bind_script.

(** [try { m } catch (Throwable) { h }] *)
Fixpoint try_catch {A} (m h : script A) : script A :=
  match m with
  | Done a => Done a
  | Raise => h
  | Exit status data => Exit status data
  | Call path body k => Call path body (fun r => try_catch (k r) h)
  end.

(** An argument that has to be an array. *)
Definition need_array (v : php) : script arr := match v with PArr l => Done l | _ => Raise end.

(** A run of a script with the answers of the node: its requests, and its
    answer if it gives one. *)
Fixpoint serve {A} (m : script A) (replies : list node_reply) : list (text * sent) * option (Z * arr) :=
  match m with
  | Done _ | Raise => ([], None)
  | Exit status data => ([], Some (status, data))
  | Call path body k =>
      match replies with
      | [] => ([(path, body)], None)
      | r :: replies => let '(calls, a) := serve (k r) replies in ((path, body) :: calls, a)
      end
  end.

(** All requests of a script satisfy [P], its answers [Q] and its result [D],
    whatever the node replies; it throws only if [R], and calls at most [n]
    times, of which [D] has those that are left. *)
Fixpoint scripted {A} (P : text -> sent -> Prop) (Q : Z -> arr -> Prop) (R : Prop)
  (D : nat -> A -> Prop) (n : nat) (m : script A) {struct m} : Prop :=
  match m with
  | Done a => D n a
  | Raise => R
  | Exit status data => Q status data
  | Call path body k =>
      P path body /\ match n with O => False | S n => forall r, scripted P Q R D n (k r) end
  end.

(** The script always answers. *)
Definition answers {A} (P : text -> sent -> Prop) (Q : Z -> arr -> Prop) : nat -> script A -> Prop :=
  scripted P Q False (fun _ _ => False).

Lemma scripted_bind {A B} P Q R (D : nat -> A -> Prop) (E : nat -> B -> Prop) (f : A -> script B) m : forall n,
  scripted P Q R D n m -> (forall n a, D n a -> scripted P Q R E n (f a)) -> scripted P Q R E n (m ≫= f).
Proof.
  unfold mbind, script_bind.
  induction m as [a| |status data|path body k IH]; intros n Hm Hf; cbn in *; [by apply Hf|done|done|].
  destruct Hm as [Hp Hk]. split; [done|]. destruct n as [|n]; [done|]. intros r. apply IH; [apply Hk|done].
Qed.

Lemma scripted_catch {A} P Q R (D : nat -> A -> Prop) m h : forall n,
  scripted P Q True D n m -> (forall n, scripted P Q R D n h) -> scripted P Q R D n (try_catch m h).
Proof.
  induction m as [a| |status data|path body k IH]; intros n Hm Hh; cbn in *; [done|apply Hh|done|].
  destruct Hm as [Hp Hk]. split; [done|]. destruct n as [|n]; [done|]. intros r. by apply IH.
Qed.
