(* ===== verification/PhpExplorer.v ===== *)
(** The proxies of the explorers, [src/website/explorer/api.php] and its older
    copy [src/explorer/api.php], which differ in the test of a block height. *)

From S2P Require Import Prelude JsNumber JsValue Php.

Definition MAX_RANGE : Z := 25.

Definition hex_char (c : Z) : bool :=
  ((48 <=? c) && (c <=? 57)) || ((97 <=? c) && (c <=? 102)) || ((65 <=? c) && (c <=? 70)).

(** [preg_match('/^[0-9a-fA-F]{64}$/', $value)]; the dollar also matches before
    a line feed at the end. *)
Definition hash_pattern (s : text) : bool :=
  forallb hex_char (take 64 s) && (64 <=? length s)%nat &&
  (bool_decide (drop 64 s = []) || bool_decide (drop 64 s = [10])).

Definition validHash (v : php) : bool := match v with PStr s => hash_pattern s | _ => false end.

(** Both branches of [rpc] fail without an answer with status 200. *)
Definition rpc (path : text) (payload : arr) : script arr :=
  Call path (match payload with [] => EmptyObject | _ => Encoded payload end) (fun r =>
    match r with
    | Reply status body =>
        if status =? 200 then
          match body with
          | Some (PArr l) => Done l
          | Some _ => Done []
          | None => Raise
          end
        else Raise
    | NoReply => Raise
    end).

Definition jsonRpc (method : text) (params : arr) : script arr :=
  response ← rpc (u "/json_rpc") (fields [(u "jsonrpc", PStr (u "2.0")); (u "id", PStr (u "0"));
    (u "method", PStr method); (u "params", PArr params)]);
  match at_key (PArr response) (u "error") with
  | PNull => need_array (coalesce (at_key (PArr response) (u "result")) (PArr []))
  | _ => Raise
  end.

Definition respond (data : list (text * php)) (status : Z) : script unit := Exit status (fields data).
Definition respond_error (message : text) (status : Z) : script unit :=
  respond [(u "error", PStr message)] status.

(** ** The actions *)

Definition blocks (input : arr) : script unit :=
  info ← rpc (u "/get_info") [];
  let height := Z.max 1 (to_int (coalesce (at_key (PArr info) (u "height")) (PInt 1))) in
  let limit := Z.min MAX_RANGE (Z.max 1 (to_int (coalesce (at_key (PArr input) (u "limit")) (PInt 15)))) in
  let stop := Z.max 0 (height - 1) in
  let start := Z.max 0 (stop - limit + 1) in
  range ← jsonRpc (u "get_block_headers_range") (fields [(u "start_height", PInt start);
    (u "end_height", PInt stop); (u "fill_pow_hash", PBool false)]);
  headers ← need_array (coalesce (at_key (PArr range) (u "headers")) (PArr []));
  respond [(u "info", PArr info); (u "headers", PArr (array_reverse headers))] 200.

(** The height a block is asked for with, in the current version: an integer
    that is not negative, or a string of digits. *)
Definition site_height (v : php) : option Z :=
  match v with
  | PInt z => if 0 <=? z then Some z else None
  | PStr s => if re_digits s then Some (string_to_int s) else None
  | _ => None
  end.

(** The older version takes what is numeric. *)
Definition legacy_height (v : php) : option Z :=
  match v with
  | PInt _ | PFloat _ => Some (Z.max 0 (to_int v))
  | PStr s => if numeric_string s then Some (Z.max 0 (string_to_int s)) else None
  | _ => None
  end.

Definition block (height_of : php -> option Z) (input : arr) : script unit :=
  match height_of (at_key (PArr input) (u "height")) with
  | Some height =>
      result ← jsonRpc (u "get_block") (fields [(u "fill_pow_hash", PBool true); (u "height", PInt height)]);
      Exit 200 result
  | None =>
      match at_key (PArr input) (u "hash") with
      | PStr hash =>
          if hash_pattern hash then
            result ← jsonRpc (u "get_block") (fields [(u "fill_pow_hash", PBool true);
              (u "hash", PStr (strtolower hash))]);
            Exit 200 result
          else respond_error (u "Valid height or block hash required") 400
      | _ => respond_error (u "Valid height or block hash required") 400
      end
  end.

Definition transaction (input : arr) : script unit :=
  let hash := strtolower (to_text (coalesce (at_key (PArr input) (u "hash")) (PStr []))) in
  if negb (validHash (PStr hash)) then respond_error (u "Valid transaction hash required") 400
  else
    result ← rpc (u "/get_transactions") (fields [(u "txs_hashes", PArr (php_list [PStr hash]));
      (u "decode_as_json", PBool true); (u "prune", PBool false); (u "split", PBool true)]);
    if negb (to_bool (at_key (PArr result) (u "txs"))) && negb (to_bool (at_key (PArr result) (u "txs_as_json")))
    then respond_error (u "Transaction not found") 404
    else Exit 200 result.

Definition assets (input : arr) : script unit :=
  let offset := Z.max 0 (to_int (coalesce (at_key (PArr input) (u "offset")) (PInt 0))) in
  let count := Z.min 100 (Z.max 1 (to_int (coalesce (at_key (PArr input) (u "count")) (PInt 25)))) in
  try_catch
    (assets ← jsonRpc (u "get_assets") (fields [(u "offset", PInt offset); (u "count", PInt count)]);
     Exit 200 (array_union (fields [(u "supported", PBool true)]) assets))
    (respond [(u "supported", PBool false); (u "active", PBool false); (u "total", PInt 0);
       (u "assets", PArr [])] 200).

(** The loop over the assets; other values than arrays have no elements. *)
Definition find_asset (assetId : text) (assets : php) : option php :=
  match assets with
  | PArr l => snd <$> list_find (fun asset =>
      assetId = strtolower (to_text (coalesce (at_key asset (u "asset_id")) (PStr [])))) (l.*2)
  | _ => None
  end.

Definition asset (input : arr) : script unit :=
  let assetId := strtolower (to_text (coalesce (at_key (PArr input) (u "asset_id")) (PStr []))) in
  if negb (validHash (PStr assetId)) then respond_error (u "Valid asset ID required") 400
  else
    assets ← jsonRpc (u "get_assets") (fields [(u "offset", PInt 0); (u "count", PInt 1000)]);
    match find_asset assetId (coalesce (at_key (PArr assets) (u "assets")) (PArr [])) with
    | None => respond_error (u "Asset not found") 404
    | Some asset =>
        outputs ← jsonRpc (u "get_asset_outputs") (fields [(u "asset_id", PStr assetId);
          (u "offset", PInt 0); (u "count", PInt 100)]);
        let listed := coalesce (at_key (PArr outputs) (u "outputs")) (PArr []) in
        total ← match at_key (PArr outputs) (u "total") with
          | PNull => l ← need_array listed; Done (PInt (Z.of_nat (length l)))
          | total => Done total
          end;
        respond [(u "supported", PBool true);
          (u "active", PBool (to_bool (coalesce (at_key (PArr assets) (u "active")) (PBool false))));
          (u "asset", asset); (u "outputs", listed); (u "output_total", total)] 200
    end.

(** ** The script *)

(** [$action == 'name'] for a name that is not numeric: [true] equals all of
    them. *)
Definition is_action (action : php) (name : text) : bool :=
  match action with PStr s => bool_decide (s = name) | PBool b => b | _ => false end.

Definition dispatch (height_of : php -> option Z) (input : arr) : script unit :=
  let action := coalesce (at_key (PArr input) (u "action")) (PStr []) in
  if is_action action (u "info") then info ← rpc (u "/get_info") []; Exit 200 info
  else if is_action action (u "blocks") then blocks input
  else if is_action action (u "block") then block height_of input
  else if is_action action (u "transaction") then transaction input
  else if is_action action (u "assets") then assets input
  else if is_action action (u "asset") then asset input
  else if is_action action (u "pool") then pool ← rpc (u "/get_transaction_pool") []; Exit 200 pool
  else respond_error (u "Unknown action") 400.

(** [body] is what [json_decode] makes of the request, if it is JSON. *)
Definition api (height_of : php -> option Z) (method : text) (body : option php) : script unit :=
  if negb (bool_decide (method = u "POST")) then respond_error (u "POST required") 405
  else match body with
  | Some (PArr input) => try_catch (dispatch height_of input) (respond_error (u "Node request failed") 502)
  | _ => respond_error (u "Invalid JSON") 400
  end.

Definition site_api : text -> option php -> script unit := api site_height.
Definition explorer_api : text -> option php -> script unit := api legacy_height.
