(* ===== verification/PhpNodeInfo.v ===== *)
(** The proxy of the home page, [src/website/api/node-info/index.php]: it asks
    the node for its state and for the last block, and adds to the answer whether
    the node is ready. *)

From S2P Require Import Prelude JsNumber JsValue Php.

Definition MAX_TIP_AGE_SECONDS : Z := 900.
Definition MAX_FUTURE_SKEW_SECONDS : Z := 300.
Definition GENESIS_HASH : text := u "84f9ebdac8924806f037482ec16fd59b271e954d3e00363dd6c7e4ce9dd659e4".

(** [$peerCount === 0] and [$peerCount >= 2] *)
Definition is_zero (v : php) : bool := match v with PInt z => z =? 0 | _ => false end.
Definition at_least_two (v : php) : bool :=
  match v with PInt z => 2 <=? z | PFloat x => nleb (num_of_Z 2) x | _ => false end.

Definition strict_true (v : php) : bool := match v with PBool b => b | _ => false end.

(** The members about peers. *)
Definition with_peers (decoded : arr) : arr :=
  let count k := to_int (coalesce (at_key (PArr decoded) k) (PInt 0)) in
  let peerCount := int_add (count (u "incoming_connections_count")) (count (u "outgoing_connections_count")) in
  let hidden := to_bool (at_key (PArr decoded) (u "restricted")) && is_zero peerCount in
  set_key (KStr (u "peer_ready")) (PBool (negb hidden && at_least_two peerCount))
    (set_key (KStr (u "connections_hidden")) (PBool hidden) decoded).

(** The timestamp of the last block in the second answer, whatever its status. *)
Definition tip_timestamp (r : node_reply) : php :=
  match r with
  | Reply _ (Some headerDecoded) => at_key (at_key (at_key headerDecoded (u "result")) (u "block_header")) (u "timestamp")
  | _ => PNull
  end.

Definition tip_age (now : Z) (timestamp : php) : php :=
  match timestamp with PInt t => int_sub now t | _ => PNull end.

Definition genesis_only (decoded : arr) : bool :=
  (to_int (coalesce (at_key (PArr decoded) (u "height")) (PInt 0)) =? 1)
  && bool_decide (GENESIS_HASH = to_text (coalesce (at_key (PArr decoded) (u "top_block_hash")) (PStr []))).

Definition age_fresh (age : php) : bool :=
  match age with
  | PInt a => (a <=? MAX_TIP_AGE_SECONDS) && (- MAX_FUTURE_SKEW_SECONDS <=? a)
  | _ => false
  end.

(** The members about the last block, and the conclusion. *)
Definition with_tip (now : Z) (timestamp : php) (decoded : arr) : arr :=
  let age := tip_age now timestamp in
  let fresh := genesis_only decoded || age_fresh age in
  let decoded := set_key (KStr (u "tip_timestamp")) timestamp decoded in
  let decoded := set_key (KStr (u "tip_age_seconds")) age decoded in
  let decoded := set_key (KStr (u "tip_fresh")) (PBool fresh) decoded in
  let ok := match coalesce (at_key (PArr decoded) (u "status")) (PStr []) with
            | PStr s => bool_decide (s = u "OK") | _ => false end in
  set_key (KStr (u "network_ready")) (PBool (ok
    && strict_true (coalesce (at_key (PArr decoded) (u "synchronized")) (PBool false))
    && fresh && strict_true (at_key (PArr decoded) (u "peer_ready")))) decoded.

Definition node_info (method : text) (now : Z) : script unit :=
  if negb (bool_decide (method = u "POST")) then Exit 405 (fields [(u "status", PStr (u "METHOD_NOT_ALLOWED"))])
  else Call (u "/get_info") EmptyObject (fun r =>
    let unavailable := Exit 502 (fields [(u "status", PStr (u "NODE_UNAVAILABLE"))]) in
    match r with
    | Reply status (Some (PArr decoded)) =>
        if negb (status =? 200) then unavailable
        else Call (u "/json_rpc") (Encoded (fields [(u "jsonrpc", PStr (u "2.0"));
            (u "id", PStr (u "website-readiness")); (u "method", PStr (u "get_last_block_header"))])) (fun r =>
          Exit 200 (with_tip now (tip_timestamp r) (with_peers decoded)))
    | _ => unavailable
    end).
