(* ===== verification/PhpExplorerProps.v ===== *)
(** What the proxies of the explorers ask the node for and what they answer, and
    what becomes of the searches of the page. *)

From S2P Require Import Prelude JsNumber JsValue ExplorerCore JsText JsExact Php PhpExplorer.

(** ** Requests *)

(** A hash in lower case, possibly with a line feed. *)
Definition hash_text (s : text) : Prop :=
  Forall (fun c => 48 <= c <= 57 \/ 97 <= c <= 102) (take 64 s) /\ (64 <= length s)%nat /\
  (drop 64 s = [] \/ drop 64 s = [10]).

(** The methods of [/json_rpc] and their parameters. *)
Inductive listed : text -> arr -> Prop :=
| listed_range start stop : 0 <= start <= stop -> stop < start + MAX_RANGE ->
    listed (u "get_block_headers_range") (fields [(u "start_height", PInt start); (u "end_height", PInt stop);
      (u "fill_pow_hash", PBool false)])
| listed_height height : 0 <= height ->
    listed (u "get_block") (fields [(u "fill_pow_hash", PBool true); (u "height", PInt height)])
| listed_hash hash : hash_text hash ->
    listed (u "get_block") (fields [(u "fill_pow_hash", PBool true); (u "hash", PStr hash)])
| listed_assets offset count : 0 <= offset -> 1 <= count <= 1000 ->
    listed (u "get_assets") (fields [(u "offset", PInt offset); (u "count", PInt count)])
| listed_outputs assetId : hash_text assetId ->
    listed (u "get_asset_outputs") (fields [(u "asset_id", PStr assetId); (u "offset", PInt 0); (u "count", PInt 100)]).

(** The requests on the allow list. *)
Inductive allowed : text -> sent -> Prop :=
| allowed_info : allowed (u "/get_info") EmptyObject
| allowed_pool : allowed (u "/get_transaction_pool") EmptyObject
| allowed_transaction hash : hash_text hash ->
    allowed (u "/get_transactions") (Encoded (fields [(u "txs_hashes", PArr (php_list [PStr hash]));
      (u "decode_as_json", PBool true); (u "prune", PBool false); (u "split", PBool true)]))
| allowed_rpc method params : listed method params ->
    allowed (u "/json_rpc") (Encoded (fields [(u "jsonrpc", PStr (u "2.0")); (u "id", PStr (u "0"));
      (u "method", PStr method); (u "params", PArr params)])).

(** Success, or one of the errors with its message. *)
Definition answered (status : Z) (data : arr) : Prop :=
  status = 200 \/ status ∈ [400; 404; 405; 502] /\ exists message, data = fields [(u "error", PStr message)].

Lemma lower_hex c : hex_char c = true -> 48 <= lower c <= 57 \/ 97 <= lower c <= 102.
Proof. unfold hex_char, lower. destruct (Z.leb_spec 65 c), (Z.leb_spec c 90); cbn [andb]; lia. Qed.

Lemma lower_hash s : hash_pattern s = true -> hash_text (strtolower s).
Proof.
  unfold hash_pattern, hash_text, strtolower. rewrite !andb_true_iff. intros [[Hf Hl%Nat.leb_le] Hd].
  rewrite <- fmap_take, <- fmap_drop, length_fmap. split; [|split; [done|]].
  - apply Forall_fmap. apply Is_true_true_2, forallb_True in Hf. eapply Forall_impl; [exact Hf|].
    intros c Hc%Is_true_true. by apply lower_hex.
  - apply orb_true_iff in Hd as [E%bool_decide_eq_true|E%bool_decide_eq_true]; rewrite E; auto.
Qed.

Lemma strtolower_twice s : strtolower (strtolower s) = strtolower s.
Proof.
  unfold strtolower. rewrite <- list_fmap_compose. apply list_fmap_ext. intros _ c _. unfold lower, compose.
  destruct (Z.leb_spec 65 c), (Z.leb_spec c 90); cbn [andb];
    repeat match goal with |- context [?a <=? ?b] => destruct (Z.leb_spec a b) end; cbn [andb]; lia.
Qed.

Lemma lowered_hash s : validHash (PStr (strtolower s)) = true -> hash_text (strtolower s).
Proof. intros H. rewrite <- strtolower_twice. by apply lower_hash. Qed.

(** ** Calls *)

Lemma array_scripted {A} P Q (D : nat -> A -> Prop) n v f :
  (forall l, scripted P Q True D n (f l)) -> scripted P Q True D n (need_array v ≫= f).
Proof. intros Hf. destruct v; done || apply Hf. Qed.

Lemma rpc_scripted {A} Q (D : nat -> A -> Prop) n path payload f :
  allowed path (match payload with [] => EmptyObject | _ => Encoded payload end) ->
  (forall l, scripted allowed Q True D n (f l)) -> scripted allowed Q True D (S n) (rpc path payload ≫= f).
Proof.
  intros Hp Hf. apply (scripted_bind _ _ _ (fun k _ => k = n)); [|by intros ? l ->].
  split; [done|]. intros [|status body]; [done|]. cbn. by repeat case_match.
Qed.

Lemma jsonRpc_scripted {A} Q (D : nat -> A -> Prop) n method params f : listed method params ->
  (forall l, scripted allowed Q True D n (f l)) -> scripted allowed Q True D (S n) (jsonRpc method params ≫= f).
Proof.
  intros Hm Hf. apply (scripted_bind _ _ _ (fun k _ => k = n)); [|by intros ? l ->].
  apply rpc_scripted; [by apply allowed_rpc|]. intros l. case_match; [by destruct (coalesce _ _)|done..].
Qed.

Lemma error_answered message status : status ∈ [400; 404; 405; 502] ->
  answered status (fields [(u "error", PStr message)]).
Proof. right. eauto. Qed.

Ltac proxy_step :=
  match goal with
  | |- scripted _ _ _ _ _ (jsonRpc _ _ ≫= _) => apply jsonRpc_scripted; [|intros ?]
  | |- scripted _ _ _ _ _ (rpc _ _ ≫= _) => apply rpc_scripted; [|intros ?]
  | |- scripted _ _ _ _ _ (need_array _ ≫= _) => apply array_scripted; intros ?
  | |- scripted _ _ _ _ _ (Exit 200 _) => by left
  | |- scripted _ _ _ _ _ (respond _ 200) => by left
  | |- scripted _ _ _ _ _ (respond_error _ _) => apply error_answered; apply (bool_decide_unpack _); exact I
  | |- scripted _ _ _ _ _ (match _ with _ => _ end) => case_match
  end.

Definition proxied (m : script unit) : Prop := scripted allowed answered True (fun _ _ => False) 2 m.

Lemma blocks_proxied input : proxied (blocks input).
Proof.
  unfold proxied, blocks. proxy_step; [apply allowed_info|]. cbv zeta. repeat proxy_step.
  apply listed_range; unfold MAX_RANGE; lia.
Qed.

Lemma block_proxied height_of input : (forall v h, height_of v = Some h -> 0 <= h) -> proxied (block height_of input).
Proof.
  intros Hh. unfold proxied, block. repeat proxy_step; [|by apply listed_hash, lower_hash].
  eapply listed_height, Hh. eassumption.
Qed.

Lemma transaction_proxied input : proxied (transaction input).
Proof.
  unfold proxied, transaction. repeat proxy_step. by apply allowed_transaction, lowered_hash, negb_false_iff.
Qed.

Lemma assets_proxied input : proxied (assets input).
Proof.
  unfold proxied, assets. apply scripted_catch; [|intros n; proxy_step]. repeat proxy_step.
  apply listed_assets; lia.
Qed.

Lemma asset_proxied input : proxied (asset input).
Proof.
  unfold proxied, asset. case_match eqn:E; [proxy_step|]. apply negb_false_iff, lowered_hash in E.
  proxy_step; [apply listed_assets; lia|]. case_match; [|proxy_step].
  proxy_step; [by apply listed_outputs|]. apply (scripted_bind _ _ _ (fun _ _ => True)); [|by left].
  case_match; try done. by apply array_scripted.
Qed.

Lemma dispatch_proxied height_of input : (forall v h, height_of v = Some h -> 0 <= h) -> proxied (dispatch height_of input).
Proof.
  intros Hh. unfold dispatch. cbv zeta.
  destruct (is_action _ _); [unfold proxied; proxy_step; [apply allowed_info|proxy_step]|].
  destruct (is_action _ _); [apply blocks_proxied|].
  destruct (is_action _ _); [by apply block_proxied|].
  destruct (is_action _ _); [apply transaction_proxied|].
  destruct (is_action _ _); [apply assets_proxied|].
  destruct (is_action _ _); [apply asset_proxied|].
  destruct (is_action _ _); [unfold proxied; proxy_step; [apply allowed_pool|proxy_step]|]. unfold proxied. proxy_step.
Qed.

(** ** Heights *)

Lemma scan_digits d ds : Forall digit_ok (d :: ds) ->
  scan_number (48 + d :: digit_str ds) = Some (XDec false (digits_value (d :: ds)) 0, false, []).
Proof.
  intros H. unfold scan_number. assert (0 <= d < 10) as Hd by (by inversion H).
  assert (drop_while php_ws (48 + d :: digit_str ds) = 48 + d :: digit_str ds) as ->.
  { cbn [drop_while]. replace (php_ws (48 + d)) with false; [done|]. unfold php_ws. lia. }
  unfold sign_prefix. rewrite (proj2 (Z.eqb_neq _ 45)), (proj2 (Z.eqb_neq _ 43)) by lia.
  change (48 + d :: digit_str ds) with (digit_str (d :: ds)).
  rewrite <- (app_nil_r (_ <$> _)), span_digits_all by done. cbn [fraction_part app]. by rewrite app_nil_r.
Qed.

Lemma digits_to_int s : re_digits s = true ->
  string_to_int s = Z.min PHP_INT_MAX (digits_value (span_digits s).1) /\ 0 <= digits_value (span_digits s).1.
Proof.
  intros (d & ds & -> & H)%digit_string. unfold string_to_int. rewrite scan_digits by done.
  pose proof (digits_value_nonneg _ H).
  change (48 + d :: digit_str ds) with (digit_str (d :: ds)).
  rewrite <- (app_nil_r (_ <$> _)), span_digits_all by done. cbn [fst].
  unfold clamp64, PHP_INT_MIN, PHP_INT_MAX. lia.
Qed.

Lemma site_height_nonneg v h : site_height v = Some h -> 0 <= h.
Proof.
  unfold site_height. destruct v as [| |z| |s|]; try done.
  - destruct (Z.leb_spec 0 z); [|done]. by intros [= <-].
  - destruct (re_digits s) eqn:E; [|done]. intros [= <-]. apply digits_to_int in E. unfold PHP_INT_MAX in E. lia.
Qed.

Lemma legacy_height_nonneg v h : legacy_height v = Some h -> 0 <= h.
Proof. unfold legacy_height. destruct v; try done; [| |case_match]; intros [= <-] || done; lia. Qed.

(** C15: the proxies of the explorers are read-only.  Whatever a client sends and
    the node replies, either version sends at most two requests, all of them on a
    list of five methods and three paths with parameters that are in bounds (at
    most 25 headers, 1000 assets; hashes are 64 hexadecimal digits, though the
    pattern lets a line feed pass after them), and always answers: with status
    200, or with one of four error statuses and a message. *)
Theorem proxy_only_reads method body :
  answers allowed answered 2 (site_api method body) /\ answers allowed answered 2 (explorer_api method body).
Proof.
  assert (forall height_of, (forall v h, height_of v = Some h -> 0 <= h) ->
    answers allowed answered 2 (api height_of method body)) as H.
  { intros height_of Hh. unfold api. case_match; [by apply error_answered, (bool_decide_unpack _)|].
    destruct body as [[]|]; try by apply error_answered, (bool_decide_unpack _).
    apply scripted_catch; [by apply dispatch_proxied|]. intros n. by apply error_answered, (bool_decide_unpack _). }
  split; apply H; [apply site_height_nonneg|apply legacy_height_nonneg].
Qed.

(** ** Searches *)

Lemma scalars_plain s : Forall (fun c => c < 55296) s -> scalars s = Some s.
Proof.
  induction 1 as [|c s Hc _ IH]; [done|]. cbn. unfold is_lead, is_trail.
  rewrite (proj2 (Z.leb_gt 55296 c)), (proj2 (Z.leb_gt 56320 c)) by lia. cbn. by rewrite IH.
Qed.

(** The body of the request with which [showBlock] asks for a block. *)
Definition block_request (v : jsstr) : option php :=
  decode JSON_DEPTH (VObj ((u "action", VStr (u "block")) :: block_input v)).

Lemma height_request v : re_digits v = true -> digits_value (span_digits v).1 < 2 ^ 53 ->
  block_request v = Some (PArr (fields [(u "action", PStr (u "block"));
    (u "height", PInt (digits_value (span_digits v).1))])).
Proof.
  intros Hv Hn. unfold block_request, block_input. rewrite Hv. cbn -[u num_to_Z string_to_number digits_value is_int64].
  rewrite digits_number by done. pose proof (digits_to_int v Hv) as [_ Hz].
  replace (is_int64 _) with true by (unfold is_int64, PHP_INT_MIN, PHP_INT_MAX; lia). done.
Qed.

Lemma hash_request v : re_digits v = false -> re_hash v = true ->
  block_request v = Some (PArr (fields [(u "action", PStr (u "block")); (u "hash", PStr v)])).
Proof.
  intros Hv [_ Hh]%andb_true_iff. unfold block_request, block_input. rewrite Hv. cbn -[u].
  rewrite (scalars_plain v); [done|]. apply Is_true_true_2, forallb_True in Hh. eapply Forall_impl; [exact Hh|].
  intros c Hc%Is_true_true. unfold is_hex, is_digit in Hc. lia.
Qed.

Lemma hash_matches v : re_hash v = true -> hash_pattern v = true.
Proof.
  intros [Hl%Nat.eqb_eq Hh]%andb_true_iff. unfold hash_pattern. rewrite take_ge, drop_ge by lia.
  rewrite Hl. rewrite !andb_true_r. exact Hh.
Qed.

Definition rpc_request (method : text) (params : arr) : text * sent :=
  (u "/json_rpc", Encoded (fields [(u "jsonrpc", PStr (u "2.0")); (u "id", PStr (u "0"));
    (u "method", PStr method); (u "params", PArr params)])).

Lemma serve_block method params response result h :
  at_key (PArr response) (u "error") = PNull -> at_key (PArr response) (u "result") = PArr result ->
  serve (try_catch (result ← jsonRpc method params; Exit (A := unit) 200 result) h) [Reply 200 (Some (PArr response))]
    = ([rpc_request method params], Some (200, result)).
Proof. intros He Hr. cbn -[u at_key]. by rewrite He, Hr. Qed.

Lemma api_block height_of k x :
  api height_of (u "POST") (Some (PArr (fields [(u "action", PStr (u "block")); (k, x)])))
    = try_catch (block height_of (fields [(u "action", PStr (u "block")); (k, x)]))
        (respond_error (u "Node request failed") 502).
Proof. reflexivity. Qed.

Lemma api_height api_of : api_of ∈ [site_api; explorer_api] ->
  exists height_of, api_of = api height_of /\ height_of PNull = None /\ forall n, 0 <= n -> height_of (PInt n) = Some n.
Proof.
  intros [E|E%list_elem_of_singleton]%elem_of_cons; subst api_of; [exists site_height|exists legacy_height];
    split_and!; try done; intros n Hn; cbn [site_height legacy_height to_int].
  - by rewrite (proj2 (Z.leb_le 0 n)).
  - f_equal. lia.
Qed.


