(* ===== verification/PhpNodeInfoProps.v ===== *)
(** From the node to the home page: what the proxy makes of the node's answers
    and what the page shows of it. *)

From S2P Require Import Prelude JsNumber JsValue Async Home HomeProps HomeRuns JsText Php PhpNodeInfo.

(** ** Members of an answer *)

(** Keys that are neither numbers nor outside the basic plane. *)
Definition plain (k : text) : Prop :=
  Forall (fun c => c < 55296) k /\ exists c, head k = Some c /\ is_digit c = false /\ c <> 45.

Lemma units_plain s k : Forall (fun c => c < 55296) k -> units s = k -> s = k.
Proof.
  revert k. induction s as [|c s IH]; intros k Hk E; [done|].
  unfold units in E. cbn in E. unfold code_units in E at 1. destruct (Z.ltb_spec c 65536).
  - destruct k as [|c' k]; [done|]. injection E as -> E. f_equal. apply IH; [by inversion Hk|done].
  - destruct k as [|c' k]; [done|]. injection E as E _. inversion Hk. pose proof (Z.div_pos (c - 65536) 1024). lia.
Qed.

Lemma dec_head z : exists c, head (dec z) = Some c /\ (is_digit c = true \/ c = 45).
Proof.
  unfold dec. destruct (Z.ltb_spec z 0); [exists 45; auto|].
  pose proof (dec_nonneg_digits z ltac:(lia)) as H1. destruct (dec_nonneg z) as [|c s] eqn:E.
  - unfold dec_nonneg in E. destruct (digits z) eqn:Ed; [|done]. by destruct (digits_nonempty z).
  - exists c. split; [done|]. left. by inversion H1.
Qed.

Lemma key_plain k k' : plain k -> key_text k' = k -> k' = KStr k.
Proof.
  intros [Hk (c & Hc & Hd & Hm)] E. destruct k' as [z|s]; cbn in E; [|by f_equal; apply units_plain].
  destruct (dec_head z) as (c' & Hc' & H). rewrite E, Hc in Hc'. injection Hc' as <-. destruct H; congruence.
Qed.

Lemma units_id k : Forall (fun c => c < 55296) k -> units k = k.
Proof.
  induction 1 as [|c k Hc _ IH]; [done|]. unfold units in *. cbn. rewrite IH. unfold code_units.
  by rewrite (proj2 (Z.ltb_lt c 65536)) by lia.
Qed.

Lemma find_key_None k l : k ∉ l.*1 -> find_key k l = None.
Proof.
  induction l as [|[k' v] l IH]; [done|]. cbn. intros [Hne Hk]%not_elem_of_cons.
  rewrite bool_decide_eq_false_2 by congruence. by apply IH.
Qed.

Lemma encode_lookup depth k l : plain k -> NoDup l.*1 -> forall ms acc,
  mapM (fun m : key * php => x ← encode depth m.2; Some (key_text m.1, x)) l = Some ms ->
  lookup_member k (foldl (fun ms m => set_member ms m.1 m.2) acc ms)
    = match find_key (KStr k) l with Some v => encode depth v | None => lookup_member k acc end.
Proof.
  intros Hk. induction l as [|[k' v] l IH]; intros Hnd ms acc E; [by injection E as <-|].
  cbn [fmap list_fmap fst] in Hnd. apply NoDup_cons in Hnd as [Hn Hnd].
  cbn [mapM fst snd] in E. destruct (encode depth v) as [x|] eqn:Ev; [|done]. cbn in E.
  destruct (mapM _ l) as [ms'|] eqn:Em; [|done]. injection E as <-. cbn [foldl fst snd].
  rewrite (IH Hnd ms') by done. cbn [find_key]. case_bool_decide as Hd.
  - subst k'. rewrite find_key_None by done. cbn [key_text]. rewrite units_id by apply Hk.
    by rewrite lookup_set_member.
  - destruct (find_key _ l); [done|]. apply lookup_set_other. intros Ek. by apply Hd, key_plain.
Qed.

(** The members of an encoded array, as the page reads them. *)
Lemma encode_prop depth l v k k' : plain k -> NoDup l.*1 -> KStr k' ∈ l.*1 ->
  encode (S depth) (PArr l) = Some v ->
  prop v k = Ok (default VUndef (find_key (KStr k) l ≫= encode depth)).
Proof.
  intros Hk Hnd Hk' E. destruct l as [|m l]; [by apply elem_of_nil in Hk'|]. cbn [encode] in E.
  destruct (mapM _ _) as [ms|] eqn:Em; [|done]. cbn in E.
  assert (forall n, is_list_from n (m :: l) = false) as Hl.
  { clear -Hk'. revert Hk'. generalize (m :: l). clear. induction l as [|[[z|s] x] l IH]; intros Hk n;
      [by apply elem_of_nil in Hk| |done]. cbn. apply elem_of_cons in Hk as [[=]|Hk]. by rewrite IH, andb_false_r. }
  specialize (Hl 0). cbn in Hl. rewrite Hl in E. injection E as <-. cbn [prop].
  rewrite (encode_lookup depth k (m :: l)) by done. by destruct (find_key _ _).
Qed.

Lemma find_set_key k k' v l : find_key k' (set_key k v l) = if bool_decide (k = k') then Some v else find_key k' l.
Proof.
  induction l as [|[k0 w] l IH]; cbn; [done|]. destruct (decide (k0 = k)) as [->|Hne].
  - rewrite bool_decide_eq_true_2 by done. cbn. by case_bool_decide.
  - rewrite (bool_decide_eq_false_2 (k0 = k)) by done. cbn. rewrite IH. repeat case_bool_decide; congruence.
Qed.

Lemma set_key_keys k v l k' : k' ∈ (set_key k v l).*1 <-> k' = k \/ k' ∈ l.*1.
Proof.
  induction l as [|[k0 w] l IH]; cbn; [rewrite elem_of_cons, elem_of_nil; tauto|].
  case_bool_decide; cbn; rewrite !elem_of_cons; [naive_solver|]. rewrite IH. tauto.
Qed.

Lemma set_key_NoDup k v l : NoDup l.*1 -> NoDup (set_key k v l).*1.
Proof.
  induction l as [|[k0 w] l IH]; cbn; intros H; [apply NoDup_singleton|]. apply NoDup_cons in H as [Hn Hd].
  case_bool_decide; cbn; apply NoDup_cons; [by split|]. split; [|by apply IH].
  rewrite set_key_keys. naive_solver.
Qed.

(** ** What the proxy adds *)

Definition peers (decoded : arr) : Z :=
  let count k := to_int (coalesce (at_key (PArr decoded) k) (PInt 0)) in
  count (u "incoming_connections_count") + count (u "outgoing_connections_count").

(** A node that is ready: synchronized, with two peers, and with a last block of
    the last quarter of an hour, or none after the genesis block. *)
Definition node_ready (now : Z) (decoded : arr) (timestamp : php) : Prop :=
  at_key (PArr decoded) (u "status") = PStr (u "OK") /\
  at_key (PArr decoded) (u "synchronized") = PBool true /\
  2 <= peers decoded /\
  (genesis_only decoded = true \/ exists t, timestamp = PInt t /\ -300 <= now - t <= 900).

Lemma at_set_key k k' v l :
  at_key (PArr (set_key (KStr k) v l)) k' = if bool_decide (k = k') then v else at_key (PArr l) k'.
Proof. unfold at_key. rewrite find_set_key. repeat case_bool_decide; done || congruence. Qed.

Lemma with_peers_key k decoded : k <> u "peer_ready" -> k <> u "connections_hidden" ->
  at_key (PArr (with_peers decoded)) k = at_key (PArr decoded) k.
Proof. intros H1 H2. unfold with_peers. by rewrite !at_set_key, !bool_decide_eq_false_2 by congruence. Qed.

Lemma with_peers_ready decoded : is_int64 (peers decoded) = true ->
  at_key (PArr (with_peers decoded)) (u "peer_ready") = PBool (2 <=? peers decoded).
Proof.
  intros Hp. unfold with_peers. cbv zeta. rewrite at_set_key, bool_decide_eq_true_2 by done.
  unfold int_add. fold (peers decoded). rewrite Hp. cbn [is_zero at_least_two]. f_equal.
  destruct (to_bool _); cbn [andb negb]; [|done]. destruct (Z.eqb_spec (peers decoded) 0); cbn [andb negb]; lia.
Qed.

Lemma age_fresh_iff now timestamp :
  age_fresh (tip_age now timestamp) = true <-> exists t, timestamp = PInt t /\ -300 <= now - t <= 900.
Proof.
  unfold tip_age. split.
  - destruct timestamp as [| |t| | |]; try done. unfold int_sub. case_match; [|done]. cbn.
    intros Ha. exists t. split; [done|]. unfold MAX_TIP_AGE_SECONDS, MAX_FUTURE_SKEW_SECONDS in Ha. lia.
  - intros (t & -> & Ht). unfold int_sub, is_int64, PHP_INT_MIN, PHP_INT_MAX.
    rewrite (proj2 (andb_true_iff _ _)) by lia. cbn. unfold MAX_TIP_AGE_SECONDS, MAX_FUTURE_SKEW_SECONDS. lia.
Qed.

(** The members the page looks at. *)
Lemma with_tip_keys now timestamp decoded k :
  bool_decide (k ∈ [u "tip_timestamp"; u "tip_age_seconds"; u "tip_fresh"; u "network_ready"]) = false ->
  at_key (PArr (with_tip now timestamp decoded)) k = at_key (PArr decoded) k.
Proof.
  rewrite bool_decide_eq_false, !not_elem_of_cons. intros (H1 & H2 & H3 & H4 & _). unfold with_tip.
  by rewrite !at_set_key, !bool_decide_eq_false_2 by congruence.
Qed.

Lemma with_tip_fresh now timestamp decoded :
  at_key (PArr (with_tip now timestamp decoded)) (u "tip_fresh")
    = PBool (genesis_only decoded || age_fresh (tip_age now timestamp)).
Proof. unfold with_tip. by rewrite at_set_key, bool_decide_eq_false_2, at_set_key, bool_decide_eq_true_2 by done. Qed.

Lemma PBool_true b : PBool b = PBool true <-> b = true.
Proof. split; [by intros [= ->]|by intros ->]. Qed.

(** The answer of the proxy to the page. *)
Definition report (now : Z) (timestamp : php) (decoded : arr) : arr := with_tip now timestamp (with_peers decoded).

Lemma report_ready now timestamp decoded : is_int64 (peers decoded) = true ->
  node_ready now decoded timestamp <->
  at_key (PArr (report now timestamp decoded)) (u "status") = PStr (u "OK") /\
  at_key (PArr (report now timestamp decoded)) (u "synchronized") = PBool true /\
  at_key (PArr (report now timestamp decoded)) (u "tip_fresh") = PBool true /\
  at_key (PArr (report now timestamp decoded)) (u "peer_ready") = PBool true.
Proof.
  intros Hp. unfold report. rewrite with_tip_fresh, !with_tip_keys, with_peers_ready, !with_peers_key
    by (done || by vm_compute).
  unfold genesis_only. rewrite !with_peers_key by done. fold (genesis_only decoded). unfold node_ready.
  rewrite <- age_fresh_iff, <- orb_true_iff, <- Z.leb_le.
  rewrite !PBool_true. tauto.
Qed.

(** ** What the page shows *)

Lemma encode_array depth l v : encode depth (PArr l) = Some v -> match v with VArr _ | VObj _ => True | _ => False end.
Proof.
  destruct l as [|m l]; cbn [encode]; [by intros [= <-]|]. destruct depth as [|depth]; [done|].
  destruct (mapM _ _); [|done]. cbn [mbind option_bind]. intros [= <-]. by match goal with |- context [if ?b then _ else _] => destruct b end.
Qed.

Lemma encode_text depth x k : Forall (fun c => c < 55296) k -> encode depth x = Some (VStr k) <-> x = PStr k.
Proof.
  intros Hk. split; [|intros ->; cbn [encode]; by rewrite units_id].
  destruct x as [| | | |s|l]; [done..| | |]; [cbn; by case_match| |by intros ?%encode_array].
  cbn [encode]. intros [= E]. f_equal. by apply units_plain.
Qed.

Lemma encode_bool depth x b : encode depth x = Some (VBool b) <-> x = PBool b.
Proof.
  split; [|by intros ->]. destruct x as [| | | |s|l]; try done; [by intros [= ->]| |by intros ?%encode_array].
  cbn. by case_match.
Qed.

Section Members.
Context (depth : nat) (l : arr) (v : value) (k' : text)
  (Hnd : NoDup l.*1) (Hk' : KStr k' ∈ l.*1) (Hv : encode (S depth) (PArr l) = Some v).

Lemma prop_text k s : plain k -> Forall (fun c => c < 55296) s ->
  prop v k = Ok (VStr s) <-> at_key (PArr l) k = PStr s.
Proof.
  intros Hk Hs. rewrite (encode_prop depth l v k k') by done. unfold at_key.
  destruct (find_key _ _) as [x|]; [|done]. cbn [mbind option_bind default from_option id].
  rewrite <- (encode_text depth x s) by done. destruct (encode depth x); naive_solver.
Qed.

Lemma prop_bool k b : plain k -> prop v k = Ok (VBool b) <-> at_key (PArr l) k = PBool b.
Proof.
  intros Hk. rewrite (encode_prop depth l v k k') by done. unfold at_key.
  destruct (find_key _ _) as [x|]; [|done]. cbn [mbind option_bind default from_option id].
  rewrite <- (encode_bool depth x b). destruct (encode depth x); naive_solver.
Qed.
End Members.

Lemma plain_key k : forallb (fun c => c <? 55296) k = true ->
  match k with c :: _ => negb (is_digit c) && negb (c =? 45) | [] => false end = true -> plain k.
Proof.
  intros Hk Hc. split.
  - apply Is_true_true_2, forallb_True in Hk. eapply Forall_impl; [exact Hk|]. intros c H%Is_true_true. lia.
  - destruct k as [|c k]; [done|]. exists c. split; [done|]. apply andb_true_iff in Hc as [Hc1 Hc2].
    split; [by apply negb_true_iff|]. lia.
Qed.

Lemma report_healthy now timestamp decoded v : NoDup decoded.*1 -> is_int64 (peers decoded) = true ->
  encode JSON_DEPTH (PArr (report now timestamp decoded)) = Some v ->
  healthy v <-> node_ready now decoded timestamp.
Proof.
  intros Hnd Hp E. rewrite report_ready by done. unfold healthy.
  assert (NoDup (report now timestamp decoded).*1) as Hr by (by repeat apply set_key_NoDup).
  assert (KStr (u "network_ready") ∈ (report now timestamp decoded).*1) as Hk by (apply set_key_keys; by left).
  rewrite (prop_text 511 _ v _ Hr Hk E), !(prop_bool 511 _ v _ Hr Hk E) by
    ((by apply plain_key) || by apply (bool_decide_unpack _)). done.
Qed.

(** The answers a page gets from a script: the status, and the JSON value if
    the data could be encoded (otherwise the body is empty). *)
Definition proxied_answers (run : list (text * sent) * option (Z * arr)) (q : query) : answer q -> Prop :=
  match run.2 with
  | Some (status, data) =>
      match q with
      | QFetch _ _ => fun a => a = FResponse status
      | QJson => fun a => a = match encode JSON_DEPTH (PArr data) with Some v => Ok v | None => Err ESyntaxError end
      | QClipboard _ => fun a => a = Ok tt
      end
  | None => fun _ => False
  end.

Lemma no_json room run status data h h' r :
  run.2 = Some (status, data) -> encode JSON_DEPTH (PArr data) = None ->
  completes (proxied_answers run) (updateNodeStatus room) h h' r ->
  h_texts h' State = u "Status unavailable" /\ h_texts h' Dot = u "status-dot offline".
Proof.
  intros Er Ee [([] & H & ->)|(e & w1 & _ & H)]%completes_catch.
  - apply completes_bind in H as [(e & _ & [=])|(v & w1 & H & _)]. exfalso.
    destruct H as (a & Ha & H). unfold proxied_answers in Ha. rewrite Er in Ha. subst a. cbn in H.
    destruct (negb (status_ok status)); [by destruct H|]. destruct H as (j & Hj & H).
    unfold proxied_answers in Hj. rewrite Er, Ee in Hj. subst j. by destruct H.
  - unfold nodeUnavailable, put in H. completes_inv H. by subst h'.
Qed.

Lemma node_info_run now r1 r2 :
  (exists decoded, r1 = Reply 200 (Some (PArr decoded)) /\
    (serve (node_info (u "POST") now) [r1; r2]).2 = Some (200, report now (tip_timestamp r2) decoded)) \/
  (forall decoded, r1 <> Reply 200 (Some (PArr decoded))) /\
    exists data, (serve (node_info (u "POST") now) [r1; r2]).2 = Some (502, data).
Proof.
  destruct r1 as [|status [[| | | | |decoded]|]]; try (right; by eauto).
  destruct (Z.eqb_spec status 200) as [->|Hne]; [left; by eauto|]. right. split; [congruence|].
  eexists. unfold node_info. rewrite bool_decide_eq_true_2 by done. cbn [negb serve].
  by rewrite (proj2 (Z.eqb_neq status 200)).
Qed.

Lemma ok_iff x : match coalesce x (PStr []) with PStr s => bool_decide (s = u "OK") | _ => false end = true <->
  x = PStr (u "OK").
Proof. split; [|by intros ->]. destruct x; try done; cbn [coalesce]; intros H%bool_decide_eq_true; by subst. Qed.

Lemma strict_iff x : strict_true x = true <-> x = PBool true.
Proof. split; [|by intros ->]. destruct x; try done. by intros [= ->]. Qed.

Lemma coalesce_false_iff x : coalesce x (PBool false) = PBool true <-> x = PBool true.
Proof. destruct x; naive_solver. Qed.

Lemma with_tip_ready now timestamp decoded :
  at_key (PArr (with_tip now timestamp decoded)) (u "network_ready") = PBool true <->
  at_key (PArr decoded) (u "status") = PStr (u "OK") /\ at_key (PArr decoded) (u "synchronized") = PBool true /\
  genesis_only decoded || age_fresh (tip_age now timestamp) = true /\ at_key (PArr decoded) (u "peer_ready") = PBool true.
Proof.
  unfold with_tip. rewrite at_set_key, bool_decide_eq_true_2, PBool_true, !andb_true_iff, ok_iff, !strict_iff, !at_set_key by done.
  rewrite !bool_decide_eq_false_2, coalesce_false_iff by done. tauto.
Qed.

Lemma network_ready_iff now timestamp decoded : is_int64 (peers decoded) = true ->
  at_key (PArr (report now timestamp decoded)) (u "network_ready") = PBool true <-> node_ready now decoded timestamp.
Proof.
  intros Hp. unfold report. rewrite with_tip_ready, with_peers_ready, !with_peers_key by done.
  unfold genesis_only. rewrite !with_peers_key by done. fold (genesis_only decoded).
  unfold node_ready. rewrite PBool_true, Z.leb_le, orb_true_iff, age_fresh_iff. tauto.
Qed.

(** C14: from the node to the home page, for an answer whose two numbers of
    connections have a sum of 64 bits.  The page shows the node as online only if
    the node's own answers to the proxy say that it is ready: synchronized, at
    least two peers, and either a last block at most 15 minutes old and at most 5
    minutes ahead, or no block but the genesis block.  If they do, the page shows
    it as online unless another member of the answer cannot be shown at all; in
    every other case, a node that does not answer included, the dot is red.  The
    member [network_ready] says the same. *)
Theorem home_shows_node room now r1 r2 h h' r :
  (forall decoded, r1 = Reply 200 (Some (PArr decoded)) -> NoDup decoded.*1 /\ is_int64 (peers decoded) = true) ->
  let run := serve (node_info (u "POST") now) [r1; r2] in
  let ready := exists decoded, r1 = Reply 200 (Some (PArr decoded)) /\ node_ready now decoded (tip_timestamp r2) in
  completes (proxied_answers run) (updateNodeStatus room) h h' r ->
  (h_texts h' Dot = u "status-dot online" /\ h_texts h' State = u "Node synchronized" /\ ready \/
   h_texts h' Dot = u "status-dot offline" /\ (ready -> h_texts h' State = u "Status unavailable")) /\
  (ready <-> exists data, run.2 = Some (200, data) /\ at_key (PArr data) (u "network_ready") = PBool true).
Proof.
  intros Hwf run ready H. destruct (node_info_run now r1 r2) as [(decoded & -> & E)|[Hr (data & E)]].
  - destruct (Hwf _ eq_refl) as [Hnd Hp].
    assert (ready <-> node_ready now decoded (tip_timestamp r2)) as Hready by (subst ready; naive_solver).
    split; [|rewrite Hready, <- network_ready_iff by done; fold run in E; rewrite E; naive_solver].
    destruct (encode JSON_DEPTH (PArr (report now (tip_timestamp r2) decoded))) as [v|] eqn:Ee.
    + assert (completes (only_answers v) (updateNodeStatus room) h h' r) as Hc.
      { eapply completes_mono; [|exact H]. intros q a. unfold proxied_answers. fold run in E. rewrite E, Ee. by destruct q. }
      rewrite Hready, <- (report_healthy now (tip_timestamp r2) decoded v) by done.
      by apply (home_online_iff room v h h' r).
    + right. destruct (no_json _ _ _ _ _ _ _ E Ee H) as [Hs Hd]. by split.
  - assert (~ ready) as Hn by (intros (decoded & E' & _); by apply Hr in E').
    split; [|split; [done|]; intros (data' & E' & _); fold run in E; congruence].
    right. split; [|done].
    assert (completes failing_answers (updateNodeStatus room) h h' r) as Hc.
    { eapply completes_mono; [|exact H]. intros q a. unfold proxied_answers. fold run in E. rewrite E. by destruct q; [intros ->|..]. }
    apply (proj1 (home_failures_contained (fun _ => []) room h h' r)) in Hc as [_ ->]. done.
Qed.

(** A node with three peers whose last block is a minute old. *)
Definition sample_info : arr :=
  fields [(u "height", PInt 1040); (u "difficulty", PInt 240000); (u "target", PInt 120);
    (u "incoming_connections_count", PInt 1); (u "outgoing_connections_count", PInt 2);
    (u "restricted", PBool true); (u "status", PStr (u "OK")); (u "synchronized", PBool true)].
Definition sample_header : arr :=
  fields [(u "result", PArr (fields [(u "block_header", PArr (fields [(u "timestamp", PInt 1699999940)]))]))].
Definition sample_run : list (text * sent) * option (Z * arr) :=
  serve (node_info (u "POST") 1700000000) [Reply 200 (Some (PArr sample_info)); Reply 200 (Some (PArr sample_header))].

Lemma home_shows_node_witness : exists h',
  completes (proxied_answers sample_run) (updateNodeStatus (fun _ => true)) (home_initial (Storage None) nzero) h' (Ok tt) /\
  h_texts h' Dot = u "status-dot online".
Proof.
  set (v := match encode JSON_DEPTH (PArr (match sample_run.2 with Some (_, data) => data | None => [] end)) with
            | Some v => v | None => VNull end).
  set (q := pcatch (showNode (fun _ => true) v) (fun _ => nodeUnavailable)).
  set (h' := (run q (home_initial (Storage None) nzero)).1). exists h'.
  assert (completes (proxied_answers sample_run) (updateNodeStatus (fun _ => true))
            (home_initial (Storage None) nzero) h' (Ok tt)) as H.
  { exists (FResponse 200). split; [reflexivity|]. exists (Ok v). split; [vm_compute; reflexivity|].
    assert ((run q (home_initial (Storage None) nzero)).2 = Async.Done tt) as Hd by (vm_compute; reflexivity).
    exact (run_completes _ q _ tt Hd). }
  split; [exact H|].
  destruct (home_shows_node (fun _ => true) 1700000000 (Reply 200 (Some (PArr sample_info)))
    (Reply 200 (Some (PArr sample_header))) (home_initial (Storage None) nzero) h' (Ok tt)) as [[[H1 _]|[_ H1]] _].
  - intros decoded [= <-]. split; [by apply (bool_decide_unpack _)|reflexivity].
  - exact H.
  - exact H1.
  - assert (h_texts h' State = u "Node synchronized") as Hs by (vm_compute; reflexivity).
    rewrite H1 in Hs; [discriminate (f_equal head Hs)|]. exists sample_info. split; [reflexivity|].
    split; [reflexivity|]. split; [reflexivity|]. split; [vm_compute; discriminate|].
    right. exists 1699999940. split; [reflexivity|]. lia.
Defined.
