(* ===== verification/PhpMiners.v ===== *)
(** The statistics of the miners, [src/website/api/miner-stats/index.php]:
    reporters send heartbeats, the home page asks for the list.  The records are
    kept in a JSON file, modelled by the value [json_decode] reads from it: what
    is written is read back with [reread], which turns whole floats into
    integers. *)

From Stdlib Require Import SpecFloat.
From S2P Require Import Prelude JsNumber JsValue Php.

Definition ACTIVE_SECONDS : Z := 180.
Definition MAX_RECORD_AGE : Z := 604800.

(** ** Strings *)

Definition code_length (c : Z) : nat :=
  if c <? 128 then 1 else if c <? 2048 then 2 else if c <? 65536 then 3 else 4.
Definition strlen (s : text) : nat := sum_list (code_length <$> s).

Definition upper (c : Z) : Z := if (97 <=? c) && (c <=? 122) then c - 32 else c.
Definition strtoupper (s : text) : text := upper <$> s.

Definition trim_both (p : Z -> bool) (s : text) : text :=
  reverse (drop_while p (reverse (drop_while p s))).

(** The characters [trim] removes, and those the filters remove. *)
Definition trim_char (c : Z) : bool :=
  (c =? 32) || (c =? 9) || (c =? 10) || (c =? 13) || (c =? 0) || (c =? 11).
Definition filter_char (c : Z) : bool := (c =? 32) || (c =? 9) || (c =? 13) || (c =? 11) || (c =? 10).

(** ** Configuration *)

Definition configValue (fileConfig : arr) (getenv : text -> option text) (name : text) : text :=
  match at_key (PArr fileConfig) name with
  | PStr s => trim_both trim_char s
  | _ => match getenv name with Some value => trim_both trim_char value | None => [] end
  end.

(** ** Validation *)

(** [preg_match('/^[a-f0-9-]{32,64}$/i', $id)]; the dollar also matches before a
    line feed at the end. *)
Definition id_char (c : Z) : bool :=
  ((97 <=? c) && (c <=? 102)) || ((65 <=? c) && (c <=? 70)) || ((48 <=? c) && (c <=? 57)) || (c =? 45).
Definition id_body (s : text) : bool :=
  (32 <=? length s)%nat && (length s <=? 64)%nat && forallb id_char s.
Definition id_pattern (s : text) : bool :=
  id_body s || (bool_decide (last s = Some 10) && id_body (take (length s - 1) s)).

(** The text a filter validates; arrays are refused. *)
Definition filter_text (v : php) : option text :=
  match v with PArr _ => None | _ => Some (trim_both filter_char (to_text v)) end.

(** [filter_var($v, FILTER_VALIDATE_FLOAT)] *)
Definition validate_float (v : php) : option num :=
  match filter_text v with
  | Some ((c :: _) as s) =>
      if php_ws c then None
      else match scan_number s with
      | Some (x, _, []) =>
          let value := exact_num x in
          let vanished := match value with S754_zero _ => true | _ => false end
            && (1 <? length s)%nat && existsb (fun c => (49 <=? c) && (c <=? 57)) s in
          if vanished || negb (is_finite value) then None else Some value
      | _ => None
      end
  | _ => None
  end.

(** [filter_var($v, FILTER_VALIDATE_INT)] *)
Definition validate_int (v : php) : option Z :=
  match filter_text v with
  | Some s =>
      let '(neg, t) := sign_prefix s in
      match span_digits t with
      | (d :: ds, []) =>
          if (d =? 0) && negb (bool_decide (ds = [])) then None
          else
            let n := digits_value (d :: ds) in
            let n := if neg : bool then - n else n in
            if is_int64 n then Some n else None
      | _ => None
      end
  | None => None
  end.

(** ** Records *)

(** [$v < $z] for an integer. *)
Fixpoint text_lt (a b : text) : bool :=
  match a, b with
  | _, [] => false
  | [], _ => true
  | c :: a, d :: b => (c <? d) || ((c =? d) && text_lt a b)
  end.
Definition less_than (v : php) (z : Z) : bool :=
  match v with
  | PNull => negb (z =? 0)
  | PBool b => negb b && negb (z =? 0)
  | PInt a => a <? z
  | PFloat x => nltb x (num_of_Z z)
  | PStr s =>
      if numeric_string s then
        match scan_number s with
        | Some (XDec neg m _, false, _) =>
            let a := if neg : bool then - m else m in
            if is_int64 a then a <? z else nltb (exact_num (XDec neg m 0)) (num_of_Z z)
        | Some (x, _, _) => nltb (exact_num x) (num_of_Z z)
        | None => false
        end
      else text_lt s (dec z)
  | PArr _ => false
  end.

(** [(float)] *)
Definition to_float (v : php) : num :=
  match v with
  | PFloat x => x
  | PStr s => match scan_number s with Some (x, _, _) => exact_num x | None => nzero end
  | _ => num_of_Z (to_int v)
  end.

Definition readRecords (file : option php) : arr := match file with Some (PArr l) => l | _ => [] end.

(** The loop that removes old records. *)
Definition expired (now : Z) (record : php) : bool :=
  match record with
  | PArr _ => less_than (coalesce (at_key record (u "updated_at")) (PInt 0)) (now - MAX_RECORD_AGE)
  | _ => true
  end.
Definition sweep (now : Z) (records : arr) : arr := filter (fun m => expired now m.2 = false) records.

(** ** Requests *)

Record request := Request {
  q_method : text;
  q_authorization : text;
  q_body : option php;
}.

(** What a request sends back; [Fatal] is an uncaught exception. *)
Inductive served := Answer (status : Z) (data : arr) | Fatal.

Definition fail (status : Z) (message : text) : served := Answer status (fields [(u "status", PStr message)]).

Section Stats.
(** [hash_hmac('sha256', $id, $secret)], and [round($x, 2)], of which PHP has had
    several algorithms. *)
Context (hash_hmac : text -> text -> text) (round2 : num -> num).
(** [MONZERO_STATS_SECRET], [MONZERO_STATS_INGEST_TOKEN], and whether the file
    can be opened and locked. *)
Context (secret token : text) (storage : bool).

(** The part of a [POST] up to the update of its record: an error, or the
    reporter with its hash rate and its blocks. *)
Definition read_report (q : request) : (Z * text) + (text * num * Z) :=
  if (strlen token <? 24)%nat then inl (503, u "INGEST_NOT_CONFIGURED")
  else if negb (bool_decide (u "Bearer " ++ token = q_authorization q)) then inl (401, u "UNAUTHORIZED")
  else match q_body q with
  | Some (PArr input) =>
      let hashrate := validate_float (at_key (PArr input) (u "hashrate")) in
      let blocks := validate_int (at_key (PArr input) (u "blocks_found")) in
      match coalesce (at_key (PArr input) (u "installation_id")) (PStr []) with
      | PStr installationId =>
          if negb (id_pattern installationId) then inl (400, u "INVALID_INSTALLATION_ID")
          else match hashrate with
          | Some hashrate =>
              if nltb hashrate nzero || nltb (num_of_Z 1000000000000) hashrate then inl (400, u "INVALID_HASHRATE")
              else match blocks with
              | Some blocks =>
                  if (blocks <? 0) || (1000000000 <? blocks) then inl (400, u "INVALID_BLOCK_COUNT")
                  else inr (installationId, hashrate, blocks)
              | None => inl (400, u "INVALID_BLOCK_COUNT")
              end
          | None => inl (400, u "INVALID_HASHRATE")
          end
      | _ => inl (400, u "INVALID_INSTALLATION_ID")
      end
  | _ => inl (400, u "INVALID_JSON")
  end.

Definition private_id (installationId : text) : text := hash_hmac (strtolower installationId) secret.

Definition record_of (now : Z) (hashrate : num) (blocks : Z) : php :=
  PArr (fields [(u "hashrate", PFloat (round2 hashrate)); (u "blocks_found", PInt blocks); (u "updated_at", PInt now)]).

(** An active miner in the list; [substr] refuses an integer key. *)
Record row := Row { r_name : text; r_hashrate : num; r_blocks : Z }.

Definition active (now : Z) (record : php) : bool :=
  now - ACTIVE_SECONDS <=? to_int (at_key record (u "updated_at")).

Definition miner_row (m : key * php) : option row :=
  match m.1 with
  | KStr id => Some (Row (u "Miner " ++ strtoupper (take 8 id)) (to_float (at_key m.2 (u "hashrate")))
      (to_int (at_key m.2 (u "blocks_found"))))
  | KInt _ => None
  end.

(** [usort] by falling hash rate; equal ones keep their order. *)
Fixpoint insert_row (r : row) (l : list row) : list row :=
  match l with
  | [] => [r]
  | r' :: l => if nltb (r_hashrate r') (r_hashrate r) then r :: r' :: l else r' :: insert_row r l
  end.
Definition sort_rows (l : list row) : list row := foldl (fun l r => insert_row r l) [] l.

(** [array_sum] *)
Definition sum_blocks (l : list row) : php :=
  foldl (fun sum r =>
    match sum with
    | PInt a => int_add a (r_blocks r)
    | PFloat x => PFloat (nadd x (num_of_Z (r_blocks r)))
    | _ => sum
    end) (PInt 0) l.
Definition sum_hashrates (l : list row) : php :=
  match l with [] => PInt 0 | _ => PFloat (foldl (fun x r => nadd x (r_hashrate r)) nzero l) end.

Definition row_value (r : row) : php :=
  PArr (fields [(u "name", PStr (r_name r)); (u "hashrate", PFloat (r_hashrate r));
    (u "blocks_found", PInt (r_blocks r)); (u "active", PBool true)]).

Definition listing (now : Z) (rows : list row) : arr :=
  fields [(u "status", PStr (u "OK")); (u "generated_at", PInt now);
    (u "active_miners", PInt (Z.of_nat (length rows))); (u "total_hashrate", sum_hashrates rows);
    (u "total_blocks", sum_blocks rows); (u "miners", PArr (php_list (row_value <$> rows)))].

(** The records a request leaves, before the old ones are removed. *)
Definition ingest (q : request) (now : Z) (records : arr) : (Z * text) + arr :=
  if negb (bool_decide (q_method q = u "POST")) then inr records
  else match read_report q with
  | inl e => inl e
  | inr (id, hashrate, blocks) => inr (set_key (KStr (private_id id)) (record_of now hashrate blocks) records)
  end.

(** The whole script, on the contents of the file.  If the records could not be
    encoded, [fwrite] would throw after the file has been emptied. *)
Definition miner_stats (q : request) (now : Z) (file : option php) : option php * served :=
  if (strlen secret <? 32)%nat then (file, fail 503 (u "NOT_CONFIGURED"))
  else if negb storage then (file, fail 503 (u "STORAGE_UNAVAILABLE"))
  else match ingest q now (readRecords file) with
  | inl (status, message) => (file, fail status message)
  | inr records =>
      let records := sweep now records in
      match encode JSON_DEPTH (PArr records) with
      | None => (None, Fatal)
      | Some _ => (Some (reread (PArr records)),
          if bool_decide (q_method q = u "POST") then fail 200 (u "OK")
          else if negb (bool_decide (q_method q = u "GET")) then fail 405 (u "METHOD_NOT_ALLOWED")
          else match mapM miner_row (filter (fun m => active now m.2 = true) records) with
          | Some rows => Answer 200 (listing now (sort_rows rows))
          | None => Fatal
          end)
      end
  end.
End Stats.
