(* ===== verification/PhpMinersProps.v ===== *)
(** The statistics of the miners against their specification: the latest report
    of every reporter, as long as it is recent. *)

From Stdlib Require Import SpecFloat Sorted.
From S2P Require Import Prelude JsNumber JsValue JsExact Php PhpMiners.

(** ** Lists *)

Lemma set_key_permutation k v l : NoDup l.*1 ->
  set_key k v l ≡ₚ (k, v) :: filter (fun m => m.1 <> k) l.
Proof.
  induction l as [|[k' w] l IH]; intros Hnd; [done|]. cbn [fmap list_fmap fst] in Hnd.
  apply NoDup_cons in Hnd as [Hn Hnd]. cbn [set_key]. rewrite filter_cons. cbn [fst]. case_bool_decide as Hk.
  - subst k'. rewrite decide_False by (by intros ?). rewrite filter_all; [done|].
    apply Forall_forall. intros m Hm Hc. apply Hn. rewrite <- Hc. by apply list_elem_of_fmap_2.
  - rewrite decide_True by done. rewrite IH by done. apply perm_swap.
Qed.

Lemma NoDup_filter_fst {A B} (P : A * B -> Prop) `{!forall x, Decision (P x)} l : NoDup l.*1 -> NoDup (filter P l).*1.
Proof.
  induction l as [|e l IH]; intros Hnd; [done|]. cbn in Hnd. apply NoDup_cons in Hnd as [Hn Hnd].
  rewrite filter_cons. case_decide; [|by apply IH]. cbn. apply NoDup_cons. split; [|by apply IH].
  intros (e' & E & [_ Hin]%list_elem_of_filter)%list_elem_of_fmap. apply Hn. rewrite E. by apply list_elem_of_fmap_2.
Qed.

(** ** The order of the rows *)

Lemma compare_opp x y : SFcompare y x = CompOpp <$> SFcompare x y.
Proof.
  destruct x as [[]|[]| |[] m e], y as [[]|[]| |[] m' e']; try done; cbn;
    rewrite (Z.compare_antisym e e'); destruct (e ?= e'); cbn; try done;
    rewrite <- (Pos.compare_cont_antisym m m' Eq : _ = Pos.compare_cont Eq m' m); by destruct (Pos.compare_cont Eq m m').
Qed.

Lemma nltb_asym x y : nltb x y = true -> nltb y x = false.
Proof. unfold nltb, SFltb. rewrite (compare_opp x y). by destruct (SFcompare x y) as [[]|]. Qed.

Definition falling (a b : row) : Prop := nltb (r_hashrate a) (r_hashrate b) = false.

Lemma insert_row_permutation r l : insert_row r l ≡ₚ r :: l.
Proof. induction l as [|r' l IH]; [done|]. cbn. case_match; [done|]. rewrite IH. apply perm_swap. Qed.

Lemma insert_row_sorted r l : Sorted falling l -> Sorted falling (insert_row r l).
Proof.
  induction 1 as [|r' l Hs IH Hh]; [by repeat constructor|]. cbn. destruct (nltb _ _) eqn:E.
  - constructor; [by constructor|]. constructor. by apply nltb_asym.
  - constructor; [done|]. destruct l as [|r'' l]; cbn in *; [by constructor|].
    case_match; constructor; [done|]. by inversion Hh.
Qed.

Lemma sort_rows_spec l : sort_rows l ≡ₚ l /\ Sorted falling (sort_rows l).
Proof.
  unfold sort_rows. rewrite <- (app_nil_r l) at 2. generalize (@nil row), (Sorted_nil falling).
  induction l as [|r l IH]; intros acc Hs; [done|]. cbn [foldl].
  destruct (IH _ (insert_row_sorted r acc Hs)) as [Hp Hs']. split; [|done].
  rewrite Hp, insert_row_permutation. cbn. by rewrite Permutation_middle.
Qed.

(** ** Rates *)

(** The rates a report may have, and binary64 numbers of the same size. *)
Definition accepted_rate (x : num) : Prop :=
  is_finite x = true /\ nltb x nzero = false /\ nltb (num_of_Z 1000000000000) x = false.
Definition rate_ok (x : num) : Prop :=
  valid_binary 53 1024 x = true /\ is_finite x = true /\ (abs_ratio x).1 <= 1000000000000 * Zpos (abs_ratio x).2.

Lemma rate_whole x z : rate_ok x -> num_to_Z x = Some z -> Z.abs z < 2 ^ 53.
Proof.
  intros (_ & _ & Hb) Hz. destruct x as [[]| | |neg m e]; try done; [injection Hz as <-; lia..|].
  unfold num_to_Z in Hz. destruct (abs_ratio (S754_finite neg m e)) as [n d] eqn:Ea. cbn [fst snd] in Hb.
  case_if_in Hz; [|done].
  assert (0 <= n) as Hn by (destruct e; cbn in Ea; injection Ea as <- _; lia).
  pose proof (Z.div_pos n (Zpos d) Hn ltac:(lia)). assert (n / Zpos d <= 1000000000000).
  { apply Z.div_le_upper_bound; lia. }
  destruct neg; injection Hz as <-; lia.
Qed.

(** A rate that was written to the file and read back is the same number, as an
    integer if it is whole. *)
Lemma reread_rate x : rate_ok x ->
  reread_float x = PFloat x \/ exists z, reread_float x = PInt z /\ num_of_Z z = x.
Proof.
  intros Hx. unfold reread_float. destruct x as [[]|s| |s m e]; [by left|right; by exists 0|by left|by left|].
  destruct (num_to_Z (S754_finite s m e)) as [z|] eqn:Ez; [|by left].
  right. exists z. pose proof (rate_whole _ _ Hx Ez) as Hz. split; [|by apply whole_exact; [apply Hx|..]].
  by rewrite (proj2 (Z.ltb_lt _ _)).
Qed.

Lemma reread_float_again x : reread (reread_float x) = reread_float x.
Proof.
  assert (reread_float x = PFloat x \/ exists z, reread_float x = PInt z) as [E|[z E]]; [|rewrite E; exact E|by rewrite E].
  unfold reread_float. destruct x as [[]|s| |s m e]; [by left|right; by exists 0|by left|by left|].
  destruct (num_to_Z _) as [z|]; [|by left]. case_if; [right; by eexists|].
  destruct (abs_ratio _) as [p q]. destruct (shortest _ _ _ _ _ _) as [[sd k] n]. case_if; [right; by eexists|by left].
Qed.

(** ** The specification

    A log of reports, the newest first; the key is the id in lower case. *)
Record report := Report { rep_hashrate : num; rep_blocks : Z; rep_time : Z }.

Fixpoint latest (log : list (text * report)) : list (text * report) :=
  match log with
  | [] => []
  | e :: log => e :: filter (fun e' => e'.1 <> e.1) (latest log)
  end.

Lemma latest_NoDup log : NoDup (latest log).*1.
Proof.
  induction log as [|e log IH]; cbn; [constructor|]. apply NoDup_cons. split; [|by apply NoDup_filter_fst].
  intros (e' & He & [Hne _]%list_elem_of_filter)%list_elem_of_fmap. congruence.
Qed.

Lemma latest_subseteq log e : e ∈ latest log -> e ∈ log.
Proof.
  induction log as [|e' log IH]; [done|]. cbn. rewrite !elem_of_cons. intros [->|[_ He]%list_elem_of_filter]; auto.
Qed.

Section Spec.
Context (hash_hmac : text -> text -> text) (round2 : num -> num) (secret token : text).

(** The rows the page should get: all reporters that are active. *)
Definition spec_row (e : text * report) : row :=
  Row (u "Miner " ++ strtoupper (take 8 (hash_hmac e.1 secret))) (round2 (rep_hashrate e.2)) (rep_blocks e.2).
Definition spec_rows (now : Z) (log : list (text * report)) : list row :=
  spec_row <$> filter (fun e => now - ACTIVE_SECONDS <= rep_time e.2) (latest log).

(** What a request adds to the log. *)
Definition logged (q : request) (now : Z) : list (text * report) :=
  if bool_decide (q_method q = u "POST") then
    match read_report token q with inr (id, hashrate, blocks) => [(strtolower id, Report hashrate blocks now)] | _ => [] end
  else [].

(** The file and the log after requests at times that do not fall. *)
Inductive history : option php -> list (text * report) -> Z -> Prop :=
| history_start t : history None [] t
| history_request file log t q now : history file log t -> t <= now ->
    history (miner_stats hash_hmac round2 secret token true q now file).1 (logged q now ++ log) now.

(** No two reporters of the log have the same keyed hash. *)
Definition collision_free (log : list (text * report)) : Prop :=
  forall a b, a ∈ log.*1 -> b ∈ log.*1 -> hash_hmac a secret = hash_hmac b secret -> a = b.

Lemma collision_free_app log log' : collision_free (log' ++ log) -> collision_free log.
Proof. intros Hc a b Ha Hb. apply Hc; rewrite fmap_app; apply elem_of_app; by right. Qed.

Context (Hround : forall x, accepted_rate x -> rate_ok (round2 x)) (Hsecret : (32 <= strlen secret)%nat).

(** The record of a report, as it was made or as it was read back from the file. *)
Definition kept (e : (text * report) * bool) : key * php :=
  let record := record_of round2 (rep_time e.1.2) (rep_hashrate e.1.2) (rep_blocks e.1.2) in
  (KStr (hash_hmac e.1.1 secret), if e.2 then reread record else record).

(** The records at time [t] are the latest reports of the last week. *)
Definition recorded (records : arr) (log : list (text * report)) (t : Z) : Prop :=
  exists l, records = kept <$> l /\ l.*1 ≡ₚ filter (fun e => t - MAX_RECORD_AGE <= rep_time e.2) (latest log).

Lemma recorded_known (l : list ((text * report) * bool)) log t e : l.*1 ≡ₚ filter (fun e => t - MAX_RECORD_AGE <= rep_time e.2) (latest log) ->
  e ∈ l -> e.1 ∈ log.
Proof.
  intros Hl He. apply (list_elem_of_fmap_2 fst) in He. rewrite Hl in He. apply list_elem_of_filter in He as [_ ?].
  by apply latest_subseteq.
Qed.

Lemma recorded_NoDup records log t : collision_free log -> recorded records log t -> NoDup records.*1.
Proof.
  intros Hc (l & -> & Hl).
  replace ((kept <$> l).*1) with ((fun id => KStr (hash_hmac id secret)) <$> l.*1.*1) by (by rewrite <- !list_fmap_compose).
  rewrite Hl. apply NoDup_fmap_2_strong; [|apply NoDup_filter_fst, latest_NoDup].
  intros a b (ea & -> & [_ Ha%latest_subseteq]%list_elem_of_filter)%list_elem_of_fmap
    (eb & -> & [_ Hb%latest_subseteq]%list_elem_of_filter)%list_elem_of_fmap [= E].
  apply Hc; [by apply list_elem_of_fmap_2..|done].
Qed.

Lemma filter_fst {A B} (P : A -> Prop) `{!forall x, Decision (P x), !forall m : A * B, Decision (P m.1)} (l : list (A * B)) :
  (filter (fun m => P m.1) l).*1 = filter P l.*1.
Proof.
  induction l as [|m l IH]; [done|]. rewrite fmap_cons, !filter_cons. repeat case_decide; try done.
  by rewrite fmap_cons, IH.
Qed.

Lemma recorded_report records log t e : collision_free (e :: log) -> recorded records log t ->
  t - MAX_RECORD_AGE <= rep_time e.2 ->
  recorded (set_key (kept (e, false)).1 (kept (e, false)).2 records) (e :: log) t.
Proof.
  intros Hc Hr Ht. pose proof (recorded_NoDup _ _ _ (collision_free_app log [e] Hc) Hr) as Hnd.
  destruct Hr as (l & -> & Hl).
  pose proof (set_key_permutation (kept (e, false)).1 (kept (e, false)).2 _ Hnd) as Hp.
  rewrite (filter_fmap kept _ (fun e' => e'.1.1 <> e.1)) in Hp.
  2: { intros e' He'. cbn. split; [congruence|]. intros Hne [= E]. apply Hne, Hc; [right|left|done].
    apply list_elem_of_fmap_2. by eapply recorded_known. }
  change (((kept (e, false)).1, (kept (e, false)).2) :: (kept <$> filter (fun e' => e'.1.1 <> e.1) l))
    with (kept <$> ((e, false) :: filter (fun e' => e'.1.1 <> e.1) l)) in Hp.
  apply Permutation_map_inv in Hp as (l' & -> & Hl'). exists l'. split; [done|].
  rewrite <- Hl', fmap_cons. cbn [latest fst]. rewrite filter_cons_True by done. constructor.
  rewrite (filter_fst (fun e' : text * report => e'.1 <> e.1)), Hl, !list_filter_filter.
  erewrite list_filter_iff; [done|]. intros e'. cbn. tauto.
Qed.

Lemma kept_updated e : at_key (kept e).2 (u "updated_at") = PInt (rep_time e.1.2).
Proof. by destruct e as [e []]. Qed.

Lemma kept_array e : exists l, (kept e).2 = PArr l.
Proof. destruct e as [e []]; by eexists. Qed.

Lemma recorded_sweep records log t now : recorded records log t -> t <= now -> recorded (sweep now records) log now.
Proof.
  intros (l & -> & Hl) Ht. unfold sweep.
  rewrite (filter_fmap kept _ (fun e => now - MAX_RECORD_AGE <= rep_time e.1.2)).
  2: { intros e _. unfold expired. pose proof (kept_updated e) as Hu. destruct (kept_array e) as [v Ev]. rewrite Ev in Hu |- *.
    rewrite Hu. apply Z.ltb_ge. }
  eexists. split; [done|]. rewrite (filter_fst (fun e : text * report => now - MAX_RECORD_AGE <= rep_time e.2)), Hl.
  rewrite list_filter_filter_l; [done|]. intros e He. lia.
Qed.

(** What is read back from the file are the same records. *)
Lemma kept_again e : reread (kept e).2 = (kept (e.1, true)).2.
Proof.
  destruct e as [e []]; [|done]. cbn [kept snd fst]. unfold record_of, fields. cbn [reread fmap list_fmap fst snd].
  by rewrite reread_float_again.
Qed.

Lemma recorded_reread records log t : recorded records log t ->
  recorded (readRecords (Some (reread (PArr records)))) log t.
Proof.
  intros (l & -> & Hl). exists ((fun e => (e.1, true)) <$> l). split; [|rewrite <- list_fmap_compose; exact Hl].
  cbn [reread readRecords]. rewrite <- !list_fmap_compose. apply list_fmap_ext. intros i e _. cbn [compose].
  rewrite kept_again. by destruct e as [e b].
Qed.

(** ** Encoding *)

Lemma encode_all depth l : (forall m, m ∈ l -> is_Some (encode depth m.2)) -> is_Some (encode (S depth) (PArr l)).
Proof.
  intros H. destruct l as [|m l]; [by eexists|]. cbn [encode].
  destruct (mapM_is_Some_2 (fun m => x ← encode depth m.2; Some (key_text m.1, x)) (m :: l)) as [ms ->]; [|by eexists].
  apply Forall_forall. intros m' Hm'. destruct (H m' Hm') as [x E]. exists (key_text m'.1, x). cbn. by rewrite E.
Qed.

Lemma encode_rate depth x : rate_ok x -> is_Some (encode depth (PFloat x)) /\ is_Some (encode depth (reread_float x)).
Proof.
  intros Hx. assert (is_Some (encode depth (PFloat x))) as Hf by (cbn; destruct Hx as (_ & -> & _); by eexists).
  split; [done|]. destruct (reread_rate x Hx) as [->|(z & -> & _)]; [done|by eexists].
Qed.

Lemma encode_kept l : Forall (fun e => accepted_rate (rep_hashrate e.1.2)) l ->
  is_Some (encode JSON_DEPTH (PArr (kept <$> l))).
Proof.
  intros Hl. apply encode_all. intros m (e & -> & He)%list_elem_of_fmap. rewrite Forall_forall in Hl.
  specialize (Hl e He). apply Hround in Hl. destruct e as [e []]; cbn [kept snd fst];
    unfold record_of, fields; cbn [reread fmap list_fmap fst snd]; apply encode_all; intros m;
    rewrite !elem_of_cons, elem_of_nil; intros [->|[->|[->|[]]]]; cbn [snd]; try (by eexists); by apply encode_rate.
Qed.

Lemma validate_finite v x : validate_float v = Some x -> is_finite x = true.
Proof.
  unfold validate_float. destruct (filter_text v) as [[|c s]|]; [done| |done]. destruct (php_ws c); [done|].
  destruct (scan_number (c :: s)) as [[[y b] []]|]; try done. destruct (_ || _) eqn:E; [done|]. intros [= <-].
  by apply orb_false_iff in E as [_ E%negb_false_iff].
Qed.

Lemma report_accepted q id hashrate blocks : read_report token q = inr (id, hashrate, blocks) -> accepted_rate hashrate.
Proof.
  unfold read_report. do 2 (case_match; [done|]). destruct (q_body q) as [[| | | | |input]|]; try done. cbv zeta.
  destruct (validate_float _) as [x|] eqn:E; [|by repeat case_match].
  apply validate_finite in E. destruct (coalesce _ _); try done. case_match; [done|].
  destruct (_ || _) eqn:Er; [done|]. apply orb_false_iff in Er as [E1 E2]. repeat (case_match; try done).
  intros [= _ <- _]. done.
Qed.

Lemma recorded_encodes records log t : recorded records log t ->
  Forall (fun e => accepted_rate (rep_hashrate e.2)) log -> is_Some (encode JSON_DEPTH (PArr records)).
Proof.
  intros (l & -> & Hl) Hf. apply encode_kept, Forall_forall. intros e He. rewrite Forall_forall in Hf.
  apply Hf. by eapply recorded_known.
Qed.

Lemma ingest_recorded records log swept q now : collision_free (logged q now ++ log) ->
  recorded records log swept -> swept <= now ->
  Forall (fun e => accepted_rate (rep_hashrate e.2)) log ->
  Forall (fun e => accepted_rate (rep_hashrate e.2)) (logged q now ++ log) /\
  match ingest hash_hmac round2 secret token q now records with
  | inl _ => logged q now = []
  | inr records => recorded (sweep now records) (logged q now ++ log) now /\
      is_Some (encode JSON_DEPTH (PArr (sweep now records)))
  end.
Proof.
  intros Hc Hr Hle Hf. unfold ingest, logged in *. destruct (bool_decide (q_method q = u "POST")); cbn [negb]; cycle 1.
  { split; [done|]. pose proof (recorded_sweep _ _ _ now Hr Hle) as Hs. split; [done|]. by eapply recorded_encodes. }
  destruct (read_report token q) as [e|[[id hashrate] blocks]] eqn:Er; [done|].
  pose proof (recorded_report _ _ _ (strtolower id, Report hashrate blocks now) Hc Hr) as Hr'. cbn [snd rep_time] in Hr'.
  assert (Forall (fun e => accepted_rate (rep_hashrate e.2)) ((strtolower id, Report hashrate blocks now) :: log)) as Hf'.
  { constructor; [by eapply report_accepted|done]. }
  split; [done|]. unshelve epose proof (recorded_sweep _ _ _ now (Hr' _) Hle) as Hs; [unfold MAX_RECORD_AGE; lia|].
  split; [exact Hs|]. by eapply recorded_encodes.
Qed.

Lemma history_recorded file log t : history file log t -> collision_free log ->
  (exists swept, swept <= t /\ recorded (readRecords file) log swept) /\
  Forall (fun e => accepted_rate (rep_hashrate e.2)) log.
Proof.
  induction 1 as [t|file log t q now _ IH Ht]; intros Hc.
  { split; [|constructor]. exists t. split; [lia|]. by exists []. }
  destruct (IH (collision_free_app _ _ Hc)) as [(swept & Hle & Hrec) Hf].
  destruct (ingest_recorded _ _ _ q now Hc Hrec ltac:(lia) Hf) as [Hf' Hi]. split; [|done].
  unfold miner_stats. rewrite (proj2 (Nat.ltb_ge _ _)) by lia. cbn [negb].
  destruct (ingest _ _ _ _ _ _ _) as [[status message]|records].
  - rewrite Hi. exists swept. split; [lia|done].
  - destruct Hi as [Hr [v ->]]. exists now. split; [lia|by apply recorded_reread].
Qed.

(** ** Listing *)

Lemma row_kept e : accepted_rate (rep_hashrate e.1.2) -> miner_row (kept e) = Some (spec_row e.1).
Proof.
  intros He%Hround. destruct e as [e []]; [|done]. cbn [fst] in He. unfold miner_row, spec_row. cbn [kept fst snd]. f_equal.
  change (at_key (reread _) (u "hashrate")) with (reread_float (round2 (rep_hashrate e.2))).
  change (at_key (reread _) (u "blocks_found")) with (PInt (rep_blocks e.2)). cbn [to_int]. f_equal.
  by destruct (reread_rate _ He) as [->|(z & -> & ?)].
Qed.

Lemma rows_kept l : Forall (fun e => accepted_rate (rep_hashrate e.1.2)) l ->
  mapM miner_row (kept <$> l) = Some (spec_row <$> l.*1).
Proof.
  induction 1 as [|e l He _ IH]; [done|]. cbn [fmap list_fmap mapM]. rewrite row_kept by done.
  cbn [mbind option_bind]. change (list_fmap _ _ kept l) with (kept <$> l). by rewrite IH.
Qed.

Lemma active_rows records log now : recorded records log now -> Forall (fun e => accepted_rate (rep_hashrate e.2)) log ->
  exists rows, mapM miner_row (filter (fun m => active now m.2 = true) records) = Some rows /\ rows ≡ₚ spec_rows now log.
Proof.
  intros (l & -> & Hl) Hf. rewrite (filter_fmap kept _ (fun e => now - ACTIVE_SECONDS <= rep_time e.1.2)).
  2: { intros e _. unfold active. rewrite kept_updated. apply Z.leb_le. }
  rewrite rows_kept; cycle 1.
  { apply Forall_forall. intros e [_ He]%list_elem_of_filter. rewrite Forall_forall in Hf. apply Hf. by eapply recorded_known. }
  eexists. split; [done|]. unfold spec_rows. rewrite (filter_fst (fun e : text * report => now - ACTIVE_SECONDS <= rep_time e.2)), Hl.
  rewrite list_filter_filter_l; [done|]. intros e. unfold ACTIVE_SECONDS, MAX_RECORD_AGE. lia.
Qed.
End Spec.

(** C23: the list of miners.  With a secret of 32 bytes, a file that can be opened
    and locked, and a clock that does not go back, after any requests from an
    empty file on, a page that asks for the list gets exactly the reporters whose
    latest valid report is at most three minutes old, each once, with the hash
    rate, rounded, and the blocks of that report, under the first eight digits of
    a keyed hash, in the order of falling hash rates, although whole rates become
    integers in the file; and no request ends in an uncaught exception.  The keyed
    hash must not collide on the ids of the reporters, and the rounding of a rate
    from 0 to 10^12 has to be a binary64 number of at most that size. *)
Theorem miners_listed hash_hmac round2 secret token file log t now q :
  (forall x, accepted_rate x -> rate_ok (round2 x)) -> (32 <= strlen secret)%nat ->
  history hash_hmac round2 secret token file log t -> t <= now ->
  collision_free hash_hmac secret (logged token q now ++ log) ->
  (miner_stats hash_hmac round2 secret token true q now file).2 <> Fatal /\
  (q_method q = u "GET" -> exists rows,
    (miner_stats hash_hmac round2 secret token true q now file).2 = Answer 200 (listing now rows) /\
    rows ≡ₚ spec_rows hash_hmac round2 secret now log /\ Sorted falling rows).
Proof.
  intros Hround Hsecret Hh Ht Hc.
  pose proof (history_recorded _ _ _ _ Hround Hsecret _ _ _ Hh (collision_free_app _ _ _ _ Hc)) as [(swept & Hle & Hr) Hf].
  destruct (ingest_recorded hash_hmac round2 secret token Hround Hsecret (readRecords file) log swept q now Hc Hr ltac:(lia) Hf)
    as [Hf' Hi].
  unfold miner_stats. rewrite (proj2 (Nat.ltb_ge _ _)) by lia. cbn [negb].
  unfold logged, ingest in *. destruct (decide (q_method q = u "POST")) as [Ep|Hp].
  - rewrite (bool_decide_eq_true_2 (q_method q = u "POST")) in * by done. cbn [negb] in *.
    split; [|intros Eg; by rewrite Ep in Eg]. destruct (read_report token q) as [[]|[[id hashrate] blocks]]; [done|].
    by destruct Hi as [_ [v ->]].
  - rewrite (bool_decide_eq_false_2 (q_method q = u "POST")) in * by done. cbn [negb app] in *.
    destruct Hi as [Hr' [v ->]]. cbn [snd].
    destruct (active_rows hash_hmac round2 secret Hround Hsecret _ _ _ Hr' Hf) as (rows & Erows & Hrows).
    rewrite Erows. split; [by case_match|]. intros Eg. rewrite bool_decide_eq_true_2 by done.
    exists (sort_rows rows). destruct (sort_rows_spec rows) as [Hs1 Hs2]. split; [done|]. split; [by rewrite Hs1|done].
Qed.

(** Two reports of one miner and one of another, and a list a minute later. *)
Definition sample_token : text := replicate 24 65.
Definition sample_secret : text := replicate 32 66.
Definition heartbeat (id : text) (hashrate blocks : Z) : request :=
  Request (u "POST") (u "Bearer " ++ sample_token) (Some (PArr (fields [(u "installation_id", PStr id);
    (u "hashrate", PInt hashrate); (u "blocks_found", PInt blocks)]))).
(** Rounding for a sample: rates of the right size stay. *)
Definition rate_okb (x : num) : bool :=
  valid_binary 53 1024 x && is_finite x && ((abs_ratio x).1 <=? 1000000000000 * Zpos (abs_ratio x).2).
Definition keep_rate (x : num) : num := if rate_okb x then x else nzero.

Lemma keep_rate_ok x : rate_ok (keep_rate x).
Proof.
  unfold keep_rate. destruct (rate_okb x) eqn:E; [|done]. unfold rate_okb in E.
  apply andb_true_iff in E as [[? ?]%andb_true_iff ?%Z.leb_le]. done.
Qed.

Definition sample_stats : request -> Z -> option php -> option php * served :=
  miner_stats (fun id _ => id) keep_rate sample_secret sample_token true.

Lemma miners_listed_witness :
  let first := replicate 32 97 in
  let second := replicate 32 98 in
  let file1 := (sample_stats (heartbeat first 500 1) 1000 None).1 in
  let file2 := (sample_stats (heartbeat second 2000 7) 1030 file1).1 in
  let file3 := (sample_stats (heartbeat first 900 2) 1060 file2).1 in
  find_key (KStr first) (readRecords file1) = Some (PArr (fields [(u "hashrate", PInt 500); (u "blocks_found", PInt 1);
    (u "updated_at", PInt 1000)])) /\
  (sample_stats (Request (u "GET") [] None) 1120 file3).2 = Answer 200 (listing 1120
    [Row (u "Miner BBBBBBBB") (num_of_Z 2000) 7; Row (u "Miner AAAAAAAA") (num_of_Z 900) 2]) /\
  exists rows, (sample_stats (Request (u "GET") [] None) 1120 file3).2 = Answer 200 (listing 1120 rows) /\
    Sorted falling rows.
Proof.
  intros first second file1 file2 file3. split; [vm_compute; reflexivity|]. split; [vm_compute; reflexivity|].
  destruct (miners_listed (fun id _ => id) keep_rate sample_secret sample_token file3
    (logged sample_token (heartbeat first 900 2) 1060 ++ logged sample_token (heartbeat second 2000 7) 1030 ++
     logged sample_token (heartbeat first 500 1) 1000 ++ []) 1060 1120 (Request (u "GET") [] None)) as [_ H].
  - intros x _. apply keep_rate_ok.
  - vm_compute. lia.
  - apply history_request with (t := 1030); [|lia]. apply history_request with (t := 1000); [|lia].
    apply history_request with (t := 1000); [constructor|lia].
  - lia.
  - by intros a b _ _.
  - destruct (H eq_refl) as (rows & E & _ & Hs). exists rows. split; [exact E|exact Hs].
Defined.
